(* ===== verification/_CoqProject ===== *)
-Q . S2P
Prelude.v
Bytes.v
Net.v
Ip.v
Clock.v
Crypto.v
Frame.v
Addr.v
Config.v
Limit.v
State.v
ServerAuth.v
Handshake.v
Web.v
Egress.v
Mux.v
Hub.v
Pumps.v
ServerWt.v
Outbound.v
Socks5.v
HttpProxy.v
ClientWt.v
ClientFallback.v
ClientTasks.v
Tunnel.v
Shared.v
Datagrams.v
FallbackLink.v
Journey.v
MuxJourney.v
Health.v
Routes.v
Ech.v
ClientBuild.v
ServerRun.v
System.v
Float.v
RateLimit.v
Lifecycle.v
Entry.v
