(* ===== verification/Prelude.v ===== *)
(** * newppp: a verification development

    newppp is a proxy: a client with SOCKS5 and HTTP inbounds tunnels TCP
    sessions and UDP associations to a server, over WebTransport (QUIC) or, as a
    fallback, over one HTTPS POST or WebSocket channel that multiplexes all
    sessions. This library models both programs, from the entry point to the
    sockets, and proves what makes them correct. It follows the Rust code file by
    file; paths below are under [src/src/].

    ** How the program is modelled

    A byte is a [Z], a byte string a list of them, and a Rust string its UTF-8
    bytes. Machine integers are [Z] with their wrap-around written out ([wrap],
    saturation with [sat_sub] and [sat_add64]). [Result] is [result] with the
    [let?] notation for [?]; an error message stands for an [anyhow] error, which
    no caller inspects but through [AnyError]. Asynchronous code is explicit
    state: a handler is a function from the state and the outcomes of its awaits
    (a timeout is one of the outcomes); a task with a loop is a function of the
    events its [select!] sees; where tasks share state their atomic steps are an
    inductive relation ([gate_step], [acquire_step], [hub_step], [mux_step],
    [conn_step], [sess_step], [relay_step], [sys_step]) closed under [star], and an
    invariant is proved for every interleaving. Objects shared through an [Arc] live in a
    heap addressed by number ([ss_heap], [wp_heap], the channels of [MuxInner]),
    so aliasing is visible. A channel is a queue; back pressure only delays a
    send, except in [try_send], which is modelled with its capacity.

    What is not under [src/] is a parameter: the cryptographic primitives (class
    [Prims], laws [PrimsLaws]), name resolution, sockets, the QUIC endpoint, the
    HTTP and WebSocket clients and servers, TLS chain validation, [clap], the URL
    and base64 crates, axum (class [Axum], laws [AxumLaws]), the HPKE crate (class
    [HpkeCrate], laws [HpkeLaws]), the operating system (class [HostOps]) and the
    clocks. Each law used is documented
    behaviour of that code and is met by a concrete instance in the witnesses
    (Module [CryptoWitness] for the primitives).

    ** The files

    - [Prelude], [Bytes], [Net], [Ip]: notation, tactics, lists, maps, step
      relations; the standard library's bytes, numbers, UTF-8 and address texts.
    - [Crypto] ([proto/crypto.rs]), [Frame] ([proto/frame.rs]), [Addr]
      ([proto/addr.rs]): keys, nonces, counters, the replay window, bearer tokens,
      the AUTH payload; the frame codec with its buffered decoder, reader and
      writer; UDP addresses.
    - [Config] ([config.rs]), [Clock] ([clock.rs]), [Entry] ([main.rs]): the
      configuration file, validation, the calibrated clock, the argument vector
      and the dispatch.
    - [Limit], [Float] and [RateLimit] ([server/limit.rs]), [State] ([server/state.rs]),
      [ServerAuth] ([server/mod.rs]): the gate of unauthenticated connections, the
      token bucket in binary64 arithmetic ([Float] is the arithmetic, with bounds on
      its roundings), connections, sessions, quota, nonce
      cache, reaper; the bearer and AUTH checks.
    - [Egress], [Hub], [Pumps] ([server/hub.rs]): the policy on targets and the
      dial; admission and the hooks behind a channel; the byte pumps and the
      lifecycle of a WebTransport stream.
    - [Mux] ([proto/mux.rs]): the multiplexer of the fallback, both roles; the
      class [ServerHooks] is its interface to the server, [Hub.Hooks] the
      implementation, [HooksKeep] what it promises.
    - [Web] ([server/fallback.rs], [proto/stream.rs]) and [Routes] (its routers,
      [health.rs]'s and the page of [server/disguise.rs]), [ServerWt] and
      [ServerRun] ([server/wt.rs], [server/mod.rs]): the HTTPS front, the tasks of
      a WebTransport connection, the accept loop, the shutdown.
    - [System]: the tasks of a running server as one step relation on their shared
      state ([sys_step]), from the gate to the reaper and the shutdown, and the
      handlers of the files above as runs of it ([serve_step]).
    - [Handshake], [ClientWt] ([client/wt.rs]), [ClientFallback]
      ([client/fallback.rs]), [Outbound] ([client/outbound.rs]), [ClientBuild]
      ([client/tls.rs] and the constructors): the client's handshake, pool,
      fallback channel, choice between them, and their TLS identity; [Ech] ([client/ech.rs]): the HPKE backend. [Outbound] is
      written against the class [Transport], which the pool and the fallback
      implement.
    - [Socks5] ([client/socks5.rs]), [HttpProxy] ([client/http_proxy.rs]),
      [Health] ([health.rs]): the inbounds and the health endpoint.
    - [Lifecycle] ([server/mod.rs], [client/mod.rs], [quic_tune.rs]): the run of
      each program from its configuration to its exit: the steps of the start-up,
      what they leave running, what wakes the program, the shutdown.
    - [ClientTasks] ([proto/mux.rs], [client/wt.rs]): the client's channel and its
      WebTransport connection with their tasks, from start to end, as runs of
      operations and as a step relation.
    - [Shared] ([proto/frame.rs], [proto/crypto.rs]): the counters and limits that
      the codecs of a connection share, as handles in a heap. The other files
      follow one codec with the values its handles have; here that is justified.
    - [Tunnel], [Datagrams], [FallbackLink], [Journey], [MuxJourney]: both ends
      together, for TCP bytes, UDP datagrams, the fallback's connect, and a session
      from the inbound's first byte to the target and back, on either transport.

    Each file ends with Modules of witnesses, where its theorems are applied to
    concrete inputs.

    ** What is proved

    - The tunnel carries bytes exactly: [stream_reassembly] for frames over any
      chunking; [wt_download_exact], [wt_upload_exact], [mux_download_exact],
      [mux_upload_exact] for a session's bytes from the target to the user and
      back, on both transports, with shared counters, interleaved sessions and
      workers in any order; [shared_streams_exact] for streams that
      write through shared handles, [mux_sessions_isolated] for the routing.
    - A request gets what it asks for: [socks5_connect_end_to_end] and
      [http_connect_end_to_end] compose the inbound, the pool, the two codecs, the
      hub and the pumps: the inbound's answer is the hub's, and what follows is
      carried exactly; [socks5_connect_over_fallback] and
      [http_request_over_fallback] do so for the shared channel, with its other
      sessions in between.
    - Datagrams are neither mixed up nor multiplied: [udp_replies_at_most_once]
      and [udp_uploads_at_most_once] over a network that loses, repeats and
      reorders; [udp_replies_all_arrive], [mux_udp_replies_exact] and
      [mux_udp_uploads_exact] when it does not; [replay_window_refines] and
      [session_nonces_unique] underneath.
    - The two ends meet: [wt_connect_agrees] and [fallback_connect_agrees] (from
      the first byte to paired codecs, over any cutting of the streams),
      [configured_ends_meet] from the two configurations, [fallback_ws_agrees] for
      WebSocket, [fallback_disguise_detected] for a client turned away.
    - Only the right peers get in: [auth_no_replay], [auth_frame_sound],
      [fallback_stealth], [https_front_exact], [plain_port_redirects],
      [health_port_exact], [wt_front_exact], [server_identity_agrees],
      [verifiers_keep_signatures], [hpke_session_exact],
      [masquerade_sound], [dial_only_public], [v4_policy_exact], [http_auth_gate],
      [socks5_handshake_exact], [udp_relay_isolated].
    - The server as a whole: [server_exact] for every interleaving of its tasks,
      [handlers_refine] for its handlers as runs of those steps,
      [server_exit_clean] for a run from start-up to exit, [server_drains].
    - Resources are exact under every interleaving: [quota_exact],
      [quota_drains], [mux_keeps_quota], [wt_tasks_keep_quota], [wt_stream_exact],
      [quota_loop_atomic], [gate_caps_hold], [wt_sessions_exact],
      [reap_idle_exact]; memory a peer can claim is bounded
      ([decoder_buffer_bounded], [nonce_cache_bounded], [udp_dns_bounded], [date_head_bounded],
      [mux_workers_bounded]), and so is what a user can send or receive in a time
      ([egress_rate_bounded], with the roundings of the [f64] bucket counted).
    - The client recovers as intended: [outbound_policy], [breaker_spec],
      [fallback_retry_once], [pool_open_spec], [heartbeat_exact],
      [maintenance_spares_sessions], [client_conn_lifecycle].
    - The edges: [effective_argv_exact], [config_file_last_wins],
      [cli_overrides_file], [http_date_exact], [health_probe_roundtrip],
      [plain_front_safe], [http_chunking_irrelevant], [parse_show_socket_v4].
    - The programs start and stop: [server_run_exact] (with [shutdown_complete]
      and [drain_loop_ends]), [client_run_exact]; a full bucket grants any
      request, [full_bucket_grants].

    Where modelling showed that the code does not do what it means to, the fact is
    a theorem: [auth_frame_nonce_reuse], [quota_leak_on_abort],
    [per_conn_cap_race], [heartbeat_first_window], [http_credentials_forwarding],
    [v6_policy_gap], [socks5_udp_rejects_rfc1928_ipv6], [udp_idle_half_closed],
    [config_mode_accumulates], [fallback_loses_refusal], [health_url_ipv6],
    [method_probe_finds_path],
    [sigterm_default], [drain_admits].

    ** Bounds and fuel

    Recursion that is not structural has fuel that is proved enough: [alloc_loop]
    tries one more sid than are taken ([alloc_sid_total]), [drain] makes at most
    one step per buffered byte ([drain_total], [on_datagrams_total]),
    [trim_idle] one per connection, [drain_loop] one per 50 ms of the grace period
    ([drain_loop_ends]), [dec_digits] twenty for a [u64], [cancelled_up] the
    number of tokens made. Counters are exact up to the 2^62 frames of a counter
    space, and connection numbers up to the 2^64 of theirs, which the theorems that
    depend on it state.

    ** What is not modelled

    - [clap] itself (its parse of the argument vector is a parameter), logging, the runtime and the operating system behind
      [HostOps].
    - Glue without logic of its own: module lists, derives, the delegating write
      half of [Pipe], the permission warning of [config.rs], the root store of
      [clock.rs].
    - [rustls]' signature checks, which [PinVerifier] and [NoVerify] hand over to.
    - Unforgeability of the AEAD: a theorem about an adversarial network lets it
      lose, repeat, reorder and cut, and states what a decoder accepts
      ([decoder_delivers_authentic]) where it may also invent bytes. *)

From stdpp Require Export base tactics option list list_numbers numbers gmap strings.
From Stdlib Require Export ZArith Lia.

#[global] Open Scope Z_scope.

(** ** Scopes and notations *)

Declare Scope newppp_scope.
Delimit Scope newppp_scope with newppp.
#[global] Open Scope newppp_scope.

(** A byte string; a Rust [String] is the byte string of its UTF-8 form. *)
Abbreviation bytes := (list Z).

(** [Vec::len] / [str::len] as an integer. *)
Definition len {A} (l : list A) : Z := Z.of_nat (length l).

(** [Result<A, E>]. *)
Inductive result (E A : Type) : Type :=
| Ok (a : A)
| Err (e : E).
Arguments Ok {E A} a.
Arguments Err {E A} e.

(** The [?] operator. *)
Definition rbind {E A B} (r : result E A) (k : A -> result E B) : result E B :=
  match r with Ok a => k a | Err e => Err e end.

Notation "'let?' x ':=' c 'in' k" := (rbind c (fun x => k))
  (at level 10, x pattern, c at level 100, k at level 200) : newppp_scope.

(** [Option::ok_or]. *)
Definition ok_or {E A} (o : option A) (e : E) : result E A :=
  match o with Some a => Ok a | None => Err e end.

(** [ensure!(c, e)]. *)
Definition ensure {E} (c : bool) (e : E) : result E unit := if c then Ok tt else Err e.

Definition is_ok {E A} (r : result E A) : bool := match r with Ok _ => true | Err _ => false end.

(** [anyhow::Error] carrying only a message (its static text). *)
Abbreviation msg := string.

(** ** Machine integers *)

Definition u8_max : Z := 2 ^ 8 - 1.
Definition u16_max : Z := 2 ^ 16 - 1.
Definition u32_max : Z := 2 ^ 32 - 1.
Definition u64_max : Z := 2 ^ 64 - 1.

(** [x as uW]: truncation to [w] bits. *)
Definition wrap (w x : Z) : Z := x mod 2 ^ w.

(** [a.saturating_sub(b)] on an unsigned type. *)
Definition sat_sub (a b : Z) : Z := Z.max 0 (a - b).

(** [a.saturating_add(b)] on [usize] (64 bits). *)
Definition sat_add64 (a b : Z) : Z := Z.min u64_max (a + b).

Definition is_byte (x : Z) : Prop := 0 <= x < 256.
Definition wf_bytes (b : bytes) : Prop := Forall is_byte b.

#[global] Instance is_byte_dec x : Decision (is_byte x).
Proof. unfold is_byte; apply _. Defined.
#[global] Instance wf_bytes_dec b : Decision (wf_bytes b).
Proof. unfold wf_bytes; apply _. Defined.

(** ** Tactics *)

(** One case split on a [match] or [if] scrutinee that is not itself a match. *)
Ltac destr_step :=
  match goal with
  | |- context [match ?x with _ => _ end] =>
      lazymatch x with context [match _ with _ => _ end] => fail | _ => destruct x eqn:? end
  | H : context [match ?x with _ => _ end] |- _ =>
      lazymatch x with context [match _ with _ => _ end] => fail | _ => destruct x eqn:? end
  end.
Ltac destr := repeat (destr_step; simplify_eq/=; try done).

(** Turns boolean comparison hypotheses into propositions. *)
Ltac bsimpl :=
  repeat match goal with
  | H : _ && _ = true |- _ => apply andb_prop in H; destruct H
  | H : _ || _ = false |- _ => apply orb_false_elim in H; destruct H
  | H : negb _ = true |- _ => apply negb_true_iff in H
  | H : negb _ = false |- _ => apply negb_false_iff in H
  | H : (_ =? _) = true |- _ => apply Z.eqb_eq in H
  | H : (_ =? _) = false |- _ => apply Z.eqb_neq in H
  | H : (_ <? _) = true |- _ => apply Z.ltb_lt in H
  | H : (_ <? _) = false |- _ => apply Z.ltb_ge in H
  | H : (_ <=? _) = true |- _ => apply Z.leb_le in H
  | H : (_ <=? _) = false |- _ => apply Z.leb_gt in H
  | H : bool_decide _ = true |- _ => apply bool_decide_eq_true in H
  | H : bool_decide _ = false |- _ => apply bool_decide_eq_false in H
  end.

(** Evaluates the boolean comparisons of the goal that [lia] decides. *)
Ltac zbool_step :=
  match goal with
  | |- context [?a <=? ?b] =>
      first [rewrite (proj2 (Z.leb_le a b)) by lia | rewrite (proj2 (Z.leb_gt a b)) by lia]
  | |- context [?a <? ?b] =>
      first [rewrite (proj2 (Z.ltb_lt a b)) by lia | rewrite (proj2 (Z.ltb_ge a b)) by lia]
  | |- context [?a =? ?b] =>
      first [rewrite (proj2 (Z.eqb_eq a b)) by lia | rewrite (proj2 (Z.eqb_neq a b)) by lia]
  end.
Ltac zbool := repeat zbool_step.

(** ** Generic lemmas *)

Create HintDb newppp.
Create Rewrite HintDb len.
Create Rewrite HintDb sumz.

Lemma len_nil {A} : len (@nil A) = 0.
Proof. done. Qed.
Lemma len_cons {A} (x : A) l : len (x :: l) = 1 + len l.
Proof. unfold len; cbn [length]; lia. Qed.
Lemma len_app {A} (l k : list A) : len (l ++ k) = len l + len k.
Proof. unfold len; rewrite length_app; lia. Qed.
Lemma len_nonneg {A} (l : list A) : 0 <= len l.
Proof. unfold len; lia. Qed.
Lemma len_zero_inv {A} (l : list A) : len l = 0 -> l = [].
Proof. destruct l; [done|rewrite len_cons; pose proof (len_nonneg l); lia]. Qed.
Lemma len_eq {A B} (l : list A) (k : list B) : len l = len k <-> length l = length k.
Proof. unfold len; lia. Qed.
Lemma len_map {A B} (f : A -> B) l : len (map f l) = len l.
Proof. unfold len; by rewrite length_map. Qed.
Lemma len_take {A} n (l : list A) : len (take n l) = Z.min (Z.of_nat n) (len l).
Proof. unfold len; rewrite length_take; lia. Qed.
Lemma len_drop {A} n (l : list A) : len (drop n l) = Z.max 0 (len l - Z.of_nat n).
Proof. unfold len; rewrite length_drop; lia. Qed.
Lemma len_reverse {A} (l : list A) : len (reverse l) = len l.
Proof. unfold len; by rewrite length_reverse. Qed.

#[export] Hint Rewrite @len_nil @len_cons @len_app @len_map @len_take @len_drop @len_reverse : len.

Ltac lens := autorewrite with len in *.

Lemma rbind_ok {E A B} (r : result E A) (k : A -> result E B) b :
  rbind r k = Ok b <-> exists a, r = Ok a /\ k a = Ok b.
Proof.
  split; [destruct r as [a|e]; cbn; [eauto|done]|].
  by intros (a & -> & ?).
Qed.

Lemma ensure_ok {E} c (e : E) u : ensure c e = Ok u <-> c = true.
Proof. unfold ensure; destruct c, u; split; done. Qed.

Lemma ok_or_ok {E A} (o : option A) (e : E) a : ok_or o e = Ok a <-> o = Some a.
Proof. destruct o; cbn; split; intros; by simplify_eq. Qed.

(** Inverts a chain of [let?] that produced [Ok]. *)
Ltac rinv :=
  repeat match goal with
  | H : rbind _ _ = Ok _ |- _ => apply rbind_ok in H as (? & ? & ?)
  | H : ensure _ _ = Ok _ |- _ => apply ensure_ok in H
  | H : ok_or _ _ = Ok _ |- _ => apply ok_or_ok in H
  | H : Ok _ = Ok _ |- _ => injection H as H
  end.

Lemma wf_bytes_cons x b : wf_bytes (x :: b) <-> is_byte x /\ wf_bytes b.
Proof. apply Forall_cons. Qed.
Lemma wf_bytes_app a b : wf_bytes (a ++ b) <-> wf_bytes a /\ wf_bytes b.
Proof. apply Forall_app. Qed.
Lemma wf_bytes_take n b : wf_bytes b -> wf_bytes (take n b).
Proof. apply Forall_take. Qed.
Lemma wf_bytes_drop n b : wf_bytes b -> wf_bytes (drop n b).
Proof. apply Forall_drop. Qed.
#[export] Hint Resolve wf_bytes_take wf_bytes_drop : newppp.

Lemma wrap_small w x : 0 <= x < 2 ^ w -> wrap w x = x.
Proof. apply Z.mod_small. Qed.
Lemma wrap_bound w x : 0 <= w -> 0 <= wrap w x < 2 ^ w.
Proof. intros; apply Z.mod_pos_bound; lia. Qed.

Lemma take_app_len {A} (l k : list A) n : length l = n -> take n (l ++ k) = l.
Proof. intros <-; apply take_app_length. Qed.
Lemma drop_app_len {A} (l k : list A) n : length l = n -> drop n (l ++ k) = k.
Proof. intros <-; apply drop_app_length. Qed.

(** Two concatenations with equally long heads agree part by part. *)
Lemma app_inj_len {A} (a a' b b' : list A) :
  length a = length a' -> a ++ b = a' ++ b' -> a = a' /\ b = b'.
Proof. intros; by apply app_inj_1. Qed.

(** ** Sums over lists *)

Definition sumz {A} (f : A -> Z) (l : list A) : Z := foldr (fun x a => f x + a) 0 l.

Lemma sumz_cons {A} (f : A -> Z) x l : sumz f (x :: l) = f x + sumz f l.
Proof. done. Qed.
Lemma sumz_app {A} (f : A -> Z) l k : sumz f (l ++ k) = sumz f l + sumz f k.
Proof. induction l as [|x l IH]; cbn; [done|]; unfold sumz in *; cbn; lia. Qed.
Lemma sumz_nonneg {A} (f : A -> Z) l : (forall x, 0 <= f x) -> 0 <= sumz f l.
Proof. intros H; induction l as [|x l IH]; cbn; [lia|]; specialize (H x); unfold sumz in *; lia. Qed.
Lemma sumz_perm {A} (f : A -> Z) l k : Permutation l k -> sumz f l = sumz f k.
Proof. induction 1; cbn in *; unfold sumz in *; cbn in *; lia. Qed.
#[export] Hint Rewrite @sumz_cons @sumz_app : sumz.
#[global] Arguments sumz : simpl never.

(** A weight summed over the values of a map. *)
Definition map_sum {A} (f : A -> Z) (m : gmap Z A) : Z := sumz (fun kv => f kv.2) (map_to_list m).

Lemma map_sum_empty {A} (f : A -> Z) : map_sum f ∅ = 0.
Proof. unfold map_sum; by rewrite map_to_list_empty. Qed.

Lemma map_sum_insert {A} (f : A -> Z) m k x : m !! k = None ->
  map_sum f (<[k := x]> m) = f x + map_sum f m.
Proof. intros H; unfold map_sum; by rewrite (sumz_perm _ _ _ (map_to_list_insert m k x H)). Qed.

Lemma map_sum_delete {A} (f : A -> Z) m k x : m !! k = Some x ->
  map_sum f m = f x + map_sum f (delete k m).
Proof. intros H; unfold map_sum; by rewrite <- (sumz_perm _ _ _ (map_to_list_delete m k x H)). Qed.

Lemma map_sum_update {A} (f : A -> Z) m k x y : m !! k = Some x ->
  map_sum f (<[k := y]> m) = map_sum f m - f x + f y.
Proof.
  intros H; rewrite (map_sum_delete f m k x H), (map_sum_delete f (<[k := y]> m) k y), delete_insert_eq
    by apply lookup_insert_eq. lia.
Qed.

Lemma map_sum_zero {A} (f : A -> Z) m : (forall k x, m !! k = Some x -> f x = 0) -> map_sum f m = 0.
Proof.
  intros Hz. unfold map_sum. assert (Hall : forall kv, kv ∈ map_to_list m -> f kv.2 = 0).
  { intros [k x] Hin%elem_of_map_to_list. by eapply Hz. }
  induction (map_to_list m) as [|kv l IH]; [done|].
  rewrite sumz_cons, (Hall kv), IH; [done| |by left]. intros; apply Hall; by right.
Qed.

Lemma map_sum_nonneg {A} (f : A -> Z) m : (forall x, 0 <= f x) -> 0 <= map_sum f m.
Proof. intros H; apply sumz_nonneg; intros; apply H. Qed.

Lemma map_sum_lookup {A} (f : A -> Z) m k x : (forall x, 0 <= f x) -> m !! k = Some x -> f x <= map_sum f m.
Proof.
  intros Hf H; rewrite (map_sum_delete f m k x H); pose proof (map_sum_nonneg f (delete k m) Hf); lia.
Qed.

(** ** Reachability: reflexive transitive closure of a step relation *)

Inductive star {S : Type} (step : S -> S -> Prop) : S -> S -> Prop :=
| star_refl s : star step s s
| star_step s1 s2 s3 : step s1 s2 -> star step s2 s3 -> star step s1 s3.
#[export] Hint Constructors star : newppp.

Lemma star_invariant {S} (step : S -> S -> Prop) (I : S -> Prop) s s' :
  (forall a b, I a -> step a b -> I b) -> star step s s' -> I s -> I s'.
Proof. intros Hp; induction 1; eauto. Qed.

Lemma star_trans {S} (step : S -> S -> Prop) a b c :
  star step a b -> star step b c -> star step a c.
Proof. induction 1; eauto with newppp. Qed.
