(* ===== verification/Bytes.v ===== *)
(** * Bytes: what the program uses of the Rust standard library on bytes

    Integers to and from byte arrays ([to_le_bytes], [from_le_bytes] and the
    big-endian pair), [String::from_utf8], decimal formatting and [parse] of
    integers, ASCII classes and case folding, [split], [split_once], [trim].
    Everything is executable; a string is its UTF-8 byte string. *)

From S2P Require Import Prelude.

(** ** String literals *)

(** [str "abc"] is the byte string of an ASCII literal. *)
Definition str (s : string) : bytes :=
  map (fun c => Z.of_N (Ascii.N_of_ascii c)) (String.list_ascii_of_string s).

(** One-character byte constants used by the sources. *)
Definition c_nl : Z := 10.
Definition c_cr : Z := 13.
Definition c_space : Z := 32.
Definition c_dquote : Z := 34.
Definition c_hash : Z := 35.
Definition c_squote : Z := 39.
Definition c_plus : Z := 43.
Definition c_minus : Z := 45.
Definition c_dot : Z := 46.
Definition c_pipe : Z := 124.
Definition c_slash : Z := 47.
Definition c_colon : Z := 58.
Definition c_eq : Z := 61.
Definition c_qmark : Z := 63.
Definition c_lbrack : Z := 91.
Definition c_rbrack : Z := 93.
Definition c_underscore : Z := 95.

(** ** Integers and byte arrays *)

(** [x.to_le_bytes()] for an [8n]-bit integer. *)
Fixpoint le_bytes (n : nat) (x : Z) : bytes :=
  match n with
  | O => []
  | S n' => x mod 256 :: le_bytes n' (x / 256)
  end.

(** [uN::from_le_bytes(b)]. *)
Fixpoint le_val (b : bytes) : Z :=
  match b with
  | [] => 0
  | h :: t => h + 256 * le_val t
  end.

(** [to_be_bytes] / [from_be_bytes]. *)
Definition be_bytes (n : nat) (x : Z) : bytes := reverse (le_bytes n x).
Definition be_val (b : bytes) : Z := le_val (reverse b).

(** [&b[i..j]] (the callers check the bounds). *)
Definition slice (b : bytes) (i j : nat) : bytes := take (j - i) (drop i b).

(** ** UTF-8 validation: [String::from_utf8] *)

Definition cont (x : Z) : bool := (128 <=? x) && (x <=? 191).
Definition in_rng (lo hi x : Z) : bool := (lo <=? x) && (x <=? hi).

(** The byte-sequence table of RFC 3629, as [core::str::from_utf8] checks it. *)
Fixpoint utf8_valid (b : bytes) : bool :=
  match b with
  | [] => true
  | a :: t =>
    if a <=? 127 then utf8_valid t else
    match t with
    | [] => false
    | c1 :: t1 =>
      if in_rng 194 223 a then cont c1 && utf8_valid t1 else
      match t1 with
      | [] => false
      | c2 :: t2 =>
        if in_rng 224 239 a then
          (if a =? 224 then in_rng 160 191 c1
           else if a =? 237 then in_rng 128 159 c1
           else cont c1) && cont c2 && utf8_valid t2
        else
        match t2 with
        | [] => false
        | c3 :: t3 =>
          in_rng 240 244 a &&
          (if a =? 240 then in_rng 144 191 c1
           else if a =? 244 then in_rng 128 143 c1
           else cont c1) && cont c2 && cont c3 && utf8_valid t3
        end
      end
    end
  end.

(** ** ASCII classes and case folding *)

Definition is_digit (c : Z) : bool := in_rng 48 57 c.
Definition is_upper (c : Z) : bool := in_rng 65 90 c.
Definition is_lower (c : Z) : bool := in_rng 97 122 c.
(** [char::is_ascii_alphanumeric]. *)
Definition is_alnum (c : Z) : bool := is_digit c || is_upper c || is_lower c.
(** [u8::to_ascii_lowercase]. *)
Definition to_lower (c : Z) : Z := if is_upper c then c + 32 else c.
(** [str::to_ascii_lowercase]. *)
Definition lower (s : bytes) : bytes := map to_lower s.
(** [str::eq_ignore_ascii_case]. *)
Definition eq_ignore_case (a b : bytes) : bool := bool_decide (lower a = lower b).

(** [char::is_whitespace] (Unicode [White_Space]) on UTF-8: the one-, two- and
    three-byte characters that have the property. *)
Definition is_ws (c : Z) : bool := in_rng 9 13 c || (c =? 32).
Definition is_ws2 (a b : Z) : bool := (a =? 194) && ((b =? 133) || (b =? 160)).
Definition is_ws3 (a b c : Z) : bool :=
  ((a =? 225) && (b =? 154) && (c =? 128))
  || ((a =? 226) && (b =? 128) && (in_rng 128 138 c || (c =? 168) || (c =? 169) || (c =? 175)))
  || ((a =? 226) && (b =? 129) && (c =? 159))
  || ((a =? 227) && (b =? 128) && (c =? 128)).

(** ** Splitting and trimming *)

(** [s.split(c)] as the list of its pieces (never empty). *)
Fixpoint split_on (c : Z) (s : bytes) : list bytes :=
  match s with
  | [] => [[]]
  | x :: t =>
    if x =? c then [] :: split_on c t
    else match split_on c t with
         | [] => [[x]]
         | p :: ps => (x :: p) :: ps
         end
  end.

(** [s.split_once(c)]. *)
Fixpoint split_once (c : Z) (s : bytes) : option (bytes * bytes) :=
  match s with
  | [] => None
  | x :: t =>
    if x =? c then Some ([], t)
    else match split_once c t with
         | Some (a, b) => Some (x :: a, b)
         | None => None
         end
  end.

(** [s.rsplit_once(c)]. *)
Definition rsplit_once (c : Z) (s : bytes) : option (bytes * bytes) :=
  match split_once c (reverse s) with
  | Some (a, b) => Some (reverse b, reverse a)
  | None => None
  end.

(** [s.strip_prefix(p)]. *)
Fixpoint strip_prefix (p s : bytes) : option bytes :=
  match p, s with
  | [], _ => Some s
  | _ :: _, [] => None
  | a :: p', b :: s' => if a =? b then strip_prefix p' s' else None
  end.

Definition starts_with (p s : bytes) : bool := match strip_prefix p s with Some _ => true | None => false end.

Fixpoint trim_start (s : bytes) : bytes :=
  match s with
  | a :: t1 =>
    if is_ws a then trim_start t1 else
    match t1 with
    | b :: t2 =>
      if is_ws2 a b then trim_start t2 else
      match t2 with
      | c :: t3 => if is_ws3 a b c then trim_start t3 else s
      | [] => s
      end
    | [] => s
    end
  | [] => []
  end.

(** [trim_start] on a reversed string. *)
Fixpoint trim_rev (s : bytes) : bytes :=
  match s with
  | a :: t1 =>
    if is_ws a then trim_rev t1 else
    match t1 with
    | b :: t2 =>
      if is_ws2 b a then trim_rev t2 else
      match t2 with
      | c :: t3 => if is_ws3 c b a then trim_rev t3 else s
      | [] => s
      end
    | [] => s
    end
  | [] => []
  end.
Definition trim_end (s : bytes) : bytes := reverse (trim_rev (reverse s)).
Definition trim (s : bytes) : bytes := trim_end (trim_start s).

(** A trailing carriage return of a line. *)
Definition strip_cr (l : bytes) : bytes :=
  match reverse l with 13 :: r => reverse r | _ => l end.

(** [str::lines]: split at line feeds (a final one ends the last line), one
    carriage return before each dropped. *)
Definition lines (s : bytes) : list bytes :=
  let ps := split_on 10 s in
  let ps' := match reverse ps with [] :: r => reverse r | _ => ps end in
  match reverse ps with
  | [] :: _ => map strip_cr ps'
  | _ => match reverse ps' with
         | last :: r => map strip_cr (reverse r) ++ [last]
         | [] => []
         end
  end.

(** [s.contains(c)] for a character. *)
Definition has_char (c : Z) (s : bytes) : bool := existsb (Z.eqb c) s.

(** [s.split_whitespace()]; [cur] is the current word, reversed. *)
Definition emit_word (cur : bytes) (ws : list bytes) : list bytes :=
  match cur with [] => ws | _ => reverse cur :: ws end.
Fixpoint split_ws_go (cur s : bytes) : list bytes :=
  match s with
  | a :: t1 =>
    if is_ws a then emit_word cur (split_ws_go [] t1) else
    match t1 with
    | b :: t2 =>
      if is_ws2 a b then emit_word cur (split_ws_go [] t2) else
      match t2 with
      | c :: t3 =>
        if is_ws3 a b c then emit_word cur (split_ws_go [] t3) else split_ws_go (a :: cur) t1
      | [] => split_ws_go (a :: cur) t1
      end
    | [] => split_ws_go (a :: cur) t1
    end
  | [] => emit_word cur []
  end.
Definition split_whitespace (s : bytes) : list bytes := split_ws_go [] s.

(** [String::from_utf8_lossy]: each maximal prefix of an ill-formed sequence
    becomes U+FFFD. *)
Definition replacement : bytes := [239; 191; 189].
Definition utf8_second (a c1 : Z) : bool :=
  if a =? 224 then in_rng 160 191 c1
  else if a =? 237 then in_rng 128 159 c1
  else if a =? 240 then in_rng 144 191 c1
  else if a =? 244 then in_rng 128 143 c1
  else cont c1.
Fixpoint utf8_lossy (b : bytes) : bytes :=
  match b with
  | [] => []
  | a :: t =>
    if a <=? 127 then a :: utf8_lossy t
    else if in_rng 194 244 a then
      match t with
      | [] => replacement
      | c1 :: t1 =>
        if negb (utf8_second a c1) then replacement ++ utf8_lossy t
        else if a <=? 223 then a :: c1 :: utf8_lossy t1
        else match t1 with
             | [] => replacement
             | c2 :: t2 =>
               if negb (cont c2) then replacement ++ utf8_lossy t1
               else if a <=? 239 then a :: c1 :: c2 :: utf8_lossy t2
               else match t2 with
                    | [] => replacement
                    | c3 :: t3 =>
                      if negb (cont c3) then replacement ++ utf8_lossy t2
                      else a :: c1 :: c2 :: c3 :: utf8_lossy t3
                    end
             end
      end
    else replacement ++ utf8_lossy t
  end.

(** [b.windows(p.len()).position(|w| w == p)]. *)
Fixpoint find_sub (p s : bytes) : option nat :=
  if starts_with p s then Some O
  else match s with
       | [] => None
       | _ :: t => match find_sub p t with Some n => Some (S n) | None => None end
       end.

Definition is_some {A} (o : option A) : bool := match o with Some _ => true | None => false end.

(** [s.contains(p)]. *)
Definition contains (p s : bytes) : bool := is_some (find_sub p s).

Definition crlf : bytes := [13; 10].

(** [s.split(p)] for a non-empty pattern of two bytes. *)
Fixpoint split_pair (p q : Z) (s : bytes) : list bytes :=
  match s with
  | [] => [[]]
  | x :: t =>
    match t with
    | y :: t' =>
      if (x =? p) && (y =? q) then [] :: split_pair p q t'
      else match split_pair p q t with [] => [[x]] | w :: ws => (x :: w) :: ws end
    | [] => [[x]]
    end
  end.

(** ** Decimal integers *)

(** [format!("{n}")]; [fuel] bounds the number of digits (20 for [u64]). *)
Fixpoint dec_digits (fuel : nat) (n : Z) (acc : bytes) : bytes :=
  match fuel with
  | O => acc
  | S f =>
    let acc' := (48 + n mod 10) :: acc in
    if n <? 10 then acc' else dec_digits f (n / 10) acc'
  end.
Definition dec (n : Z) : bytes := dec_digits 20 n [].

Fixpoint dec_val (acc : Z) (s : bytes) : option Z :=
  match s with
  | [] => Some acc
  | c :: t => if is_digit c then dec_val (10 * acc + (c - 48)) t else None
  end.

(** [s.parse::<uN>()]: an optional leading [+], at least one digit, no
    overflow of [max]. *)
Definition parse_uint (max : Z) (s : bytes) : option Z :=
  let d := match s with c :: t => if c =? c_plus then t else s | [] => [] end in
  match d with
  | [] => None
  | _ => match dec_val 0 d with
         | Some v => if v <=? max then Some v else None
         | None => None
         end
  end.

(** [s.parse::<i64>()]. *)
Definition parse_i64 (s : bytes) : option Z :=
  match s with
  | c :: t =>
    if c =? c_minus then
      match t with
      | [] => None
      | _ => match dec_val 0 t with
             | Some v => if v <=? 2 ^ 63 then Some (- v) else None
             | None => None
             end
      end
    else parse_uint (2 ^ 63 - 1) s
  | [] => None
  end.

(** ** Hexadecimal digits *)

(** [(c as char).to_digit(16)]. *)
Definition to_digit16 (c : Z) : option Z :=
  if is_digit c then Some (c - 48)
  else if in_rng 97 102 c then Some (c - 87)
  else if in_rng 65 70 c then Some (c - 55)
  else None.

(** The lower-case digit of [{x:02x}]. *)
Definition hex_digit (d : Z) : Z := if d <? 10 then 48 + d else 87 + d.

(** ** Lemmas: integers and byte arrays *)

Lemma length_le_bytes n x : length (le_bytes n x) = n.
Proof. revert x; induction n; intros; cbn; auto. Qed.
Lemma len_le_bytes n x : len (le_bytes n x) = Z.of_nat n.
Proof. unfold len; by rewrite length_le_bytes. Qed.
Lemma length_be_bytes n x : length (be_bytes n x) = n.
Proof. unfold be_bytes; by rewrite length_reverse, length_le_bytes. Qed.
#[export] Hint Rewrite len_le_bytes : len.

Lemma wf_le_bytes n x : wf_bytes (le_bytes n x).
Proof.
  revert x; induction n as [|n IH]; intros x; cbn; constructor; [|apply IH].
  apply Z.mod_pos_bound; lia.
Qed.
#[export] Hint Resolve wf_le_bytes : newppp.

Lemma pow256_succ n : 256 ^ Z.of_nat (S n) = 256 * 256 ^ Z.of_nat n.
Proof. rewrite Nat2Z.inj_succ, Z.pow_succ_r; lia. Qed.

Lemma le_val_le_bytes n x : le_val (le_bytes n x) = x mod 256 ^ Z.of_nat n.
Proof.
  revert x; induction n as [|n IH]; intros x; cbn [le_bytes le_val].
  - by rewrite Z.mod_1_r.
  - rewrite IH, pow256_succ, Z.rem_mul_r by lia; lia.
Qed.

Lemma le_val_small n x : 0 <= x < 256 ^ Z.of_nat n -> le_val (le_bytes n x) = x.
Proof. intros; rewrite le_val_le_bytes; by apply Z.mod_small. Qed.

Lemma le_val_bound b : wf_bytes b -> 0 <= le_val b < 256 ^ len b.
Proof.
  unfold len; induction 1 as [|h t Hh Ht IH]; [cbn; lia|].
  cbn [le_val length]; rewrite pow256_succ; unfold is_byte in *; lia.
Qed.

Lemma le_bytes_le_val b : wf_bytes b -> le_bytes (length b) (le_val b) = b.
Proof.
  induction 1 as [|h t Hh Ht IH]; [done|]; cbn [length le_bytes le_val].
  unfold is_byte in Hh. f_equal.
  - rewrite Z.mul_comm, Z_mod_plus_full; by apply Z.mod_small.
  - rewrite Z.mul_comm, Z_div_plus_full, Z.div_small, Z.add_0_l by lia; done.
Qed.

Lemma le_val_inj a b : wf_bytes a -> wf_bytes b -> length a = length b ->
  le_val a = le_val b -> a = b.
Proof.
  intros Ha Hb Hl Hv.
  rewrite <- (le_bytes_le_val a), <- (le_bytes_le_val b) by done; congruence.
Qed.

Lemma be_val_small n x : 0 <= x < 256 ^ Z.of_nat n -> be_val (be_bytes n x) = x.
Proof. intros; unfold be_val, be_bytes; rewrite reverse_involutive; by apply le_val_small. Qed.

Lemma be_val_bound b : wf_bytes b -> 0 <= be_val b < 256 ^ len b.
Proof. intros; unfold be_val; rewrite <- (len_reverse b); apply le_val_bound, Forall_reverse; done. Qed.

Lemma be_bytes_be_val b : wf_bytes b -> be_bytes (length b) (be_val b) = b.
Proof.
  intros Hw; unfold be_bytes, be_val; rewrite <- length_reverse.
  rewrite le_bytes_le_val by (by apply Forall_reverse). apply reverse_involutive.
Qed.

Lemma be_bytes_inj n x y : 0 <= x < 256 ^ Z.of_nat n -> 0 <= y < 256 ^ Z.of_nat n ->
  be_bytes n x = be_bytes n y -> x = y.
Proof. intros Hx Hy H. rewrite <- (be_val_small n x), <- (be_val_small n y) by done; congruence. Qed.

(** ** Lemmas: UTF-8 *)

Lemma utf8_ascii b : Forall (fun c => c <= 127) b -> utf8_valid b = true.
Proof.
  induction 1 as [|c t Hc Ht IH]; [done|]; cbn [utf8_valid].
  by replace (c <=? 127) with true by (symmetry; apply Z.leb_le; lia).
Qed.

(** ** Lemmas: splitting *)

Lemma split_once_char c a b : c ∉ a -> split_once c (a ++ c :: b) = Some (a, b).
Proof.
  induction a as [|x a IH]; intros Hn; cbn.
  - by rewrite Z.eqb_refl.
  - rewrite not_elem_of_cons in Hn; destruct Hn as [Hx Ha].
    replace (x =? c) with false by (symmetry; apply Z.eqb_neq; congruence).
    by rewrite IH.
Qed.

Lemma split_once_some c s a b : split_once c s = Some (a, b) -> s = a ++ c :: b /\ c ∉ a.
Proof.
  revert a b; induction s as [|x s IH]; intros a b H; cbn in H; [done|].
  destruct (x =? c) eqn:E; bsimpl.
  - simplify_eq; split; [done|apply not_elem_of_nil].
  - destruct (split_once c s) as [[a' b']|] eqn:E'; simplify_eq.
    destruct (IH _ _ eq_refl) as [-> Hn]. split; [done|].
    rewrite not_elem_of_cons; split; [congruence|done].
Qed.

Lemma split_once_none c s : split_once c s = None <-> c ∉ s.
Proof.
  split.
  - induction s as [|x s IH]; cbn; intros H; [apply not_elem_of_nil|].
    destruct (x =? c) eqn:E; [done|]; bsimpl.
    destruct (split_once c s) as [[??]|]; [done|].
    rewrite not_elem_of_cons; split; [congruence|auto].
  - intros Hn; destruct (split_once c s) as [[a b]|] eqn:E; [|done].
    apply split_once_some in E as [-> _]. exfalso; apply Hn; set_solver.
Qed.

Lemma rsplit_once_char c a b : c ∉ b -> rsplit_once c (a ++ c :: b) = Some (a, b).
Proof.
  intros Hn; unfold rsplit_once.
  rewrite reverse_app, reverse_cons, <- app_assoc; cbn.
  rewrite split_once_char by (by rewrite elem_of_reverse).
  by rewrite !reverse_involutive.
Qed.

Lemma split_on_char c a b : c ∉ a -> split_on c (a ++ c :: b) = a :: split_on c b.
Proof.
  induction a as [|x a IH]; intros Hn; cbn.
  - by rewrite Z.eqb_refl.
  - rewrite not_elem_of_cons in Hn; destruct Hn as [Hx Ha].
    replace (x =? c) with false by (symmetry; apply Z.eqb_neq; congruence).
    by rewrite IH.
Qed.

Lemma split_on_none c a : c ∉ a -> split_on c a = [a].
Proof.
  induction a as [|x a IH]; intros Hn; cbn; [done|].
  rewrite not_elem_of_cons in Hn; destruct Hn as [Hx Ha].
  replace (x =? c) with false by (symmetry; apply Z.eqb_neq; congruence).
  by rewrite IH.
Qed.

Lemma strip_prefix_app p s : strip_prefix p (p ++ s) = Some s.
Proof. induction p as [|a p IH]; cbn; [done|by rewrite Z.eqb_refl]. Qed.

Lemma strip_prefix_some p s r : strip_prefix p s = Some r -> s = p ++ r.
Proof.
  revert s; induction p as [|a p IH]; intros [|b s] H; cbn in *; simplify_eq; [done|done|].
  destruct (a =? b) eqn:E; bsimpl; [|done]. subst; f_equal; auto.
Qed.

Lemma strip_prefix_none p s : strip_prefix p s = None <-> forall r, s <> p ++ r.
Proof.
  split.
  - intros H r ->; by rewrite strip_prefix_app in H.
  - intros H; destruct (strip_prefix p s) eqn:E; [|done].
    apply strip_prefix_some in E; naive_solver.
Qed.

(** ** Lemmas: decimal *)

Lemma dec_digits_app f n acc : dec_digits f n acc = dec_digits f n [] ++ acc.
Proof.
  revert n acc; induction f as [|f IH]; intros n acc; cbn; [done|].
  destruct (n <? 10); [done|].
  rewrite IH, (IH _ [_]), <- app_assoc; done.
Qed.

Lemma dec_val_app a s t v : dec_val a s = Some v -> dec_val a (s ++ t) = dec_val v t.
Proof.
  revert a; induction s as [|c s IH]; intros a H; cbn in *; [by simplify_eq|].
  destruct (is_digit c); [auto|done].
Qed.

Lemma is_digit_mod n : is_digit (48 + n mod 10) = true.
Proof. unfold is_digit, in_rng; pose proof (Z.mod_pos_bound n 10); lia. Qed.

Lemma dec_val_digits f n : 0 <= n < 10 ^ Z.of_nat f ->
  dec_val 0 (dec_digits f n []) = Some n.
Proof.
  revert n; induction f as [|f IH]; intros n Hn; cbn [dec_digits].
  - cbn in Hn; cbn; f_equal; lia.
  - destruct (n <? 10) eqn:E; bsimpl.
    + cbn [dec_val]; rewrite is_digit_mod, Z.mod_small by lia; f_equal; lia.
    + rewrite dec_digits_app.
      rewrite Nat2Z.inj_succ, Z.pow_succ_r in Hn by lia.
      erewrite dec_val_app by (apply IH; split; [apply Z.div_pos; lia|apply Z.div_lt_upper_bound; lia]).
      cbn [dec_val]; rewrite is_digit_mod; f_equal.
      pose proof (Z.div_mod n 10); lia.
Qed.

Lemma dec_digits_digit f n acc : Forall (fun c => is_digit c = true) acc ->
  Forall (fun c => is_digit c = true) (dec_digits f n acc).
Proof.
  revert n acc; induction f as [|f IH]; intros n acc Ha; cbn; [done|].
  destruct (n <? 10); [|apply IH]; constructor; auto using is_digit_mod.
Qed.

Lemma dec_digit n c : c ∈ dec n -> is_digit c = true.
Proof. revert c; apply Forall_forall, dec_digits_digit; constructor. Qed.

Lemma dec_nonempty n : dec n <> [].
Proof.
  unfold dec; change 20%nat with (S 19); generalize 19%nat as f; intros f; cbn [dec_digits].
  destruct (n <? 10); [done|].
  rewrite dec_digits_app. intros H; by apply app_nil in H as [_ ?].
Qed.

(** Parsing what [format!] printed gives the number back. *)
Lemma parse_uint_dec max n : 0 <= n <= max -> n < 10 ^ 20 -> parse_uint max (dec n) = Some n.
Proof.
  intros Hn Hm; unfold parse_uint.
  pose proof (dec_nonempty n) as Hne.
  pose proof (dec_digit n) as Hd.
  destruct (dec n) as [|c t] eqn:E; [done|].
  assert (Hc : (c =? c_plus) = false).
  { specialize (Hd c (list_elem_of_here _ _)). unfold is_digit, in_rng, c_plus in *; lia. }
  rewrite Hc, <- E; unfold dec; rewrite dec_val_digits by (cbn in *; lia).
  by replace (n <=? max) with true by lia.
Qed.

(** ** Lemmas: words *)

(** A plain character is neither a space nor the first byte of one. *)
Definition plain (c : Z) : bool := in_rng 33 127 c.

Lemma split_ws_plain cur w s : forallb plain w = true ->
  split_ws_go cur (w ++ s) = split_ws_go (reverse w ++ cur) s.
Proof.
  revert cur; induction w as [|a w IH]; intros cur H; [done|].
  cbn in H; apply andb_prop in H as [Ha Hw].
  rewrite reverse_cons, <- app_assoc; cbn [app].
  rewrite <- (IH (a :: cur)) by done. cbn [split_ws_go].
  unfold plain, in_rng in Ha.
  assert (is_ws a = false) as -> by (unfold is_ws, in_rng; lia).
  destruct (w ++ s) as [|b t2] eqn:E; [done|].
  assert (is_ws2 a b = false) as -> by (unfold is_ws2; lia).
  destruct t2 as [|c t3]; [done|].
  assert (is_ws3 a b c = false) as -> by (unfold is_ws3, in_rng; lia); done.
Qed.

(** A word followed by a space is the next word. *)
Lemma split_whitespace_word w s : forallb plain w = true -> w <> [] ->
  split_whitespace (w ++ c_space :: s) = w :: split_whitespace s.
Proof.
  intros Hp Hw; unfold split_whitespace; rewrite split_ws_plain, app_nil_r by done.
  cbn. unfold emit_word; destruct (reverse w) eqn:E; [|by rewrite <- E, reverse_involutive].
  by apply (f_equal reverse) in E; rewrite reverse_involutive in E.
Qed.

Lemma split_whitespace_last w : forallb plain w = true -> w <> [] -> split_whitespace w = [w].
Proof.
  intros Hp Hw; unfold split_whitespace.
  rewrite <- (app_nil_r w) at 1; rewrite split_ws_plain, app_nil_r by done.
  cbn. unfold emit_word; destruct (reverse w) eqn:E; [|by rewrite <- E, reverse_involutive].
  by apply (f_equal reverse) in E; rewrite reverse_involutive in E.
Qed.

(** ** Lemmas: trimming and searching *)

Lemma plain_not_ws a : plain a = true -> is_ws a = false.
Proof. unfold plain, is_ws, in_rng; lia. Qed.

Lemma trim_start_plain a s : plain a = true -> trim_start (a :: s) = a :: s.
Proof.
  intros H; cbn; rewrite plain_not_ws by done; unfold plain, in_rng in H.
  destruct s as [|b [|c t]]; [done|..]; assert (is_ws2 a b = false) as -> by (unfold is_ws2; lia); [done|].
  assert (is_ws3 a b c = false) as -> by (unfold is_ws3, in_rng; lia); done.
Qed.

Lemma trim_rev_plain a s : plain a = true -> trim_rev (a :: s) = a :: s.
Proof.
  intros H; cbn; rewrite plain_not_ws by done; unfold plain, in_rng in H.
  destruct s as [|b [|c t]]; [done|..]; assert (is_ws2 b a = false) as -> by (unfold is_ws2; lia); [done|].
  assert (is_ws3 c b a = false) as -> by (unfold is_ws3, in_rng; lia); done.
Qed.

(** Trimming a string without spaces at its ends does nothing. *)
Lemma trim_plain s : forallb plain s = true -> trim s = s.
Proof.
  intros H; unfold trim, trim_end; destruct s as [|a s]; [done|].
  rewrite trim_start_plain by (cbn in H; by apply andb_prop in H as [? _]).
  destruct (reverse (a :: s)) as [|b r] eqn:E.
  { apply (f_equal length) in E; by rewrite length_reverse in E. }
  rewrite trim_rev_plain; [by rewrite <- E, reverse_involutive|].
  assert (Hb : b ∈ a :: s) by (rewrite <- elem_of_reverse, E; apply list_elem_of_here).
  apply list_elem_of_In in Hb; by apply (proj1 (forallb_forall _ _) H).
Qed.

Lemma starts_with_spec p s : starts_with p s = true <-> exists r, s = p ++ r.
Proof.
  unfold starts_with; destruct (strip_prefix p s) as [r|] eqn:E; split; intros H.
  - exists r; by apply strip_prefix_some.
  - done.
  - done.
  - destruct H as [r ->]; by rewrite strip_prefix_app in E.
Qed.

(** A prefix that fits in the first part. *)
Lemma starts_with_app p a b : (length p <= length a)%nat -> starts_with p (a ++ b) = starts_with p a.
Proof.
  intros Hl; apply eq_iff_eq_true; rewrite !starts_with_spec; split; intros [r H].
  - exists (drop (length p) a). apply (f_equal (take (length p))) in H.
    rewrite take_app_le, take_app_length in H by done. by rewrite <- H at 1; rewrite take_drop.
  - exists (r ++ b); by rewrite H, <- app_assoc.
Qed.

Lemma find_sub_some p s n : find_sub p s = Some n <->
  (n <= length s)%nat /\ starts_with p (drop n s) = true /\ forall k, (k < n)%nat -> starts_with p (drop k s) = false.
Proof.
  revert n; induction s as [|c s IH]; intros n; cbn [find_sub].
  - destruct (starts_with p []) eqn:E; split.
    + intros; simplify_eq; split_and!; [done|done|lia].
    + intros (Hn & _); cbn in Hn; by replace n with 0%nat by lia.
    + done.
    + intros (Hn & H & _); cbn in Hn; replace n with 0%nat in H by lia; cbn in H; congruence.
  - destruct (starts_with p (c :: s)) eqn:E; split.
    + intros; simplify_eq; split_and!; [lia|done|lia].
    + intros (_ & _ & Hk); destruct n as [|n]; [done|]; specialize (Hk 0%nat ltac:(lia)); cbn in Hk; congruence.
    + destruct (find_sub p s) as [m|] eqn:Em; [|done]; intros; simplify_eq.
      destruct (proj1 (IH m) eq_refl) as (H1 & H2 & H3); split_and!; [cbn; lia|done|].
      intros [|k] Hk; [done|]; apply H3; lia.
    + intros (H1 & H2 & H3); destruct n as [|n]; [cbn in H2; congruence|].
      rewrite (proj2 (IH n)); [done|]. split_and!; [cbn in H1; lia|done|].
      intros k Hk; apply (H3 (S k)); lia.
Qed.

Lemma starts_with_len p s : starts_with p s = true -> (length p <= length s)%nat.
Proof. intros [r ->]%starts_with_spec; rewrite length_app; lia. Qed.

(** A match stays the first one when more bytes follow. *)
Lemma find_sub_app p a b n : find_sub p a = Some n -> find_sub p (a ++ b) = Some n.
Proof.
  intros (Hn & Hs & Hk)%find_sub_some. pose proof (starts_with_len _ _ Hs) as Hl; rewrite length_drop in Hl.
  apply find_sub_some; split_and!; [rewrite length_app; lia| |].
  - rewrite drop_app_le, starts_with_app by (rewrite ?length_drop; lia); done.
  - intros k Hlt; rewrite drop_app_le, starts_with_app by (rewrite ?length_drop; lia); auto.
Qed.

(** A match inside the first part is found there. *)
Lemma find_sub_within p a b n : find_sub p (a ++ b) = Some n -> (n + length p <= length a)%nat -> find_sub p a = Some n.
Proof.
  intros (Hn & Hs & Hk)%find_sub_some Hl; apply find_sub_some; split_and!; [lia| |].
  - rewrite drop_app_le, starts_with_app in Hs by (rewrite ?length_drop; lia); done.
  - intros k Hlt; specialize (Hk k Hlt); rewrite drop_app_le, starts_with_app in Hk by (rewrite ?length_drop; lia); done.
Qed.

Lemma split_pair_none p q s : p ∉ s -> split_pair p q s = [s].
Proof.
  induction s as [|x s IH]; intros H; [done|]; cbn.
  apply not_elem_of_cons in H as [Hx Hs]; rewrite (proj2 (Z.eqb_neq x p)) by congruence; cbn.
  rewrite IH by done; by destruct s.
Qed.

Lemma split_pair_app p q a b : p ∉ a -> split_pair p q (a ++ p :: q :: b) = a :: split_pair p q b.
Proof.
  induction a as [|x a IH]; intros H; cbn [app].
  - cbn; by rewrite !Z.eqb_refl.
  - apply not_elem_of_cons in H as [Hx Hs]; cbn; rewrite (proj2 (Z.eqb_neq x p)) by congruence; cbn.
    rewrite IH by done; by destruct a.
Qed.

(** ** Lemmas: lossy decoding *)

Lemma utf8_lossy_ascii b : Forall (fun c => c <= 127) b -> utf8_lossy b = b.
Proof.
  induction 1 as [|a b Ha Hb IH]; [done|]; cbn [utf8_lossy].
  by rewrite (proj2 (Z.leb_le a 127)), IH.
Qed.

#[global] Arguments le_bytes : simpl never.
#[global] Arguments dec : simpl never.
