(* ===== verification/Net.v ===== *)
(** * Internet addresses, as [std::net] has them

    [IpAddr] keeps the octets of an address; [SocketAddr] adds the port.  Both
    are keys of the server's maps, so they have decidable equality and are
    countable. *)

From S2P Require Import Prelude Bytes.

Inductive IpAddr :=
| IpV4 (octets : bytes)
| IpV6 (octets : bytes).

#[global] Instance IpAddr_eq_dec : EqDecision IpAddr.
Proof. solve_decision. Defined.

#[global] Instance IpAddr_countable : Countable IpAddr.
Proof.
  refine (inj_countable' (fun a => match a with IpV4 o => inl o | IpV6 o => inr o end)
                         (fun s => match s with inl o => IpV4 o | inr o => IpV6 o end) _).
  by intros [].
Defined.

Record SocketAddr := { sa_ip : IpAddr; sa_port : Z }.

#[global] Instance SocketAddr_eq_dec : EqDecision SocketAddr.
Proof. solve_decision. Defined.

Definition is_v4 (a : IpAddr) : bool := match a with IpV4 _ => true | IpV6 _ => false end.

(** Octet counts and ranges of a real address. *)
Definition ip_wf (a : IpAddr) : Prop :=
  match a with
  | IpV4 o => wf_bytes o /\ length o = 4%nat
  | IpV6 o => wf_bytes o /\ length o = 16%nat
  end.

#[global] Instance ip_wf_dec a : Decision (ip_wf a).
Proof. destruct a; apply _. Defined.
