(* ===== verification/Ip.v ===== *)
(** * Text form of addresses, as [std::net] reads and prints it

    [IpAddr::from_str] as the standard library's recursive-descent parser does
    it (a parser takes the input and returns the value and the rest), and the
    [Display] of an address. *)

From S2P Require Import Prelude Bytes Net.

(** ** Reading *)

Definition to_digit (radix c : Z) : option Z :=
  if radix =? 10 then (if is_digit c then Some (c - 48) else None) else to_digit16 c.

(** The digits at the head of [s]: their value, their number, the rest; [None]
    past [max] digits. *)
Fixpoint read_digits (radix : Z) (max : nat) (acc : Z) (n : nat) (s : bytes) : option (Z * nat * bytes) :=
  match s with
  | c :: t =>
    match to_digit radix c with
    | Some d => match max with
                | O => None
                | S m => read_digits radix m (acc * radix + d) (S n) t
                end
    | None => Some (acc, n, s)
    end
  | [] => Some (acc, n, [])
  end.

Definition read_number (radix : Z) (max : nat) (limit : Z) (allow_zero_prefix : bool) (s : bytes)
  : option (Z * bytes) :=
  match read_digits radix max 0 0 s with
  | Some (v, n, r) =>
    if Nat.eqb n 0 then None
    else if negb allow_zero_prefix && bool_decide (head s = Some 48) && Nat.ltb 1 n then None
    else if v <=? limit then Some (v, r) else None
  | None => None
  end.

Definition read_given_char (c : Z) (s : bytes) : option bytes :=
  match s with x :: t => if x =? c then Some t else None | [] => None end.

(** [read_separator(sep, index, inner)]. *)
Definition read_separator {A} (sep : Z) (index : nat) (inner : bytes -> option (A * bytes)) (s : bytes)
  : option (A * bytes) :=
  match index with
  | O => inner s
  | S _ => match read_given_char sep s with Some t => inner t | None => None end
  end.

Definition read_octet (i : nat) : bytes -> option (Z * bytes) :=
  read_separator c_dot i (read_number 10 3 255 false).

Definition read_ipv4 (s : bytes) : option (bytes * bytes) :=
  '(a, s) ← read_octet 0 s;
  '(b, s) ← read_octet 1 s;
  '(c, s) ← read_octet 2 s;
  '(d, s) ← read_octet 3 s;
  Some ([a; b; c; d], s).

(** [read_groups] into [limit] slots from the [i]-th; [n] slots are left. *)
Fixpoint read_groups (n i : nat) (s : bytes) : list Z * bool * bytes :=
  match n with
  | O => ([], false, s)
  | S n' =>
    match (if Nat.ltb 0 n' then read_separator c_colon i read_ipv4 s else None) with
    | Some ([a; b; c; d], r) => ([a * 256 + b; c * 256 + d], true, r)
    | _ =>
      match read_separator c_colon i (read_number 16 4 u16_max true) s with
      | Some (g, r) => let '(gs, v4, r') := read_groups n' (S i) r in (g :: gs, v4, r')
      | None => ([], false, s)
      end
    end
  end.

Definition read_ipv6 (s : bytes) : option (list Z * bytes) :=
  let '(hd, head_ipv4, s) := read_groups 8 0 s in
  if Nat.eqb (length hd) 8 then Some (hd, s)
  else if head_ipv4 : bool then None
  else
    s ← read_given_char c_colon s;
    s ← read_given_char c_colon s;
    let limit := (8 - (length hd + 1))%nat in
    let '(tl, _, s) := read_groups limit 0 s in
    Some (hd ++ replicate (8 - length hd - length tl) 0 ++ tl, s).

(** [Ipv6Addr::from([u16; 8])]. *)
Definition from_segments (gs : list Z) : IpAddr := IpV6 (concat (map (be_bytes 2) gs)).

(** [s.parse::<IpAddr>()]: all of the input must be read. *)
Definition parse_ip (s : bytes) : option IpAddr :=
  match read_ipv4 s with
  | Some (o, r) => if bool_decide (r = []) then Some (IpV4 o) else None
  | None => match read_ipv6 s with
            | Some (gs, r) => if bool_decide (r = []) then Some (from_segments gs) else None
            | None => None
            end
  end.

(** [read_port]: a colon and a decimal [u16] of any number of digits. *)
Definition read_socket_port (s : bytes) : option (Z * bytes) :=
  s ← read_given_char c_colon s;
  read_number 10 (length s) u16_max true s.

(** [read_socket_addr_v4]. *)
Definition read_socket_v4 (s : bytes) : option (SocketAddr * bytes) :=
  '(o, s) ← read_ipv4 s;
  '(p, s) ← read_socket_port s;
  Some ({| sa_ip := IpV4 o; sa_port := p |}, s).

(** [read_scope_id]; a [SocketAddr] here carries no scope, so only the rest of
    the input matters. *)
Definition skip_scope_id (s : bytes) : bytes :=
  match (t ← read_given_char 37 s; read_number 10 (length t) u32_max true t) with
  | Some (_, r) => r
  | None => s
  end.

(** [read_socket_addr_v6]. *)
Definition read_socket_v6 (s : bytes) : option (SocketAddr * bytes) :=
  s ← read_given_char c_lbrack s;
  '(gs, s) ← read_ipv6 s;
  s ← read_given_char c_rbrack (skip_scope_id s);
  '(p, s) ← read_socket_port s;
  Some ({| sa_ip := from_segments gs; sa_port := p |}, s).

(** [s.parse::<SocketAddr>()]. *)
Definition parse_socket (s : bytes) : option SocketAddr :=
  match (match read_socket_v4 s with Some r => Some r | None => read_socket_v6 s end) with
  | Some (a, r) => if bool_decide (r = []) then Some a else None
  | None => None
  end.

(** ** Printing *)

Definition show_v4 (o : bytes) : bytes :=
  match o with
  | [a; b; c; d] => dec a ++ c_dot :: dec b ++ c_dot :: dec c ++ c_dot :: dec d
  | _ => []
  end.

(** [{:x}] of a 16-bit integer. *)
Definition hex16 (x : Z) : bytes :=
  let d k := hex_digit (x / 16 ^ k mod 16) in
  if x <? 16 then [d 0] else if x <? 256 then [d 1; d 0]
  else if x <? 4096 then [d 2; d 1; d 0] else [d 3; d 2; d 1; d 0].

(** [segments()]. *)
Fixpoint segments (o : bytes) : list Z :=
  match o with a :: b :: t => a * 256 + b :: segments t | _ => [] end.

(** The longest run of zero segments, the first of the longest ones; [cur] is
    the run that ends before segment [i]. *)
Fixpoint longest_zeros (i : nat) (cur longest : nat * nat) (gs : list Z) : nat * nat :=
  match gs with
  | [] => longest
  | g :: t =>
    if g =? 0 then
      let cur' := if Nat.eqb cur.2 0 then (i, 1%nat) else (cur.1, S cur.2) in
      longest_zeros (S i) cur' (if Nat.ltb longest.2 cur'.2 then cur' else longest) t
    else longest_zeros (S i) (0%nat, 0%nat) longest t
  end.

Fixpoint fmt_subslice (gs : list Z) : bytes :=
  match gs with
  | [] => []
  | [g] => hex16 g
  | g :: t => hex16 g ++ c_colon :: fmt_subslice t
  end.

Definition show_v6 (o : bytes) : bytes :=
  let gs := segments o in
  if bool_decide (take 6 gs = [0; 0; 0; 0; 0; 65535]) then str "::ffff:" ++ show_v4 (drop 12 o)
  else let '(start, n) := longest_zeros 0 (0%nat, 0%nat) (0%nat, 0%nat) gs in
       if Nat.ltb 1 n then fmt_subslice (take start gs) ++ str "::" ++ fmt_subslice (drop (start + n) gs)
       else fmt_subslice gs.

Definition show_ip (a : IpAddr) : bytes := match a with IpV4 o => show_v4 o | IpV6 o => show_v6 o end.

(** [is_unspecified]. *)
Definition is_unspecified (a : IpAddr) : bool :=
  match a with IpV4 o | IpV6 o => forallb (Z.eqb 0) o end.

(** [Display] of a [SocketAddr]. *)
Definition show_socket (a : SocketAddr) : bytes :=
  match sa_ip a with
  | IpV4 o => show_v4 o ++ c_colon :: dec (sa_port a)
  | IpV6 o => c_lbrack :: show_v6 o ++ c_rbrack :: c_colon :: dec (sa_port a)
  end.

(** ** Reading back what was printed *)

Lemma read_digits_app ds t : Forall (fun c => is_digit c = true) ds -> (forall c r, t = c :: r -> is_digit c = false) ->
  forall v max acc n, dec_val acc ds = Some v -> (length ds <= max)%nat ->
  read_digits 10 max acc n (ds ++ t) = Some (v, (n + length ds)%nat, t).
Proof.
  intros Hd Ht; induction Hd as [|c ds Hc _ IH]; intros v max acc n Hv Hm; cbn [dec_val app length] in *.
  - injection Hv as ->. rewrite Nat.add_0_r. destruct max, t as [|c r]; cbn; try done;
      unfold to_digit; cbn [Z.eqb Pos.eqb]; by rewrite (Ht c r eq_refl).
  - rewrite Hc in Hv. destruct max as [|max]; [lia|]. cbn [read_digits]. unfold to_digit; cbn [Z.eqb Pos.eqb]. rewrite Hc.
    rewrite (IH v) by (try lia; rewrite <- Hv; f_equal; lia). by rewrite Nat.add_succ_r.
Qed.

(** The digits [dec] prints: their number below a power of ten, and no leading
    zero. *)
Lemma dec_digits_short f k n : 0 <= n < 10 ^ Z.of_nat (S k) -> (length (dec_digits f n []) <= S k)%nat.
Proof.
  revert f n; induction k as [|k IH]; intros f n Hn; destruct f as [|f]; cbn [dec_digits length]; [lia| |lia|].
  - change (10 ^ Z.of_nat 1) with 10 in Hn. zbool. cbn; lia.
  - destruct (n <? 10) eqn:E; [cbn; lia|bsimpl]. rewrite dec_digits_app, length_app. cbn [length].
    rewrite (Nat2Z.inj_succ (S k)), Z.pow_succ_r in Hn by lia.
    specialize (IH f (n / 10)). assert (0 <= n / 10 < 10 ^ Z.of_nat (S k)); [|specialize (IH H); lia].
    split; [apply Z.div_pos; lia|apply Z.div_lt_upper_bound; lia].
Qed.

Lemma dec_digits_head f n : 10 <= n < 10 ^ Z.of_nat f -> head (dec_digits f n []) <> Some 48.
Proof.
  revert n; induction f as [|f IH]; intros n Hn; [cbn in Hn; lia|]. cbn [dec_digits]. zbool.
  rewrite dec_digits_app. rewrite Nat2Z.inj_succ, Z.pow_succ_r in Hn by lia.
  assert (Hb : 1 <= n / 10 < 10 ^ Z.of_nat f) by (split; [apply Z.div_le_lower_bound; lia|apply Z.div_lt_upper_bound; lia]).
  destruct f as [|f]; [cbn in Hb; lia|]. destruct (Z.lt_ge_cases (n / 10) 10) as [H|H].
  - cbn [dec_digits]. zbool. rewrite Z.mod_small by lia. cbn. intros [=]; lia.
  - specialize (IH (n / 10) ltac:(lia)). cbn [dec_digits] in *. rewrite (proj2 (Z.ltb_ge _ _)) in * by lia.
    rewrite dec_digits_app in *. by destruct (dec_digits f (n / 10 / 10) []).
Qed.

Lemma read_number_dec max limit zero n t : 0 <= n <= limit -> n < 10 ^ 20 ->
  (forall c r, t = c :: r -> is_digit c = false) -> (length (dec n) <= max)%nat ->
  read_number 10 max limit zero (dec n ++ t) = Some (n, t).
Proof.
  intros Hn H20 Ht Hl. unfold read_number.
  rewrite (read_digits_app (dec n) t) with (v := n); [| |done|apply dec_val_digits; lia|lia].
  2:{ apply Forall_forall; intros c; apply dec_digit. }
  pose proof (dec_nonempty n) as Hne. cbn [Nat.add]. destruct (Nat.eqb_spec (length (dec n)) 0) as [E|_].
  { by destruct (dec n). }
  zbool. destruct zero; [done|]. cbn [negb andb]. destruct (bool_decide_reflect (head (dec n ++ t) = Some 48)) as [Hh|]; [|done].
  cbn [andb]. destruct (Nat.ltb_spec 1 (length (dec n))) as [H1|]; [|done]. exfalso.
  destruct (Z.lt_ge_cases n 10) as [Hlt|Hge].
  - pose proof (dec_digits_short 20 0 n ltac:(change (10 ^ Z.of_nat 1) with 10; lia)). unfold dec in H1; lia.
  - apply (dec_digits_head 20 n); [lia|]. fold (dec n). by destruct (dec n).
Qed.

(** ** The size and the characters of a printed address *)

Definition ip_char (c : Z) : Prop := 46 <= c <= 102.

Lemma ip_text t : forallb (in_rng 46 102) t = true -> Forall ip_char t.
Proof.
  intros H. apply Forall_forall; intros c Hc. rewrite forallb_forall in H. specialize (H c (proj1 (list_elem_of_In _ _) Hc)).
  unfold in_rng in H; bsimpl. unfold ip_char; lia.
Qed.

Lemma dec_chars_ip n : Forall ip_char (dec n).
Proof.
  apply Forall_forall; intros c Hc. apply dec_digit in Hc. unfold is_digit, in_rng in Hc. bsimpl. unfold ip_char; lia.
Qed.

Lemma hex16_text x : 0 <= x -> Forall ip_char (hex16 x) /\ (length (hex16 x) <= 4)%nat.
Proof.
  intros Hx. assert (Hd : forall k, 0 <= k -> ip_char (hex_digit (x / 16 ^ k mod 16))).
  { intros k _. pose proof (Z.mod_pos_bound (x / 16 ^ k) 16). unfold ip_char, hex_digit. destruct (Z.ltb_spec (x / 16 ^ k mod 16) 10); lia. }
  unfold hex16; cbv zeta. destruct (x <? 16); [|destruct (x <? 256); [|destruct (x <? 4096)]];
    (split; [repeat constructor; apply Hd; lia|cbn; lia]).
Qed.

Lemma fmt_text gs : Forall (fun g => 0 <= g) gs -> Forall ip_char (fmt_subslice gs) /\ (length (fmt_subslice gs) <= 5 * length gs)%nat.
Proof.
  induction 1 as [|g gs Hg _ [IH1 IH2]]; [done|]. destruct (hex16_text g Hg) as [H1 H2]. cbn [fmt_subslice]. destruct gs as [|g' gs].
  - split; [done|cbn [length]; lia].
  - split; [apply Forall_app; split; [done|]; constructor; [unfold ip_char, c_colon; lia|done]|].
    rewrite length_app; cbn [length] in *; lia.
Qed.

Lemma segments_nonneg n : forall o, (length o <= n)%nat -> wf_bytes o -> Forall (fun g => 0 <= g) (segments o).
Proof.
  induction n as [|n IH]; intros o Hl Hw; (destruct o as [|a [|b t]]; cbn in Hl; try lia; constructor).
  - apply wf_bytes_cons in Hw as [Ha Hw]. apply wf_bytes_cons in Hw as [Hb _]. unfold is_byte in *; lia.
  - apply IH; [lia|]. apply wf_bytes_cons in Hw as [_ Hw]. by apply wf_bytes_cons in Hw as [_ Hw].
Qed.

Lemma length_segments o : (length (segments o) <= length o)%nat.
Proof.
  assert (H : forall n o, (length o <= n)%nat -> (length (segments o) <= length o)%nat); [|by eapply H].
  clear o; induction n as [|n IH]; intros o Hl; (destruct o as [|a [|b t]]; cbn [segments length] in *; try lia).
  specialize (IH t ltac:(lia)). lia.
Qed.

Lemma show_v4_text o : wf_bytes o -> Forall ip_char (show_v4 o) /\ (length (show_v4 o) <= 15)%nat.
Proof.
  intros Hw. destruct o as [|a [|b [|c [|d [|]]]]]; cbn [show_v4]; try (split; [constructor|cbn; lia]).
  unfold wf_bytes in Hw. rewrite !Forall_cons in Hw. destruct Hw as (Ha & Hb & Hc & Hd & _).
  assert (Hl : forall x, is_byte x -> (length (dec x) <= 3)%nat).
  { intros x Hx. apply dec_digits_short. unfold is_byte in Hx. cbn; lia. }
  assert (Hdot : ip_char c_dot) by (unfold ip_char, c_dot; lia). split.
  - repeat first [apply Forall_app; split | apply Forall_cons; split | apply dec_chars_ip | exact Hdot].
  - pose proof (Hl a Ha); pose proof (Hl b Hb); pose proof (Hl c Hc); pose proof (Hl d Hd).
    repeat (rewrite length_app; cbn [length]). lia.
Qed.

(** The text of an address is short and in ASCII. *)
Lemma show_ip_text a : wf_bytes (match a with IpV4 o | IpV6 o => o end) -> (length (match a with IpV4 o | IpV6 o => o end) <= 16)%nat ->
  Forall ip_char (show_ip a) /\ len (show_ip a) <= 255.
Proof.
  destruct a as [o|o]; intros Hw Hl; cbn [show_ip].
  - destruct (show_v4_text o Hw) as [H1 H2]; split; [done|unfold len; lia].
  - pose proof (segments_nonneg _ o (le_n _) Hw) as Hn. pose proof (length_segments o).
    unfold show_v6. destruct (bool_decide _).
    + destruct (show_v4_text (drop 12 o)) as [H1 H2]; [by apply wf_bytes_drop|]. rewrite Forall_app, len_app. split.
      * split; [by apply ip_text|done].
      * change (len (str "::ffff:")) with 7. unfold len; lia.
    + destruct (longest_zeros _ _ _ _) as [st n]. destruct (Nat.ltb 1 n).
      * destruct (fmt_text (take st (segments o))) as [H1 H2]; [by apply Forall_take|].
        destruct (fmt_text (drop (st + n) (segments o))) as [H3 H4]; [by apply Forall_drop|].
        rewrite length_take, length_drop in *. rewrite !Forall_app, !len_app.
        change (len (str "::")) with 2. split; [split_and!; try done; by apply ip_text|unfold len; lia].
      * destruct (fmt_text (segments o)) as [H1 H2]; [done|]. split; [done|unfold len; lia].
Qed.

(** An IPv4 socket address is read back from its text. *)
Theorem parse_show_socket_v4 o p : length o = 4%nat -> wf_bytes o -> 0 <= p <= u16_max ->
  parse_socket (show_socket {| sa_ip := IpV4 o; sa_port := p |}) = Some {| sa_ip := IpV4 o; sa_port := p |}.
Proof.
  intros Hl Hw Hp. destruct o as [|a [|b [|c [|d [|]]]]]; try discriminate Hl.
  unfold wf_bytes in Hw. rewrite !Forall_cons in Hw. destruct Hw as (Ha & Hb & Hc & Hd & _). unfold is_byte in *.
  assert (Ho : forall x t, 0 <= x < 256 -> (forall c r, t = c :: r -> is_digit c = false) ->
            read_number 10 3 255 false (dec x ++ t) = Some (x, t)).
  { intros x t Hx Ht. apply read_number_dec; try lia; [done|]. apply dec_digits_short. cbn; lia. }
  unfold parse_socket, read_socket_v4, read_ipv4, read_octet, show_socket, show_v4; cbn [sa_ip sa_port read_separator].
  repeat first [rewrite <- app_assoc | rewrite <- app_comm_cons].
  do 3 (rewrite Ho by (try lia; intros ? ? [= <- _]; reflexivity); cbn [mbind option_bind read_given_char]; rewrite Z.eqb_refl).
  rewrite Ho by (try lia; intros ? ? [= <- _]; reflexivity). cbn [mbind option_bind].
  unfold read_socket_port. cbn [read_given_char]. rewrite Z.eqb_refl. cbn [mbind option_bind].
  rewrite <- (app_nil_r (dec p)), read_number_dec; [done|unfold u16_max in *; lia|unfold u16_max in *; lia|done|].
  rewrite length_app; lia.
Qed.

(** ** Values *)

Example parse_socket_values :
  parse_socket (str "0.0.0.0:443") = Some {| sa_ip := IpV4 [0; 0; 0; 0]; sa_port := 443 |}
  /\ parse_socket (str "[::1]:9100") = Some {| sa_ip := from_segments [0; 0; 0; 0; 0; 0; 0; 1]; sa_port := 9100 |}
  /\ parse_socket (str "[fe80::1%7]:00080") = Some {| sa_ip := from_segments [65152; 0; 0; 0; 0; 0; 0; 1]; sa_port := 80 |}
  /\ parse_socket (str "localhost:443") = None /\ parse_socket (str "1.2.3.4:65536") = None /\ parse_socket (str ":443") = None.
Proof. by vm_compute. Qed.

Example parse_v4 : parse_ip (str "198.51.100.7") = Some (IpV4 [198; 51; 100; 7]).
Proof. reflexivity. Qed.
Example parse_v4_leading_zero : parse_ip (str "198.51.100.07") = None.
Proof. reflexivity. Qed.
Example parse_v6 : parse_ip (str "2001:db8::1") = Some (IpV6 [32; 1; 13; 184; 0; 0; 0; 0; 0; 0; 0; 0; 0; 0; 0; 1]).
Proof. vm_compute; reflexivity. Qed.
Example parse_v6_mapped : parse_ip (str "::ffff:127.0.0.1") =
  Some (IpV6 [0; 0; 0; 0; 0; 0; 0; 0; 0; 0; 255; 255; 127; 0; 0; 1]).
Proof. vm_compute; reflexivity. Qed.
Example parse_domain : parse_ip (str "example.com") = None.
Proof. vm_compute; reflexivity. Qed.
Example parse_nine : parse_ip (str "1:2:3:4:5:6:7:8:9") = None /\ parse_ip (str "1:2:3:4:5:6:7::") <> None
  /\ parse_ip (str "1:2:3:4:5:6:7:8::") = None.
Proof. vm_compute; done. Qed.
Example show_v6_run : show_ip (from_segments [0; 0; 1; 0; 0; 0; 10; 65535]) = str "0:0:1::a:ffff".
Proof. vm_compute; reflexivity. Qed.
Example show_unspecified : show_ip (from_segments (replicate 8 0)) = str "::".
Proof. vm_compute; reflexivity. Qed.
