(* ===== verification/Clock.v ===== *)
(** * The calibrated clock: [clock.rs]

    The offset measured from an HTTP [Date] header, the retry loop that
    refreshes it, and [now_unix], with the civil-date arithmetic checked against
    a calendar that counts days year by year and month by month. The connection
    (resolution, TCP, TLS) is a parameter: given the request an attempt gives an
    error or the reads of the response. *)

From S2P Require Import Prelude Bytes.

Definition SYNC_ATTEMPTS : nat := 3.

(** ** Dates *)

(** The [MONTHS] table. *)
Definition MONTHS : list (bytes * Z) :=
  [(str "Jan", 1); (str "Feb", 2); (str "Mar", 3); (str "Apr", 4); (str "May", 5); (str "Jun", 6);
   (str "Jul", 7); (str "Aug", 8); (str "Sep", 9); (str "Oct", 10); (str "Nov", 11); (str "Dec", 12)].

Definition find_month (s : bytes) : option Z :=
  snd <$> find (fun p => bool_decide (p.1 = s)) MONTHS.

(** The days since the epoch ([i64] division truncates). *)
Definition days_from_civil (year month day : Z) : Z :=
  let y := if month <=? 2 then year - 1 else year in
  let era := Z.quot (if 0 <=? y then y else y - 399) 400 in
  let yoe := y - era * 400 in
  let mp := Z.rem (month + 9) 12 in
  let doy := Z.quot (153 * mp + 2) 5 + day - 1 in
  let doe := yoe * 365 + Z.quot yoe 4 - Z.quot yoe 100 + doy in
  era * 146097 + doe - 719468.

Definition ends_with_char (c : Z) (s : bytes) : bool :=
  match last s with Some x => x =? c | None => false end.

Definition parse_http_date (s : bytes) : option Z :=
  match split_whitespace s with
  | t0 :: t1 :: t2 :: t3 :: t4 :: _ :: _ =>
    if negb (ends_with_char 44 t0) then None else
    day ← parse_i64 t1;
    month ← find_month t2;
    year ← parse_i64 t3;
    if negb (in_rng 1 9999 year) || negb (in_rng 1 31 day) then None else
    match split_on c_colon t4 with
    | [hms0; hms1; hms2] =>
      h ← parse_i64 hms0;
      mi ← parse_i64 hms1;
      sec ← parse_i64 hms2;
      if negb (in_rng 0 23 h) || negb (in_rng 0 59 mi) || negb (in_rng 0 60 sec) then None
      else Some (days_from_civil year month day * 86400 + h * 3600 + mi * 60 + sec)
    | _ => None
    end
  | _ => None
  end.

(** ** The query *)

Record TimeUrl := { tu_host : bytes; tu_port : Z; tu_path : bytes; tu_tls : bool }.

Definition parse_url (url : bytes) : result msg TimeUrl :=
  let? (tls, rest) := match strip_prefix (str "https://") url with
                      | Some r => Ok (true, r)
                      | None => match strip_prefix (str "http://") url with
                                | Some r => Ok (false, r)
                                | None => Err "time URL must start with http:// or https://"
                                end
                      end in
  let '(authority, path) := match split_once c_slash rest with
                            | Some (a, p) => (a, c_slash :: p)
                            | None => (rest, str "/")
                            end in
  let? (host, port) := match rsplit_once c_colon authority with
                       | Some (h, p) => let? q := ok_or (parse_uint u16_max p) "bad port" in Ok (h, q)
                       | None => Ok (authority, if tls : bool then 443 else 80)
                       end in
  let? _ := ensure (negb (bool_decide (host = []))) "empty host" in
  Ok {| tu_host := host; tu_port := port; tu_path := path; tu_tls := tls |}.

(** The first [Date] header among the lines of the response head. *)
Fixpoint find_date (ls : list bytes) : option bytes :=
  match ls with
  | [] => None
  | l :: t =>
    match split_once c_colon l with
    | Some (k, v) => if eq_ignore_case k (str "date") then Some (trim v) else find_date t
    | None => find_date t
    end
  end.

Definition USER_AGENT : bytes := str
  "Mozilla/5.0 (Windows NT 10.0; Win64; x64) AppleWebKit/537.36 (KHTML, like Gecko) Chrome/131.0.0.0 Safari/537.36".

(** The HEAD request. *)
Definition date_request (u : TimeUrl) : bytes :=
  str "HEAD " ++ tu_path u ++ str " HTTP/1.1" ++ crlf ++ str "Host: " ++ tu_host u ++ crlf
  ++ str "User-Agent: " ++ USER_AGENT ++ crlf ++ str "Connection: close" ++ crlf ++ crlf.

Definition HEAD_CAP : Z := 16 * 1024.
Definition DATE_CHUNK : Z := 1024.

(** Reading the header block: up to a blank line, past the cap or at the end of
    the stream; reads that stop coming are the timeout. *)
Fixpoint read_date_head (buf : bytes) (reads : list (result msg bytes)) : result msg bytes :=
  if contains (crlf ++ crlf) buf || (HEAD_CAP <? len buf) then Ok buf
  else match reads with
       | [] => Err "response timeout"
       | Err e :: _ => Err e
       | Ok [] :: _ => Ok buf
       | Ok c :: t => read_date_head (buf ++ c) t
       end.

(** [http_date_query] at system time [sys_ts]; [exchange] connects, sends the
    request and gives the reads. *)
Definition http_date_query (url : bytes) (exchange : TimeUrl -> bytes -> result msg (list (result msg bytes))) (sys_ts : Z)
  : result msg Z :=
  let? u := parse_url url in
  let? reads := exchange u (date_request u) in
  let? buf := read_date_head [] reads in
  let? date := ok_or (find_date (lines (utf8_lossy buf))) "no Date header in response" in
  let? server_ts := ok_or (parse_http_date date) "bad Date" in
  Ok (server_ts - sys_ts).

(** ** The sync loop *)

(** One round of [spawn]'s loop: at most [attempts] queries, the first that
    succeeds sets [CLOCK_OFFSET]. [query] gives the result of the n-th attempt. *)
Fixpoint sync_attempts (query : nat -> result msg Z) (attempt attempts : nat) (offset : Z) : Z :=
  match attempts with
  | O => offset
  | S n => match query attempt with
           | Ok off => off
           | Err _ => sync_attempts query (S attempt) n offset
           end
  end.

Definition sync_round (query : nat -> result msg Z) (offset : Z) : Z :=
  sync_attempts query 1 SYNC_ATTEMPTS offset.

(** [(sys + off).max(0)]. *)
Definition now_unix (sys off : Z) : Z := Z.max 0 (sys + off).

(** ** The calendar *)

Definition leap (y : Z) : bool :=
  ((y mod 4 =? 0) && negb (y mod 100 =? 0)) || (y mod 400 =? 0).
Definition year_days (y : Z) : Z := if leap y then 366 else 365.
Definition month_days (lp : bool) (m : Z) : Z :=
  if m =? 2 then (if lp then 29 else 28)
  else if (m =? 4) || (m =? 6) || (m =? 9) || (m =? 11) then 30 else 31.

(** The days of the years 1 to [n]. *)
Fixpoint days_of_years (n : nat) : Z :=
  match n with O => 0 | S k => days_of_years k + year_days (Z.of_nat (S k)) end.
(** The days of the months 1 to [m] of a leap or common year. *)
Fixpoint days_of_months (lp : bool) (m : nat) : Z :=
  match m with O => 0 | S k => days_of_months lp k + month_days lp (Z.of_nat (S k)) end.

(** The day number of a date, 1 January of year 1 being day 0. *)
Definition day_number (y m d : Z) : Z :=
  days_of_years (Z.to_nat (y - 1)) + days_of_months (leap y) (Z.to_nat (m - 1)) + (d - 1).

(** Seconds since 1 January 1970. *)
Definition unix_time (y m d h mi s : Z) : Z :=
  (day_number y m d - day_number 1970 1 1) * 86400 + h * 3600 + mi * 60 + s.

Definition two (n : Z) : bytes := [48 + n / 10; 48 + n mod 10].
Definition four (n : Z) : bytes := two (n / 100) ++ two (n mod 100).
Definition month_name (m : Z) : bytes := (nth (Z.to_nat (m - 1)) MONTHS ([], 0)).1.

(** RFC 7231 IMF-fixdate. *)
Definition imf_fixdate (wd : bytes) (y m d h mi s : Z) : bytes :=
  (wd ++ [44]) ++ c_space :: two d ++ c_space :: month_name m ++ c_space :: four y ++ c_space ::
  (two h ++ c_colon :: two mi ++ c_colon :: two s) ++ c_space :: str "GMT".

Lemma days_of_years_closed n :
  days_of_years n = 365 * Z.of_nat n + Z.of_nat n / 4 - Z.of_nat n / 100 + Z.of_nat n / 400.
Proof.
  induction n as [|k IH]; [done|]; cbn [days_of_years]; rewrite IH; unfold year_days, leap.
  destruct (Z.of_nat (S k) mod 4 =? 0) eqn:E4, (Z.of_nat (S k) mod 100 =? 0) eqn:E100,
    (Z.of_nat (S k) mod 400 =? 0) eqn:E400; cbn [andb orb negb]; bsimpl;
    Z.to_euclidean_division_equations; lia.
Qed.

Lemma month_range m : 1 <= m <= 12 ->
  m = 1 \/ m = 2 \/ m = 3 \/ m = 4 \/ m = 5 \/ m = 6 \/ m = 7 \/ m = 8 \/ m = 9 \/ m = 10 \/ m = 11 \/ m = 12.
Proof. lia. Qed.
Ltac month_cases H := apply month_range in H;
  destruct H as [->|[->|[->|[->|[->|[->|[->|[->|[->|[->|[->| ->]]]]]]]]]]].

Lemma day_number_epoch : day_number 1970 1 1 = 719162.
Proof. unfold day_number; rewrite days_of_years_closed; reflexivity. Qed.

(** The days of [Y] whole years counted by eras of 400. *)
Lemma era_days Y : 0 <= Y ->
  let era := Z.quot Y 400 in let yoe := Y - era * 400 in
  era * 146097 + (yoe * 365 + Z.quot yoe 4 - Z.quot yoe 100) = days_of_years (Z.to_nat Y).
Proof.
  intros HY; cbv zeta; rewrite days_of_years_closed, Z2Nat.id by done.
  rewrite !Z.quot_div_nonneg by (Z.to_euclidean_division_equations; lia).
  Z.to_euclidean_division_equations; lia.
Qed.

Lemma days_of_years_pred y : 1 <= y ->
  days_of_years (Z.to_nat y) = days_of_years (Z.to_nat (y - 1)) + year_days y.
Proof.
  intros Hy; replace (Z.to_nat y) with (S (Z.to_nat (y - 1))) by lia.
  cbn [days_of_years]; do 2 f_equal; lia.
Qed.

(** Hinnant's formula counts the calendar's days. *)
Lemma days_from_civil_spec y m d : 1 <= y -> 1 <= m <= 12 ->
  days_from_civil y m d = day_number y m d - day_number 1970 1 1.
Proof.
  intros Hy Hm; rewrite day_number_epoch; unfold day_number, days_from_civil.
  pose proof (era_days (y - 1) ltac:(lia)) as E1; pose proof (era_days y ltac:(lia)) as E2.
  rewrite days_of_years_pred in E2 by done; unfold year_days in E2; cbv zeta in *.
  month_cases Hm;
  rewrite ?(proj2 (Z.leb_le 1 2)), ?(proj2 (Z.leb_le 2 2)), ?(proj2 (Z.leb_gt _ 2)) by lia;
  rewrite (proj2 (Z.leb_le 0 _)) by lia;
  lazymatch goal with |- context [Z.quot (153 * ?b + 2) 5] =>
    let n := eval vm_compute in (Z.quot (153 * b + 2) 5) in change (Z.quot (153 * b + 2) 5) with n end;
  destruct (leap y);
  lazymatch goal with |- context [days_of_months ?b ?k] =>
    let n := eval vm_compute in (days_of_months b k) in change (days_of_months b k) with n end; lia.
Qed.

(** ** Parsing what the calendar prints *)

Lemma two_digits n : 0 <= n < 100 ->
  is_digit (48 + n / 10) = true /\ is_digit (48 + n mod 10) = true.
Proof.
  intros H; split; [|apply is_digit_mod].
  unfold is_digit, in_rng; Z.to_euclidean_division_equations; lia.
Qed.

Lemma parse_i64_digit c t : is_digit c = true -> parse_i64 (c :: t) =
  match dec_val 0 (c :: t) with Some v => if v <=? 2 ^ 63 - 1 then Some v else None | None => None end.
Proof.
  intros H; unfold is_digit, in_rng in H; unfold parse_i64, parse_uint, c_minus, c_plus.
  by rewrite !(proj2 (Z.eqb_neq c _)) by lia.
Qed.

Lemma dec_val_two a n t : 0 <= n < 100 -> dec_val a (two n ++ t) = dec_val (100 * a + n) t.
Proof.
  intros H; pose proof (two_digits n H) as [H1 H2]; cbn [two app dec_val]; rewrite H1, H2.
  f_equal; pose proof (Z.div_mod n 10); lia.
Qed.

Lemma parse_two n : 0 <= n < 100 -> parse_i64 (two n) = Some n.
Proof.
  intros H; pose proof (two_digits n H) as [H1 _]; unfold two; rewrite parse_i64_digit by done.
  change (_ :: _) with (two n); rewrite <- (app_nil_r (two n)), dec_val_two by done.
  cbn [dec_val]; by rewrite (proj2 (Z.leb_le _ _)) by lia.
Qed.

Lemma parse_four n : 0 <= n < 10000 -> parse_i64 (four n) = Some n.
Proof.
  intros H; assert (Hq : 0 <= n / 100 < 100) by (Z.to_euclidean_division_equations; lia).
  pose proof (Z.mod_pos_bound n 100 ltac:(lia)) as Hr.
  pose proof (two_digits _ Hq) as [H1 _].
  unfold four, two at 1; cbn [app]; rewrite parse_i64_digit by done.
  change (_ :: _ :: two (n mod 100)) with (two (n / 100) ++ two (n mod 100)).
  rewrite dec_val_two by done; rewrite <- (app_nil_r (two (n mod 100))), dec_val_two by done.
  cbn [dec_val]; replace (100 * (100 * 0 + n / 100) + n mod 100) with n by (pose proof (Z.div_mod n 100); lia).
  by rewrite (proj2 (Z.leb_le _ _)) by lia.
Qed.

Lemma digit_plain c : is_digit c = true -> plain c = true.
Proof. unfold is_digit, plain, in_rng; lia. Qed.

Lemma two_plain n : 0 <= n < 100 -> forallb plain (two n) = true.
Proof. intros H; pose proof (two_digits n H) as [H1 H2]; cbn; by rewrite !digit_plain. Qed.
Lemma four_plain n : 0 <= n < 10000 -> forallb plain (four n) = true.
Proof.
  intros H; unfold four; rewrite forallb_app, !two_plain; [done|..];
    [apply Z.mod_pos_bound; lia|Z.to_euclidean_division_equations; lia].
Qed.

Lemma two_no_colon n : 0 <= n < 100 -> c_colon ∉ two n.
Proof.
  intros H; pose proof (two_digits n H) as [H1 H2]; unfold two, is_digit, in_rng, c_colon in *.
  rewrite !elem_of_cons, elem_of_nil; lia.
Qed.

Lemma month_name_spec m : 1 <= m <= 12 ->
  forallb plain (month_name m) = true /\ month_name m <> [] /\ find_month (month_name m) = Some m.
Proof. intros H; month_cases H; vm_compute; done. Qed.

Lemma hms_split h mi s : 0 <= h < 100 -> 0 <= mi < 100 -> 0 <= s < 100 ->
  split_on c_colon (two h ++ c_colon :: two mi ++ c_colon :: two s) = [two h; two mi; two s].
Proof.
  intros; rewrite split_on_char by (by apply two_no_colon).
  rewrite split_on_char by (by apply two_no_colon).
  by rewrite split_on_none by (by apply two_no_colon).
Qed.

Lemma hms_plain h mi s : 0 <= h < 100 -> 0 <= mi < 100 -> 0 <= s < 100 ->
  forallb plain (two h ++ c_colon :: two mi ++ c_colon :: two s) = true.
Proof.
  intros; rewrite forallb_app; cbn [forallb]; rewrite forallb_app; cbn [forallb].
  by rewrite !two_plain.
Qed.

(** The words of an IMF-fixdate. *)
Lemma imf_fixdate_words wd y m d h mi s : forallb plain wd = true ->
  1 <= y <= 9999 -> 1 <= m <= 12 -> 1 <= d <= 31 -> 0 <= h <= 23 -> 0 <= mi <= 59 -> 0 <= s <= 60 ->
  split_whitespace (imf_fixdate wd y m d h mi s) =
    [wd ++ [44]; two d; month_name m; four y; two h ++ c_colon :: two mi ++ c_colon :: two s; str "GMT"].
Proof.
  intros Hw Hy Hm Hd Hh Hmi Hs; unfold imf_fixdate.
  pose proof (month_name_spec m Hm) as (Hmp & Hmn & _).
  rewrite split_whitespace_word; [|rewrite forallb_app, Hw; done|destruct wd; done].
  rewrite split_whitespace_word; [|apply two_plain; lia|done].
  rewrite split_whitespace_word by done.
  rewrite split_whitespace_word; [|apply four_plain; lia|done].
  rewrite split_whitespace_word; [|apply hms_plain; lia|done].
  done.
Qed.

(** The civil-date arithmetic agrees with the calendar. The date an HTTP
    server prints (IMF-fixdate) for any day of the Gregorian calendar from year
    1 to 9999 and any time of day, leap second included, parses to the number
    of seconds since the epoch obtained by counting the days of each year and
    month. *)
Theorem http_date_exact wd y m d h mi s :
  forallb plain wd = true -> 1 <= y <= 9999 -> 1 <= m <= 12 -> 1 <= d <= month_days (leap y) m ->
  0 <= h <= 23 -> 0 <= mi <= 59 -> 0 <= s <= 60 ->
  parse_http_date (imf_fixdate wd y m d h mi s) = Some (unix_time y m d h mi s).
Proof.
  intros Hw Hy Hm Hd Hh Hmi Hs.
  assert (Hd' : 1 <= d <= 31) by (revert Hd; unfold month_days; destr; lia).
  unfold parse_http_date; rewrite imf_fixdate_words by done.
  unfold ends_with_char; rewrite last_snoc; cbn [Z.eqb Pos.eqb negb].
  destruct (month_name_spec m Hm) as (_ & _ & Hfm).
  rewrite parse_two, Hfm, parse_four by lia; cbn [mbind option_bind].
  rewrite hms_split by lia; rewrite !parse_two by lia; cbn [mbind option_bind].
  unfold in_rng; zbool; cbn [andb negb orb].
  unfold unix_time; by rewrite days_from_civil_spec by lia.
Qed.

(** ** The synchronised clock *)

(** An accepted date is between the years 1 and 9999, so no [i64] operation on
    it overflows. *)
Lemma parse_http_date_bounds s ts : parse_http_date s = Some ts -> - 2 ^ 36 < ts < 2 ^ 38.
Proof.
  unfold parse_http_date; intros H.
  destruct (split_whitespace s) as [|t0 [|t1 [|t2 [|t3 [|t4 [|t5 tl]]]]]]; try done.
  destruct (negb (ends_with_char 44 t0)); [done|].
  destruct (parse_i64 t1) as [day|]; [|done]; cbn [mbind option_bind] in H.
  destruct (find_month t2) as [m|] eqn:Em; [|done]; cbn [mbind option_bind] in H.
  destruct (parse_i64 t3) as [y|]; [|done]; cbn [mbind option_bind] in H.
  destruct (_ || _) eqn:Er in H; [done|].
  destruct (split_on c_colon t4) as [|a [|b [|c [|? ?]]]]; try done.
  destruct (parse_i64 a) as [h|], (parse_i64 b) as [mi|], (parse_i64 c) as [sec|]; try done.
  cbn [mbind option_bind] in H; destruct (_ || _) eqn:Et in H; [done|]; simplify_eq.
  bsimpl; unfold in_rng in *; bsimpl.
  assert (Hm : 1 <= m <= 12).
  { unfold find_month in Em; apply fmap_Some in Em as ((nm & k) & Hf & ->).
    apply find_some in Hf as [Hin _]; cbn in Hin |- *; naive_solver lia. }
  rewrite days_from_civil_spec, day_number_epoch by lia; unfold day_number.
  rewrite days_of_years_closed, Z2Nat.id by lia.
  assert (0 <= days_of_months (leap y) (Z.to_nat (m - 1)) <= 366).
  { month_cases Hm; destruct (leap y); vm_compute; done. }
  Z.to_euclidean_division_equations; lia.
Qed.

Lemma http_date_query_ok url exchange sys off : http_date_query url exchange sys = Ok off ->
  exists u reads buf date ts, parse_url url = Ok u /\ exchange u (date_request u) = Ok reads /\ read_date_head [] reads = Ok buf /\
    find_date (lines (utf8_lossy buf)) = Some date /\ parse_http_date date = Some ts /\ off = ts - sys.
Proof. unfold http_date_query; intros; rinv; naive_solver. Qed.

(** What a time source can make the client hold: the cap and one read more. *)
Theorem date_head_bounded reads buf : Forall (fun r => match r with Ok c => len c <= DATE_CHUNK | Err _ => True end) reads ->
  read_date_head [] reads = Ok buf -> len buf <= HEAD_CAP + DATE_CHUNK.
Proof.
  assert (H : forall acc, len acc <= HEAD_CAP + DATE_CHUNK ->
    Forall (fun r => match r with Ok c => len c <= DATE_CHUNK | Err _ => True end) reads -> read_date_head acc reads = Ok buf -> len buf <= HEAD_CAP + DATE_CHUNK).
  { induction reads as [|[[|x c]|e] t IH]; intros acc Ha Hr; cbn [read_date_head];
      destruct (Z.ltb_spec HEAD_CAP (len acc)); rewrite ?orb_true_r, ?orb_false_r;
      try (intros [= <-]; exact Ha); destruct (contains _ _); try (intros [= <-]; exact Ha); try done.
    apply Forall_cons in Hr as [Hc Hr]. apply IH; [rewrite len_app; lia|done]. }
  intros Hr. apply H; [vm_compute; discriminate|done].
Qed.

(** The round keeps the first success, or the old offset. *)
Lemma sync_attempts_spec q a n off :
  (exists k, (a <= k < a + n)%nat /\ (forall j, (a <= j < k)%nat -> is_ok (q j) = false) /\
     q k = Ok (sync_attempts q a n off)) \/
  ((forall j, (a <= j < a + n)%nat -> is_ok (q j) = false) /\ sync_attempts q a n off = off).
Proof.
  revert a; induction n as [|n IH]; intros a; cbn [sync_attempts]; [right; split; [lia|done]|].
  destruct (q a) as [o|e] eqn:E; [left; exists a; split; [lia|split; [lia|done]]|].
  assert (Ha : is_ok (q a) = false) by (by rewrite E).
  destruct (IH (S a)) as [(k & Hk & Hj & Hq)|[Hj Ho]].
  - left; exists k; split; [lia|split; [|done]].
    intros j Hjk; destruct (decide (j = a)) as [->|]; [done|apply Hj; lia].
  - right; split; [|done]. intros j Hjk; destruct (decide (j = a)) as [->|]; [done|apply Hj; lia].
Qed.

(** [i64] arithmetic stays in range. *)
Definition fits_i64 (x : Z) : Prop := - 2 ^ 63 <= x < 2 ^ 63.

(** A synchronisation round leaves the clock reading either the server's
    time or what it read before. With the n-th attempt (of at most three) the
    first to return a parsable date, the internal clock at any later system
    time reads that date plus the time elapsed since; when every attempt fails
    the offset is unchanged. In both cases the offset stays small enough that
    [sys + off] never overflows an [i64]. *)
Theorem clock_sync url (exchange : nat -> TimeUrl -> bytes -> result msg (list (result msg bytes))) (sys : nat -> Z) old :
  (forall n, 0 <= sys n < 2 ^ 62) -> Z.abs old < 2 ^ 62 + 2 ^ 38 ->
  let q n := http_date_query url (exchange n) (sys n) in
  let off := sync_round q old in
  ((exists n u reads buf date ts, (1 <= n <= SYNC_ATTEMPTS)%nat /\
      (forall k, (1 <= k < n)%nat -> is_ok (q k) = false) /\
      parse_url url = Ok u /\ exchange n u (date_request u) = Ok reads /\ read_date_head [] reads = Ok buf /\
      find_date (lines (utf8_lossy buf)) = Some date /\ parse_http_date date = Some ts /\
      forall sys', now_unix sys' off = Z.max 0 (ts + (sys' - sys n)))
   \/ ((forall n, (1 <= n <= SYNC_ATTEMPTS)%nat -> is_ok (q n) = false) /\ off = old)) /\
  Z.abs off < 2 ^ 62 + 2 ^ 38 /\ (forall sys', 0 <= sys' < 2 ^ 61 -> fits_i64 (sys' + off)).
Proof.
  intros Hsys Hold q off.
  assert (Hb : Z.abs off < 2 ^ 62 + 2 ^ 38 -> forall sys', 0 <= sys' < 2 ^ 61 -> fits_i64 (sys' + off))
    by (unfold fits_i64; lia).
  destruct (sync_attempts_spec q 1 SYNC_ATTEMPTS old) as [(n & Hn & Hk & Hq)|[Hk Ho]];
    [change (q n = Ok off) in Hq|change (off = old) in Ho]; clearbody off.
  - destruct (http_date_query_ok _ _ _ _ Hq) as (u & reads & buf & date & ts & Hu & Hf & Hb' & Hd & Hp & Hoff).
    pose proof (parse_http_date_bounds _ _ Hp); specialize (Hsys n).
    assert (Z.abs off < 2 ^ 62 + 2 ^ 38) by lia.
    split; [left; exists n, u, reads, buf, date, ts|auto].
    do 7 (split; [done || (unfold SYNC_ATTEMPTS in *; lia)|]); intros sys'; unfold now_unix; lia.
  - rewrite Ho in *; split; [right; split; [|done]|auto].
    intros n Hn; apply Hk; lia.
Qed.

(** ** Witnesses *)

Module ClockWitness.

Definition resp : bytes :=
  str "HTTP/1.1 200 OK" ++ [13; 10] ++ str "date: Sat, 12 Sep 2026 03:51:12 GMT" ++ [13; 10; 13; 10].

Example date_leap : parse_http_date (str "Sat, 29 Feb 2020 12:00:00 GMT") = Some 1582977600.
Proof. vm_compute; reflexivity. Qed.
Example date_year_huge : parse_http_date (str "Thu, 01 Jan 9223372036854775807 00:00:00 GMT") = None.
Proof. vm_compute; reflexivity. Qed.
Example url_port : parse_url (str "http://host:8080") =
  Ok {| tu_host := str "host"; tu_port := 8080; tu_path := str "/"; tu_tls := false |}.
Proof. vm_compute; reflexivity. Qed.

Lemma http_date_exact_witness :
  parse_http_date (imf_fixdate (str "Sat") 2020 2 29 12 0 0) = Some (unix_time 2020 2 29 12 0 0)
  /\ imf_fixdate (str "Sat") 2020 2 29 12 0 0 = str "Sat, 29 Feb 2020 12:00:00 GMT".
Proof.
  split; [|vm_compute; reflexivity].
  apply (http_date_exact (str "Sat") 2020 2 29 12 0 0); vm_compute; repeat split; intro; discriminate.
Defined.

(** The first attempt fails and the second one sets the offset. *)
Lemma clock_sync_witness :
  let exchange n (_ : TimeUrl) (_ : bytes) := if Nat.eqb n 1 then Err "connect timeout" else Ok [Ok (take 30 resp); Ok (drop 30 resp)] in
  let q n := http_date_query (str "https://t/") (exchange n) 1789185000 in
  sync_round q 0 = 72 /\ Z.abs (sync_round q 0) < 2 ^ 62 + 2 ^ 38.
Proof.
  cbv zeta; split; [vm_compute; reflexivity|].
  apply (clock_sync (str "https://t/") (fun n _ _ => if Nat.eqb n 1 then Err "connect timeout" else Ok [Ok (take 30 resp); Ok (drop 30 resp)])
           (fun _ => 1789185000) 0); [intros _; lia|lia].
Defined.

Lemma date_head_bounded_witness : read_date_head [] [Ok (take 30 resp); Ok (drop 30 resp)] = Ok resp /\ len resp <= HEAD_CAP + DATE_CHUNK.
Proof.
  split; [vm_compute; reflexivity|]. apply (date_head_bounded [Ok (take 30 resp); Ok (drop 30 resp)] resp).
  - repeat constructor; vm_compute; discriminate.
  - vm_compute; reflexivity.
Defined.

End ClockWitness.
