(* ===== verification/Crypto.v ===== *)
(** * Crypto: the inner end-to-end crypto layer ([src/src/proto/crypto.rs])

    The AEAD, HKDF and HMAC crates are parameters (class [Prims]) with their
    documented behaviour as laws (class [PrimsLaws]); everything the file
    itself computes (nonces, counters, the replay window, bearer tokens, the
    AUTH payload codec and its verification) is defined here. *)

From S2P Require Import Prelude Bytes.

(** ** The cryptographic crates, as an interface *)

(** [chacha20poly1305] (detached, in place), [hkdf] with SHA-256 and a
    32-byte output, [hmac] with SHA-256. *)
Class Prims := {
  aead_enc : bytes -> bytes -> bytes -> bytes -> option (bytes * bytes);
  aead_dec : bytes -> bytes -> bytes -> bytes -> bytes -> option bytes;
  hkdf_okm : bytes -> bytes -> bytes -> bytes;
  hmac_tag : bytes -> bytes -> bytes;
}.

(** Largest plaintext RFC 8439 allows; longer input is the only seal error. *)
Definition AEAD_P_MAX : Z := 2 ^ 38 - 64.

(** Documented behaviour of those crates: sealing succeeds up to the RFC
    length, keeps the length and gives a 16-byte tag; opening recomputes the
    tag, so it accepts exactly what sealing produced; HKDF output and HMAC tag
    are 32 bytes. *)
Class PrimsLaws (P : Prims) : Prop := {
  aead_enc_total k n a pt : len pt <= AEAD_P_MAX -> is_Some (aead_enc k n a pt);
  aead_enc_len k n a pt ct tag : aead_enc k n a pt = Some (ct, tag) ->
    length ct = length pt /\ length tag = 16%nat;
  aead_dec_enc k n a pt ct tag : aead_enc k n a pt = Some (ct, tag) ->
    aead_dec k n a ct tag = Some pt;
  aead_enc_dec k n a pt ct tag : aead_dec k n a ct tag = Some pt ->
    aead_enc k n a pt = Some (ct, tag);
  hkdf_len i s o : length (hkdf_okm i s o) = 32%nat;
  hmac_len k d : length (hmac_tag k d) = 32%nat;
  hmac_wf k d : wf_bytes (hmac_tag k d);
}.

(** A concrete instance of the interface, for witnesses: the identity cipher
    with a polynomial checksum as tag. *)
Module Toy.

Definition checksum (b : bytes) : Z := fold_left (fun h x => (h * 257 + x + 1) mod 2 ^ 120) b 7.

Definition enc (k n a pt : bytes) : option (bytes * bytes) :=
  Some (pt, le_bytes 16 (checksum (k ++ n ++ a ++ pt))).
Definition dec (k n a ct tag : bytes) : option bytes :=
  if bool_decide (tag = le_bytes 16 (checksum (k ++ n ++ a ++ ct))) then Some ct else None.

#[global] Instance prims : Prims := {|
  aead_enc := enc;
  aead_dec := dec;
  hkdf_okm i s o := le_bytes 32 (checksum (i ++ s ++ o));
  hmac_tag k d := le_bytes 32 (checksum (k ++ d));
|}.

#[global] Instance laws : PrimsLaws prims.
Proof.
  split; cbn; unfold enc, dec; intros; simplify_eq; rewrite ?length_le_bytes; eauto with newppp.
  - by rewrite bool_decide_true.
  - destr; bsimpl; by subst.
Qed.

End Toy.

Section crypto.
Context {P : Prims}.

(** ** Constants *)

Definition SALT_LEN : Z := 16.
Definition KEY_LEN : Z := 32.
Definition MAC_LEN : Z := 32.
Definition TAG_LEN : Z := 16.
Definition AUTH_WINDOW : Z := 60.

(** [proto::frame::PROTO_VERSION] and [MAX_PLAINTEXT], which this file uses. *)
Definition PROTO_VERSION : Z := 2.
Definition MAX_PLAINTEXT : Z := 16 * 1024.

(** ** Keys *)

Definition hkdf_sha256 (ikm salt info : bytes) : bytes := hkdf_okm ikm salt info.

Definition derive_static_key (password uid : bytes) : bytes :=
  hkdf_sha256 password (str "newppp-v1") (str "newppp/auth/" ++ uid).

Definition derive_session_key (static_key salt : bytes) : bytes :=
  hkdf_sha256 static_key salt (str "newppp/session").

Definition nonce_for (counter : Z) : bytes := replicate 4 0 ++ be_bytes 8 counter.

(** ** FrameCipher *)

Record FrameCipher := { fc_key : bytes }.

Definition cipher_new (key : bytes) : FrameCipher := {| fc_key := key |}.

(** Encrypts [buf] in place: the new buffer and the detached tag. *)
Definition seal_slice (c : FrameCipher) (counter : Z) (aad buf : bytes)
  : result msg (bytes * bytes) :=
  ok_or (aead_enc (fc_key c) (nonce_for counter) aad buf) "aead seal failed".

Definition seal (c : FrameCipher) (counter : Z) (aad plaintext : bytes) : result msg bytes :=
  let? (buf, tag) := seal_slice c counter aad plaintext in Ok (buf ++ tag).

Definition open (c : FrameCipher) (counter : Z) (aad ciphertext : bytes) : result msg bytes :=
  let? _ := ensure (TAG_LEN <=? len ciphertext) "ciphertext too short" in
  let n := (length ciphertext - Z.to_nat TAG_LEN)%nat in
  let ct := take n ciphertext in
  let tag := drop n ciphertext in
  ok_or (aead_dec (fc_key c) (nonce_for counter) aad ct tag) "aead open failed".

(** ** CounterGen *)

(** [next] is the value of the shared [AtomicU64]. *)
Record CounterGen := { cg_base : Z; cg_next : Z }.

Definition cg_stream : CounterGen := {| cg_base := 1; cg_next := 0 |}.
Definition cg_stream_server : CounterGen := {| cg_base := Z.shiftl 1 62; cg_next := 0 |}.
Definition cg_datagram : CounterGen := {| cg_base := Z.shiftl 1 63; cg_next := 0 |}.
Definition cg_datagram_server : CounterGen :=
  {| cg_base := Z.lor (Z.shiftl 1 63) (Z.shiftl 1 62); cg_next := 0 |}.

(** [next]: [fetch_add] wraps; so does the release-build [u64] addition. *)
Definition cg_take (g : CounterGen) : Z * CounterGen :=
  (wrap 64 (cg_base g + cg_next g),
   {| cg_base := cg_base g; cg_next := wrap 64 (cg_next g + 1) |}).

(** ** ReplayWindow *)

Record ReplayWindow := { rw_highest : Z; rw_mask : Z }.

Definition rw_new : ReplayWindow := {| rw_highest := 0; rw_mask := 0 |}.

Definition rw_check (w : ReplayWindow) (counter : Z) : bool * ReplayWindow :=
  if counter =? 0 then (false, w)
  else if rw_highest w =? 0 then (true, {| rw_highest := counter; rw_mask := 1 |})
  else if rw_highest w <? counter then
    let shift := Z.min (counter - rw_highest w) 64 in
    let mask :=
      if shift =? 64 then 1
      else Z.lor (wrap 64 (Z.shiftl (rw_mask w) shift)) 1 in
    (true, {| rw_highest := counter; rw_mask := mask |})
  else
    let d := rw_highest w - counter in
    if (64 <=? d) || negb (Z.land (rw_mask w) (Z.shiftl 1 d) =? 0) then (false, w)
    else (true, {| rw_highest := rw_highest w; rw_mask := Z.lor (rw_mask w) (Z.shiftl 1 d) |}).

(** ** MAC, hex and bearer tokens *)

Definition auth_mac_input (uid : bytes) (ts : Z) (nonce : bytes) : bytes :=
  str "newppp-auth|" ++ uid ++ str "|" ++ le_bytes 8 ts ++ str "|" ++ nonce.

Definition auth_mac (key uid : bytes) (ts : Z) (nonce : bytes) : bytes :=
  hmac_tag key (auth_mac_input uid ts nonce).

Definition hex (b : bytes) : bytes :=
  flat_map (fun x => [hex_digit (x / 16); hex_digit (x mod 16)]) b.

Fixpoint unhex_pairs (b : bytes) : option bytes :=
  match b with
  | [] => Some []
  | [_] => None
  | h :: l :: t =>
    match to_digit16 h with
    | None => None
    | Some hi =>
      match to_digit16 l with
      | None => None
      | Some lo =>
        match unhex_pairs t with
        | None => None
        | Some r => Some (wrap 8 (Z.lor (Z.shiftl hi 4) lo) :: r)
        end
      end
    end
  end.

Definition unhex (s : bytes) : option bytes :=
  if negb (len s mod 2 =? 0) then None else unhex_pairs s.

(** The accumulated difference of the constant-time comparison loop. *)
Definition ct_diff (a b : bytes) : Z :=
  fold_left (fun d p => Z.lor d (Z.lxor p.1 p.2)) (zip a b) 0.

(** [make_bearer]; the clock value and the random nonce are arguments. *)
Definition make_bearer (key uid : bytes) (now : Z) (nonce : bytes) : bytes :=
  let ts := now in
  let mac := auth_mac key uid ts nonce in
  uid ++ str "." ++ dec ts ++ str "." ++ hex nonce ++ str "." ++ hex mac.

(** Whether a timestamp is outside the window (both sides saturating). *)
Definition out_of_window (now ts window : Z) : bool :=
  (window <? sat_sub now ts) || (window <? sat_sub ts now).

Definition unhex_exact (n : Z) (s : bytes) : option bytes :=
  match unhex s with
  | Some v => if len v =? n then Some v else None
  | None => None
  end.

Definition verify_bearer_parts (now : Z) (token key expected_uid : bytes) (window : Z)
  : option (Z * bytes) :=
  match split_on c_dot token with
  | [] => None
  | p0 :: parts1 =>
    if negb (bool_decide (p0 = expected_uid)) then None else
    match parts1 with
    | [] => None
    | p1 :: parts2 =>
      match parse_uint u64_max p1 with
      | None => None
      | Some ts =>
        match parts2 with
        | [] => None
        | p2 :: parts3 =>
          match unhex_exact SALT_LEN p2 with
          | None => None
          | Some nonce =>
            match parts3 with
            | [] => None
            | p3 :: parts4 =>
              match unhex_exact MAC_LEN p3 with
              | None => None
              | Some mac =>
                match parts4 with
                | _ :: _ => None
                | [] =>
                  if out_of_window now ts window then None
                  else if ct_diff (auth_mac key expected_uid ts nonce) mac =? 0
                       then Some (ts, nonce) else None
                end
              end
            end
          end
        end
      end
    end
  end.

Definition bearer_uid (token : bytes) : option bytes :=
  match split_on c_dot token with
  | p :: _ => if bool_decide (p = []) then None else Some p
  | [] => None
  end.

(** ** AuthPayload *)

Record AuthPayload := {
  ap_proto_version : Z;
  ap_salt : bytes;
  ap_ts : Z;
  ap_nonce : bytes;
  ap_uid : bytes;
  ap_mac : bytes;
  ap_max_plaintext : Z;
}.

Definition ap_encode (a : AuthPayload) : bytes :=
  ap_proto_version a :: ap_salt a ++ le_bytes 8 (ap_ts a) ++ ap_nonce a
  ++ wrap 8 (len (ap_uid a)) :: ap_uid a ++ ap_mac a ++ le_bytes 4 (ap_max_plaintext a).

Definition ap_decode (b : bytes) : result msg AuthPayload :=
  let? _ := ensure (1 + 16 + 8 + 16 + 1 + 32 <=? len b) "auth payload truncated" in
  let proto_version := nth 0 b 0 in
  let salt := slice b 1 17 in
  let ts := le_val (slice b 17 25) in
  let nonce := slice b 25 41 in
  let ul := nth 41 b 0 in
  let p := 42%nat in
  let? _ := ensure (Z.of_nat p + ul + 32 <=? len b) "auth payload truncated" in
  let uid := slice b p (p + Z.to_nat ul) in
  let? _ := ensure (utf8_valid uid) "invalid utf-8" in
  let p := (p + Z.to_nat ul)%nat in
  let mac := slice b p (p + 32) in
  let p := (p + 32)%nat in
  let max_plaintext :=
    if Z.of_nat p + 4 <=? len b then le_val (slice b p (p + 4)) else MAX_PLAINTEXT in
  Ok {| ap_proto_version := proto_version; ap_salt := salt; ap_ts := ts; ap_nonce := nonce;
        ap_uid := uid; ap_mac := mac; ap_max_plaintext := max_plaintext |}.

Definition ap_proto_version_compatible (a : AuthPayload) : bool :=
  ap_proto_version a =? PROTO_VERSION.

Definition ap_verify (now : Z) (a : AuthPayload) (static_key : bytes) (window : Z) : bool :=
  if out_of_window now (ap_ts a) window then false
  else ct_diff (auth_mac static_key (ap_uid a) (ap_ts a) (ap_nonce a)) (ap_mac a) =? 0.

End crypto.

(** ** The replay window refines a history of accepted counters *)

Section replay.

(** Abstract state: the list of counters accepted so far. *)
Definition newest (seen : list Z) : Z := foldr Z.max 0 seen.

(** What the window promises: a counter is accepted when it is non-zero, not
    seen before and fewer than 64 behind the newest accepted one. *)
Definition fresh (seen : list Z) (c : Z) : bool :=
  negb (c =? 0) && negb (bool_decide (c ∈ seen)) && (newest seen - c <? 64).

Definition accept_spec (seen : list Z) (c : Z) : bool * list Z :=
  if fresh seen c then (true, c :: seen) else (false, seen).

Definition is_u64 (c : Z) : Prop := 0 <= c < 2 ^ 64.

(** The concrete window represents the history. *)
Definition rw_rel (w : ReplayWindow) (seen : list Z) : Prop :=
  rw_highest w = newest seen
  /\ Forall (fun c => 0 < c) seen
  /\ (forall d, 0 <= d -> Z.testbit (rw_mask w) d = (d <? 64) && bool_decide (newest seen - d ∈ seen)).

(** The verdicts of a run of checks, concretely and abstractly. *)
Fixpoint rw_run (w : ReplayWindow) (cs : list Z) : list bool :=
  match cs with
  | [] => []
  | c :: t => let '(ok, w') := rw_check w c in ok :: rw_run w' t
  end.

Fixpoint spec_run (seen : list Z) (cs : list Z) : list bool :=
  match cs with
  | [] => []
  | c :: t => let '(ok, seen') := accept_spec seen c in ok :: spec_run seen' t
  end.

(** The counters a run of checks accepted, in order. *)
Fixpoint rw_accepted (w : ReplayWindow) (cs : list Z) : list Z :=
  match cs with
  | [] => []
  | c :: t => let '(ok, w') := rw_check w c in
              if ok then c :: rw_accepted w' t else rw_accepted w' t
  end.

Lemma newest_ge seen c : c ∈ seen -> c <= newest seen.
Proof.
  unfold newest; induction seen as [|x seen IH]; cbn; intros H; [by apply not_elem_of_nil in H|].
  apply elem_of_cons in H as [->|H]; [lia|]. specialize (IH H); lia.
Qed.

Lemma newest_elem seen : Forall (fun c => 0 < c) seen -> seen <> [] -> newest seen ∈ seen.
Proof.
  unfold newest; induction 1 as [|x seen Hx Hs IH]; intros Hne; [done|]; cbn.
  destruct seen as [|y seen].
  - cbn; rewrite Z.max_l by lia; apply list_elem_of_here.
  - destruct (Z.max_spec x (foldr Z.max 0 (y :: seen))) as [[_ ->]|[_ ->]];
      [apply list_elem_of_further; auto|apply list_elem_of_here].
Qed.

Lemma newest_zero seen : Forall (fun c => 0 < c) seen -> newest seen = 0 -> seen = [].
Proof.
  intros Hp Hz; destruct seen as [|x seen]; [done|].
  inversion Hp; subst; unfold newest in Hz; cbn in Hz; lia.
Qed.

Lemma rw_rel_new : rw_rel rw_new [].
Proof.
  split; [done|split; [constructor|]]; intros d Hd; cbn.
  rewrite Z.bits_0, bool_decide_false by apply not_elem_of_nil; by destruct (d <? 64).
Qed.

Lemma land_bit_zero m d : 0 <= d -> (Z.land m (Z.shiftl 1 d) =? 0) = negb (Z.testbit m d).
Proof.
  intros Hd.
  assert (Z.land m (Z.shiftl 1 d) = if Z.testbit m d then 2 ^ d else 0) as ->.
  { rewrite Z.shiftl_1_l; apply Z.bits_inj'; intros n Hn.
    rewrite Z.land_spec, Z.pow2_bits_eqb by lia.
    destruct (d =? n) eqn:E; bsimpl; subst.
    - destruct (Z.testbit m n) eqn:Em; [by rewrite Z.pow2_bits_true|by rewrite Z.bits_0].
    - rewrite andb_false_r; destruct (Z.testbit m d); [|by rewrite Z.bits_0].
      by rewrite Z.pow2_bits_false. }
  destruct (Z.testbit m d); [|done].
  apply Z.eqb_neq; pose proof (Z.pow_pos_nonneg 2 d); lia.
Qed.

Lemma newest_cons c seen : newest (c :: seen) = Z.max c (newest seen).
Proof. done. Qed.

Lemma fresh_behind seen c : 0 < c <= newest seen ->
  fresh seen c = negb (bool_decide (c ∈ seen)) && (newest seen - c <? 64).
Proof. intros; unfold fresh; by replace (c =? 0) with false by lia. Qed.

Lemma fresh_ahead seen c : 0 <= newest seen < c -> fresh seen c = true.
Proof.
  intros H; unfold fresh.
  rewrite bool_decide_false by (intros Hin%newest_ge; lia); lia.
Qed.

Lemma testbit_1 d : 0 <= d -> Z.testbit 1 d = (d =? 0).
Proof. intros; change 1 with (2 ^ 0) at 1; rewrite Z.pow2_bits_eqb by lia; lia. Qed.

(** Bits of the mask after the window moved up to a larger counter. *)
Lemma shift_mask_bits m s d : 0 <= s < 64 -> 0 <= d ->
  Z.testbit (Z.lor (wrap 64 (Z.shiftl m s)) 1) d =
  (d =? 0) || ((d <? 64) && (s <=? d) && Z.testbit m (d - s)).
Proof.
  intros Hs Hd; unfold wrap; rewrite Z.lor_spec, <- Z.land_ones, Z.land_spec by lia.
  rewrite Z.shiftl_spec, testbit_1, Z.testbit_ones_nonneg by lia.
  destruct (Z.leb_spec s d); [|rewrite (Z.testbit_neg_r m) by lia];
    destruct (Z.testbit m (d - s)), (Z.ltb_spec d 64), (Z.eqb_spec d 0); cbn; lia || done.
Qed.

(** Moving the window up: bit [d] now stands for [c - d]. *)
Lemma rw_rel_ahead w seen c : rw_rel w seen -> 0 < newest seen < c ->
  rw_rel (rw_check w c).2 (c :: seen).
Proof.
  intros (Hh & Hp & Hm) Hc; unfold rw_check; rewrite Hh.
  replace (c =? 0) with false by lia; replace (newest seen =? 0) with false by lia.
  replace (newest seen <? c) with true by lia; cbn [snd].
  split; [cbn [rw_highest]; rewrite newest_cons; lia|split; [constructor; [lia|done]|]].
  intros d Hd; cbn [rw_mask]; rewrite newest_cons, Z.max_l by lia.
  assert (Hb : bool_decide (c - d ∈ c :: seen) = (d =? 0) || bool_decide (c - d ∈ seen)).
  { destruct (Z.eqb_spec d 0) as [->|]; cbn.
    - rewrite Z.sub_0_r; apply bool_decide_eq_true, list_elem_of_here.
    - apply bool_decide_ext; rewrite elem_of_cons; split; [intros [?|?]; [lia|done]|auto]. }
  rewrite Hb. clear Hb.
  destruct (Z.eqb_spec (Z.min (c - newest seen) 64) 64) as [Hs|Hs].
  - rewrite testbit_1 by lia. destruct (Z.eqb_spec d 0) as [->|]; [done|]; cbn.
    destruct (Z.ltb_spec d 64); [|done]; cbn. symmetry; apply bool_decide_eq_false.
    intros Hin%newest_ge; lia.
  - rewrite shift_mask_bits by lia.
    destruct (Z.eqb_spec d 0) as [->|]; [done|]; cbn [orb].
    destruct (Z.ltb_spec d 64); cbn [andb]; [|done].
    destruct (Z.leb_spec (Z.min (c - newest seen) 64) d); cbn [andb].
    + rewrite Hm by lia. rewrite Z.min_l in * by lia.
      replace (newest seen - (d - (c - newest seen))) with (c - d) by lia.
      destruct (Z.ltb_spec (d - (c - newest seen)) 64); [done|lia].
    + symmetry; apply bool_decide_eq_false; intros Hin%newest_ge; lia.
Qed.

(** Accepting a counter inside the window sets its bit. *)
Lemma rw_rel_behind w seen c : rw_rel w seen -> 0 < c <= newest seen ->
  fresh seen c = fst (rw_check w c)
  /\ rw_rel (snd (rw_check w c)) (if fresh seen c then c :: seen else seen).
Proof.
  intros (Hh & Hp & Hm) Hc; rewrite fresh_behind by done; unfold rw_check; rewrite Hh.
  replace (c =? 0) with false by lia; replace (newest seen =? 0) with false by lia.
  replace (newest seen <? c) with false by lia.
  rewrite land_bit_zero, negb_involutive, Hm by lia.
  replace (newest seen - (newest seen - c)) with c by lia.
  destruct (Z.leb_spec 64 (newest seen - c)); cbn [orb].
  { replace (newest seen - c <? 64) with false by lia; rewrite andb_false_r; by split_and!. }
  replace (newest seen - c <? 64) with true by lia; cbn [andb]; rewrite andb_true_r.
  destruct (bool_decide_reflect (c ∈ seen)) as [Hin|Hin]; cbn [negb fst snd]; [by split_and!|].
  split; [done|]. split; [cbn [rw_highest]; rewrite newest_cons; lia|].
  split; [constructor; [lia|done]|].
  intros d Hd; cbn [rw_mask]; rewrite newest_cons, Z.max_r, Z.lor_spec, Hm by lia.
  rewrite Z.shiftl_1_l, Z.pow2_bits_eqb by lia.
  destruct (Z.ltb_spec d 64); cbn [andb orb]; [|lia].
  destruct (Z.eqb_spec (newest seen - c) d) as [<-|Hne].
  - rewrite orb_true_r; symmetry; apply bool_decide_eq_true.
    replace (newest seen - (newest seen - c)) with c by lia; apply list_elem_of_here.
  - rewrite orb_false_r; apply bool_decide_ext; rewrite elem_of_cons; split; [auto|].
    intros [?|?]; [lia|done].
Qed.

Lemma rw_rel_first w c : rw_rel w [] -> 0 < c ->
  rw_check w c = (true, {| rw_highest := c; rw_mask := 1 |})
  /\ rw_rel {| rw_highest := c; rw_mask := 1 |} [c].
Proof.
  intros (Hh & _ & _) Hc; unfold rw_check; rewrite Hh; cbn [newest foldr].
  replace (c =? 0) with false by lia; split; [done|].
  split; [unfold newest; cbn; lia|split; [by constructor|]].
  intros d Hd; cbn [rw_mask]; rewrite testbit_1 by done.
  replace (newest [c]) with c by (unfold newest; cbn; lia).
  destruct (Z.eqb_spec d 0) as [->|]; cbn.
  - symmetry; apply bool_decide_eq_true; rewrite Z.sub_0_r; apply list_elem_of_here.
  - rewrite bool_decide_false, andb_false_r; [done|].
    rewrite list_elem_of_singleton; lia.
Qed.

(** One check of the window does what the abstract history says. *)
Lemma rw_check_refines w seen c : rw_rel w seen -> 0 <= c ->
  fst (rw_check w c) = fst (accept_spec seen c)
  /\ rw_rel (snd (rw_check w c)) (snd (accept_spec seen c)).
Proof.
  intros Hr Hc; unfold accept_spec.
  destruct (Z.eq_dec c 0) as [->|Hnz]; [by unfold fresh, rw_check; cbn|].
  destruct (Z.eq_dec (newest seen) 0) as [Hn|Hn].
  - pose proof Hr as (_ & Hp & _); apply newest_zero in Hn as ->; [|done].
    destruct (rw_rel_first w c Hr) as [-> Hr']; [lia|].
    by rewrite fresh_ahead by (unfold newest; cbn; lia).
  - assert (0 < newest seen).
    { pose proof Hr as (_ & Hp & _). destruct seen as [|x seen]; [done|].
      inversion Hp; subst; rewrite newest_cons in *; lia. }
    destruct (Z.le_gt_cases c (newest seen)) as [Hle|Hgt].
    + destruct (rw_rel_behind w seen c Hr) as [Hf Hr']; [lia|].
      rewrite <- Hf; by destruct (fresh seen c).
    + rewrite fresh_ahead by lia. pose proof (rw_rel_ahead w seen c Hr) as Hr'.
      destruct Hr as (Hh & _ & _); split; [|apply Hr'; lia].
      unfold rw_check; rewrite Hh. replace (c =? 0) with false by lia.
      replace (newest seen =? 0) with false by lia; by replace (newest seen <? c) with true by lia.
Qed.

Lemma rw_run_refines w seen cs : rw_rel w seen -> Forall is_u64 cs ->
  rw_run w cs = spec_run seen cs.
Proof.
  intros Hr Hcs; revert w seen Hr; induction Hcs as [|c cs Hc Hcs IH]; intros w seen Hr; cbn; [done|].
  unfold is_u64 in Hc; destruct (rw_check_refines w seen c Hr) as [H1 H2]; [lia|].
  destruct (rw_check w c) as [ok w'], (accept_spec seen c) as [ok' seen']; cbn in *; subst.
  f_equal; auto.
Qed.

Lemma rw_accepted_fresh w seen cs : rw_rel w seen -> Forall is_u64 cs ->
  NoDup (rw_accepted w cs) /\ Forall (fun c => c ∉ seen) (rw_accepted w cs).
Proof.
  intros Hr Hcs; revert w seen Hr; induction Hcs as [|c cs Hc Hcs IH]; intros w seen Hr; cbn.
  { split; constructor. }
  unfold is_u64 in Hc; destruct (rw_check_refines w seen c Hr) as [H1 H2]; [lia|].
  destruct (rw_check w c) as [ok w']; cbn in *; subst ok; unfold accept_spec in *.
  destruct (fresh seen c) eqn:Hf; cbn in *; [|by apply IH].
  destruct (IH _ _ H2) as [Hnd Hfr]. split.
  - constructor; [|done]. intros Hin. rewrite Forall_forall in Hfr.
    specialize (Hfr _ Hin); set_solver.
  - constructor; [unfold fresh in Hf; by bsimpl|].
    eapply Forall_impl; [done|]; intros x Hx; set_solver.
Qed.

End replay.

(** ** Cipher, hex and comparison lemmas *)

Section lemmas.
Context {P : Prims} {L : PrimsLaws P}.

Lemma seal_ok c n a pt : len pt <= AEAD_P_MAX -> exists b tag,
  seal_slice c n a pt = Ok (b, tag) /\ length b = length pt /\ length tag = 16%nat.
Proof.
  intros Hl; destruct (aead_enc_total (fc_key c) (nonce_for n) a pt Hl) as [[b tag] He].
  exists b, tag; unfold seal_slice; rewrite He; cbn; split; [done|]. by eapply aead_enc_len.
Qed.

Lemma open_seal_slice c n a pt b tag : seal_slice c n a pt = Ok (b, tag) ->
  open c n a (b ++ tag) = Ok pt.
Proof.
  unfold seal_slice, open; intros He%ok_or_ok.
  destruct (aead_enc_len _ _ _ _ _ _ He) as [Hb Ht].
  rewrite len_app; unfold len; rewrite Ht; unfold TAG_LEN, ensure.
  zbool; cbn [rbind].
  rewrite length_app, Ht.
  replace (length b + 16 - Z.to_nat 16)%nat with (length b) by lia.
  rewrite take_app_length, drop_app_length. by rewrite (aead_dec_enc _ _ _ _ _ _ He).
Qed.

Lemma open_is_sealed c n a w pt : open c n a w = Ok pt -> seal c n a pt = Ok w.
Proof.
  unfold open, seal, seal_slice; intros H; rinv; bsimpl.
  match goal with Hd : aead_dec _ _ _ _ _ = _ |- _ => apply aead_enc_dec in Hd as -> end.
  cbn; f_equal; apply take_drop.
Qed.

Lemma to_digit_hex d : 0 <= d < 16 -> to_digit16 (hex_digit d) = Some d.
Proof.
  intros Hd; unfold to_digit16, hex_digit, is_digit, in_rng.
  destruct (Z.ltb_spec d 10); zbool; cbn [andb]; f_equal; lia.
Qed.

Lemma nibbles x : is_byte x -> wrap 8 (Z.lor (Z.shiftl (x / 16) 4) (x mod 16)) = x.
Proof.
  unfold is_byte; intros Hx.
  assert (Z.lor (Z.shiftl (x / 16) 4) (x mod 16) = x) as ->.
  { change 16 with (2 ^ 4); rewrite <- Z.shiftr_div_pow2, <- Z.land_ones by lia.
    apply Z.bits_inj'; intros n Hn; rewrite Z.lor_spec, Z.shiftl_spec, Z.land_spec by lia.
    rewrite Z.testbit_ones_nonneg by lia. destruct (Z.ltb_spec n 4).
    - rewrite Z.testbit_neg_r by lia; cbn; by rewrite andb_true_r.
    - rewrite Z.shiftr_spec by lia. replace (n - 4 + 4) with n by lia.
      by rewrite andb_false_r, orb_false_r. }
  apply wrap_small; lia.
Qed.

Lemma unhex_pairs_hex b : wf_bytes b -> unhex_pairs (hex b) = Some b.
Proof.
  induction 1 as [|x b Hx Hb IH]; [done|]; cbn [hex flat_map app unhex_pairs].
  unfold is_byte in Hx.
  rewrite !to_digit_hex by (split; [apply Z.div_pos || apply Z.mod_pos_bound; lia|
    apply Z.div_lt_upper_bound || apply Z.mod_pos_bound; lia]).
  fold (hex b); rewrite IH, nibbles; done.
Qed.

Lemma len_hex b : len (hex b) = 2 * len b.
Proof. induction b as [|x b IH]; [done|]; cbn [hex flat_map app]; fold (hex b); lens; lia. Qed.

Lemma hex_no c b : is_digit c = false -> in_rng 97 102 c = false -> wf_bytes b -> c ∉ hex b.
Proof.
  intros Hd Hl; induction 1 as [|x b Hx Hb IH]; cbn [hex flat_map app]; [apply not_elem_of_nil|].
  fold (hex b); unfold is_byte in Hx.
  assert (Hg : forall d, 0 <= d < 16 -> c <> hex_digit d).
  { intros d Hdd ->; unfold hex_digit, is_digit, in_rng in *; destruct (d <? 10) eqn:?; lia. }
  rewrite !not_elem_of_cons; split_and!; [| |done]; apply Hg;
    [split; [apply Z.div_pos; lia|apply Z.div_lt_upper_bound; lia]|apply Z.mod_pos_bound; lia].
Qed.

Lemma unhex_exact_hex n b : wf_bytes b -> len b = n -> unhex_exact n (hex b) = Some b.
Proof.
  intros Hb <-; unfold unhex_exact, unhex.
  rewrite len_hex, Z.mul_comm, Z.mod_mul, unhex_pairs_hex by done; cbn. by rewrite Z.eqb_refl.
Qed.

Lemma lor_fold_zero l d : fold_left (fun d p => Z.lor d (Z.lxor p.1 p.2)) l d = 0 <->
  d = 0 /\ Forall (fun p : Z * Z => p.1 = p.2) l.
Proof.
  revert d; induction l as [|[x y] l IH]; intros d; cbn [fold_left fst snd].
  - split; [intros ->; by split|by intros [-> _]].
  - rewrite IH, Z.lor_eq_0_iff, Z.lxor_eq_0_iff, Forall_cons; cbn; tauto.
Qed.

(** The constant-time comparison loop decides equality. *)
Lemma ct_diff_zero a b : length a = length b -> (ct_diff a b = 0 <-> a = b).
Proof.
  intros Hl; unfold ct_diff; rewrite lor_fold_zero; split.
  - intros [_ H]; revert b Hl H; induction a as [|x a IH]; intros [|y b] Hl H; try done.
    inv H; cbn in *; f_equal; [done|apply IH; [lia|done]].
  - intros ->; split; [done|]; clear Hl; induction b; constructor; auto.
Qed.

Lemma unhex_exact_len n s v : unhex_exact n s = Some v -> len v = n.
Proof. unfold unhex_exact; intros; destr; by bsimpl. Qed.

Lemma out_of_window_false now ts w : 0 <= w ->
  out_of_window now ts w = false <-> Z.abs (now - ts) <= w.
Proof. unfold out_of_window, sat_sub; lia. Qed.

(** What a successful verification of a token means. *)
Lemma verify_bearer_inv now token key uid w ts nonce : 0 <= w ->
  verify_bearer_parts now token key uid w = Some (ts, nonce) ->
  exists p1 p2 p3, split_on c_dot token = [uid; p1; p2; p3]
  /\ parse_uint u64_max p1 = Some ts /\ unhex_exact SALT_LEN p2 = Some nonce
  /\ unhex_exact MAC_LEN p3 = Some (auth_mac key uid ts nonce)
  /\ Z.abs (now - ts) <= w.
Proof.
  intros Hw H; unfold verify_bearer_parts in H; destr; bsimpl; subst.
  match goal with H : out_of_window _ _ _ = false |- _ => apply out_of_window_false in H; [|done] end.
  match goal with H : ct_diff _ ?m = 0, Hm : unhex_exact MAC_LEN _ = Some ?m |- _ =>
    apply ct_diff_zero in H; [rewrite <- H in Hm|
      apply unhex_exact_len in Hm; unfold auth_mac; rewrite hmac_len; unfold MAC_LEN, len in Hm; lia] end.
  eauto 10.
Qed.

Lemma auth_mac_input_inj u1 t1 n1 u2 t2 n2 : is_u64 t1 -> is_u64 t2 ->
  length n1 = length n2 -> auth_mac_input u1 t1 n1 = auth_mac_input u2 t2 n2 ->
  u1 = u2 /\ t1 = t2 /\ n1 = n2.
Proof.
  unfold auth_mac_input, is_u64; intros H1 H2 Hl H; apply app_inv_head in H.
  apply (app_inj_2 u1 u2) in H as [-> H]; [|rewrite !length_app, !length_le_bytes; lia].
  apply app_inv_head, app_inj_len in H as [Ht H]; [|by rewrite !length_le_bytes].
  apply app_inv_head in H as ->. split_and!; [done| |done].
  rewrite <- (le_val_small 8 t1), <- (le_val_small 8 t2) by (cbn; lia); congruence.
Qed.

End lemmas.

(** ** AUTH payload lemmas *)

Section payload.

(** The fields have the widths of the Rust types. *)
Definition ap_wf (a : AuthPayload) : Prop :=
  is_byte (ap_proto_version a) /\ length (ap_salt a) = 16%nat /\ is_u64 (ap_ts a)
  /\ length (ap_nonce a) = 16%nat /\ length (ap_mac a) = 32%nat
  /\ 0 <= ap_max_plaintext a < 2 ^ 32 /\ utf8_valid (ap_uid a) = true.

Lemma slice_skip n (a b : bytes) i j : length a = n -> (n <= i)%nat -> (n <= j)%nat ->
  slice (a ++ b) i j = slice b (i - n) (j - n).
Proof.
  intros <- Hi Hj; unfold slice. rewrite drop_app_ge by done.
  f_equal; lia.
Qed.

Lemma slice_head n (a b : bytes) j : length a = n -> j = n -> slice (a ++ b) 0 j = a.
Proof. intros <- ->; unfold slice; rewrite drop_0, Nat.sub_0_r; apply take_app_length. Qed.

Lemma nth_skip n (a b : bytes) i d : length a = n -> (n <= i)%nat ->
  nth i (a ++ b) d = nth (i - n) b d.
Proof. intros <- Hi; by apply app_nth2. Qed.

(** The version-1 part of an encoding: everything before the frame limit. *)
Definition ap_v1_prefix (a : AuthPayload) : bytes :=
  [ap_proto_version a] ++ ap_salt a ++ le_bytes 8 (ap_ts a) ++ ap_nonce a
  ++ [len (ap_uid a)] ++ ap_uid a ++ ap_mac a.

Definition with_max_plaintext (a : AuthPayload) (m : Z) : AuthPayload :=
  {| ap_proto_version := ap_proto_version a; ap_salt := ap_salt a; ap_ts := ap_ts a;
     ap_nonce := ap_nonce a; ap_uid := ap_uid a; ap_mac := ap_mac a; ap_max_plaintext := m |}.

Ltac skip5 := rewrite (slice_skip 1), (slice_skip 16), (slice_skip 8), (slice_skip 16), (slice_skip 1)
  by (done || lia).

(** Decoding reads the fields by prefix; the limit is what follows, if 4 bytes do. *)
Lemma ap_decode_prefix a rest : ap_wf a -> len (ap_uid a) <= 255 ->
  ap_decode (ap_v1_prefix a ++ rest) =
  Ok (with_max_plaintext a (if 4 <=? len rest then le_val (take 4 rest) else MAX_PLAINTEXT)).
Proof.
  intros (Hv & Hs & Ht & Hn & Hm & Hp & Hu) Hul; destruct a as [v salt ts nonce uid mac mp].
  unfold ap_decode, ap_v1_prefix, with_max_plaintext;
  cbn [ap_proto_version ap_salt ap_ts ap_nonce ap_uid ap_mac ap_max_plaintext] in *.
  rewrite <- !app_assoc; clear Hp mp.
  pose proof (length_le_bytes 8 ts) as H8.
  revert H8; rewrite <- (le_val_small 8 ts) at 3 by (unfold is_u64 in Ht; cbn; lia).
  generalize (le_bytes 8 ts) as bts; intros bts H8.
  set (b := [v] ++ _).
  assert (Hlen : len b = 1 + 16 + 8 + 16 + 1 + len uid + 32 + len rest).
  { subst b; rewrite !len_app; unfold len; cbn [length]; lia. }
  unfold ensure; pose proof (len_nonneg uid); pose proof (len_nonneg rest); rewrite Hlen.
  assert (Hul' : nth 41 b 0 = len uid).
  { subst b; cbn [app nth]; rewrite (nth_skip 16), (nth_skip 8), (nth_skip 16) by (done || lia); done. }
  rewrite Hul'; zbool; cbn [rbind].
  assert (Huid : slice b 42 (42 + Z.to_nat (len uid)) = uid).
  { subst b; skip5. apply (slice_head (length uid)); [done|unfold len; lia]. }
  rewrite Huid, Hu; cbn [rbind]; clear Huid Hul'. do 2 f_equal; subst b.
  - rewrite (slice_skip 1) by (done || lia). by apply (slice_head 16).
  - rewrite (slice_skip 1), (slice_skip 16) by (done || lia). by rewrite (slice_head 8).
  - rewrite (slice_skip 1), (slice_skip 16), (slice_skip 8) by (done || lia). by apply (slice_head 16).
  - skip5; rewrite (slice_skip (length uid)) by (unfold len; lia).
    replace (_ - length uid)%nat with 0%nat by (unfold len; lia). apply (slice_head 32); [done|unfold len; lia].
  - assert (Z.of_nat (42 + Z.to_nat (len uid) + 32) + 4 = 1 + 16 + 8 + 16 + 1 + len uid + 32 + 4) as -> by lia.
    destruct (Z.leb_spec 4 (len rest)); zbool; [|done].
    skip5; rewrite (slice_skip (length uid)), (slice_skip 32) by (unfold len; lia).
    f_equal; unfold slice; match goal with |- take ?n (drop ?m rest) = _ =>
      replace m with 0%nat by (unfold len; lia) end.
    rewrite drop_0; f_equal; unfold len; lia.
Qed.

Lemma ap_encode_prefix a : len (ap_uid a) <= 255 ->
  ap_encode a = ap_v1_prefix a ++ le_bytes 4 (ap_max_plaintext a).
Proof.
  intros; unfold ap_encode, ap_v1_prefix.
  rewrite wrap_small by (pose proof (len_nonneg (ap_uid a)); lia).
  by rewrite <- !app_assoc.
Qed.

Lemma ap_decode_encode a tail : ap_wf a -> len (ap_uid a) <= 255 ->
  ap_decode (ap_encode a ++ tail) = Ok a.
Proof.
  intros Hw Hu; rewrite ap_encode_prefix, <- app_assoc, ap_decode_prefix by done.
  rewrite len_app, len_le_bytes; pose proof (len_nonneg tail); zbool.
  rewrite take_app_len by apply length_le_bytes.
  destruct Hw as (_ & _ & _ & _ & _ & Hp & _). rewrite le_val_small by (cbn; lia). by destruct a.
Qed.

End payload.

(** ** Properties *)

Section properties.
Context {P : Prims} {L : PrimsLaws P}.

(** C10: over any run of received counters, the sliding-window bitmask gives
    the verdicts of its abstract specification: accept exactly the non-zero
    counters not accepted before and less than 64 behind the newest one. *)
Theorem replay_window_refines cs : Forall is_u64 cs -> rw_run rw_new cs = spec_run [] cs.
Proof. intros; apply rw_run_refines; [apply rw_rel_new|done]. Qed.

(** No counter is accepted twice by a replay window, whatever the order
    in which datagrams arrive. *)
Theorem replay_window_accepts_once cs : Forall is_u64 cs -> NoDup (rw_accepted rw_new cs).
Proof. intros H; by apply (rw_accepted_fresh rw_new [] cs rw_rel_new). Qed.

(** The first [n] counters of a generator. *)
Fixpoint cg_run (g : CounterGen) (n : nat) : list Z :=
  match n with
  | O => []
  | S m => let '(c, g') := cg_take g in c :: cg_run g' m
  end.

Lemma cg_run_seqZ g n : 0 <= cg_base g -> 0 <= cg_next g ->
  cg_base g + cg_next g + Z.of_nat n <= 2 ^ 64 ->
  cg_run g n = seqZ (cg_base g + cg_next g) (Z.of_nat n).
Proof.
  revert g; induction n as [|n IH]; intros g Hb Hn H; [done|].
  cbn [cg_run cg_take]. rewrite seqZ_cons by lia. f_equal; [apply wrap_small; lia|].
  destruct (decide (n = 0%nat)) as [->|Hnz]; [done|].
  rewrite IH; cbn [cg_base cg_next]; rewrite ?(wrap_small 64) by lia; try lia.
  f_equal; lia.
Qed.

Lemma nonce_for_inj x y : is_u64 x -> is_u64 y -> nonce_for x = nonce_for y -> x = y.
Proof.
  unfold nonce_for, is_u64; intros Hx Hy H; apply app_inv_head in H.
  eapply (be_bytes_inj 8); [cbn; lia..|done].
Qed.

Lemma NoDup_nonces l : NoDup l -> Forall is_u64 l -> NoDup (map nonce_for l).
Proof.
  induction 1 as [|x l Hx Hl IH]; intros Hu; cbn; constructor; inv Hu; [|auto].
  rewrite list_elem_of_In, in_map_iff; intros (y & Hy & Hin%list_elem_of_In).
  apply nonce_for_inj in Hy as ->; [done| |done]. by eapply Forall_forall in Hin.
Qed.

(** C11: as long as each of the four counter generators of a session (client
    and server, streams and datagrams) has produced at most [2^62] counters
    ([2^62 - 1] for the client streams), no AEAD nonce is used twice under
    the session key. *)
Theorem session_nonces_unique n1 n2 n3 n4 :
  Z.of_nat n1 <= 2 ^ 62 - 1 -> Z.of_nat n2 <= 2 ^ 62 ->
  Z.of_nat n3 <= 2 ^ 62 -> Z.of_nat n4 <= 2 ^ 62 ->
  NoDup (map nonce_for (cg_run cg_stream n1 ++ cg_run cg_stream_server n2
                        ++ cg_run cg_datagram n3 ++ cg_run cg_datagram_server n4)).
Proof.
  intros H1 H2 H3 H4.
  change cg_stream_server with {| cg_base := 2 ^ 62; cg_next := 0 |}.
  change cg_datagram with {| cg_base := 2 ^ 63; cg_next := 0 |}.
  change cg_datagram_server with {| cg_base := 2 ^ 63 + 2 ^ 62; cg_next := 0 |}.
  unfold cg_stream; rewrite !cg_run_seqZ by (cbn [cg_base cg_next]; lia); cbn [cg_base cg_next].
  apply NoDup_nonces.
  - repeat (apply NoDup_app; split_and!; [apply NoDup_seqZ| |]); [..|apply NoDup_seqZ];
      intros x; rewrite ?elem_of_app, !elem_of_seqZ; lia.
  - rewrite !Forall_app; split_and!; apply Forall_forall; intros x;
      rewrite elem_of_seqZ; unfold is_u64; lia.
Qed.

(** A freshly minted bearer token verifies, for its user and key, at any
    server clock within the window of the client's clock, and verification
    returns the token's timestamp and nonce. *)
Theorem bearer_roundtrip key uid nonce now now' w :
  c_dot ∉ uid -> is_u64 now -> wf_bytes nonce -> len nonce = SALT_LEN ->
  Z.abs (now' - now) <= w ->
  verify_bearer_parts now' (make_bearer key uid now nonce) key uid w = Some (now, nonce).
Proof.
  intros Hu Hn Hwf Hl Hw; unfold make_bearer, verify_bearer_parts.
  change (str ".") with [c_dot]; cbn [app].
  assert (wf_bytes (auth_mac key uid now nonce) /\ len (auth_mac key uid now nonce) = MAC_LEN).
  { unfold auth_mac; split; [apply hmac_wf|unfold len; by rewrite hmac_len]. }
  destruct_and!.
  rewrite split_on_char by done. rewrite bool_decide_true by done; cbn [negb].
  rewrite split_on_char by (intros Hd%dec_digit; done).
  rewrite parse_uint_dec by (unfold is_u64, u64_max in *; cbn; lia).
  rewrite split_on_char by (by apply hex_no). rewrite unhex_exact_hex by done.
  rewrite split_on_none by (by apply hex_no). rewrite unhex_exact_hex by done.
  replace (out_of_window now' now w) with false by (symmetry; apply out_of_window_false; lia).
  replace (ct_diff _ _) with 0 by (symmetry; by apply ct_diff_zero). done.
Qed.

(** An accepted bearer token is exactly four dot-separated segments: the
    expected user, a decimal timestamp within the window of the server clock,
    16 hex-coded nonce bytes and the hex of the MAC under the user's key. *)
Theorem bearer_sound now token key uid w ts nonce : 0 <= w ->
  verify_bearer_parts now token key uid w = Some (ts, nonce) ->
  exists p1 p2 p3, split_on c_dot token = [uid; p1; p2; p3]
  /\ parse_uint u64_max p1 = Some ts /\ Z.abs (now - ts) <= w
  /\ unhex_exact SALT_LEN p2 = Some nonce
  /\ unhex_exact MAC_LEN p3 = Some (auth_mac key uid ts nonce).
Proof. intros Hw H; apply verify_bearer_inv in H as (p1 & p2 & p3 & ?); naive_solver. Qed.

(** The AUTH payload survives encoding followed by any padding tail. *)
Theorem auth_payload_roundtrip a tail : ap_wf a -> len (ap_uid a) <= 255 ->
  ap_decode (ap_encode a ++ tail) = Ok a.
Proof. apply ap_decode_encode. Qed.

(** A version-1 payload (no limit field) still decodes to its fields,
    with the 16 KiB baseline as limit, so version skew is reported as such. *)
Theorem auth_payload_v1_baseline a : ap_wf a -> len (ap_uid a) <= 255 ->
  ap_decode (ap_v1_prefix a) = Ok (with_max_plaintext a MAX_PLAINTEXT).
Proof. intros; rewrite <- (app_nil_r (ap_v1_prefix a)). by rewrite ap_decode_prefix. Qed.

(** An AUTH payload verifies exactly when its timestamp is within the
    window (no overflow for any [u64] timestamp) and its MAC is the one of
    its user, timestamp and nonce under the static key. *)
Theorem auth_verify_iff now a key w : 0 <= w -> length (ap_mac a) = 32%nat ->
  ap_verify now a key w = true <->
  Z.abs (now - ap_ts a) <= w /\ ap_mac a = auth_mac key (ap_uid a) (ap_ts a) (ap_nonce a).
Proof.
  intros Hw Hm; unfold ap_verify.
  destruct (out_of_window now (ap_ts a) w) eqn:E.
  - split; [done|]; intros [Ha _]; apply (out_of_window_false now (ap_ts a) w Hw) in Ha; congruence.
  - apply out_of_window_false in E; [|done].
    rewrite Z.eqb_eq, ct_diff_zero by (unfold auth_mac; by rewrite hmac_len). naive_solver.
Qed.

End properties.

(** ** Witnesses *)

Module CryptoWitness.

Definition counters : list Z := [1; 1; 100; 99; 99; 20; 101].
Definition key : bytes := replicate 32 7.
Definition nonce : bytes := replicate 16 9.
Definition uid : bytes := str "alice".
Definition payload : AuthPayload :=
  {| ap_proto_version := 2; ap_salt := replicate 16 3; ap_ts := 1700000000;
     ap_nonce := nonce; ap_uid := uid; ap_mac := auth_mac key uid 1700000000 nonce;
     ap_max_plaintext := 65536 |}.

Lemma counters_u64 : Forall is_u64 counters.
Proof. repeat constructor; unfold is_u64; lia. Qed.

Lemma payload_wf : ap_wf payload.
Proof. unfold ap_wf, is_byte, is_u64; cbn; split_and!; try lia; vm_compute; reflexivity. Qed.

Lemma replay_window_refines_witness :
  rw_run rw_new counters = [true; false; true; true; false; false; true].
Proof. rewrite (replay_window_refines counters counters_u64). vm_compute. reflexivity. Defined.

Lemma replay_window_accepts_once_witness :
  Forall is_u64 counters /\ NoDup (rw_accepted rw_new counters).
Proof. split; [exact counters_u64|exact (replay_window_accepts_once counters counters_u64)]. Defined.

Lemma session_nonces_unique_witness :
  NoDup (map nonce_for (cg_run cg_stream 3 ++ cg_run cg_stream_server 2
                        ++ cg_run cg_datagram 1 ++ cg_run cg_datagram_server 1)).
Proof. apply (session_nonces_unique 3 2 1 1); lia. Defined.

Lemma bearer_roundtrip_witness :
  verify_bearer_parts 1700000030 (make_bearer key uid 1700000000 nonce) key uid AUTH_WINDOW
  = Some (1700000000, nonce).
Proof.
  apply (bearer_roundtrip key uid nonce 1700000000 1700000030 AUTH_WINDOW).
  - by apply split_once_none.
  - unfold is_u64; lia.
  - apply Forall_replicate; unfold is_byte; lia.
  - reflexivity.
  - unfold AUTH_WINDOW; lia.
Defined.

Lemma bearer_sound_witness :
  exists p1 p2 p3,
    split_on c_dot (make_bearer key uid 1700000000 nonce) = [uid; p1; p2; p3]
    /\ parse_uint u64_max p1 = Some 1700000000 /\ Z.abs (1700000030 - 1700000000) <= AUTH_WINDOW
    /\ unhex_exact SALT_LEN p2 = Some nonce
    /\ unhex_exact MAC_LEN p3 = Some (auth_mac key uid 1700000000 nonce).
Proof.
  apply (bearer_sound 1700000030 (make_bearer key uid 1700000000 nonce)).
  - unfold AUTH_WINDOW; lia.
  - vm_compute. reflexivity.
Defined.

Lemma auth_payload_roundtrip_witness :
  ap_decode (ap_encode payload ++ replicate 64 0) = Ok payload.
Proof. apply (auth_payload_roundtrip payload _ payload_wf). vm_compute; discriminate. Defined.

Lemma auth_payload_v1_baseline_witness :
  ap_decode (ap_v1_prefix payload) = Ok (with_max_plaintext payload MAX_PLAINTEXT).
Proof. apply (auth_payload_v1_baseline payload payload_wf). vm_compute; discriminate. Defined.

Lemma auth_verify_iff_witness :
  ap_verify 1700000060 payload key AUTH_WINDOW = true.
Proof.
  apply (auth_verify_iff 1700000060 payload key AUTH_WINDOW).
  - unfold AUTH_WINDOW; lia.
  - vm_compute; reflexivity.
  - split; [cbn; unfold AUTH_WINDOW; lia|reflexivity].
Defined.

End CryptoWitness.
