(* ===== verification/Frame.v ===== *)
(** * Frame: the frame protocol ([src/src/proto/frame.rs])

    Header codec, encoder, buffered decoder, the pull reader over a byte
    source and the push writer, the Open payload codec and the negotiated
    limit. A [FrameLimit] handle is modelled by its current value; a byte
    source by the outcomes of its successive reads. *)

From S2P Require Import Prelude Bytes Crypto.

Section frame.
Context {P : Prims}.

(** ** Constants and the negotiated limit *)

Definition HEADER_LEN : Z := 20.
Definition MAX_PLAINTEXT_CAP : Z := 1024 * 1024.
Definition MAX_CIPHERTEXT : Z := MAX_PLAINTEXT + TAG_LEN.
Definition FLAG_FIN : Z := 1.
Definition FLAG_RST : Z := 2.

(** [x.clamp(lo, hi)]. *)
Definition clamp (x lo hi : Z) : Z := Z.min hi (Z.max lo x).

Definition negotiate (client server : Z) : Z :=
  clamp (Z.min client server) MAX_PLAINTEXT MAX_PLAINTEXT_CAP.

(** ** Frame types *)

Inductive FrameType :=
| FAuth | FAuthOk | FOpen | FOpenOk | FOpenErr | FData | FClose
| FPing | FPong | FUdpAssociate | FUdpOk | FUdpData | FError.

(** [ftype as u8] ([repr(u8)] discriminants). *)
Definition ft_to_u8 (t : FrameType) : Z :=
  match t with
  | FAuth => 1 | FAuthOk => 2 | FOpen => 3 | FOpenOk => 4 | FOpenErr => 5
  | FData => 6 | FClose => 7 | FPing => 8 | FPong => 9 | FUdpAssociate => 10
  | FUdpOk => 11 | FUdpData => 12 | FError => 13
  end.

Definition ft_from_u8 (v : Z) : option FrameType :=
  if v =? 1 then Some FAuth else if v =? 2 then Some FAuthOk
  else if v =? 3 then Some FOpen else if v =? 4 then Some FOpenOk
  else if v =? 5 then Some FOpenErr else if v =? 6 then Some FData
  else if v =? 7 then Some FClose else if v =? 8 then Some FPing
  else if v =? 9 then Some FPong else if v =? 10 then Some FUdpAssociate
  else if v =? 11 then Some FUdpOk else if v =? 12 then Some FUdpData
  else if v =? 13 then Some FError else None.

Record Frame := {
  f_ftype : FrameType;
  f_flags : Z;
  f_sid : Z;
  f_counter : Z;
  f_aad : bytes;
  f_payload : bytes;
}.

Record HeaderInfo := {
  hi_ftype : FrameType;
  hi_flags : Z;
  hi_sid : Z;
  hi_ct_len : Z;
  hi_counter : Z;
  hi_aad : bytes;
}.

(** ** Header codec *)

Definition build_header (ftype : FrameType) (flags sid ct_len counter : Z) : bytes :=
  [PROTO_VERSION; ft_to_u8 ftype] ++ le_bytes 2 flags ++ le_bytes 4 sid
  ++ le_bytes 4 (wrap 32 ct_len) ++ le_bytes 8 counter.

Definition parse_header (h : bytes) : result msg HeaderInfo :=
  let? _ := ensure (nth 0 h 0 =? PROTO_VERSION) "unsupported protocol version" in
  let? ftype := ok_or (ft_from_u8 (nth 1 h 0)) "bad frame type" in
  Ok {| hi_ftype := ftype;
        hi_flags := le_val (slice h 2 4);
        hi_sid := le_val (slice h 4 8);
        hi_ct_len := le_val (slice h 8 12);
        hi_counter := le_val (slice h 12 20);
        hi_aad := slice h 0 12 |}.

(** ** Encoder *)

Record FrameEncoder := { fe_cipher : FrameCipher; fe_counters : CounterGen; fe_limit : Z }.

(** Appends one encoded frame to [out]; the counter advances once taken. *)
Definition encode_into (e : FrameEncoder) (ftype : FrameType) (flags sid : Z)
  (payload out : bytes) : result msg bytes * FrameEncoder :=
  if negb (len payload <=? fe_limit e) then (Err "frame payload too large", e)
  else
    let '(counter, counters') := cg_take (fe_counters e) in
    let e' := {| fe_cipher := fe_cipher e; fe_counters := counters'; fe_limit := fe_limit e |} in
    let header := build_header ftype flags sid (len payload + TAG_LEN) counter in
    (let? (ct, tag) := seal_slice (fe_cipher e) counter (take 12 header) payload in
     Ok (out ++ header ++ ct ++ tag), e').

Definition encode (e : FrameEncoder) (ftype : FrameType) (flags sid : Z) (payload : bytes)
  : result msg bytes * FrameEncoder := encode_into e ftype flags sid payload [].

(** ** Decoder *)

Record FrameDecoder := {
  fd_cipher : option FrameCipher;
  fd_window : option ReplayWindow;
  fd_limit : Z;
  fd_buf : bytes;
  fd_raw : bool;
}.

Definition fd_with_limit (cipher : option FrameCipher) (window : option ReplayWindow) (limit : Z)
  : FrameDecoder :=
  {| fd_cipher := cipher; fd_window := window; fd_limit := limit; fd_buf := []; fd_raw := false |}.

Definition fd_new (cipher : option FrameCipher) (window : option ReplayWindow) : FrameDecoder :=
  fd_with_limit cipher window MAX_PLAINTEXT.

Definition fd_set_cipher (d : FrameDecoder) (c : FrameCipher) : FrameDecoder :=
  {| fd_cipher := Some c; fd_window := fd_window d; fd_limit := fd_limit d;
     fd_buf := fd_buf d; fd_raw := false |}.

Definition fd_set_raw (d : FrameDecoder) (r : bool) : FrameDecoder :=
  {| fd_cipher := fd_cipher d; fd_window := fd_window d; fd_limit := fd_limit d;
     fd_buf := fd_buf d; fd_raw := r |}.

Definition fd_set_limit (d : FrameDecoder) (l : Z) : FrameDecoder :=
  {| fd_cipher := fd_cipher d; fd_window := fd_window d; fd_limit := l;
     fd_buf := fd_buf d; fd_raw := fd_raw d |}.

Definition fd_set_buf (d : FrameDecoder) (b : bytes) : FrameDecoder :=
  {| fd_cipher := fd_cipher d; fd_window := fd_window d; fd_limit := fd_limit d;
     fd_buf := b; fd_raw := fd_raw d |}.

Definition fd_set_window (d : FrameDecoder) (w : ReplayWindow) : FrameDecoder :=
  {| fd_cipher := fd_cipher d; fd_window := Some w; fd_limit := fd_limit d;
     fd_buf := fd_buf d; fd_raw := fd_raw d |}.

Definition fd_feed (d : FrameDecoder) (data : bytes) : FrameDecoder :=
  fd_set_buf d (fd_buf d ++ data).

Definition fd_clear (d : FrameDecoder) : FrameDecoder := fd_set_buf d [].

Definition fd_is_empty (d : FrameDecoder) : bool := bool_decide (fd_buf d = []).

(** The payload step of [next_frame]: raw, authenticated (then replay-checked)
    or pass-through. *)
Definition decode_payload (d : FrameDecoder) (info : HeaderInfo) (ct : bytes)
  : result msg bytes * FrameDecoder :=
  if fd_raw d then (Ok ct, d)
  else match fd_cipher d with
       | None => (Ok ct, d)
       | Some cipher =>
         match open cipher (hi_counter info) (hi_aad info) ct with
         | Err e => (Err e, d)
         | Ok payload =>
           match fd_window d with
           | None => (Ok payload, d)
           | Some w =>
             let '(ok, w') := rw_check w (hi_counter info) in
             (if ok then Ok payload else Err "replayed datagram counter", fd_set_window d w')
           end
         end
       end.

Definition next_frame (d : FrameDecoder) : result msg (option Frame) * FrameDecoder :=
  if len (fd_buf d) <? HEADER_LEN then (Ok None, d)
  else
    match parse_header (take (Z.to_nat HEADER_LEN) (fd_buf d)) with
    | Err e => (Err e, d)
    | Ok info =>
      let max_ct := sat_add64 (fd_limit d) TAG_LEN in
      if negb ((TAG_LEN <=? hi_ct_len info) && (hi_ct_len info <=? max_ct))
      then (Err "invalid frame length", d)
      else if len (fd_buf d) <? HEADER_LEN + hi_ct_len info then (Ok None, d)
      else
        let rest := drop (Z.to_nat HEADER_LEN) (fd_buf d) in
        let ct := take (Z.to_nat (hi_ct_len info)) rest in
        let d1 := fd_set_buf d (drop (Z.to_nat (hi_ct_len info)) rest) in
        match decode_payload d1 info ct with
        | (Err e, d2) => (Err e, d2)
        | (Ok payload, d2) =>
          (Ok (Some {| f_ftype := hi_ftype info; f_flags := hi_flags info; f_sid := hi_sid info;
                       f_counter := hi_counter info; f_aad := hi_aad info;
                       f_payload := payload |}), d2)
        end
    end.

(** ** Reader: [FrameReader::read] over the outcomes of successive reads *)

(** [src] lists what [r.read] returns, in order; its end is end of file. *)
Fixpoint fr_read (src : list (result msg bytes)) (d : FrameDecoder)
  : result msg (option Frame) * list (result msg bytes) * FrameDecoder :=
  match next_frame d with
  | (Err e, d') => (Err e, src, d')
  | (Ok (Some f), d') => (Ok (Some f), src, d')
  | (Ok None, d') =>
    match src with
    | [] => (if fd_is_empty d' then Ok None else Err "truncated frame at EOF", [], d')
    | Err e :: src' => (Err e, src', d')
    | Ok [] :: src' =>
      (if fd_is_empty d' then Ok None else Err "truncated frame at EOF", src', d')
    | Ok (x :: b) :: src' => fr_read src' (fd_feed d' (x :: b))
    end
  end.

(** ** Writer *)

(** [fw_out] is what the underlying [AsyncWrite] has accepted. *)
Record FrameWriter := { fw_out : bytes; fw_enc : FrameEncoder }.

Definition fw_set_cipher (w : FrameWriter) (c : FrameCipher) : FrameWriter :=
  {| fw_out := fw_out w;
     fw_enc := {| fe_cipher := c; fe_counters := fe_counters (fw_enc w);
                  fe_limit := fe_limit (fw_enc w) |} |}.

(** [write]; [io] is the outcome of [write_all]. *)
Definition fw_write (io : result msg unit) (w : FrameWriter) (ftype : FrameType) (flags sid : Z)
  (payload : bytes) : result msg unit * FrameWriter :=
  match encode_into (fw_enc w) ftype flags sid payload [] with
  | (Err e, enc') => (Err e, {| fw_out := fw_out w; fw_enc := enc' |})
  | (Ok buf, enc') =>
    match io with
    | Ok _ => (Ok tt, {| fw_out := fw_out w ++ buf; fw_enc := enc' |})
    | Err e => (Err e, {| fw_out := fw_out w; fw_enc := enc' |})
    end
  end.

(** ** Open payload *)

Definition encode_open (host : bytes) (port : Z) : bytes :=
  le_bytes 2 (wrap 16 (len host)) ++ host ++ le_bytes 2 port.

Definition decode_open (payload : bytes) : result msg (bytes * Z) :=
  let? _ := ensure (4 <=? len payload) "open payload truncated" in
  let hl := le_val (slice payload 0 2) in
  let? _ := ensure ((2 + hl + 2 <=? len payload) && (0 <? hl) && (hl <=? 255))
                   "open host invalid" in
  let host := slice payload 2 (2 + Z.to_nat hl) in
  let? _ := ensure (utf8_valid host) "invalid utf-8" in
  let p := slice payload (2 + Z.to_nat hl) (2 + Z.to_nat hl + 2) in
  Ok (host, le_val p).

Definition PAD_MIN : Z := 64.
Definition PAD_MAX : Z := 512.

(** [random_padding]; the two draws of the generator are arguments. *)
Definition random_padding (r : Z) (fill : nat -> bytes) : bytes :=
  let n := PAD_MIN + r mod (PAD_MAX - PAD_MIN) in fill (Z.to_nat n).

(** [OpenErr] reason codes. *)
Definition OPEN_ERR_DIAL : Z := 1.
Definition OPEN_ERR_LIMIT : Z := 2.
Definition OPEN_ERR_BAD_TARGET : Z := 3.
Definition OPEN_ERR_DENIED : Z := 4.

End frame.

#[global] Instance FrameType_eq_dec : EqDecision FrameType.
Proof. solve_decision. Defined.

(** ** Queued frames and the writer loop *)

(** [proto::mux::OutFrame]: an entry of a bounded outbound queue. *)
Record OutFrame := { of_ftype : FrameType; of_flags : Z; of_sid : Z; of_payload : bytes }.

Section writer.
Context {P : Prims}.

(** The writer task: drains the queue, sends each encoded frame and drops the
    ones that cannot be encoded. *)
Fixpoint writer_task (e : FrameEncoder) (q : list OutFrame) : list bytes * FrameEncoder :=
  match q with
  | [] => ([], e)
  | f :: q' =>
    match encode e (of_ftype f) (of_flags f) (of_sid f) (of_payload f) with
    | (Ok wire, e') => let '(ws, e'') := writer_task e' q' in (wire :: ws, e'')
    | (Err _, e') => writer_task e' q'
    end
  end.

(** The frame a receiver sees for a queue entry sent under counter [c]. *)
Definition frame_of (m : OutFrame) (c : Z) : Frame :=
  {| f_ftype := of_ftype m; f_flags := of_flags m; f_sid := of_sid m; f_counter := c;
     f_aad := take 12 (build_header (of_ftype m) (of_flags m) (of_sid m) (len (of_payload m) + TAG_LEN) c);
     f_payload := of_payload m |}.

(** What the peer should receive: the entries within the limit, in order,
    with consecutive counters. *)
Fixpoint delivered (g : CounterGen) (limit : Z) (q : list OutFrame) : list Frame :=
  match q with
  | [] => []
  | m :: q' =>
    if len (of_payload m) <=? limit
    then let '(c, g') := cg_take g in frame_of m c :: delivered g' limit q'
    else delivered g limit q'
  end.

(** The results of [n] successive reads. *)
Fixpoint fr_read_n (n : nat) (src : list (result msg bytes)) (d : FrameDecoder)
  : list (result msg (option Frame)) :=
  match n with
  | O => []
  | S m => let '(r, src', d') := fr_read src d in r :: fr_read_n m src' d'
  end.

Definition out_wf (m : OutFrame) : Prop :=
  0 <= of_flags m < 2 ^ 16 /\ 0 <= of_sid m < 2 ^ 32.

Definition cg_wf (g : CounterGen) : Prop := 0 <= cg_base g /\ 0 <= cg_next g.

End writer.

(** ** Header lemmas *)

Section lemmas.
Context {P : Prims} {L : PrimsLaws P}.

Lemma length_build_header t fl s n c : length (build_header t fl s n c) = 20%nat.
Proof. unfold build_header; by rewrite !length_app, !length_le_bytes. Qed.

Lemma ft_from_to t : ft_from_u8 (ft_to_u8 t) = Some t.
Proof. by destruct t. Qed.

Lemma ft_to_from v t : ft_from_u8 v = Some t -> v = ft_to_u8 t.
Proof.
  unfold ft_from_u8; intros H.
  repeat (destr_step; bsimpl; [by simplify_eq|]). done.
Qed.

Lemma parse_build t fl s n c :
  0 <= fl < 2 ^ 16 -> 0 <= s < 2 ^ 32 -> 0 <= n < 2 ^ 32 -> is_u64 c ->
  parse_header (build_header t fl s n c) =
  Ok {| hi_ftype := t; hi_flags := fl; hi_sid := s; hi_ct_len := n; hi_counter := c;
        hi_aad := take 12 (build_header t fl s n c) |}.
Proof.
  unfold is_u64; intros Hf Hs Hn Hc; unfold parse_header.
  assert (slice (build_header t fl s n c) 0 12 = take 12 (build_header t fl s n c)) as ->
    by (unfold slice; by rewrite drop_0).
  unfold build_header; cbn [app nth]; rewrite ft_from_to, wrap_small by lia; cbn [ensure ok_or rbind].
  change (PROTO_VERSION =? PROTO_VERSION) with true; cbn [ensure rbind].
  pose proof (length_le_bytes 2 fl); pose proof (length_le_bytes 4 s);
    pose proof (length_le_bytes 4 n); pose proof (length_le_bytes 8 c).
  pose proof (le_val_small 2 fl) as E1; pose proof (le_val_small 4 s) as E2;
    pose proof (le_val_small 4 n) as E3; pose proof (le_val_small 8 c) as E4.
  cbn in E1, E2, E3, E4.
  change (PROTO_VERSION :: ft_to_u8 t :: ?x) with ([PROTO_VERSION; ft_to_u8 t] ++ x).
  do 2 f_equal.
  - rewrite (slice_skip 2), (slice_head 2) by (done || lia). auto.
  - rewrite (slice_skip 2), (slice_skip 2), (slice_head 4) by (done || lia). auto.
  - rewrite (slice_skip 2), (slice_skip 2), (slice_skip 4), (slice_head 4) by (done || lia). auto.
  - rewrite (slice_skip 2), (slice_skip 2), (slice_skip 4), (slice_skip 4) by (done || lia).
    rewrite <- (app_nil_r (le_bytes 8 c)), (slice_head 8) by (done || lia). auto.
Qed.

(** A header that parses is the header built from what was parsed. *)
Lemma build_parse h i : wf_bytes h -> length h = 20%nat -> parse_header h = Ok i ->
  h = build_header (hi_ftype i) (hi_flags i) (hi_sid i) (hi_ct_len i) (hi_counter i).
Proof.
  intros Hw Hl H; unfold parse_header in H; rinv; subst; cbn; bsimpl.
  assert (Hb : 0 <= le_val (slice h 8 12) < 2 ^ 32).
  { pose proof (le_val_bound (slice h 8 12)) as Hb. unfold slice in *.
    rewrite len_take, len_drop in Hb; unfold len in Hb; rewrite Hl in Hb.
    apply Hb; auto with newppp. }
  match goal with E : ft_from_u8 _ = _ |- _ => apply ft_to_from in E end.
  do 20 (destruct h as [|? h]; [done|]); destruct h; [|done]; clear Hl.
  unfold slice, build_header in *; cbn [nth] in *; subst.
  rewrite wrap_small by exact Hb.
  repeat match goal with |- context [le_bytes ?n (le_val ?b)] =>
    replace (le_bytes n (le_val b)) with b
      by (symmetry; apply (le_bytes_le_val b); unfold wf_bytes in *; auto using Forall_take, Forall_drop) end.
  done.
Qed.

(** [w] is what the encoder puts on the wire for [m] under counter [c]. *)
Definition wire_for (k : FrameCipher) (m : OutFrame) (c : Z) (w : bytes) : Prop :=
  exists body,
    w = build_header (of_ftype m) (of_flags m) (of_sid m) (len (of_payload m) + TAG_LEN) c ++ body
    /\ len body = len (of_payload m) + TAG_LEN
    /\ open k c (f_aad (frame_of m c)) body = Ok (of_payload m).

Lemma encode_wire e m : len (of_payload m) <= fe_limit e -> fe_limit e <= MAX_PLAINTEXT_CAP ->
  exists w, encode e (of_ftype m) (of_flags m) (of_sid m) (of_payload m) =
    (Ok w, {| fe_cipher := fe_cipher e; fe_counters := snd (cg_take (fe_counters e));
              fe_limit := fe_limit e |})
  /\ wire_for (fe_cipher e) m (fst (cg_take (fe_counters e))) w.
Proof.
  intros Hl Hc; unfold encode, encode_into; zbool; cbn [negb].
  destruct (cg_take (fe_counters e)) as [c g'] eqn:Eg; cbn [fst snd].
  set (h := build_header _ _ _ _ _).
  destruct (seal_ok (fe_cipher e) c (take 12 h) (of_payload m)) as (b & tag & Hs & Hb & Ht);
    [unfold MAX_PLAINTEXT_CAP, AEAD_P_MAX in *; lia|].
  rewrite Hs; cbn [rbind app]. eexists; split; [done|]. exists (b ++ tag); split; [done|].
  split; [rewrite len_app; unfold len, TAG_LEN; lia|].
  by apply open_seal_slice in Hs.
Qed.

Lemma encode_too_large e t fl s p : fe_limit e < len p ->
  encode e t fl s p = (Err "frame payload too large", e).
Proof. intros; unfold encode, encode_into; zbool; done. Qed.

(** A decoder set up like the peer's encoder, without replay window. *)
Definition paired (d : FrameDecoder) (k : FrameCipher) (limit : Z) : Prop :=
  fd_cipher d = Some k /\ fd_raw d = false /\ fd_window d = None /\ fd_limit d = limit
  /\ limit <= MAX_PLAINTEXT_CAP.

Lemma sat_add_small l : 0 <= l <= MAX_PLAINTEXT_CAP -> sat_add64 l TAG_LEN = l + TAG_LEN.
Proof. unfold sat_add64, u64_max, TAG_LEN, MAX_PLAINTEXT_CAP; lia. Qed.

Lemma len_wire k m c w : wire_for k m c w -> len w = HEADER_LEN + len (of_payload m) + TAG_LEN.
Proof.
  intros (body & -> & Hb & _); rewrite len_app, Hb; unfold len at 1; rewrite length_build_header.
  unfold HEADER_LEN; lia.
Qed.

(** Header step: what [next_frame] sees once the first 20 bytes are there. *)
Lemma next_frame_header k m c w b b2 r : out_wf m -> is_u64 c ->
  len (of_payload m) <= MAX_PLAINTEXT_CAP -> wire_for k m c w ->
  b ++ b2 = w ++ r -> HEADER_LEN <= len b ->
  parse_header (take (Z.to_nat HEADER_LEN) b) =
  Ok {| hi_ftype := of_ftype m; hi_flags := of_flags m; hi_sid := of_sid m;
        hi_ct_len := len (of_payload m) + TAG_LEN; hi_counter := c; hi_aad := f_aad (frame_of m c) |}.
Proof.
  intros [Hf Hs] Hc Hl (body & -> & Hb & _) E Hlen.
  rewrite <- app_assoc in E.
  assert (take (Z.to_nat HEADER_LEN) (b ++ b2) = take (Z.to_nat HEADER_LEN) b) as <-.
  { apply take_app_le; unfold len in Hlen; lia. }
  rewrite E, take_app_len by apply length_build_header.
  pose proof (len_nonneg (of_payload m)).
  by apply parse_build; unfold MAX_PLAINTEXT_CAP, TAG_LEN in *; (done || lia).
Qed.

(** A complete frame at the head of the buffer is consumed, and returned unless
    the replay window refuses its counter. *)
Lemma next_frame_reach d k limit m c w r : fd_cipher d = Some k -> fd_raw d = false -> fd_limit d = limit ->
  limit <= MAX_PLAINTEXT_CAP -> out_wf m -> is_u64 c ->
  len (of_payload m) <= limit -> wire_for k m c w -> fd_buf d = w ++ r ->
  next_frame d = match fd_window d with
                 | None => (Ok (Some (frame_of m c)), fd_set_buf d r)
                 | Some rw => (if fst (rw_check rw c) then Ok (Some (frame_of m c)) else Err "replayed datagram counter",
                               fd_set_window (fd_set_buf d r) (snd (rw_check rw c)))
                 end.
Proof.
  intros Hk Hraw Hlim Hcap Hm Hc Hl Hw E; unfold next_frame.
  pose proof (len_wire _ _ _ _ Hw) as Hlw; pose proof (len_nonneg (of_payload m)).
  pose proof (len_nonneg r).
  rewrite (next_frame_header k m c w (fd_buf d) [] r) by
    (try done; rewrite ?app_nil_r, ?E, ?len_app; unfold TAG_LEN, HEADER_LEN in *; (done || lia)).
  rewrite E, Hlim, sat_add_small, len_app, Hlw by lia; cbn [hi_ct_len].
  unfold HEADER_LEN, TAG_LEN in *; zbool; cbn [negb andb].
  destruct Hw as (body & -> & Hb & Ho); rewrite <- app_assoc.
  rewrite drop_app_len by apply length_build_header.
  rewrite take_app_len, drop_app_len by (unfold len, TAG_LEN in *; lia).
  unfold decode_payload; cbn [fd_raw fd_cipher fd_window fd_set_buf hi_counter hi_aad].
  rewrite Hraw, Hk, Ho. destruct (fd_window d) as [rw|]; [|done]. by destruct (rw_check rw c) as [[] rw'].
Qed.

Lemma next_frame_complete d k limit m c w r : paired d k limit -> out_wf m -> is_u64 c ->
  len (of_payload m) <= limit -> wire_for k m c w -> fd_buf d = w ++ r ->
  next_frame d = (Ok (Some (frame_of m c)), fd_set_buf d r).
Proof.
  intros (Hk & Hraw & Hwin & Hlim & Hcap) Hm Hc Hl Hw E.
  rewrite (next_frame_reach d k limit m c w r) by done. by rewrite Hwin.
Qed.

(** A proper prefix of a frame yields nothing and is kept. *)
Lemma next_frame_partial d k limit m c w b2 r : fd_limit d = limit -> limit <= MAX_PLAINTEXT_CAP ->
  out_wf m -> is_u64 c -> len (of_payload m) <= limit -> wire_for k m c w ->
  fd_buf d ++ b2 = w ++ r -> len (fd_buf d) < len w -> next_frame d = (Ok None, d).
Proof.
  intros Hlim Hcap Hm Hc Hl Hw E Hlt; unfold next_frame.
  pose proof (len_wire _ _ _ _ Hw) as Hlw; pose proof (len_nonneg (of_payload m)).
  destruct (Z.ltb_spec (len (fd_buf d)) HEADER_LEN); [done|].
  rewrite (next_frame_header k m c w (fd_buf d) b2 r) by (done || lia).
  rewrite Hlim, sat_add_small by lia; cbn [hi_ct_len]. zbool; cbn [negb andb]. done.
Qed.

Lemma next_frame_short d : len (fd_buf d) < HEADER_LEN -> next_frame d = (Ok None, d).
Proof. intros; unfold next_frame; by zbool. Qed.

Lemma paired_set_buf d k limit b : paired d k limit -> paired (fd_set_buf d b) k limit.
Proof. done. Qed.

(** One read over a chunked source, for decoders in a class [I] that wait for
    the bytes [w] and then return [f] and consume them. *)
Lemma fr_read_chunks (I : FrameDecoder -> Prop) (w : bytes) (f : Frame) :
  (forall d b, I d -> I (fd_set_buf d b)) ->
  (forall d b2 r, I d -> fd_buf d ++ b2 = w ++ r -> len (fd_buf d) < len w -> next_frame d = (Ok None, d)) ->
  (forall d r, I d -> fd_buf d = w ++ r -> next_frame d = (Ok (Some f), fd_set_buf d r)) ->
  forall cs d r, I d -> Forall (fun b => b <> []) cs -> fd_buf d ++ concat cs = w ++ r ->
  exists cs' b', fr_read (map Ok cs) d = (Ok (Some f), map Ok cs', fd_set_buf d b')
  /\ Forall (fun b => b <> []) cs' /\ b' ++ concat cs' = r.
Proof.
  intros Hset Hpart Hfull. induction cs as [|x cs IH]; intros d r Hi Hne E;
    destruct (Z.lt_ge_cases (len (fd_buf d)) (len w)) as [Hlt|Hge].
  - cbn in E; rewrite app_nil_r in E; rewrite E, len_app in Hlt; pose proof (len_nonneg r); lia.
  - exists [], r; cbn; cbn in E; rewrite app_nil_r in E. rewrite (Hfull d r) by done. by rewrite app_nil_r.
  - cbn [map fr_read]; rewrite (Hpart d (concat (x :: cs)) r) by done.
    inv Hne; destruct x as [|y x]; [done|].
    destruct (IH (fd_feed d (y :: x)) r) as (cs' & b' & -> & ?); [by apply Hset|done| |by exists cs', b'].
    unfold fd_feed; cbn [fd_buf fd_set_buf]; by rewrite <- app_assoc.
  - destruct (app_eq_inv _ _ _ _ E) as [(q & E1 & E2)|(q & E1 & E2)].
    + exists (x :: cs), q; cbn [map fr_read]. rewrite (Hfull d q) by done. by rewrite E2.
    + assert (q = []) as -> by (apply len_zero_inv; rewrite E1, len_app in Hge; pose proof (len_nonneg q); lia).
      rewrite app_nil_r in E1; cbn [app] in E2.
      exists (x :: cs), []; cbn [map fr_read]. rewrite (Hfull d []) by (by rewrite ?app_nil_r). by rewrite E2.
Qed.

(** One read over a chunked source returns the frame at its head. *)
Lemma fr_read_frame k limit m c w cs d r : paired d k limit -> out_wf m -> is_u64 c ->
  len (of_payload m) <= limit -> wire_for k m c w -> Forall (fun b => b <> []) cs ->
  fd_buf d ++ concat cs = w ++ r ->
  exists cs' d', fr_read (map Ok cs) d = (Ok (Some (frame_of m c)), map Ok cs', d')
  /\ paired d' k limit /\ Forall (fun b => b <> []) cs' /\ fd_buf d' ++ concat cs' = r.
Proof.
  intros Hp Hm Hc Hl Hw Hne E.
  destruct (fr_read_chunks (fun d => paired d k limit) w (frame_of m c)) with (cs := cs) (d := d) (r := r)
    as (cs' & b' & Hr & Hne' & E'); try done.
  - intros d0 b2 r0 (_ & _ & _ & Hlim & Hcap); by apply (next_frame_partial d0 k limit m c w b2 r0).
  - intros d0 r0 Hp0; by apply (next_frame_complete d0 k limit m c w r0).
  - exists cs', (fd_set_buf d b'). split_and!; try done; by apply paired_set_buf.
Qed.

End lemmas.

(** ** The datagram receive loop *)

Section datagrams.
Context {P : Prims}.

(** The inner loop of the datagram readers: take frames until the buffer has
    none; on a bad frame drop the buffered bytes and stop. [None]: out of fuel. *)
Fixpoint drain (fuel : nat) (d : FrameDecoder) : option (list Frame * FrameDecoder) :=
  match fuel with
  | O => None
  | S n =>
    match next_frame d with
    | (Ok (Some f), d') =>
      match drain n d' with
      | Some (fs, d'') => Some (f :: fs, d'')
      | None => None
      end
    | (Ok None, d') => Some ([], d')
    | (Err _, d') => Some ([], fd_clear d')
    end
  end.

(** One received datagram: feed it and drain. *)
Definition on_datagram (d : FrameDecoder) (data : bytes) : option (list Frame * FrameDecoder) :=
  let d1 := fd_feed d data in drain (S (length (fd_buf d1))) d1.

(** A whole run of the loop: all frames dispatched, in order. *)
Fixpoint on_datagrams (d : FrameDecoder) (ds : list bytes) : option (list Frame) :=
  match ds with
  | [] => Some []
  | x :: t =>
    match on_datagram d x with
    | Some (fs, d') => match on_datagrams d' t with Some gs => Some (fs ++ gs) | None => None end
    | None => None
    end
  end.

(** Everything but the buffer. *)
Definition same_setup (d d' : FrameDecoder) : Prop :=
  fd_cipher d' = fd_cipher d /\ fd_limit d' = fd_limit d /\ fd_raw d' = fd_raw d.

Lemma rw_check_false w c : fst (rw_check w c) = false -> snd (rw_check w c) = w.
Proof. unfold rw_check; intros; destr. Qed.

(** What [next_frame] can do to the decoder, by outcome. *)
Lemma next_frame_cases d r d' : next_frame d = (r, d') ->
  same_setup d d' /\
  match r with
  | Ok None => d' = d /\ (len (fd_buf d) < HEADER_LEN \/ len (fd_buf d) < HEADER_LEN + sat_add64 (fd_limit d) TAG_LEN)
  | Err _ => fd_clear d' = fd_clear d
  | Ok (Some f) =>
      exists i ct, HEADER_LEN + hi_ct_len i <= len (fd_buf d)
      /\ parse_header (take 20 (fd_buf d)) = Ok i
      /\ TAG_LEN <= hi_ct_len i <= sat_add64 (fd_limit d) TAG_LEN
      /\ ct = take (Z.to_nat (hi_ct_len i)) (drop 20 (fd_buf d))
      /\ f_counter f = hi_counter i
      /\ fd_buf d' = drop (Z.to_nat (hi_ct_len i)) (drop 20 (fd_buf d))
      /\ decode_payload (fd_set_buf d (fd_buf d')) i ct = (Ok (f_payload f), d')
  end.
Proof.
  unfold next_frame; intros H.
  destruct (Z.ltb_spec (len (fd_buf d)) HEADER_LEN) as [?|Hl]; [simplify_eq; by split; [|auto]|].
  destruct (parse_header _) as [i|] eqn:Hp; [|simplify_eq; by split].
  destruct (negb _) eqn:Hn; [simplify_eq; by split|]; bsimpl.
  destruct (Z.ltb_spec (len (fd_buf d)) (HEADER_LEN + hi_ct_len i)); [simplify_eq; split; [done|split; [done|lia]]|].
  destruct (decode_payload _ _ _) as [[pl|e] d2] eqn:Hd; simplify_eq/=.
  all: assert (Hd' := Hd); unfold decode_payload in Hd'; cbn [fd_raw fd_cipher fd_window fd_set_buf] in Hd'.
  - assert (Hs : same_setup d d' /\ fd_buf d' = drop (Z.to_nat (hi_ct_len i)) (drop 20 (fd_buf d))) by destr.
    destruct Hs as [Hs Hb]; split; [done|]. eexists i, _; rewrite Hb; split_and!; eauto; lia.
  - destr; try by split. 
    match goal with Hr : rw_check ?w ?c = (false, _) |- _ =>
      pose proof (rw_check_false w c) as Hw; rewrite Hr in Hw; cbn in Hw; rewrite Hw by done end.
    split; [done|]. unfold fd_clear, fd_set_window, fd_set_buf; cbn; congruence.
Qed.

Lemma fr_read_setup src : forall d, same_setup d (fr_read src d).2.
Proof.
  induction src as [|x src IH]; intros d; cbn [fr_read]; pose proof (next_frame_cases d) as H;
    destruct (next_frame d) as [[[f|]|e] d']; destruct (H _ _ eq_refl) as [Hs Hd]; try done.
  destruct x as [[|b x]|e]; try done. destruct Hd as [-> _], (IH (fd_feed d (b :: x))) as (? & ? & ?). by split_and!.
Qed.

(** A drain with more fuel than buffered bytes always ends. *)
Lemma drain_total fuel d : (length (fd_buf d) < fuel)%nat -> is_Some (drain fuel d).
Proof.
  revert d; induction fuel as [|n IH]; intros d Hl; [lia|]; cbn.
  destruct (next_frame d) as [r d'] eqn:E; apply next_frame_cases in E as [_ E].
  destruct r as [[f|]|]; [|eauto..].
  destruct E as (i & ct & H1 & _ & H2 & _ & _ & Hb & _).
  destruct (IH d') as [[fs d''] ->]; [|eauto].
  rewrite Hb, !length_drop; unfold len, HEADER_LEN, TAG_LEN in *; lia.
Qed.

(** The decoder of a datagram channel whose window represents [seen]. *)
Definition dgram_inv (d : FrameDecoder) (seen : list Z) : Prop :=
  wf_bytes (fd_buf d) /\ fd_raw d = false /\ is_Some (fd_cipher d)
  /\ exists w, fd_window d = Some w /\ rw_rel w seen.

Lemma header_counter_nonneg h i : wf_bytes h -> parse_header h = Ok i -> 0 <= hi_counter i.
Proof.
  intros Hw H; unfold parse_header in H; rinv; subst; cbn.
  apply le_val_bound; unfold slice; auto with newppp.
Qed.

Lemma next_frame_dgram d seen f d' : dgram_inv d seen -> next_frame d = (Ok (Some f), d') ->
  dgram_inv d' (f_counter f :: seen) /\ f_counter f ∉ seen.
Proof.
  intros (Hw & Hr & [k Hk] & w & Hwin & Hrel) E; apply next_frame_cases in E as [(H1 & H2 & H3) E].
  destruct E as (i & ct & _ & Hp & _ & _ & Hc & Hb & Hd).
  assert (0 <= hi_counter i) by (eapply header_counter_nonneg; [|done]; auto with newppp).
  unfold decode_payload in Hd; cbn [fd_raw fd_cipher fd_window fd_set_buf] in Hd.
  rewrite Hr, Hk, Hwin in Hd. destruct (open _ _ _ _); [|done].
  destruct (rw_check_refines w seen (hi_counter i) Hrel) as [Hv Hrel']; [done|].
  destruct (rw_check w (hi_counter i)) as [ok w'] eqn:Ew; cbn [fst snd] in *; unfold accept_spec in *.
  destruct (fresh seen (hi_counter i)) eqn:Hf; cbn in *; subst ok; simplify_eq.
  rewrite Hc; split; [|unfold fresh in Hf; by bsimpl].
  split_and!; [rewrite Hb; auto with newppp|congruence|rewrite H1, Hk; eauto|].
  exists w'; split; [|done]. match goal with E : fd_set_window _ _ = d' |- _ => by rewrite <- E end.
Qed.

Lemma drain_dgram fuel d seen fs d' : dgram_inv d seen -> drain fuel d = Some (fs, d') ->
  NoDup (map f_counter fs) /\ Forall (fun f => f_counter f ∉ seen) fs
  /\ exists seen', dgram_inv d' seen' /\ (forall c, c ∈ seen' <-> c ∈ seen \/ c ∈ map f_counter fs).
Proof.
  revert d seen fs; induction fuel as [|n IH]; intros d seen fs Hi H; [done|]; cbn in H.
  destruct (next_frame d) as [[[f|]|] d1] eqn:E; simplify_eq.
  - destruct (next_frame_dgram d seen f d1 Hi E) as [Hi1 Hf].
    destruct (drain n d1) as [[gs d2]|] eqn:Ed; simplify_eq.
    destruct (IH _ _ _ Hi1 Ed) as (Hnd & Hfr & seen' & Hi2 & Hseen).
    split_and!; [|constructor; [done|]|].
    + cbn; constructor; [|done]. rewrite list_elem_of_In, in_map_iff; intros (g & Hg & Hin%list_elem_of_In).
      eapply Forall_forall in Hfr; [|done]. set_solver.
    + eapply Forall_impl; [done|]. intros g Hg; set_solver.
    + exists seen'; split; [done|]. intros c; rewrite Hseen; cbn; set_solver.
  - apply next_frame_cases in E as [_ [-> _]]. split_and!; [constructor..|]. exists seen; split; [done|]. set_solver.
  - apply next_frame_cases in E as [_ Hcl]. split_and!; [constructor..|]. exists seen.
    rewrite Hcl; split; [|set_solver]. destruct Hi as (_ & ? & ? & ?); split_and!; [constructor|done..].
Qed.

Lemma on_datagrams_dgram ds : forall d seen fs, dgram_inv d seen -> Forall wf_bytes ds ->
  on_datagrams d ds = Some fs ->
  NoDup (map f_counter fs) /\ Forall (fun f => f_counter f ∉ seen) fs.
Proof.
  induction ds as [|x ds IH]; intros d seen fs Hi Hw H; cbn [on_datagrams] in H; simplify_eq; [split; constructor|].
  inv Hw; destruct (on_datagram d x) as [[gs d1]|] eqn:E; [|done].
  destruct (on_datagrams d1 ds) as [hs|] eqn:E2; simplify_eq.
  assert (Hi1 : dgram_inv (fd_feed d x) seen).
  { destruct Hi as (? & ? & ? & ?); split_and!; try done. apply wf_bytes_app; by split. }
  destruct (drain_dgram _ _ _ _ _ Hi1 E) as (Hnd & Hfr & seen' & Hi2 & Hs).
  destruct (IH _ _ _ Hi2 ltac:(done) E2) as [Hnd2 Hfr2].
  rewrite map_app; split; [apply NoDup_app; split_and!; [done| |done]|apply Forall_app; split; [done|]].
  - intros c Hc; rewrite list_elem_of_In, in_map_iff; intros (g & Hg & Hin%list_elem_of_In).
    eapply Forall_forall in Hfr2; [|done]. apply Hfr2, Hs; subst; auto.
  - eapply Forall_impl; [done|]. intros g Hg Hin; apply Hg, Hs; auto.
Qed.

Lemma on_datagram_total d x : is_Some (on_datagram d x).
Proof. apply drain_total; lia. Qed.

Lemma on_datagrams_total ds d : is_Some (on_datagrams d ds).
Proof.
  revert d; induction ds as [|x ds IH]; intros d; cbn [on_datagrams]; [eauto|].
  destruct (on_datagram_total d x) as [[fs d'] ->].
  destruct (IH d') as [gs ->]; eauto.
Qed.

End datagrams.

(** ** Properties *)

Section properties.
Context {P : Prims} {L : PrimsLaws P}.

Lemma delivered_cons_ok g limit m q : len (of_payload m) <= limit ->
  delivered g limit (m :: q) = frame_of m (fst (cg_take g)) :: delivered (snd (cg_take g)) limit q.
Proof. intros; cbn [delivered]; zbool; by destruct (cg_take g). Qed.

Lemma cg_take_wf g : cg_wf g -> cg_wf (snd (cg_take g)) /\ is_u64 (fst (cg_take g)).
Proof.
  unfold cg_wf, is_u64; intros [? ?]; cbn; pose proof (wrap_bound 64 (cg_next g + 1)).
  pose proof (wrap_bound 64 (cg_base g + cg_next g)). lia.
Qed.

Lemma len_seal k n a pt w : seal k n a pt = Ok w -> len w = len pt + TAG_LEN.
Proof.
  unfold seal, seal_slice; intros H; rinv; destruct x as [b tag]; rinv.
  match goal with He : aead_enc _ _ _ _ = _ |- _ => apply aead_enc_len in He as [Hlb Hlt] end.
  subst w; rewrite len_app; unfold len, TAG_LEN; lia.
Qed.

(** Reading everything a writer task produced, from any chunking of it. *)
Lemma reassemble q : forall e d cs, cg_wf (fe_counters e) -> paired d (fe_cipher e) (fe_limit e) ->
  Forall out_wf q -> Forall (fun b => b <> []) cs ->
  fd_buf d ++ concat cs = concat (fst (writer_task e q)) ->
  fr_read_n (S (length (delivered (fe_counters e) (fe_limit e) q))) (map Ok cs) d
  = map (fun f => Ok (Some f)) (delivered (fe_counters e) (fe_limit e) q) ++ [Ok None].
Proof.
  induction q as [|m q IH]; intros e d cs Hg Hp Hq Hne E.
  - cbn in E; apply app_nil in E as [Eb Ec].
    destruct cs as [|x cs]; [|by inv Hne; cbn in Ec; apply app_nil in Ec as [? _]].
    cbn [delivered length map fr_read_n fr_read app]. rewrite next_frame_short by (rewrite Eb; done).
    unfold fd_is_empty; by rewrite bool_decide_true by done.
  - inv Hq. cbn [writer_task] in E. destruct (Z.le_gt_cases (len (of_payload m)) (fe_limit e)) as [Hl|Hl].
    + pose proof Hp as (_ & _ & _ & _ & Hcap).
      destruct (encode_wire e m Hl Hcap) as (w & Ew & Hw); rewrite Ew in E.
      destruct (cg_take_wf _ Hg) as [Hg' Hu].
      rewrite delivered_cons_ok by done; cbn [length fr_read_n map app].
      set (e' := {| fe_cipher := _ |}) in *.
      destruct (writer_task e' q) as [ws e''] eqn:Et; cbn [fst concat] in E.
      destruct (fr_read_frame (fe_cipher e) (fe_limit e) m (cg_take (fe_counters e)).1 w cs d (concat ws))
        as (cs' & d' & -> & Hp' & Hne' & E'); [done..|].
      f_equal; apply (IH e' d' cs'); try done. by rewrite Et.
    + rewrite encode_too_large in E by done. cbn [delivered]; zbool. by apply IH.
Qed.


(** Parsing a built header gives back every field, for all in-range
    field values. *)
Theorem header_roundtrip t fl s n c :
  0 <= fl < 2 ^ 16 -> 0 <= s < 2 ^ 32 -> 0 <= n < 2 ^ 32 -> is_u64 c ->
  parse_header (build_header t fl s n c) =
  Ok {| hi_ftype := t; hi_flags := fl; hi_sid := s; hi_ct_len := n; hi_counter := c;
        hi_aad := take 12 (build_header t fl s n c) |}.
Proof. apply parse_build. Qed.

(** A header that parses is, byte for byte, the one built from the parsed
    fields: no two headers parse to the same fields. *)
Theorem header_sound h i : wf_bytes h -> length h = 20%nat -> parse_header h = Ok i ->
  h = build_header (hi_ftype i) (hi_flags i) (hi_sid i) (hi_ct_len i) (hi_counter i).
Proof. apply build_parse. Qed.

(** C39: a decoder that asks for more input holds less than one frame of the
    negotiated limit, which bounds the memory a peer can make it buffer. *)
Theorem decoder_buffer_bounded d d' : 0 <= fd_limit d <= MAX_PLAINTEXT_CAP ->
  next_frame d = (Ok None, d') ->
  d' = d /\ len (fd_buf d) < HEADER_LEN + fd_limit d + TAG_LEN.
Proof.
  intros Hl H; apply next_frame_cases in H as [_ [-> H]]; split; [done|].
  rewrite sat_add_small in H by done; unfold TAG_LEN in *; lia.
Qed.

(** A frame delivered under a cipher authenticated: its ciphertext is the
    seal of the delivered payload under the header's counter and the first 12
    header bytes, its payload respects the limit, and exactly the frame's
    bytes were consumed. *)
Theorem decoder_delivers_authentic d k f d' : 0 <= fd_limit d <= MAX_PLAINTEXT_CAP ->
  fd_cipher d = Some k -> fd_raw d = false -> next_frame d = (Ok (Some f), d') ->
  exists i w, parse_header (take 20 (fd_buf d)) = Ok i
  /\ seal k (hi_counter i) (hi_aad i) (f_payload f) = Ok w
  /\ fd_buf d = take 20 (fd_buf d) ++ w ++ fd_buf d'
  /\ len (f_payload f) <= fd_limit d.
Proof.
  intros Hl Hk Hr E; apply next_frame_cases in E as [_ (i & ct & H1 & Hp & H2 & Hct & Hc & Hb & Hd)].
  rewrite sat_add_small in H2 by done.
  unfold decode_payload in Hd; cbn [fd_raw fd_cipher fd_set_buf] in Hd; rewrite Hr, Hk in Hd.
  destruct (open _ _ _ ct) as [pl|] eqn:Ho; [|done].
  assert (pl = f_payload f) as -> by destr. apply open_is_sealed in Ho.
  exists i, ct; split_and!; [done..| |].
  - rewrite Hb, Hct, take_drop; by rewrite take_drop.
  - assert (len ct <= hi_ct_len i) by (rewrite Hct, len_take; unfold TAG_LEN in *; lia).
    apply len_seal in Ho; unfold TAG_LEN in *; lia.
Qed.

(** A rejected frame (bad header, bad length, forged or replayed) leaves
    the replay window, the cipher and the limit untouched: once the buffer is
    cleared the decoder is as if the bytes had never arrived. *)
Theorem rejected_frame_harmless d e d' : next_frame d = (Err e, d') -> fd_clear d' = fd_clear d.
Proof. intros H; by apply next_frame_cases in H as [_ ?]. Qed.

(** Over any sequence of datagrams, however corrupt, the receive loop
    terminates on each and never dispatches two frames with one counter. *)
Theorem datagram_no_replay k limit ds : Forall wf_bytes ds ->
  exists fs, on_datagrams (fd_with_limit (Some k) (Some rw_new) limit) ds = Some fs
  /\ NoDup (map f_counter fs).
Proof.
  intros Hw; destruct (on_datagrams_total ds (fd_with_limit (Some k) (Some rw_new) limit)) as [fs E].
  exists fs; split; [done|].
  refine (proj1 (on_datagrams_dgram ds _ [] fs _ Hw E)).
  split_and!; [constructor|done|eauto|]. exists rw_new; split; [done|apply rw_rel_new].
Qed.

(** An Open payload followed by any padding tail decodes to its host and
    port. *)
Theorem open_roundtrip host port tail :
  1 <= len host <= 255 -> utf8_valid host = true -> 0 <= port < 2 ^ 16 ->
  decode_open (encode_open host port ++ tail) = Ok (host, port).
Proof.
  intros Hh Hu Hp; unfold decode_open, encode_open; rewrite wrap_small, <- !app_assoc by lia.
  pose proof (length_le_bytes 2 (len host)) as H1; pose proof (length_le_bytes 2 port) as H2.
  pose proof (len_nonneg tail).
  rewrite !len_app, !len_le_bytes, (slice_head 2), le_val_small by (done || cbn; lia).
  unfold ensure; zbool; cbn [rbind andb].
  rewrite (slice_skip 2), (slice_head (length host)) by (done || unfold len; lia).
  rewrite Hu; cbn [rbind]. do 2 f_equal.
  rewrite (slice_skip 2), (slice_skip (length host)) by (done || unfold len; lia).
  replace (_ - length host)%nat with 0%nat by (unfold len; lia).
  rewrite (slice_head 2) by (done || unfold len; lia). apply le_val_small; cbn; lia.
Qed.

(** C40: whatever bytes are decoded as an Open payload, an accepted target has
    a valid UTF-8 host of 1 to 255 bytes and a 16-bit port. *)
Theorem decode_open_type payload host port : wf_bytes payload ->
  decode_open payload = Ok (host, port) ->
  1 <= len host <= 255 /\ utf8_valid host = true /\ 0 <= port < 2 ^ 16.
Proof.
  intros Hw H; unfold decode_open in H.
  set (hl := le_val (slice payload 0 2)) in H.
  rinv; bsimpl; subst host port.
  split_and!; try done.
  1,2: unfold slice; rewrite len_take, len_drop; lia.
  - apply le_val_bound; unfold slice; auto with newppp.
  - eapply Z.lt_le_trans; [apply le_val_bound; unfold slice; auto with newppp|].
    change (2 ^ 16) with (256 ^ 2). apply Z.pow_le_mono_r; [lia|].
    unfold slice; rewrite len_take; lia.
Qed.

End properties.

(** ** Witnesses: the hypotheses of the properties hold of concrete frames *)

Module FrameWitness.

Definition key : FrameCipher := cipher_new (replicate 32 7).
Definition enc0 : FrameEncoder := {| fe_cipher := key; fe_counters := cg_stream; fe_limit := 20 |}.
Definition queue : list OutFrame :=
  [ {| of_ftype := FOpenOk; of_flags := 0; of_sid := 1; of_payload := [] |};
    {| of_ftype := FData; of_flags := 0; of_sid := 1; of_payload := str "too long for the limit" |};
    {| of_ftype := FData; of_flags := FLAG_FIN; of_sid := 2; of_payload := str "hello" |} ].
Definition wire : bytes := Eval vm_compute in concat (fst (writer_task enc0 queue)).
Definition chunks : list bytes := [take 3 wire; take 40 (drop 3 wire); drop 43 wire].
Definition frame_wire : bytes := take 36 wire.

Lemma queue_wf : Forall out_wf queue.
Proof. repeat (apply Forall_cons; split); try apply Forall_nil; try done; unfold out_wf; cbn; lia. Qed.

Lemma wire_wf : wf_bytes wire.
Proof. apply (bool_decide_unpack _). vm_compute. exact I. Qed.


Lemma header_roundtrip_witness :
  parse_header (build_header FData 1 7 21 9) =
  Ok {| hi_ftype := FData; hi_flags := 1; hi_sid := 7; hi_ct_len := 21; hi_counter := 9;
        hi_aad := take 12 (build_header FData 1 7 21 9) |}.
Proof. apply (header_roundtrip FData 1 7 21 9); unfold is_u64; lia. Defined.

Lemma header_sound_witness : exists i, parse_header (take 20 wire) = Ok i
  /\ take 20 wire = build_header (hi_ftype i) (hi_flags i) (hi_sid i) (hi_ct_len i) (hi_counter i).
Proof.
  eexists; split; [vm_compute; reflexivity|].
  apply (header_sound (take 20 wire)); [apply wf_bytes_take, wire_wf|reflexivity|vm_compute; reflexivity].
Defined.

Lemma decoder_buffer_bounded_witness :
  let d := fd_feed (fd_with_limit (Some key) None 20) (take 35 wire) in
  d = d /\ len (fd_buf d) < HEADER_LEN + fd_limit d + TAG_LEN.
Proof.
  intros d; apply (decoder_buffer_bounded d d); [vm_compute; split; discriminate|vm_compute; reflexivity].
Defined.

Definition dec1 : FrameDecoder := fd_feed (fd_with_limit (Some key) None 20) frame_wire.

Lemma decoder_delivers_authentic_witness : exists f d',
  next_frame dec1 = (Ok (Some f), d')
  /\ exists i w, parse_header (take 20 (fd_buf dec1)) = Ok i
  /\ seal key (hi_counter i) (hi_aad i) (f_payload f) = Ok w
  /\ fd_buf dec1 = take 20 (fd_buf dec1) ++ w ++ fd_buf d'
  /\ len (f_payload f) <= fd_limit dec1.
Proof.
  eexists _, _; split; [vm_compute; reflexivity|].
  eapply (decoder_delivers_authentic dec1 key);
    [vm_compute; split; discriminate|reflexivity|reflexivity|vm_compute; reflexivity].
Defined.

Definition forged : FrameDecoder :=
  fd_feed (fd_with_limit (Some key) (Some rw_new) 20) (take 35 frame_wire ++ [1]).

Lemma rejected_frame_harmless_witness : exists e d',
  next_frame forged = (Err e, d') /\ fd_clear d' = fd_clear forged.
Proof.
  eexists _, _; split; [vm_compute; reflexivity|].
  eapply (rejected_frame_harmless forged); vm_compute; reflexivity.
Defined.

Lemma datagram_no_replay_witness : exists fs,
  on_datagrams (fd_with_limit (Some key) (Some rw_new) 20) [frame_wire; frame_wire; [1; 2]] = Some fs
  /\ NoDup (map f_counter fs).
Proof.
  apply (datagram_no_replay key 20 [frame_wire; frame_wire; [1; 2]]).
  repeat constructor; try (apply wf_bytes_take, wire_wf); unfold is_byte; lia.
Defined.

Lemma open_roundtrip_witness :
  decode_open (encode_open (str "example.com") 443 ++ replicate 64 0) = Ok (str "example.com", 443).
Proof.
  apply (open_roundtrip (str "example.com") 443); [vm_compute; split; discriminate|reflexivity|lia].
Defined.

Lemma decode_open_type_witness :
  1 <= len (str "a.b") <= 255 /\ utf8_valid (str "a.b") = true /\ 0 <= 80 < 2 ^ 16.
Proof.
  apply (decode_open_type (encode_open (str "a.b") 80)); [|vm_compute; reflexivity].
  apply (bool_decide_unpack _). vm_compute. exact I.
Defined.

End FrameWitness.
