(* ===== verification/Addr.v ===== *)
(** * UDP addresses: [proto/addr.rs]

    The compact address encoding of UDP frames (little-endian ports) and its
    use for the SOCKS5 UDP header (network-order ports), over the bounds
    checked [Reader]. *)

From S2P Require Import Prelude Bytes Crypto.

(** ** Data *)

(** [SocketAddrV4] as octets and port; [SocketAddrV6] with its flow info and
    scope id, which the encoding does not carry. *)
Inductive UdpAddr :=
| UV4 (ip : bytes) (port : Z)
| UV6 (ip : bytes) (port flowinfo scope : Z)
| UDomain (host : bytes) (port : Z).

#[global] Instance UdpAddr_eq_dec : EqDecision UdpAddr.
Proof. solve_decision. Defined.

(** The values the Rust type can hold. *)
Definition ua_wf (a : UdpAddr) : Prop :=
  match a with
  | UV4 ip port => wf_bytes ip /\ length ip = 4%nat /\ 0 <= port < 2 ^ 16
  | UV6 ip port fl sc => wf_bytes ip /\ length ip = 16%nat /\ 0 <= port < 2 ^ 16
                         /\ 0 <= fl < 2 ^ 32 /\ 0 <= sc < 2 ^ 32
  | UDomain h port => wf_bytes h /\ utf8_valid h = true /\ 0 <= port < 2 ^ 16
  end.

(** ** Encoding *)

Definition put_port (be_ports : bool) (port : Z) : bytes :=
  if be_ports then be_bytes 2 port else le_bytes 2 port.

(** Appends to [out] (release build: the [debug_assert] is not compiled in). *)
Definition encode_with (a : UdpAddr) (out : bytes) (be_ports : bool) : bytes :=
  match a with
  | UV4 ip port => out ++ [1] ++ ip ++ put_port be_ports port
  | UV6 ip port _ _ => out ++ [2] ++ ip ++ put_port be_ports port
  | UDomain h port => out ++ [3] ++ [wrap 8 (len h)] ++ h ++ put_port be_ports port
  end.

Definition ua_encode (a : UdpAddr) (out : bytes) : bytes := encode_with a out false.

(** ** Reader *)

Record Reader := { rd_b : bytes; rd_pos : nat }.

Definition rd_new (b : bytes) : Reader := {| rd_b := b; rd_pos := 0 |}.

Definition rd_advance (r : Reader) (n : nat) : Reader :=
  {| rd_b := rd_b r; rd_pos := rd_pos r + n |}.

Definition read_u8 (r : Reader) : result msg (Z * Reader) :=
  let? _ := ensure (Z.of_nat (rd_pos r) <? len (rd_b r)) "read past end" in
  Ok (nth (rd_pos r) (rd_b r) 0, rd_advance r 1).

Definition read_bytes (r : Reader) (n : Z) : result msg (bytes * Reader) :=
  let? _ := ensure (n <=? len (rd_b r) - Z.of_nat (rd_pos r)) "read past end" in
  Ok (slice (rd_b r) (rd_pos r) (rd_pos r + Z.to_nat n), rd_advance r (Z.to_nat n)).

Definition read_u16 (r : Reader) : result msg (Z * Reader) :=
  let? (b, r') := read_bytes r 2 in Ok (le_val b, r').

Definition read_u16_be (r : Reader) : result msg (Z * Reader) :=
  let? (b, r') := read_bytes r 2 in Ok (be_val b, r').

Definition rest (r : Reader) : bytes * Reader :=
  (drop (rd_pos r) (rd_b r), {| rd_b := rd_b r; rd_pos := length (rd_b r) |}).

(** ** Decoding *)

Definition read_port (be_ports : bool) (r : Reader) : result msg (Z * Reader) :=
  if be_ports then read_u16_be r else read_u16 r.

Definition decode_with (r : Reader) (be_ports : bool) : result msg (UdpAddr * Reader) :=
  let? (t, r) := read_u8 r in
  if t =? 1 then
    let? (b, r) := read_bytes r 4 in
    let? (port, r) := read_port be_ports r in
    Ok (UV4 b port, r)
  else if t =? 2 then
    let? (b, r) := read_bytes r 16 in
    let? (port, r) := read_port be_ports r in
    Ok (UV6 b port 0 0, r)
  else if t =? 3 then
    let? (l, r) := read_u8 r in
    let? (d, r) := read_bytes r l in
    let? (port, r) := read_port be_ports r in
    let? _ := ensure (utf8_valid d) "invalid utf-8" in
    Ok (UDomain d port, r)
  else Err "bad address type".

Definition ua_decode (r : Reader) : result msg (UdpAddr * Reader) := decode_with r false.

Definition parse_socks5_udp (packet : bytes) : result msg (UdpAddr * bytes) :=
  let r := rd_new packet in
  let? (rsv, r) := read_u16 r in
  let? _ := ensure (rsv =? 0) "SOCKS5 UDP reserved field must be zero" in
  let? (frag, r) := read_u8 r in
  let? _ := ensure (frag =? 0) "UDP fragmentation not supported" in
  let? (addr, r) := decode_with r true in
  Ok (addr, fst (rest r)).

Definition build_socks5_udp (a : UdpAddr) (payload : bytes) : bytes :=
  encode_with a [0; 0; 0] true ++ payload.

(** ** Specification side *)

(** What survives the wire: a V6 address loses its flow info and scope id. *)
Definition on_wire (a : UdpAddr) : UdpAddr :=
  match a with UV6 ip port _ _ => UV6 ip port 0 0 | _ => a end.

(** A host that fits the one-byte length field. *)
Definition domain_fits (a : UdpAddr) : Prop :=
  match a with UDomain h _ => len h <= 255 | _ => True end.

#[global] Instance ua_wf_dec a : Decision (ua_wf a).
Proof. destruct a; cbn; apply _. Defined.

(** ** Reader lemmas: reading consumes exactly the bytes it returns *)

(** The reader is inside its buffer and [s] is what is left to read. *)
Definition rd_has (r : Reader) (s : bytes) : Prop :=
  (rd_pos r <= length (rd_b r))%nat /\ drop (rd_pos r) (rd_b r) = s.

Lemma rd_new_has b : rd_has (rd_new b) b.
Proof. split; [apply Nat.le_0_l|apply drop_0]. Qed.

Lemma rd_has_len r s : rd_has r s -> len (rd_b r) - Z.of_nat (rd_pos r) = len s.
Proof. intros [? <-]; rewrite len_drop; unfold len; lia. Qed.

Lemma rd_has_advance r x y n : rd_has r (x ++ y) -> length x = n -> rd_has (rd_advance r n) y.
Proof.
  intros [Hp E] <-; split; cbn; [|by rewrite <- drop_drop, E, drop_app_length].
  apply (f_equal length) in E; rewrite length_drop, length_app in E; lia.
Qed.

Lemma read_u8_ok r x y : rd_has r (x :: y) ->
  read_u8 r = Ok (x, rd_advance r 1) /\ rd_has (rd_advance r 1) y.
Proof.
  intros H; split; [|by apply (rd_has_advance r [x])].
  pose proof (rd_has_len _ _ H) as Hl; rewrite len_cons in Hl; pose proof (len_nonneg y).
  unfold read_u8, ensure; zbool; cbn [rbind]. destruct H as [_ E]. do 2 f_equal.
  apply nth_lookup_Some. by rewrite <- (Nat.add_0_r (rd_pos r)), <- lookup_drop, E.
Qed.

Lemma read_bytes_ok r n x y : rd_has r (x ++ y) -> len x = n ->
  read_bytes r n = Ok (x, rd_advance r (length x)) /\ rd_has (rd_advance r (length x)) y.
Proof.
  intros H <-; split; [|by eapply rd_has_advance].
  pose proof (rd_has_len _ _ H) as Hl; rewrite len_app in Hl; pose proof (len_nonneg y).
  unfold read_bytes, ensure; zbool; cbn [rbind]. destruct H as [_ E].
  unfold slice; rewrite E. replace (Z.to_nat (len x)) with (length x) by (unfold len; lia).
  by rewrite Nat.add_comm, Nat.add_sub, take_app_length.
Qed.

Lemma read_port_ok be r p y : rd_has r (put_port be p ++ y) -> 0 <= p < 2 ^ 16 ->
  read_port be r = Ok (p, rd_advance r 2) /\ rd_has (rd_advance r 2) y.
Proof.
  intros H Hp; assert (length (put_port be p) = 2%nat) as Hl by (destruct be; apply length_le_bytes || apply length_be_bytes).
  destruct (read_bytes_ok r 2 _ _ H) as [E H']; [unfold len; lia|]; rewrite Hl in *.
  split; [|done]. destruct be; cbn [read_port]; unfold read_u16_be, read_u16; rewrite E; cbn [rbind put_port].
  - by rewrite be_val_small by (cbn; lia).
  - by rewrite le_val_small by (cbn; lia).
Qed.

(** Inversions: what a successful read says about the bytes left. *)
Lemma read_u8_inv r x r' : read_u8 r = Ok (x, r') -> (rd_pos r <= length (rd_b r))%nat ->
  exists y, rd_has r (x :: y) /\ rd_has r' y.
Proof.
  unfold read_u8; intros H Hp; rinv; bsimpl; subst.
  destruct (drop (rd_pos r) (rd_b r)) as [|z y] eqn:E.
  - apply (f_equal length) in E; rewrite length_drop in E; cbn in E; unfold len in *; lia.
  - assert (rd_has r (z :: y)) as Hh by (by split).
    destruct (read_u8_ok r z y Hh) as [E1 E2]; unfold read_u8 in E1; rinv; subst; eauto.
Qed.

Lemma read_bytes_inv r n x r' : read_bytes r n = Ok (x, r') -> 0 <= n ->
  (rd_pos r <= length (rd_b r))%nat ->
  len x = n /\ exists y, rd_has r (x ++ y) /\ rd_has r' y.
Proof.
  unfold read_bytes; intros H Hn Hp; rinv; bsimpl; subst.
  set (s := drop (rd_pos r) (rd_b r)). assert (Hh : rd_has r s) by done.
  pose proof (rd_has_len _ _ Hh). unfold slice; fold s.
  replace (rd_pos r + Z.to_nat n - rd_pos r)%nat with (Z.to_nat n) by lia.
  rewrite <- (take_drop (Z.to_nat n) s) in Hh.
  split; [rewrite len_take; lia|]. exists (drop (Z.to_nat n) s); split; [done|].
  eapply rd_has_advance; [done|]. rewrite length_take; unfold len in *; lia.
Qed.

Lemma rd_has_pos r s : rd_has r s -> (rd_pos r <= length (rd_b r))%nat.
Proof. by intros [? _]. Qed.
Lemma rd_has_inj r s s' : rd_has r s -> rd_has r s' -> s = s'.
Proof. by intros [_ <-] [_ <-]. Qed.
Lemma rd_has_wf r s : wf_bytes (rd_b r) -> rd_has r s -> wf_bytes s.
Proof. intros ? [_ <-]; auto with newppp. Qed.
#[local] Hint Resolve rd_has_pos rd_has_wf : newppp.

Lemma read_port_inv be r p r' s : wf_bytes s -> read_port be r = Ok (p, r') -> rd_has r s ->
  0 <= p < 2 ^ 16 /\ exists y, s = put_port be p ++ y /\ rd_has r' y.
Proof.
  intros Hw H Hs.
  assert (exists b, read_bytes r 2 = Ok (b, r') /\ p = (if be then be_val b else le_val b)) as (b & Hb & ->).
  { destruct be; cbn in H; unfold read_u16_be, read_u16 in H; rinv; destruct x; rinv; subst; eauto. }
  apply read_bytes_inv in Hb as (Hl & y & H1 & H2); [|lia|eauto with newppp].
  rewrite (rd_has_inj _ _ _ Hs H1) in *; apply wf_bytes_app in Hw as [Hw _].
  assert (length b = 2%nat) as Hl' by (unfold len in Hl; lia).
  destruct be; cbn [put_port]; (split; [|exists y; split; [|done]]); [split| |split|].
  - by apply be_val_bound.
  - pose proof (be_val_bound b Hw) as [_ Hb]; rewrite Hl in Hb; done.
  - by rewrite <- Hl', be_bytes_be_val.
  - by apply le_val_bound.
  - pose proof (le_val_bound b Hw) as [_ Hb]; rewrite Hl in Hb; done.
  - by rewrite <- Hl', le_bytes_le_val.
Qed.

(** ** Encoding and decoding invert each other *)

Lemma encode_with_app a out be : encode_with a out be = out ++ encode_with a [] be.
Proof. by destruct a. Qed.

Lemma decode_encode a be r y : ua_wf a -> domain_fits a -> rd_has r (encode_with a [] be ++ y) ->
  exists r', decode_with r be = Ok (on_wire a, r') /\ rd_has r' y.
Proof.
  intros Hw Hf H; unfold decode_with; destruct a as [ip p|ip p fl sc|h p]; cbn in Hw, Hf, H.
  - destruct Hw as (_ & Hl & Hp). rewrite <- app_assoc in H.
    apply read_u8_ok in H as [-> H]; cbn.
    apply (read_bytes_ok _ 4) in H as [-> H]; [|unfold len; lia]; cbn.
    apply read_port_ok in H as [-> H]; [|done]; cbn. eauto.
  - destruct Hw as (_ & Hl & Hp & _). rewrite <- app_assoc in H.
    apply read_u8_ok in H as [-> H]; cbn.
    apply (read_bytes_ok _ 16) in H as [-> H]; [|unfold len; lia]; cbn.
    apply read_port_ok in H as [-> H]; [|done]; cbn. eauto.
  - destruct Hw as (_ & Hu & Hp). rewrite <- app_assoc in H; pose proof (len_nonneg h).
    rewrite wrap_small in H by lia.
    apply read_u8_ok in H as [-> H]; cbn.
    apply read_u8_ok in H as [-> H]; cbn.
    apply (read_bytes_ok _ (len h)) in H as [-> H]; [|done]; cbn.
    apply read_port_ok in H as [-> H]; [|done]; cbn. rewrite Hu; cbn; eauto.
Qed.

(** One step of inverting a decoder: the bytes left before and after it. *)
Ltac rd_inv :=
  match goal with
  | H : read_u8 ?r = Ok (?x, ?r'), Hs : rd_has ?r ?s |- _ =>
      let y := fresh "y" in let H1 := fresh in
      destruct (read_u8_inv r x r' H (rd_has_pos _ _ Hs)) as (y & H1 & ?);
      pose proof (rd_has_inj _ _ _ Hs H1); clear H H1 Hs; subst s
  | H : read_bytes ?r ?n = Ok (?x, ?r'), Hs : rd_has ?r ?s |- _ =>
      let y := fresh "y" in let H1 := fresh in
      destruct (read_bytes_inv r n x r' H ltac:(unfold is_byte in *; lia) (rd_has_pos _ _ Hs)) as (? & y & H1 & ?);
      pose proof (rd_has_inj _ _ _ Hs H1); clear H H1 Hs; subst s
  | Hw : wf_bytes ?s, H : read_port _ ?r = Ok _, Hs : rd_has ?r ?s |- _ =>
      destruct (read_port_inv _ _ _ _ _ Hw H Hs) as (? & ? & ? & ?); clear H Hs; subst s
  | Hw : wf_bytes (_ :: _) |- _ => apply wf_bytes_cons in Hw as [? Hw]
  | Hw : wf_bytes (_ ++ _) |- _ => apply wf_bytes_app in Hw as [? Hw]
  end.

Lemma decode_sound be r s a r' : wf_bytes s -> rd_has r s -> decode_with r be = Ok (a, r') ->
  ua_wf a /\ domain_fits a /\ on_wire a = a
  /\ exists y, s = encode_with a [] be ++ y /\ rd_has r' y.
Proof.
  intros Hw Hs H; unfold decode_with in H.
  apply rbind_ok in H as ([t r1] & Ht & H). repeat rd_inv.
  repeat match type of H with context [?a =? ?b] => destruct (Z.eqb_spec a b) as [->|] end;
    [..|done].
  - rinv; destruct x as [b r2]; rinv; destruct x as [p r3]; rinv; subst; repeat rd_inv.
    cbn; split_and!; try done; try (unfold len in *; lia).
    eexists; split; [|done]. by rewrite <- app_assoc.
  - rinv; destruct x as [b r2]; rinv; destruct x as [p r3]; rinv; subst; repeat rd_inv.
    cbn; split_and!; try done; try (unfold len in *; lia).
    eexists; split; [|done]. by rewrite <- app_assoc.
  - rinv; destruct x as [l r2]; repeat rd_inv; rinv; destruct x as [d r3]; repeat rd_inv.
    rinv; destruct x as [p r4]; rinv; subst; repeat rd_inv. unfold is_byte in *.
    cbn; split_and!; try done; try lia. eexists; split; [|done].
    rewrite wrap_small by lia. by rewrite <- app_assoc.
Qed.

(** ** Properties *)

(** An address, encoded with either port order after any prefix and before
    any suffix, decodes to itself (a V6 address without its flow info and
    scope id), leaving exactly the suffix unread. *)
Theorem addr_roundtrip a be rest' : ua_wf a -> domain_fits a ->
  exists r', decode_with (rd_new (encode_with a [] be ++ rest')) be = Ok (on_wire a, r')
  /\ fst (rest r') = rest'.
Proof.
  intros Hw Hf; destruct (decode_encode a be (rd_new (encode_with a [] be ++ rest')) rest')
    as (r' & E & [_ Hr]); [done..|apply rd_new_has|]. by exists r'.
Qed.

(** Whatever bytes arrive, a SOCKS5 UDP header that parses is the one
    [build_socks5_udp] makes for the parsed address and payload: the parser
    accepts no second spelling of a header, and the address is well formed. *)
Theorem socks5_udp_sound packet a payload : wf_bytes packet ->
  parse_socks5_udp packet = Ok (a, payload) ->
  packet = build_socks5_udp a payload /\ ua_wf a /\ domain_fits a /\ on_wire a = a.
Proof.
  intros Hw H; unfold parse_socks5_udp in H.
  pose proof (rd_new_has packet) as Hs; set (r := rd_new packet) in *; clearbody r.
  rinv. destruct x as [rsv r1]; rinv. bsimpl; subst. destruct x0 as [frag r2]; rinv. bsimpl; subst.
  destruct x1 as [b r3]; rinv; subst.
  assert (read_port false r = Ok (0, r1)) as Hp by done; repeat rd_inv.
  destruct (decode_sound true r2 y a r3) as (? & ? & ? & z & -> & [_ Hz]); [done..|].
  split; [|done]. unfold build_socks5_udp, rest; cbn [fst]. rewrite Hz.
  rewrite (encode_with_app a [0; 0; 0]), <- app_assoc. done.
Qed.

(** A SOCKS5 UDP datagram built for an address parses back to the address
    and the payload. *)
Theorem socks5_udp_roundtrip a payload : ua_wf a -> domain_fits a ->
  parse_socks5_udp (build_socks5_udp a payload) = Ok (on_wire a, payload).
Proof.
  intros Hw Hf; unfold parse_socks5_udp, build_socks5_udp.
  rewrite encode_with_app, <- app_assoc.
  pose proof (rd_new_has ([0; 0; 0] ++ encode_with a [] true ++ payload)) as H.
  unfold read_u16. apply (read_bytes_ok _ 2 [0; 0]) in H as [-> H]; [|done]; cbn [rbind].
  cbn [le_val]. unfold ensure; cbn [Z.mul Z.add Z.eqb rbind].
  apply read_u8_ok in H as [-> H]; cbn [rbind Z.eqb].
  destruct (decode_encode a true _ payload Hw Hf H) as (r' & -> & [_ Hr]); cbn [rbind].
  unfold rest; cbn [fst]; by rewrite Hr.
Qed.

(** RFC 1928 numbers IPv6 as address type 4; the SOCKS5 UDP parser, which
    uses the internal numbering (2), rejects every such datagram. *)
Theorem socks5_udp_rejects_rfc1928_ipv6 tail :
  parse_socks5_udp ([0; 0; 0; 4] ++ tail) = Err "bad address type".
Proof.
  unfold parse_socks5_udp, read_u16, decode_with.
  pose proof (rd_new_has ([0; 0] ++ 0 :: 4 :: tail)) as H; change ([0; 0; 0; 4] ++ tail) with ([0; 0] ++ 0 :: 4 :: tail).
  apply (read_bytes_ok _ 2 [0; 0]) in H as [-> H]; [|done]; cbn [rbind le_val].
  unfold ensure; cbn [Z.mul Z.add Z.eqb rbind].
  apply read_u8_ok in H as [-> H]; cbn [rbind Z.eqb].
  by apply read_u8_ok in H as [-> H].
Qed.

(** ** Witnesses *)

Module AddrWitness.

Definition host : UdpAddr := UDomain (str "example.com") 53.
Definition v6 : UdpAddr := UV6 (replicate 15 0 ++ [1]) 8080 9 7.

Lemma host_wf : ua_wf host.
Proof. apply (bool_decide_unpack _). vm_compute. exact I. Qed.
Lemma v6_wf : ua_wf v6.
Proof. apply (bool_decide_unpack _). vm_compute. exact I. Qed.

Lemma addr_roundtrip_witness :
  exists r', decode_with (rd_new (encode_with v6 [] false ++ [1; 2])) false
             = Ok (UV6 (replicate 15 0 ++ [1]) 8080 0 0, r')
  /\ fst (rest r') = [1; 2].
Proof. apply (addr_roundtrip v6 false [1; 2] v6_wf). exact I. Defined.

Lemma socks5_udp_sound_witness :
  [0; 0; 0; 1; 8; 8; 4; 4; 0; 53; 42] = build_socks5_udp (UV4 [8; 8; 4; 4] 53) [42]
  /\ ua_wf (UV4 [8; 8; 4; 4] 53) /\ True /\ on_wire (UV4 [8; 8; 4; 4] 53) = UV4 [8; 8; 4; 4] 53.
Proof.
  apply (socks5_udp_sound [0; 0; 0; 1; 8; 8; 4; 4; 0; 53; 42]); [|vm_compute; reflexivity].
  apply (bool_decide_unpack _). vm_compute. exact I.
Defined.

Lemma socks5_udp_roundtrip_witness :
  parse_socks5_udp (build_socks5_udp host [1; 2; 3]) = Ok (host, [1; 2; 3]).
Proof. apply (socks5_udp_roundtrip host [1; 2; 3] host_wf). vm_compute; discriminate. Defined.

End AddrWitness.
