(* ===== verification/Config.v ===== *)
(** * Configuration: [config.rs]

    The command line record, its validation into [ClientConfig] and
    [ServerConfig], and the configuration file: its grammar, the merge into an
    argument vector and the precedence of the command line.  Parsing of the
    command line itself is [clap]'s. *)

From S2P Require Import Prelude Bytes Crypto Frame.

(** ** Data *)

Record Cli := {
  cli_client : bool; cli_server : bool;
  cli_auth : list bytes;
  cli_server_url : option bytes; cli_url : option bytes;
  cli_bind : bytes; cli_http_bind : option bytes; cli_inbound_auth : option bytes;
  cli_conns : Z; cli_skip_verify : bool; cli_sni : option bytes; cli_pin : option bytes;
  cli_recv_window_mb : Z; cli_max_frame_kb : Z;
  cli_listen : option bytes; cli_cert : option bytes; cli_key : option bytes; cli_self_signed : bool;
  cli_fallback_listen : option bytes; cli_http_listen : option bytes; cli_acme_dir : option bytes;
  cli_path : bytes; cli_max_sessions : Z; cli_rate_mbps : Z; cli_idle_secs : Z; cli_udp_dns_ttl : Z;
  cli_allow_private_targets : bool; cli_max_unauth : Z; cli_health : option bytes;
  cli_shutdown_grace : Z;
}.

Record ClientConfig := {
  cc_wt_url : option bytes; cc_fb_url : option bytes;
  cc_socks_bind : bytes; cc_http_bind : option bytes;
  cc_inbound_auth : option (bytes * bytes);
  cc_conns : Z; cc_uid : bytes; cc_password : bytes; cc_skip_verify : bool;
  cc_sni : option bytes; cc_pin : option bytes;
  cc_recv_window : Z; cc_health : option bytes; cc_max_plaintext : Z;
}.

Inductive CertSource := CertFiles (cert key : bytes) | CertSelfSigned.

Record ServerConfig := {
  sc_listen : option bytes; sc_cert : CertSource; sc_fallback_listen : option bytes;
  sc_http_listen : option bytes; sc_acme_dir : option bytes; sc_path : bytes;
  sc_users : list (bytes * bytes);
  sc_max_sessions : Z; sc_rate_mbps : Z; sc_idle_secs : Z; sc_allow_private_targets : bool;
  sc_max_unauth : Z; sc_recv_window : Z; sc_shutdown_grace : Z; sc_health : option bytes;
  sc_max_plaintext : Z; sc_udp_dns_ttl : Z;
}.

(** ** Field parsers *)

(** Characters of a user id. *)
Definition uid_char (c : Z) : bool := is_alnum c || (c =? c_underscore) || (c =? c_minus).

Definition parse_auth (raw : bytes) : result msg (bytes * bytes) :=
  let? (u, p) := ok_or (split_once c_colon raw) "--auth must be USER:PASS" in
  let uid := trim u in
  let? _ := ensure (negb (bool_decide (uid = [])) && (len uid <=? 32) && forallb uid_char uid)
                   "invalid user id" in
  let? _ := ensure (negb (bool_decide (p = []))) "password must not be empty" in
  Ok (uid, p).

Definition parse_inbound_auth (raw : bytes) : result msg (bytes * bytes) :=
  let? (u, p) := ok_or (split_once c_colon raw) "--inbound-auth must be USER:PASS" in
  let? _ := ensure (negb (bool_decide (u = [])) && (len u <=? 255)) "inbound username must be 1..=255 bytes" in
  let? _ := ensure (negb (bool_decide (p = [])) && (len p <=? 255)) "inbound password must be 1..=255 bytes" in
  Ok (u, p).

Definition normalize_path (p : bytes) : bytes :=
  let p := trim p in
  if bool_decide (p = []) || bool_decide (p = str "/") then str "/api/ppp"
  else if starts_with (str "/") p then p
  else str "/" ++ p.

(** The product is computed in [u32]. *)
Definition recv_window_bytes (mb : Z) : result msg Z :=
  let? _ := ensure ((1 <=? mb) && (mb <=? 64)) "--recv-window must be 1..=64 MB" in
  Ok (wrap 32 (wrap 32 (wrap 32 mb * 1024) * 1024)).

Definition max_frame_bytes (kb : Z) : result msg Z :=
  let cap_kb := MAX_PLAINTEXT_CAP / 1024 in
  let? _ := ensure ((16 <=? kb) && (kb <=? cap_kb)) "--max-frame-kb out of range" in
  Ok (kb * 1024).

(** The chunk loop of [parse_fingerprint]. *)
Fixpoint fp_pairs (b : bytes) : result msg bytes :=
  match b with
  | h :: l :: t =>
    let? hi := ok_or (to_digit16 h) "--pin: invalid hex character" in
    let? lo := ok_or (to_digit16 l) "--pin: invalid hex character" in
    let? r := fp_pairs t in
    Ok (wrap 8 (Z.lor (Z.shiftl hi 4) lo) :: r)
  | _ => Ok []
  end.

Definition parse_fingerprint (raw : bytes) : result msg bytes :=
  let cleaned := filter (fun c => c <> c_colon) raw in
  let? _ := ensure (len cleaned =? 64) "--pin must be a SHA-256 fingerprint: 64 hex chars" in
  fp_pairs cleaned.

(** ** Validation *)

Definition validate (c : Cli) : result msg unit :=
  if Bool.eqb (cli_client c) (cli_server c) then Err "specify exactly one mode: -c (client) or -s (server)"
  else ensure (negb (bool_decide (cli_auth c = []))) "--auth USER:PASS is required".

(** [s.contains("..")]. *)
Fixpoint has_dotdot (s : bytes) : bool :=
  match s with
  | a :: t => match t with b :: _ => ((a =? c_dot) && (b =? c_dot)) || has_dotdot t | [] => false end
  | [] => false
  end.

Definition ends_with_dot (s : bytes) : bool := match reverse s with c :: _ => c =? c_dot | [] => false end.

Definition sni_char (c : Z) : bool := is_alnum c || (c =? c_dot) || (c =? c_minus) || (c =? c_underscore).

(** The [--sni] checks of [client_config]. *)
Definition check_sni (c : Cli) (pin : option bytes) (sni : bytes) : result msg unit :=
  let? _ := ensure ((len sni <=? 253) && negb (bool_decide (sni = []))) "--sni must be a hostname" in
  let? _ := ensure (negb (starts_with (str ".") sni) && negb (ends_with_dot sni) && negb (has_dotdot sni))
                   "--sni is not a valid hostname" in
  let? _ := ensure (forallb sni_char sni) "--sni must be ASCII hostname characters" in
  let? _ := match cli_url c with
            | Some fb => ensure (negb (starts_with (str "wss://") fb) && negb (starts_with (str "ws://") fb))
                                "--sni cannot masquerade a wss:// fallback URL"
            | None => Ok tt
            end in
  ensure (match pin with Some _ => true | None => cli_skip_verify c end) "--sni requires --pin or --skip-verify".

Definition opt_parse {A} (f : bytes -> result msg A) (o : option bytes) : result msg (option A) :=
  match o with Some raw => let? a := f raw in Ok (Some a) | None => Ok None end.


Definition client_config (c : Cli) : result msg ClientConfig :=
  let? first := ok_or (head (cli_auth c)) "--auth USER:PASS is required" in
  let? (uid, password) := parse_auth first in
  let? _ := ensure (is_some (cli_server_url c) || is_some (cli_url c))
                   "client needs --server (WebTransport) and/or --url (HTTPS fallback)" in
  let? _ := ensure ((1 <=? cli_conns c) && (cli_conns c <=? 8)) "--conns must be 1..=8" in
  let? pin := match cli_pin c with
              | Some raw =>
                let? fp := parse_fingerprint raw in
                let? _ := ensure (negb (cli_skip_verify c)) "--pin and --skip-verify are mutually exclusive" in
                Ok (Some fp)
              | None => Ok None
              end in
  let? _ := match cli_sni c with Some sni => check_sni c pin sni | None => Ok tt end in
  let? inbound := opt_parse parse_inbound_auth (cli_inbound_auth c) in
  let? rw := recv_window_bytes (cli_recv_window_mb c) in
  let? mp := max_frame_bytes (cli_max_frame_kb c) in
  Ok {| cc_wt_url := cli_server_url c; cc_fb_url := cli_url c; cc_socks_bind := cli_bind c;
        cc_http_bind := cli_http_bind c; cc_inbound_auth := inbound; cc_conns := cli_conns c;
        cc_uid := uid; cc_password := password; cc_skip_verify := cli_skip_verify c;
        cc_sni := cli_sni c; cc_pin := pin; cc_recv_window := rw; cc_health := cli_health c;
        cc_max_plaintext := mp |}.

Fixpoint parse_users (l : list bytes) : result msg (list (bytes * bytes)) :=
  match l with
  | [] => Ok []
  | a :: t => let? u := parse_auth a in let? us := parse_users t in Ok (u :: us)
  end.

(** [is_file] is the file system's answer to [Path::is_file]. *)
Definition server_config (is_file : bytes -> bool) (c : Cli) : result msg ServerConfig :=
  let? _ := ensure (is_some (cli_listen c) || is_some (cli_fallback_listen c))
                   "server needs --listen (WebTransport) and/or --fallback-listen (HTTPS fallback)" in
  let? cert :=
    if cli_self_signed c then Ok CertSelfSigned
    else match cli_cert c, cli_key c with
         | Some ce, Some k =>
           let? _ := ensure (is_file ce) "cert file not found" in
           let? _ := ensure (is_file k) "key file not found" in
           Ok (CertFiles ce k)
         | _, _ => Err "server needs --cert/--key (or --self-signed for dev)"
         end in
  let? users := parse_users (cli_auth c) in
  let? rw := recv_window_bytes (cli_recv_window_mb c) in
  let? mp := max_frame_bytes (cli_max_frame_kb c) in
  Ok {| sc_listen := cli_listen c; sc_cert := cert; sc_fallback_listen := cli_fallback_listen c;
        sc_http_listen := cli_http_listen c; sc_acme_dir := cli_acme_dir c;
        sc_path := normalize_path (cli_path c); sc_users := users;
        sc_max_sessions := Z.max (cli_max_sessions c) 1; sc_rate_mbps := cli_rate_mbps c;
        sc_idle_secs := Z.max (cli_idle_secs c) 5;
        sc_allow_private_targets := cli_allow_private_targets c;
        sc_max_unauth := Z.max (cli_max_unauth c) 1; sc_recv_window := rw;
        sc_shutdown_grace := cli_shutdown_grace c; sc_health := cli_health c;
        sc_max_plaintext := mp; sc_udp_dns_ttl := cli_udp_dns_ttl c |}.

(** ** The option tables *)

Inductive OptKind := Single | Switch | Append.
#[global] Instance OptKind_eq_dec : EqDecision OptKind.
Proof. solve_decision. Defined.

(** Long option names of [Cli], with the action [clap] derives from the type of
    the field, and the file-only key [mode]. *)
Definition options : list (bytes * OptKind) :=
  [ (str "auth", Append); (str "log", Single); (str "time", Single);
    (str "server", Single); (str "url", Single); (str "bind", Single); (str "http-bind", Single);
    (str "inbound-auth", Single); (str "conns", Single); (str "skip-verify", Switch);
    (str "sni", Single); (str "pin", Single); (str "recv-window", Single); (str "max-frame-kb", Single);
    (str "listen", Single); (str "cert", Single); (str "key", Single); (str "self-signed", Switch);
    (str "fallback-listen", Single); (str "http-listen", Single); (str "acme-dir", Single);
    (str "path", Single); (str "max-sessions", Single); (str "rate", Single); (str "idle", Single);
    (str "udp-dns-ttl", Single); (str "allow-private-targets", Switch); (str "max-unauth", Single);
    (str "health", Single); (str "config", Single); (str "shutdown-grace", Single);
    (str "mode", Single) ].

Definition opt_kind (key : bytes) : option OptKind :=
  match List.find (fun o => bool_decide (o.1 = key)) options with Some (_, k) => Some k | None => None end.

(** ** The configuration file *)

(** [find] of a quote in [s]: the text before it. *)
Definition before_quote (q : Z) (s : bytes) : option bytes :=
  match split_once q s with Some (a, _) => Some a | None => None end.

Definition is_quote (c : Z) : bool := (c =? c_squote) || (c =? c_dquote).

Definition parse_value (v : bytes) : option bytes :=
  match v with
  | [] => None
  | first :: rest =>
    match (if is_quote first then before_quote first rest else None) with
    | Some inner => Some inner
    | None =>
      let last := List.last v 0 in
      if (2 <=? len v) && (first =? last) && is_quote first
      then Some (slice v 1 (length v - 1))
      else Some v
    end
  end.

Definition dashdash (key : bytes) : bytes := str "--" ++ key.

Fixpoint remove_earlier_option (out : list bytes) (key : bytes) : list bytes :=
  match out with
  | [] => []
  | x :: t =>
    if bool_decide (x = dashdash key) then
      match t with
      | v :: t' => if starts_with (str "-") v then remove_earlier_option t key
                   else remove_earlier_option t' key
      | [] => []
      end
    else if starts_with (dashdash key ++ str "=") x then remove_earlier_option t key
    else x :: remove_earlier_option t key
  end.

(** The tokens one [key]/[value] line appends. *)
Definition emit_option (key : bytes) (value : option bytes) : result msg (list bytes) :=
  if bool_decide (key = str "mode") then
    let? v := ok_or value "mode needs a value (server|client)" in
    if bool_decide (v = str "server") then Ok [str "-s"]
    else if bool_decide (v = str "client") then Ok [str "-c"]
    else Err "mode must be 'server' or 'client'"
  else if bool_decide (opt_kind key = Some Switch) then
    match value with
    | None => Ok [dashdash key]
    | Some v => if bool_decide (v = str "true") then Ok [dashdash key] else Err "an on/off switch, drop the value"
    end
  else
    let? v := ok_or value "option needs a value (KEY = VALUE)" in
    Ok [dashdash key; v].

(** The key and value of a line; [None] for a blank line or a comment. *)
Definition line_setting (raw : bytes) : result msg (option (bytes * option bytes)) :=
  let line := trim raw in
  if bool_decide (line = []) || starts_with (str "#") line then Ok None
  else
    let? (key, value) :=
      match split_once c_eq line with
      | Some (k, v) =>
        let k := trim k in
        let? _ := ensure (negb (bool_decide (k = [])) && negb (has_char 32 k)) "key must be a single option name" in
        Ok (k, parse_value (trim v))
      | None => Ok (line, None)
      end in
    let? _ := ensure (is_some (opt_kind key)) "unknown option" in
    Ok (Some (key, value)).

(** One line of the file; the state is the argument vector so far and whether
    credentials were seen. *)
Definition config_line (st : list bytes * bool) (raw : bytes) : result msg (list bytes * bool) :=
  let '(out, has_creds) := st in
  let? setting := line_setting raw in
  match setting with
  | None => Ok (out, has_creds)
  | Some (key, value) =>
    let has_creds := has_creds || bool_decide (key = str "auth") in
    let out := if bool_decide (opt_kind key = Some Append) then out else remove_earlier_option out key in
    let? toks := emit_option key value in
    Ok (out ++ toks, has_creds)
  end.

Fixpoint config_lines (st : list bytes * bool) (ls : list bytes) : result msg (list bytes * bool) :=
  match ls with
  | [] => Ok st
  | l :: t => let? st' := config_line st l in config_lines st' t
  end.

(** [text] is the file's contents. *)
Definition parse_config_file (text : bytes) : result msg (list bytes * bool) :=
  let text := match strip_prefix [239; 187; 191] text with Some t => t | None => text end in
  config_lines ([], false) (lines text).

(** [file_args]: an explicit path must be a file; otherwise [newppp.conf] when
    it is one. [read] gives, for a path that is a file, the outcome of reading
    it as text. *)
Definition file_args (read : bytes -> option (result msg bytes)) (config_path : option bytes)
  : result msg (list bytes) :=
  match config_path, read (str "newppp.conf") with
  | None, None => Ok []
  | None, Some r => let? text := r in let? (argv, _) := parse_config_file text in Ok argv
  | Some p, _ =>
    let? r := ok_or (read p) "config file not found" in
    let? text := r in
    let? (argv, _) := parse_config_file text in Ok argv
  end.

(** ** The command line against the file *)

(** The scan of [extract_config_arg] from index 1 on. *)
Fixpoint extract_from (config : option bytes) (args : list bytes) : result msg (option bytes * list bytes) :=
  match args with
  | [] => Ok (config, [])
  | a :: t =>
    if bool_decide (a = str "--config") then
      match t with
      | [] => Err "--config needs a file path"
      | v :: t' => if is_some config then Err "--config given twice" else extract_from (Some v) t'
      end
    else match strip_prefix (str "--config=") a with
         | Some v => if is_some config then Err "--config given twice" else extract_from (Some v) t
         | None => let? (c, kept) := extract_from config t in Ok (c, a :: kept)
         end
  end.

Definition extract_config_arg (args : list bytes) : result msg (option bytes * list bytes) :=
  match args with
  | [] => Ok (None, [])
  | prog :: t => let? (c, kept) := extract_from None t in Ok (c, prog :: kept)
  end.

Fixpoint override_keys (cli_args : list bytes) : list bytes :=
  match cli_args with
  | [] => []
  | tok :: t =>
    match strip_prefix (str "--") tok with
    | Some rest =>
      let '(key, inline) := match split_once c_eq rest with Some (k, _) => (k, true) | None => (rest, false) end in
      match opt_kind key with
      | Some Append | None => override_keys t
      | Some kind =>
        if inline || bool_decide (kind = Switch) || bool_decide (rest = []) then key :: override_keys t
        else match t with
             | v :: t' => if starts_with (str "-") v then key :: override_keys t else key :: override_keys t'
             | [] => [key]
             end
      end
    | None => override_keys t
    end
  end.

Definition is_mode (a : bytes) : bool := bool_decide (a = str "-c") || bool_decide (a = str "-s").

Definition strip_cli_overridden (file_args cli_args : list bytes) : list bytes :=
  let args := fold_left remove_earlier_option (override_keys cli_args) file_args in
  if existsb is_mode cli_args then List.filter (fun a => negb (is_mode a)) args else args.

(** ** Abstract configuration: an ordered list of settings *)

Inductive Item := It (key : bytes) (value : option bytes) | ItMode (server : bool).

Definition render1 (i : Item) : list bytes :=
  match i with
  | It k None => [dashdash k]
  | It k (Some v) => [dashdash k; v]
  | ItMode b => [if b then str "-s" else str "-c"]
  end.
Definition render (l : list Item) : list bytes := flat_map render1 l.

Definition item_has (key : bytes) (i : Item) : bool :=
  match i with It k _ => bool_decide (k = key) | ItMode _ => false end.

(** Keys are free of [=]; values do not look like options. *)
Definition item_ok (i : Item) : Prop :=
  match i with
  | It k v => c_eq ∉ k /\ match v with Some v => starts_with (str "-") v = false | None => True end
  | ItMode _ => True
  end.

#[global] Instance item_ok_dec i : Decision (item_ok i).
Proof. destruct i as [k [v|]|b]; cbn; apply _. Defined.

(** The item of a line. *)
Definition item_of (key : bytes) (value : option bytes) : Item :=
  if bool_decide (key = str "mode") then ItMode (bool_decide (value = Some (str "server")))
  else It key (if bool_decide (opt_kind key = Some Switch) then None else value).

(** Last wins, for everything but repeatable options. *)
Definition set_item (items : list Item) (key : bytes) (value : option bytes) : list Item :=
  (if bool_decide (opt_kind key = Some Append) then items
   else List.filter (fun i => negb (item_has key i)) items) ++ [item_of key value].

(** ** Lemmas *)

Lemma dash_tok k : starts_with (str "-") (dashdash k) = true.
Proof. done. Qed.

Lemma dashdash_inj k k' : dashdash k = dashdash k' -> k = k'.
Proof. intros H; by injection H. Qed.

Lemma starts_with_iff p s : starts_with p s = true <-> exists r, s = p ++ r.
Proof.
  unfold starts_with; destruct (strip_prefix p s) as [r|] eqn:E.
  - apply strip_prefix_some in E; split; eauto.
  - split; [done|]. intros [r ->]. by rewrite strip_prefix_app in E.
Qed.

Lemma inline_no_eq key k : c_eq ∉ k -> starts_with (dashdash key ++ str "=") (dashdash k) = false.
Proof.
  intros Hk; apply not_true_is_false; rewrite starts_with_iff; intros [r E]; apply Hk.
  unfold dashdash in E; rewrite <- app_assoc in E. injection E as ->.
  set_unfold; right; left; done.
Qed.

(** A token that does not begin with a dash is no option. *)
Lemma nodash_keep v key t : starts_with (str "-") v = false ->
  remove_earlier_option (v :: t) key = v :: remove_earlier_option t key.
Proof.
  intros Hv; cbn [remove_earlier_option].
  destruct (bool_decide_reflect (v = dashdash key)) as [->|]; [done|].
  destruct (starts_with (dashdash key ++ str "=") v) eqn:E; [|done].
  apply starts_with_iff in E as [r ->]. done.
Qed.

Lemma render_head l : match render l with [] => True | x :: _ => starts_with (str "-") x = true end.
Proof. destruct l as [|[k [v|]|[]] l]; done. Qed.

Lemma remove_render key l : Forall item_ok l ->
  remove_earlier_option (render l) key = render (List.filter (fun i => negb (item_has key i)) l).
Proof.
  induction 1 as [|i l Hi Hl IH]; [done|]. destruct i as [k v|b]; cbn [item_ok List.filter item_has] in *.
  - destruct Hi as [Hk Hv]. destruct (bool_decide_reflect (k = key)) as [->|Hne]; cbn [negb].
    + rewrite <- IH. destruct v as [v|]; cbn [render flat_map render1 app remove_earlier_option].
      * rewrite bool_decide_true by done. by rewrite Hv.
      * rewrite bool_decide_true by done. fold (render l). pose proof (render_head l).
        destruct (render l) as [|x t]; [done|]. cbn [app]. rewrite H. done.
    + assert (bool_decide (dashdash k = dashdash key) = false) as Hb
        by (apply bool_decide_false; intros ?%dashdash_inj; done).
      destruct v as [v|]; cbn [render flat_map render1 app]; cbn [remove_earlier_option]; rewrite Hb, inline_no_eq by done; f_equal; [|done].
      etrans; [by apply nodash_keep|]. f_equal. done.
  - cbn [negb render flat_map render1 app]. fold (render l).
    destruct b; cbn [remove_earlier_option]; rewrite bool_decide_false by done; f_equal; done.
Qed.

Lemma emit_item key value toks : emit_option key value = Ok toks -> render1 (item_of key value) = toks.
Proof.
  unfold emit_option, item_of; intros H.
  destruct (bool_decide (key = str "mode")).
  - rinv; subst. destr; bsimpl; subst; done.
  - destruct (bool_decide (opt_kind key = Some Switch)); destr; rinv; by subst.
Qed.

Lemma opt_kind_no_eq key k : opt_kind key = Some k -> c_eq ∉ key.
Proof.
  unfold opt_kind; intros H. destruct (List.find _ options) as [[k0 kd]|] eqn:E; [|done].
  apply List.find_some in E as [Hin%list_elem_of_In Hk%bool_decide_eq_true]; cbn [fst] in Hk; subst k0.
  assert (Hall : Forall (fun o : bytes * OptKind => c_eq ∉ o.1) options)
    by (apply (bool_decide_unpack _); vm_compute; exact I).
  exact (proj1 (Forall_forall _ _) Hall (key, kd) Hin).
Qed.

Lemma filter_items_ok f items : Forall item_ok items -> Forall item_ok (List.filter f items).
Proof.
  intros Hi; apply Forall_forall; intros i [Hin _]%list_elem_of_In%List.filter_In.
  eapply Forall_forall in Hi; [done|by apply list_elem_of_In].
Qed.

Lemma set_item_ok items key value : Forall item_ok items -> item_ok (item_of key value) ->
  Forall item_ok (set_item items key value).
Proof.
  intros Hi Ho; apply Forall_app; split; [|by constructor].
  destruct (bool_decide _); [done|by apply filter_items_ok].
Qed.

Lemma config_line_render items creds raw key value out' creds' : Forall item_ok items ->
  line_setting raw = Ok (Some (key, value)) ->
  config_line (render items, creds) raw = Ok (out', creds') ->
  out' = render (set_item items key value).
Proof.
  intros Hi Hl H; unfold config_line in H; rewrite Hl in H; cbn [rbind] in H. rinv. subst.
  match goal with H : emit_option _ _ = Ok _ |- _ => apply emit_item in H; rewrite <- H end.
  unfold set_item, render; rewrite flat_map_app; cbn [flat_map]; rewrite app_nil_r. f_equal.
  destruct (bool_decide _); [done|by apply remove_render].
Qed.

(** The settings of a list of lines, in order. *)
Fixpoint settings (ls : list bytes) : result msg (list (bytes * option bytes)) :=
  match ls with
  | [] => Ok []
  | l :: t =>
    let? s := line_setting l in
    let? rest := settings t in
    Ok (match s with Some kv => kv :: rest | None => rest end)
  end.

Definition apply_settings (items : list Item) (kvs : list (bytes * option bytes)) : list Item :=
  fold_left (fun items kv => set_item items kv.1 kv.2) kvs items.

Lemma config_lines_render ls : forall items creds out creds', Forall item_ok items ->
  config_lines (render items, creds) ls = Ok (out, creds') ->
  exists kvs, settings ls = Ok kvs
  /\ (Forall (fun kv => item_ok (item_of kv.1 kv.2)) kvs -> out = render (apply_settings items kvs)).
Proof.
  induction ls as [|l ls IH]; intros items creds out creds' Hi H; cbn [config_lines settings] in *.
  { exists []; split; [done|]. by simplify_eq. }
  apply rbind_ok in H as ([out1 c1] & H1 & H2).
  destruct (line_setting l) as [[[key value]|]|e] eqn:El; cbn [rbind].
  - destruct (decide (item_ok (item_of key value))) as [Ho|Ho].
    + rewrite (config_line_render _ _ _ _ _ _ _ Hi El H1) in H2.
      apply IH in H2 as (kvs & -> & Hk); [|by apply set_item_ok]. cbn [rbind].
      eexists; split; [done|]. intros [_ ?]%Forall_cons. by apply Hk.
    + assert (exists kvs, settings ls = Ok kvs) as [kvs ->]; [|cbn [rbind]; eexists; split; [done|]; intros [? _]%Forall_cons; done].
      clear -H2. revert out1 c1 H2; induction ls as [|l ls IH]; intros o c H2; cbn [config_lines settings] in *; [eauto|].
      apply rbind_ok in H2 as ([o2 c2] & H1 & H2). destruct (IH _ _ H2) as [kvs ->].
      unfold config_line in H1; apply rbind_ok in H1 as (s & -> & _). cbn [rbind]. eauto.
  - unfold config_line in H1; rewrite El in H1; cbn [rbind] in H1; simplify_eq.
    apply IH in H2 as (kvs & -> & Hk); [|done]. cbn [rbind]. eauto.
  - unfold config_line in H1; rewrite El in H1; done.
Qed.

Lemma trim_slash p : starts_with (str "/") (normalize_path p) = true.
Proof.
  unfold normalize_path. destruct (_ || _); [done|].
  destruct (starts_with (str "/") (trim p)) eqn:E; done.
Qed.

(** A user id is free of the separators of bearer tokens and nonce keys. *)
Definition uid_ok (uid : bytes) : Prop :=
  uid <> [] /\ len uid <= 32 /\ Forall (fun c => uid_char c = true) uid.

Lemma parse_auth_ok raw uid pw : parse_auth raw = Ok (uid, pw) -> uid_ok uid /\ pw <> [].
Proof.
  unfold parse_auth; intros H; rinv; destruct x as [u p]; rinv. bsimpl. subst.
  split; [|done]. split_and!; try done.
  match goal with H : forallb _ _ = true |- _ => rewrite forallb_forall in H; apply Forall_forall; intros c Hc; apply H, list_elem_of_In, Hc end.
Qed.

Lemma uid_ok_no uid c : uid_char c = false -> uid_ok uid -> c ∉ uid.
Proof. intros Hc (_ & _ & Hf) Hin. eapply Forall_forall in Hf; [|exact Hin]. congruence. Qed.

Lemma parse_users_ok l us : parse_users l = Ok us ->
  length us = length l /\ Forall (fun up => uid_ok up.1 /\ up.2 <> []) us.
Proof.
  revert us; induction l as [|a l IH]; intros us H; cbn in H; [simplify_eq; by split; constructor|].
  rinv; subst. destruct (IH _ ltac:(done)) as [? ?]. destruct x as [u p].
  split; [cbn; lia|]. constructor; [by eapply parse_auth_ok|done].
Qed.

Lemma max_frame_range kb n : max_frame_bytes kb = Ok n -> MAX_PLAINTEXT <= n <= MAX_PLAINTEXT_CAP.
Proof.
  unfold max_frame_bytes; change (MAX_PLAINTEXT_CAP / 1024) with 1024; cbn zeta; intros H.
  rinv; bsimpl; subst. unfold MAX_PLAINTEXT, MAX_PLAINTEXT_CAP; lia.
Qed.

Lemma recv_window_range mb n : recv_window_bytes mb = Ok n -> n = mb * 1024 * 1024 /\ 1 <= mb <= 64.
Proof.
  unfold recv_window_bytes; intros H; rinv; bsimpl; subst.
  rewrite (wrap_small 32 mb), (wrap_small 32 (mb * 1024)), wrap_small by lia. lia.
Qed.

Lemma filter_id_no c (s : bytes) : c ∉ s -> filter (fun x => x <> c) s = s.
Proof.
  induction s as [|x s IH]; [done|]; intros Hc. rewrite filter_cons_True by set_solver. f_equal; set_solver.
Qed.

Lemma fp_pairs_hex b : wf_bytes b -> fp_pairs (hex b) = Ok b.
Proof.
  induction 1 as [|x b Hx Hb IH]; [done|]. unfold is_byte in Hx. cbn [hex flat_map app fp_pairs]. fold (hex b).
  rewrite !to_digit_hex by (split; [apply Z.div_pos || apply Z.mod_pos_bound; lia|
    apply Z.div_lt_upper_bound || apply Z.mod_pos_bound; lia]).
  cbn [ok_or rbind]. rewrite IH; cbn [rbind]. by rewrite nibbles.
Qed.

Definition not_mode (i : Item) : bool := match i with ItMode _ => false | It _ _ => true end.

(** What the command line leaves of the file's settings. *)
Definition survives (cli : list bytes) (i : Item) : bool :=
  forallb (fun k => negb (item_has k i)) (override_keys cli) && (negb (existsb is_mode cli) || not_mode i).

Lemma filter_filter {A} (f g : A -> bool) l : List.filter g (List.filter f l) = List.filter (fun x => f x && g x) l.
Proof. induction l as [|x l IH]; [done|]; cbn [List.filter]. destruct (f x); cbn [List.filter andb]; by rewrite IH. Qed.

(** Dropping the mode switches of a rendered list drops its modes. *)
Lemma filter_mode_render items : Forall item_ok items ->
  List.filter (fun a => negb (is_mode a)) (render items) = render (List.filter not_mode items).
Proof.
  induction 1 as [|i items Hi Hit IH]; [done|]. unfold render in *; cbn [flat_map List.filter].
  rewrite List.filter_app, IH. destruct i as [k v|[]]; cbn [not_mode flat_map]; [|done..].
  f_equal. assert (Hk : is_mode (dashdash k) = false) by (unfold is_mode; by rewrite !bool_decide_false by (intros ?; done)).
  cbn [render1]. destruct v as [v|]; cbn [List.filter]; rewrite Hk; cbn [negb]; [|done].
  destruct Hi as [_ Hv]. assert (Hm : is_mode v = false); [|by rewrite Hm].
  unfold is_mode. rewrite !bool_decide_false; [done| |]; intros ->; by vm_compute in Hv.
Qed.

Lemma remove_all_render keys : forall items, Forall item_ok items ->
  fold_left remove_earlier_option keys (render items)
  = render (List.filter (fun i => forallb (fun k => negb (item_has k i)) keys) items).
Proof.
  induction keys as [|k ks IH]; intros items Hi; cbn [fold_left forallb].
  - f_equal. clear Hi. induction items as [|i l IH]; cbn; [done|by f_equal].
  - rewrite remove_render, IH, filter_filter by auto using filter_items_ok. done.
Qed.

(** ** Properties *)

(** The configuration file is a last-wins assignment: whatever the file,
    if it parses and its values do not look like options, the arguments it
    yields are those of its settings in order, each replacing the earlier ones
    of its key; repeatable options accumulate. *)
Theorem config_file_last_wins text argv creds : parse_config_file text = Ok (argv, creds) ->
  exists kvs, settings (lines (default text (strip_prefix [239; 187; 191] text))) = Ok kvs
  /\ (Forall (fun kv => item_ok (item_of kv.1 kv.2)) kvs -> argv = render (apply_settings [] kvs)).
Proof.
  unfold parse_config_file. intros H. apply (config_lines_render _ [] false argv creds); [constructor|].
  by destruct (strip_prefix _ text).
Qed.

(** The [mode] key is the exception to last-wins: a repeated [mode] line
    leaves both switches in the arguments. *)
Theorem config_mode_accumulates v w : v ∈ [str "server"; str "client"] -> w ∈ [str "server"; str "client"] ->
  config_lines ([], false) [str "mode=" ++ v; str "mode=" ++ w]
  = Ok (render [ItMode (bool_decide (v = str "server")); ItMode (bool_decide (w = str "server"))], false).
Proof.
  intros Hv Hw; repeat (apply elem_of_cons in Hv as [->|Hv]); try by apply elem_of_nil in Hv.
  all: repeat (apply elem_of_cons in Hw as [->|Hw]); try by apply elem_of_nil in Hw.
  all: vm_compute; reflexivity.
Qed.

(** The command line wins over the file: every single-valued option given on
    the command line is removed from the file's arguments, with its value, the
    file's mode is dropped when the command line has one, and everything else is
    kept in order. *)
Theorem cli_overrides_file items cli : Forall item_ok items ->
  strip_cli_overridden (render items) cli = render (List.filter (survives cli) items).
Proof.
  intros Hi; unfold strip_cli_overridden, survives; rewrite remove_all_render by done.
  destruct (existsb is_mode cli); cbn [negb orb].
  - rewrite filter_mode_render by auto using filter_items_ok. f_equal; by rewrite filter_filter.
  - f_equal. apply List.filter_ext; intros i. by rewrite andb_true_r.
Qed.

(** A server configuration that validates is usable: every user id is safe
    as a token and nonce-key component, the limits are positive and inside the
    protocol's range, and the API path is absolute. *)
Theorem server_config_sound is_file c cfg : server_config is_file c = Ok cfg ->
  Forall (fun up => uid_ok up.1 /\ up.2 <> []) (sc_users cfg) /\ length (sc_users cfg) = length (cli_auth c)
  /\ 1 <= sc_max_sessions cfg /\ 5 <= sc_idle_secs cfg /\ 1 <= sc_max_unauth cfg
  /\ MAX_PLAINTEXT <= sc_max_plaintext cfg <= MAX_PLAINTEXT_CAP
  /\ starts_with (str "/") (sc_path cfg) = true
  /\ (sc_listen cfg <> None \/ sc_fallback_listen cfg <> None)
  /\ match sc_cert cfg with CertFiles ce k => is_file ce = true /\ is_file k = true | CertSelfSigned => cli_self_signed c = true end.
Proof.
  unfold server_config; intros H; rinv; subst; cbn [sc_users sc_max_sessions sc_idle_secs sc_max_unauth sc_max_plaintext sc_path sc_listen sc_fallback_listen sc_cert].
  match goal with H : parse_users _ = Ok _ |- _ => apply parse_users_ok in H as [? ?] end.
  match goal with H : max_frame_bytes _ = Ok _ |- _ => apply max_frame_range in H end.
  split_and!; try done; try lia.
  - apply trim_slash.
  - destruct (cli_listen c), (cli_fallback_listen c); naive_solver.
  - destruct (cli_self_signed c); [by simplify_eq|]. destruct (cli_cert c), (cli_key c); try done. rinv; by subst.
Qed.

(** A client configuration that validates never masquerades its server
    name without an explicit identity: [--sni] comes with a pinned certificate
    or disabled verification, never both, and never over a WebSocket URL. *)
Theorem client_config_sound c cfg : client_config c = Ok cfg ->
  uid_ok (cc_uid cfg) /\ cc_password cfg <> [] /\ 1 <= cc_conns cfg <= 8
  /\ MAX_PLAINTEXT <= cc_max_plaintext cfg <= MAX_PLAINTEXT_CAP
  /\ (cc_wt_url cfg <> None \/ cc_fb_url cfg <> None)
  /\ (cc_pin cfg <> None -> cc_skip_verify cfg = false)
  /\ (cc_sni cfg <> None -> cc_pin cfg <> None \/ cc_skip_verify cfg = true)
  /\ (cc_sni cfg <> None -> forall u, cc_fb_url cfg = Some u ->
      starts_with (str "wss://") u = false /\ starts_with (str "ws://") u = false).
Proof.
  unfold client_config; intros H; rinv; destruct x0 as [uid pw]; rinv; subst; bsimpl.
  cbn [cc_uid cc_password cc_conns cc_max_plaintext cc_wt_url cc_fb_url cc_pin cc_skip_verify cc_sni].
  match goal with H : parse_auth _ = Ok _ |- _ => apply parse_auth_ok in H as [? ?] end.
  match goal with H : max_frame_bytes _ = Ok _ |- _ => apply max_frame_range in H end.
  split_and!; try done; try lia.
  - destruct (cli_server_url c), (cli_url c); naive_solver.
  - destruct (cli_pin c); rinv; subst; [bsimpl; done|done].
  - intros Hs; destruct (cli_sni c); [|done]. unfold check_sni in *; rinv. destruct (match cli_pin c with Some _ => _ | None => _ end) in *.
    all: match goal with |- ?p <> None \/ _ => destruct p; [left; done|right; done] end.
  - intros Hs u Hu; destruct (cli_sni c); [|done]. unfold check_sni in *; rinv. rewrite Hu in *. rinv. by bsimpl.
Qed.

(** A certificate fingerprint printed in hexadecimal parses back to its 32
    bytes. *)
Theorem fingerprint_roundtrip b : wf_bytes b -> len b = 32 -> parse_fingerprint (hex b) = Ok b.
Proof.
  intros Hw Hl; unfold parse_fingerprint. rewrite filter_id_no by (by apply hex_no).
  rewrite len_hex, Hl; cbn [ensure Z.mul Z.eqb rbind]. by apply fp_pairs_hex.
Qed.

(** ** Witnesses *)

Module ConfigWitness.

Definition nl : bytes := [10].
Definition conf : bytes :=
  str "# comment" ++ nl ++ str "log = info" ++ nl ++ str "auth = a:b" ++ nl ++ str "self-signed" ++ nl
  ++ str "log = 'debug' # last wins" ++ nl ++ str "auth = c:d".

Lemma config_file_last_wins_witness : exists argv creds,
  parse_config_file conf = Ok (argv, creds)
  /\ exists kvs, settings (lines (default conf (strip_prefix [239; 187; 191] conf))) = Ok kvs
  /\ (Forall (fun kv => item_ok (item_of kv.1 kv.2)) kvs -> argv = render (apply_settings [] kvs)).
Proof.
  exists [str "--auth"; str "a:b"; str "--self-signed"; str "--log"; str "debug"; str "--auth"; str "c:d"], true.
  split; [vm_compute; reflexivity|].
  eapply (config_file_last_wins conf); vm_compute; reflexivity.
Defined.

Lemma config_mode_accumulates_witness :
  config_lines ([], false) [str "mode=" ++ str "server"; str "mode=" ++ str "client"] = Ok ([str "-s"; str "-c"], false).
Proof. apply (config_mode_accumulates (str "server") (str "client")); set_solver. Defined.

Definition items : list Item := [It (str "log") (Some (str "info")); It (str "auth") (Some (str "a:b"))].

Lemma cli_overrides_file_witness :
  strip_cli_overridden (render items) [str "prog"; str "--log"; str "debug"] = [str "--auth"; str "a:b"].
Proof.
  rewrite (cli_overrides_file items [str "prog"; str "--log"; str "debug"]).
  - vm_compute; reflexivity.
  - apply (bool_decide_unpack _); vm_compute; exact I.
Defined.

Definition cli : Cli := {|
  cli_client := true; cli_server := false; cli_auth := [str "alice:secret"];
  cli_server_url := Some (str "https://h"); cli_url := None; cli_bind := str "127.0.0.1:1080";
  cli_http_bind := None; cli_inbound_auth := None; cli_conns := 2; cli_skip_verify := true;
  cli_sni := Some (str "cdn.example"); cli_pin := None; cli_recv_window_mb := 2; cli_max_frame_kb := 16;
  cli_listen := Some (str ":443"); cli_cert := None; cli_key := None; cli_self_signed := true;
  cli_fallback_listen := None; cli_http_listen := None; cli_acme_dir := None; cli_path := str "api";
  cli_max_sessions := 200; cli_rate_mbps := 100; cli_idle_secs := 60; cli_udp_dns_ttl := 3600;
  cli_allow_private_targets := false; cli_max_unauth := 128; cli_health := None; cli_shutdown_grace := 10 |}.

Lemma server_config_sound_witness : exists cfg, server_config (fun _ => false) cli = Ok cfg
  /\ 1 <= sc_max_sessions cfg /\ starts_with (str "/") (sc_path cfg) = true.
Proof.
  eexists; split; [vm_compute; reflexivity|].
  edestruct (server_config_sound (fun _ => false) cli) as (_ & _ & H1 & _ & _ & _ & H2 & _);
    [vm_compute; reflexivity|]. split; [exact H1|exact H2].
Defined.

Lemma client_config_sound_witness : exists cfg, client_config cli = Ok cfg
  /\ (cc_sni cfg <> None -> cc_pin cfg <> None \/ cc_skip_verify cfg = true).
Proof.
  eexists; split; [vm_compute; reflexivity|].
  edestruct (client_config_sound cli) as (_ & _ & _ & _ & _ & _ & H & _); [vm_compute; reflexivity|exact H].
Defined.

Lemma fingerprint_roundtrip_witness : parse_fingerprint (hex (replicate 32 171)) = Ok (replicate 32 171).
Proof.
  apply (fingerprint_roundtrip (replicate 32 171)); [|reflexivity].
  apply (bool_decide_unpack _); vm_compute; exact I.
Defined.

End ConfigWitness.
