(* ===== verification/Limit.v ===== *)
(** * The unauthenticated-connection gate: [server/limit.rs]

    [UnauthGate] caps concurrent connections that have not authenticated,
    globally and per source address.  The sequential operations come first;
    [gate_step] then interleaves their atomic accesses (the shard-locked map
    entry, the counter's load, compare-exchange and [fetch_sub]) for any number
    of threads. *)

From S2P Require Import Prelude Bytes Net.

(** ** State *)

Record UnauthGate := {
  ug_global : Z;
  ug_per_ip : gmap IpAddr Z;
  ug_max_global : Z;
  ug_max_per_ip : Z;
}.

Definition ug_new (max_global max_per_ip : Z) : UnauthGate :=
  {| ug_global := 0; ug_per_ip := ∅;
     ug_max_global := Z.max max_global 1; ug_max_per_ip := Z.max max_per_ip 1 |}.

Definition ug_set_global (g : UnauthGate) (n : Z) : UnauthGate :=
  {| ug_global := n; ug_per_ip := ug_per_ip g;
     ug_max_global := ug_max_global g; ug_max_per_ip := ug_max_per_ip g |}.

Definition ug_set_per_ip (g : UnauthGate) (m : gmap IpAddr Z) : UnauthGate :=
  {| ug_global := ug_global g; ug_per_ip := m;
     ug_max_global := ug_max_global g; ug_max_per_ip := ug_max_per_ip g |}.

(** ** Operations *)

(** The per-address reservation at the head of [try_admit], under the entry's
    shard lock: [false] when the address is at its cap. *)
Definition reserve_ip (g : UnauthGate) (ip : IpAddr) : bool * UnauthGate :=
  let e := default 0 (ug_per_ip g !! ip) in
  let g1 := ug_set_per_ip g (<[ip := e]> (ug_per_ip g)) in
  if ug_max_per_ip g <=? e then (false, g1)
  else (true, ug_set_per_ip g1 (<[ip := e + 1]> (ug_per_ip g1))).

Definition release_ip (g : UnauthGate) (ip : IpAddr) : UnauthGate :=
  match ug_per_ip g !! ip with
  | Some e =>
    let e' := sat_sub e 1 in
    if e' =? 0 then ug_set_per_ip g (delete ip (ug_per_ip g))
    else ug_set_per_ip g (<[ip := e']> (ug_per_ip g))
  | None => g
  end.

Definition release_opt (g : UnauthGate) (ip : option IpAddr) : UnauthGate :=
  match ip with Some ip => release_ip g ip | None => g end.

(** One round of the counter loop when no other thread intervenes. *)
Definition bump_global (g : UnauthGate) (ip : option IpAddr) : bool * UnauthGate :=
  let cur := ug_global g in
  if ug_max_global g <=? cur then (false, release_opt g ip)
  else (true, ug_set_global g (cur + 1)).

(** [try_admit]: whether a guard for [ip] is returned. *)
Definition try_admit (g : UnauthGate) (ip : option IpAddr) : bool * UnauthGate :=
  match ip with
  | None => bump_global g None
  | Some a =>
    match reserve_ip g a with
    | (false, g1) => (false, g1)
    | (true, g1) => bump_global g1 ip
    end
  end.

(** [Drop for UnauthGuard]: the counter first, then the address. *)
Definition drop_guard (g : UnauthGate) (ip : option IpAddr) : UnauthGate :=
  release_opt (ug_set_global g (wrap 64 (ug_global g - 1))) ip.

(** ** Interleaved execution *)

(** Where a thread is between two atomic accesses: [ip] reserved, counter not
    yet loaded; counter loaded as [cur]; refused by the global cap with the
    address still reserved; guard held; guard dropped up to the address. *)
Inductive Phase :=
| Reserved (ip : option IpAddr)
| Loaded (ip : option IpAddr) (cur : Z)
| Refused (ip : IpAddr)
| Holding (ip : option IpAddr)
| Dropping (ip : IpAddr).

Definition GateSys : Type := UnauthGate * list Phase.

Inductive gate_step : GateSys -> GateSys -> Prop :=
| gs_enter_any g ts :
    gate_step (g, ts) (g, Reserved None :: ts)
| gs_enter_ip g ts ip g' :
    reserve_ip g ip = (true, g') ->
    gate_step (g, ts) (g', Reserved (Some ip) :: ts)
| gs_enter_full g ts ip g' :
    reserve_ip g ip = (false, g') ->
    gate_step (g, ts) (g', ts)
| gs_load g ts1 ip ts2 : ug_global g < ug_max_global g ->
    gate_step (g, ts1 ++ Reserved ip :: ts2) (g, ts1 ++ Loaded ip (ug_global g) :: ts2)
| gs_load_full_ip g ts1 ip ts2 : ug_max_global g <= ug_global g ->
    gate_step (g, ts1 ++ Reserved (Some ip) :: ts2) (g, ts1 ++ Refused ip :: ts2)
| gs_load_full g ts1 ts2 : ug_max_global g <= ug_global g ->
    gate_step (g, ts1 ++ Reserved None :: ts2) (g, ts1 ++ ts2)
| gs_cas_ok g ts1 ip cur ts2 : ug_global g = cur ->
    gate_step (g, ts1 ++ Loaded ip cur :: ts2) (ug_set_global g (cur + 1), ts1 ++ Holding ip :: ts2)
| gs_cas_fail g ts1 ip cur ts2 : ug_global g <> cur ->
    gate_step (g, ts1 ++ Loaded ip cur :: ts2) (g, ts1 ++ Reserved ip :: ts2)
| gs_refuse g ts1 ip ts2 :
    gate_step (g, ts1 ++ Refused ip :: ts2) (release_ip g ip, ts1 ++ ts2)
| gs_drop_ip g ts1 ip ts2 :
    gate_step (g, ts1 ++ Holding (Some ip) :: ts2)
              (ug_set_global g (wrap 64 (ug_global g - 1)), ts1 ++ Dropping ip :: ts2)
| gs_drop g ts1 ts2 :
    gate_step (g, ts1 ++ Holding None :: ts2)
              (ug_set_global g (wrap 64 (ug_global g - 1)), ts1 ++ ts2)
| gs_drop_rest g ts1 ip ts2 :
    gate_step (g, ts1 ++ Dropping ip :: ts2) (release_ip g ip, ts1 ++ ts2).

(** ** Invariant *)

(** 1 for a thread that holds a guard. *)
Definition holds (p : Phase) : Z := match p with Holding _ => 1 | _ => 0 end.

(** The address a thread has counted in [per_ip]. *)
Definition counted (p : Phase) : option IpAddr :=
  match p with
  | Reserved ip | Loaded ip _ | Holding ip => ip
  | Refused ip | Dropping ip => Some ip
  end.
Definition counts (ip : IpAddr) (p : Phase) : Z :=
  if bool_decide (counted p = Some ip) then 1 else 0.

(** The value a thread loaded below the cap. *)
Definition loaded_ok (mx : Z) (p : Phase) : Prop :=
  match p with Loaded _ cur => 0 <= cur < mx | _ => True end.

(** Every count is exactly the number of threads that must still release it. *)
Definition per_ip_is (m : gmap IpAddr Z) (cap : Z) (n : IpAddr -> Z) : Prop :=
  forall ip, (m !! ip = None /\ n ip = 0) \/ (m !! ip = Some (n ip) /\ 1 <= n ip <= cap).

Definition gate_inv (s : GateSys) : Prop :=
  let '(g, ts) := s in
  1 <= ug_max_global g <= u64_max /\ 1 <= ug_max_per_ip g
  /\ ug_global g = sumz holds ts /\ ug_global g <= ug_max_global g
  /\ per_ip_is (ug_per_ip g) (ug_max_per_ip g) (fun ip => sumz (counts ip) ts)
  /\ Forall (loaded_ok (ug_max_global g)) ts.

(** ** The invariant is inductive *)

Lemma holds_nonneg p : 0 <= holds p.
Proof. destruct p; cbn; lia. Qed.
Lemma counts_bound ip p : 0 <= counts ip p <= 1.
Proof. unfold counts; destruct (bool_decide _); lia. Qed.

(** The map entry a thread on [ip] contributes. *)
Definition one_if (ip x : IpAddr) : Z := if bool_decide (ip = x) then 1 else 0.

Lemma counts_eq p x : counts x p = match counted p with Some ip => one_if ip x | None => 0 end.
Proof.
  unfold counts, one_if; destruct (counted p) as [ip|]; [|by rewrite bool_decide_false].
  by rewrite (bool_decide_ext _ (ip = x)) by naive_solver.
Qed.

Lemma per_ip_ext m cap n n' : (forall x, n x = n' x) -> per_ip_is m cap n -> per_ip_is m cap n'.
Proof. intros E H x; rewrite <- E; apply H. Qed.

Lemma reserve_ip_ok g ip g' n : per_ip_is (ug_per_ip g) (ug_max_per_ip g) n ->
  reserve_ip g ip = (true, g') ->
  ug_global g' = ug_global g /\ ug_max_global g' = ug_max_global g
  /\ ug_max_per_ip g' = ug_max_per_ip g
  /\ per_ip_is (ug_per_ip g') (ug_max_per_ip g) (fun x => one_if ip x + n x).
Proof.
  intros H E; unfold reserve_ip in E; destruct (Z.leb_spec (ug_max_per_ip g) (default 0 (ug_per_ip g !! ip))); simplify_eq.
  split_and!; try done. intros x; cbn. rewrite insert_insert_eq. unfold one_if.
  specialize (H x); destruct (decide (ip = x)) as [<-|Hne].
  - rewrite bool_decide_true, lookup_insert_eq by done. right.
    destruct H as [[Hl Hn]|[Hl Hn]]; rewrite Hl in *; cbn in *; split; [f_equal; lia|lia|f_equal; lia|lia].
  - by rewrite bool_decide_false, lookup_insert_ne.
Qed.

Lemma reserve_ip_full g ip g' n : 1 <= ug_max_per_ip g ->
  per_ip_is (ug_per_ip g) (ug_max_per_ip g) n -> reserve_ip g ip = (false, g') ->
  g' = g /\ n ip = ug_max_per_ip g.
Proof.
  intros Hc H E; unfold reserve_ip in E; destruct (Z.leb_spec (ug_max_per_ip g) (default 0 (ug_per_ip g !! ip))); simplify_eq.
  destruct (H ip) as [[Hl ?]|[Hl ?]]; rewrite Hl in *; cbn in *; [lia|].
  rewrite insert_id by done. split; [by destruct g|lia].
Qed.

Lemma release_ip_ok g ip n : (forall x, 0 <= n x) ->
  per_ip_is (ug_per_ip g) (ug_max_per_ip g) (fun x => one_if ip x + n x) ->
  per_ip_is (ug_per_ip (release_ip g ip)) (ug_max_per_ip g) n.
Proof.
  intros Hn H x; pose proof (H ip) as Hip; pose proof (H x) as Hx; pose proof (Hn ip).
  unfold one_if in *; rewrite bool_decide_true in Hip by done; unfold release_ip.
  destruct Hip as [[? ?]|[-> Hb]]; [lia|].
  replace (sat_sub (1 + n ip) 1) with (n ip) by (unfold sat_sub; lia).
  destruct (decide (ip = x)) as [<-|Hne].
  - destruct (Z.eqb_spec (n ip) 0); cbn; [rewrite lookup_delete_eq; auto|].
    rewrite lookup_insert_eq; right; split; [done|lia].
  - rewrite bool_decide_false in Hx by done.
    destruct (n ip =? 0); cbn; rewrite ?lookup_delete_ne, ?lookup_insert_ne by done; done.
Qed.

Lemma release_ip_frame g ip :
  ug_global (release_ip g ip) = ug_global g /\ ug_max_global (release_ip g ip) = ug_max_global g
  /\ ug_max_per_ip (release_ip g ip) = ug_max_per_ip g.
Proof. unfold release_ip; destr. Qed.

(** The counted addresses of a thread list, with one thread taken out. *)
Lemma counts_out ts1 p ts2 ip : counted p = Some ip -> forall x,
  sumz (counts x) (ts1 ++ p :: ts2) = one_if ip x + sumz (counts x) (ts1 ++ ts2).
Proof. intros E x; autorewrite with sumz; rewrite (counts_eq p), E; lia. Qed.

Lemma counts_same ts1 p q ts2 : counted p = counted q -> forall x,
  sumz (counts x) (ts1 ++ p :: ts2) = sumz (counts x) (ts1 ++ q :: ts2).
Proof. intros E x; autorewrite with sumz; by rewrite !counts_eq, E. Qed.

Lemma counts_none ts1 p ts2 : counted p = None -> forall x,
  sumz (counts x) (ts1 ++ p :: ts2) = sumz (counts x) (ts1 ++ ts2).
Proof. intros E x; autorewrite with sumz; by rewrite counts_eq, E. Qed.

Lemma sum_counts_nonneg ts x : 0 <= sumz (counts x) ts.
Proof. apply sumz_nonneg; intros; apply counts_bound. Qed.
Lemma sum_holds_nonneg ts : 0 <= sumz holds ts.
Proof. apply sumz_nonneg, holds_nonneg. Qed.

Lemma release_inv g ts1 p ts2 ip : counted p = Some ip -> holds p = 0 ->
  gate_inv (g, ts1 ++ p :: ts2) -> gate_inv (release_ip g ip, ts1 ++ ts2).
Proof.
  intros Hc Hh (H1 & H2 & H3 & H4 & H5 & H6); destruct (release_ip_frame g ip) as (E1 & E2 & E3).
  unfold gate_inv; rewrite E1, E2, E3; autorewrite with sumz in *; rewrite Hh in H3.
  apply Forall_app in H6 as [? [? ?]%Forall_cons].
  split_and!; try done; try lia; [|by apply Forall_app].
  apply release_ip_ok; [apply sum_counts_nonneg|].
  eapply per_ip_ext; [|done]. by apply counts_out.
Qed.

(** Replacing a thread's phase and moving the counter accordingly. *)
Lemma phase_inv g ts1 p q ts2 n : counted p = counted q -> loaded_ok (ug_max_global g) q ->
  n = ug_global g - holds p + holds q -> n <= ug_max_global g ->
  gate_inv (g, ts1 ++ p :: ts2) -> gate_inv (ug_set_global g n, ts1 ++ q :: ts2).
Proof.
  intros Hc Hl -> Hn (H1 & H2 & H3 & H4 & H5 & H6); unfold gate_inv; cbn.
  apply Forall_app in H6 as [? [? ?]%Forall_cons].
  split_and!; try done; try lia; [autorewrite with sumz in *; lia| |apply Forall_app; auto].
  eapply per_ip_ext; [|done]. by apply counts_same.
Qed.

Lemma set_global_id g : ug_set_global g (ug_global g) = g.
Proof. by destruct g. Qed.

Lemma holding_pos g ts1 ip ts2 : gate_inv (g, ts1 ++ Holding ip :: ts2) -> 1 <= ug_global g <= u64_max.
Proof.
  intros (? & _ & E & ? & _); autorewrite with sumz in E; cbn in E.
  pose proof (sum_holds_nonneg ts1); pose proof (sum_holds_nonneg ts2). lia.
Qed.

Lemma drop_global_inv g ts1 ip ts2 : gate_inv (g, ts1 ++ Holding ip :: ts2) ->
  wrap 64 (ug_global g - 1) = ug_global g - 1.
Proof. intros H; apply holding_pos in H; apply wrap_small; unfold u64_max in *; lia. Qed.

Lemma gate_inv_step s s' : gate_inv s -> gate_step s s' -> gate_inv s'.
Proof.
  intros Hi Hs; destruct Hs.
  - destruct Hi as (? & ? & ? & ? & H5 & ?); split_and!; try done; try lia; by constructor.
  - destruct Hi as (? & ? & ? & ? & H5 & ?); destruct (reserve_ip_ok g ip g' _ H5 H) as (E1 & E2 & E3 & ?).
    unfold gate_inv; rewrite E1, E2, E3; split_and!; try done; try lia; [|by constructor].
    eapply per_ip_ext; [|done]. intros x; symmetry; by apply (counts_out []).
  - destruct Hi as (? & ? & ? & ? & H5 & ?). by destruct (reserve_ip_full g ip g' _ ltac:(done) H5 H) as [-> _].
  - rewrite <- (set_global_id g) at 1. pose proof Hi as (? & ? & ? & ? & _).
    pose proof (sum_holds_nonneg (ts1 ++ Reserved ip :: ts2)).
    eapply phase_inv; [| | | |done]; cbn; try done; lia.
  - rewrite <- (set_global_id g) at 1. pose proof Hi as (? & ? & ? & ? & _).
    eapply phase_inv; [| | | |done]; cbn; try done; lia.
  - destruct Hi as (? & ? & ? & ? & H5 & H6); unfold gate_inv; autorewrite with sumz in *; cbn [holds] in *.
    apply Forall_app in H6 as [? [? ?]%Forall_cons].
    split_and!; try done; try lia; [|by apply Forall_app].
    eapply per_ip_ext; [|done]. by apply counts_none.
  - subst cur; pose proof Hi as (? & ? & ? & ? & _ & [_ [Hl _]%Forall_cons]%Forall_app); cbn in Hl.
    eapply phase_inv; [| | | |done]; cbn; try done; lia.
  - rewrite <- (set_global_id g) at 1. pose proof Hi as (? & ? & ? & ? & _).
    eapply phase_inv; [| | | |done]; cbn; try done; lia.
  - by eapply (release_inv g ts1 (Refused ip)).
  - pose proof Hi as (? & ? & ? & ? & _). rewrite (drop_global_inv _ _ _ _ Hi).
    eapply phase_inv; [| | | |done]; cbn; try done; lia.
  - pose proof Hi as (? & ? & ? & ? & H5 & H6). rewrite (drop_global_inv _ _ _ _ Hi).
    unfold gate_inv; cbn; autorewrite with sumz in *; cbn [holds] in *.
    apply Forall_app in H6 as [? [? ?]%Forall_cons].
    split_and!; try done; try lia; [|by apply Forall_app].
    eapply per_ip_ext; [|done]. by apply counts_none.
  - by eapply (release_inv g ts1 (Dropping ip)).
Qed.

Lemma gate_inv_new mg mi : mg <= u64_max -> gate_inv (ug_new mg mi, []).
Proof.
  intros; unfold gate_inv, ug_new, u64_max in *; cbn; split_and!; try done; try lia.
  intros x; left; split; [apply lookup_empty|done].
Qed.

(** ** Properties *)

(** C17: under every interleaving of admissions, refusals and guard drops, the
    global counter is the number of guards held and never exceeds its cap, no
    address has more guards than the per-address cap, and the counter never
    wraps below zero. *)
Theorem gate_caps_hold mg mi g ts : mg <= u64_max -> star gate_step (ug_new mg mi, []) (g, ts) ->
  ug_global g = sumz holds ts /\ ug_global g <= Z.max mg 1
  /\ forall ip, sumz (counts ip) ts <= Z.max mi 1.
Proof.
  intros Hm Hs.
  assert (Hc : ug_max_global g = Z.max mg 1 /\ ug_max_per_ip g = Z.max mi 1).
  { eapply (star_invariant gate_step (fun s => ug_max_global s.1 = Z.max mg 1 /\ ug_max_per_ip s.1 = Z.max mi 1) _ _)
      in Hs; [done| |done].
    intros a b Ha Hb; destruct Hb; cbn in *; try done;
      try (unfold reserve_ip in *; destr; done); by destruct (release_ip_frame g0 ip) as (_ & -> & ->). }
  pose proof (star_invariant _ gate_inv _ _ gate_inv_step Hs (gate_inv_new _ _ Hm)) as (H1 & H2 & H3 & H4 & H5 & _).
  destruct Hc as [Hc1 Hc2]; split_and!; [done|lia|]. intros ip; destruct (H5 ip) as [[_ ->]|[_ ?]]; lia.
Qed.

(** No slot leaks: once no thread is between its admission and the end of
    its release, the gate is back to its initial state, with an empty address
    table. *)
Theorem gate_no_leak mg mi g : mg <= u64_max -> star gate_step (ug_new mg mi, []) (g, []) ->
  ug_global g = 0 /\ ug_per_ip g = ∅.
Proof.
  intros Hm Hs.
  pose proof (star_invariant _ gate_inv _ _ gate_inv_step Hs (gate_inv_new _ _ Hm)) as (_ & _ & H3 & _ & H5 & _).
  split; [done|]. apply map_eq; intros ip; rewrite lookup_empty.
  by destruct (H5 ip) as [[? _]|[_ ?]]; [|change (sumz (counts ip) []) with 0 in *; lia].
Qed.

(** Releasing undoes a reservation. *)
Lemma release_reserve g a g1 n k : per_ip_is (ug_per_ip g) (ug_max_per_ip g) n ->
  reserve_ip g a = (true, g1) ->
  release_ip (ug_set_global g1 k) a = ug_set_global g k.
Proof.
  intros H E; unfold reserve_ip in E; destruct (_ <=? _); simplify_eq.
  unfold release_ip; cbn; rewrite insert_insert_eq, lookup_insert_eq.
  destruct (H a) as [[Hl Hn]|[Hl Hn]]; rewrite Hl; cbn.
  - unfold ug_set_global, ug_set_per_ip; cbn. by rewrite delete_insert_id by done.
  - replace (sat_sub (n a + 1) 1) with (n a) by (unfold sat_sub; lia).
    destruct (Z.eqb_spec (n a) 0); [lia|]. unfold ug_set_global, ug_set_per_ip; cbn.
    rewrite insert_insert_eq, insert_id; done.
Qed.

(** A gate in the state [k] guards leave behind. *)
Definition gate_quiet (g : UnauthGate) (held : list (option IpAddr)) : Prop :=
  gate_inv (g, map Holding held).

(** Run without interference, an admission is granted exactly when both
    the address and the global count are below their caps, a refusal leaves
    the gate unchanged, and dropping the granted guard restores it. *)
Theorem try_admit_spec g held ip : gate_quiet g held ->
  let room_ip := match ip with
                 | Some a => default 0 (ug_per_ip g !! a) <? ug_max_per_ip g
                 | None => true end in
  match try_admit g ip with
  | (true, g') => room_ip = true /\ ug_global g < ug_max_global g /\ gate_quiet g' (ip :: held)
                  /\ drop_guard g' ip = g
  | (false, g') => (room_ip = false \/ ug_max_global g <= ug_global g) /\ g' = g
  end.
Proof.
  intros Hq room; pose proof Hq as (H1 & H2 & H3 & H4 & H5 & H6).
  assert (0 <= ug_global g) by (rewrite H3; apply sum_holds_nonneg).
  assert (Hw : wrap 64 (ug_global g + 1 - 1) = ug_global g).
  { rewrite Z.add_simpl_r; apply wrap_small; unfold u64_max in *; lia. }
  unfold try_admit, bump_global; destruct ip as [a|]; cbn in room; subst room.
  - destruct (reserve_ip g a) as [[] g1] eqn:E.
    + assert (default 0 (ug_per_ip g !! a) <? ug_max_per_ip g = true) as ->
        by (unfold reserve_ip in E; destruct (Z.leb_spec (ug_max_per_ip g) (default 0 (ug_per_ip g !! a))); [done|]; zbool; done).
      destruct (reserve_ip_ok g a g1 _ H5 E) as (E1 & E2 & E3 & H7); rewrite E1, E2.
      destruct (Z.leb_spec (ug_max_global g) (ug_global g)); cbn [release_opt].
      * split; [auto|]. rewrite <- (set_global_id g1), (release_reserve _ _ _ _ _ H5 E), E1; apply set_global_id.
      * split_and!; try done.
        -- unfold gate_quiet, gate_inv; cbn; rewrite E2, E3, sumz_cons; cbn [holds]; split_and!; try done; try lia; [|by constructor].
           eapply per_ip_ext; [|done]. intros x; symmetry; by apply (counts_out []).
        -- unfold drop_guard; cbn [release_opt ug_global ug_set_global].
           change (ug_set_global (ug_set_global g1 ?a) ?b) with (ug_set_global g1 b).
           rewrite (release_reserve g a g1 _ _ H5), Hw by done. apply set_global_id.
    + destruct (reserve_ip_full g a g1 _ H2 H5 E) as [-> Hn]; split; [left|done].
      destruct (H5 a) as [[-> ?]|[-> ?]]; cbn in *; zbool; lia || done.
  - destruct (Z.leb_spec (ug_max_global g) (ug_global g)); cbn [release_opt]; [auto|].
    split_and!; try done.
    + unfold gate_quiet, gate_inv; cbn; rewrite sumz_cons; cbn [holds]; split_and!; try done; try lia; by constructor.
    + unfold drop_guard; cbn [release_opt]; cbn; rewrite Hw; by destruct g.
Qed.

(** ** Witnesses *)

Module LimitWitness.

Definition ip1 : IpAddr := IpV4 [192; 0; 2; 1].
Definition gate1 : UnauthGate := ug_new 1 1.
Definition gate2 : UnauthGate := ug_set_global (ug_set_per_ip gate1 {[ip1 := 1]}) 1.

(** One admission from [ip1], up to the held guard. *)
Lemma admitted : star gate_step (gate1, []) (gate2, [Holding (Some ip1)]).
Proof.
  eapply star_step; [eapply (gs_enter_ip _ _ ip1); vm_compute; reflexivity|].
  eapply star_step; [eapply (gs_load _ []); vm_compute; reflexivity|].
  eapply star_step; [eapply (gs_cas_ok _ []); vm_compute; reflexivity|].
  apply star_refl.
Qed.

Lemma gate_caps_hold_witness :
  ug_global gate2 = 1 /\ ug_global gate2 <= 1 /\ forall ip, sumz (counts ip) [Holding (Some ip1)] <= 1.
Proof. apply (gate_caps_hold 1 1 gate2 [Holding (Some ip1)]); [unfold u64_max; lia|exact admitted]. Defined.

Lemma gate_no_leak_witness : ug_global gate1 = 0 /\ ug_per_ip gate1 = ∅.
Proof.
  apply (gate_no_leak 1 1 gate1); [unfold u64_max; lia|].
  eapply star_trans; [exact admitted|].
  eapply star_step; [eapply (gs_drop_ip _ [])|].
  eapply star_step; [eapply (gs_drop_rest _ [])|]. apply star_refl.
Defined.

Lemma try_admit_spec_witness :
  let '(ok, g') := try_admit gate2 (Some ip1) in
  ok = false /\ (0 <? 0 = false \/ 1 <= 1) /\ g' = gate2.
Proof.
  split; [vm_compute; reflexivity|].
  apply (try_admit_spec gate2 [Some ip1] (Some ip1)).
  exact (star_invariant _ gate_inv _ _ gate_inv_step admitted (gate_inv_new 1 1 ltac:(unfold u64_max; lia))).
Defined.

End LimitWitness.
