(* ===== verification/State.v ===== *)
(** * Server state: [server/state.rs]

    Connections and sessions, the global session quota, the auth nonce cache,
    the UDP name cache and the idle reaper.  A [ConnState] is shared between
    the server's table and the tasks of the connection, so the objects live in
    a heap ([ss_heap]) and the table holds their ids ([ss_conns]): removing a
    connection from the table does not end the object. *)

From S2P Require Import Prelude Bytes Crypto Net Limit.

(** ** Cancellation tokens ([tokio_util::sync::CancellationToken]) *)

(** Tokens are numbered in creation order, so a parent is older than its
    children; cancelling a token cancels its descendants. *)
Record Tokens := {
  tk_next : nat;
  tk_parent : gmap nat nat;
  tk_cancelled : gset nat;
}.

Definition tk_empty : Tokens := {| tk_next := 0; tk_parent := ∅; tk_cancelled := ∅ |}.

Definition token_new (t : Tokens) : nat * Tokens :=
  (tk_next t, {| tk_next := S (tk_next t); tk_parent := tk_parent t; tk_cancelled := tk_cancelled t |}).

Definition child_token (t : Tokens) (p : nat) : nat * Tokens :=
  (tk_next t, {| tk_next := S (tk_next t); tk_parent := <[tk_next t := p]> (tk_parent t);
                 tk_cancelled := tk_cancelled t |}).

Definition cancel (t : Tokens) (k : nat) : Tokens :=
  {| tk_next := tk_next t; tk_parent := tk_parent t; tk_cancelled := {[k]} ∪ tk_cancelled t |}.

(** A token is cancelled when it or an ancestor was; [fuel] bounds the depth. *)
Fixpoint cancelled_up (fuel : nat) (t : Tokens) (k : nat) : bool :=
  bool_decide (k ∈ tk_cancelled t) ||
  match fuel, tk_parent t !! k with
  | S n, Some p => cancelled_up n t p
  | _, _ => false
  end.

Definition is_cancelled (t : Tokens) (k : nat) : bool := cancelled_up (tk_next t) t k.

(** ** Sessions and connections *)

Record SessionHandle := { sh_cancel : nat; sh_last_active : Z }.

Definition sh_from_token (now : Z) (token : nat) : SessionHandle :=
  {| sh_cancel := token; sh_last_active := now |}.

Definition sh_touch (now : Z) (h : SessionHandle) : SessionHandle :=
  {| sh_cancel := sh_cancel h; sh_last_active := now |}.

Definition i64_min : Z := - 2 ^ 63.
Definition i64_max : Z := 2 ^ 63 - 1.

(** Idle time in milliseconds: [now.saturating_sub(last) as u64]. *)
Definition idle_ms (now last : Z) : Z := wrap 64 (Z.max i64_min (Z.min i64_max (now - last))).

Definition sh_idle_for (now : Z) (h : SessionHandle) : Z := idle_ms now (sh_last_active h).

(** Relay sockets, bound on first use; a socket is its number. *)
Record UdpRelay := { ur_cancel : nat; ur_v4 : option Z; ur_v6 : option Z }.

Record ConnState := {
  cs_id : Z;
  cs_uid : bytes;
  cs_cipher : FrameCipher;
  cs_stream_counters : CounterGen;
  cs_cancel : nat;
  cs_sessions : gmap Z SessionHandle;
  cs_tcp_routes : gmap Z (list (bytes * bool));
  cs_udp_routes : gmap Z UdpRelay;
  cs_max_per_conn : Z;
  cs_last_active : Z;
  cs_limit : Z;
}.

Definition cs_set_sessions (c : ConnState) (m : gmap Z SessionHandle) : ConnState :=
  {| cs_id := cs_id c; cs_uid := cs_uid c; cs_cipher := cs_cipher c;
     cs_stream_counters := cs_stream_counters c; cs_cancel := cs_cancel c;
     cs_sessions := m; cs_tcp_routes := cs_tcp_routes c; cs_udp_routes := cs_udp_routes c;
     cs_max_per_conn := cs_max_per_conn c; cs_last_active := cs_last_active c;
     cs_limit := cs_limit c |}.

Definition cs_set_routes (c : ConnState) (t : gmap Z (list (bytes * bool))) (u : gmap Z UdpRelay)
  : ConnState :=
  {| cs_id := cs_id c; cs_uid := cs_uid c; cs_cipher := cs_cipher c;
     cs_stream_counters := cs_stream_counters c; cs_cancel := cs_cancel c;
     cs_sessions := cs_sessions c; cs_tcp_routes := t; cs_udp_routes := u;
     cs_max_per_conn := cs_max_per_conn c; cs_last_active := cs_last_active c;
     cs_limit := cs_limit c |}.

Definition cs_set_active (c : ConnState) (now : Z) : ConnState :=
  {| cs_id := cs_id c; cs_uid := cs_uid c; cs_cipher := cs_cipher c;
     cs_stream_counters := cs_stream_counters c; cs_cancel := cs_cancel c;
     cs_sessions := cs_sessions c; cs_tcp_routes := cs_tcp_routes c; cs_udp_routes := cs_udp_routes c;
     cs_max_per_conn := cs_max_per_conn c; cs_last_active := now;
     cs_limit := cs_limit c |}.

(** [try_register_with]: whether the sid was free. *)
Definition try_register_with (now : Z) (c : ConnState) (sid : Z) (token : nat) : bool * ConnState :=
  let c := cs_set_active c now in
  match cs_sessions c !! sid with
  | Some _ => (false, c)
  | None => (true, cs_set_sessions c (<[sid := sh_from_token now token]> (cs_sessions c)))
  end.

(** [register]: a child token of the connection's (an occupied sid keeps its
    handle: the release build has no [debug_assert]). *)
Definition register (now : Z) (t : Tokens) (c : ConnState) (sid : Z) : nat * Tokens * ConnState :=
  let '(token, t) := child_token t (cs_cancel c) in
  let '(_, c) := try_register_with now c sid token in
  (token, t, c).

Definition cancel_relay (t : Tokens) (o : option UdpRelay) : Tokens :=
  match o with Some r => cancel t (ur_cancel r) | None => t end.

(** [drop_session]: whether a registered handle was removed. *)
Definition drop_session (t : Tokens) (c : ConnState) (sid : Z) : bool * Tokens * ConnState :=
  let t := cancel_relay t (cs_udp_routes c !! sid) in
  let c := cs_set_routes c (delete sid (cs_tcp_routes c)) (delete sid (cs_udp_routes c)) in
  match cs_sessions c !! sid with
  | Some h => (true, cancel t (sh_cancel h), cs_set_sessions c (delete sid (cs_sessions c)))
  | None => (false, t, c)
  end.

Definition cs_touch (now : Z) (c : ConnState) (sid : Z) : ConnState :=
  let c := cs_set_active c now in
  match cs_sessions c !! sid with
  | Some h => cs_set_sessions c (<[sid := sh_touch now h]> (cs_sessions c))
  | None => c
  end.

Definition cs_idle_for (now : Z) (c : ConnState) : Z := idle_ms now (cs_last_active c).

Definition session_count (c : ConnState) : Z := Z.of_nat (size (cs_sessions c)).

(** ** Server state *)

Definition NONCE_CAP : Z := 50000.
Definition UDP_DNS_CACHE_CAP : Z := 4096.

(** Durations and instants are nanoseconds. *)
Record ServerState := {
  ss_static_keys : gmap bytes bytes;
  ss_conns : gset Z;
  ss_heap : gmap Z ConnState;
  ss_tokens : Tokens;
  ss_conn_seq : Z;
  ss_active_sessions : Z;
  ss_max_sessions : Z;
  ss_rate_mbps : Z;
  ss_rates : gmap bytes Z;
  ss_idle : Z;
  ss_allow_private_targets : bool;
  ss_unauth : UnauthGate;
  ss_seen_nonces : gmap bytes Z;
  ss_path : bytes;
  ss_max_plaintext : Z;
  ss_udp_dns : gmap bytes (SocketAddr * Z);
  ss_udp_dns_ttl : Z;
}.

Definition ss_with_sessions (s : ServerState) (conns : gset Z) (heap : gmap Z ConnState)
  (t : Tokens) (seq active : Z) : ServerState :=
  {| ss_static_keys := ss_static_keys s; ss_conns := conns; ss_heap := heap; ss_tokens := t;
     ss_conn_seq := seq; ss_active_sessions := active;
     ss_max_sessions := ss_max_sessions s; ss_rate_mbps := ss_rate_mbps s; ss_rates := ss_rates s;
     ss_idle := ss_idle s; ss_allow_private_targets := ss_allow_private_targets s;
     ss_unauth := ss_unauth s; ss_seen_nonces := ss_seen_nonces s; ss_path := ss_path s;
     ss_max_plaintext := ss_max_plaintext s; ss_udp_dns := ss_udp_dns s;
     ss_udp_dns_ttl := ss_udp_dns_ttl s |}.

Definition ss_with_caches (s : ServerState) (rates : gmap bytes Z) (nonces : gmap bytes Z)
  (dns : gmap bytes (SocketAddr * Z)) (gate : UnauthGate) : ServerState :=
  {| ss_static_keys := ss_static_keys s; ss_conns := ss_conns s; ss_heap := ss_heap s;
     ss_tokens := ss_tokens s; ss_conn_seq := ss_conn_seq s;
     ss_active_sessions := ss_active_sessions s;
     ss_max_sessions := ss_max_sessions s; ss_rate_mbps := ss_rate_mbps s; ss_rates := rates;
     ss_idle := ss_idle s; ss_allow_private_targets := ss_allow_private_targets s;
     ss_unauth := gate; ss_seen_nonces := nonces; ss_path := ss_path s;
     ss_max_plaintext := ss_max_plaintext s; ss_udp_dns := dns;
     ss_udp_dns_ttl := ss_udp_dns_ttl s |}.

Definition ss_set_active (s : ServerState) (n : Z) : ServerState :=
  ss_with_sessions s (ss_conns s) (ss_heap s) (ss_tokens s) (ss_conn_seq s) n.

Definition ss_set_heap (s : ServerState) (h : gmap Z ConnState) (t : Tokens) : ServerState :=
  ss_with_sessions s (ss_conns s) h t (ss_conn_seq s) (ss_active_sessions s).

(** [rate_for]: the bucket shared by a user's connections (a bucket is its
    number; the new one is numbered by the table's size). *)
Definition rate_for (s : ServerState) (uid : bytes) : Z * ServerState :=
  match ss_rates s !! uid with
  | Some r => (r, s)
  | None =>
    let r := Z.of_nat (size (ss_rates s)) in
    (r, ss_with_caches s (<[uid := r]> (ss_rates s)) (ss_seen_nonces s) (ss_udp_dns s) (ss_unauth s))
  end.

Definition udp_dns_cached (s : ServerState) (key : bytes) (now : Z) : option SocketAddr :=
  if ss_udp_dns_ttl s =? 0 then None
  else match ss_udp_dns s !! key with
       | Some (addr, at_) =>
         if sat_sub now at_ <=? ss_udp_dns_ttl s then Some addr else None
       | None => None
       end.

Definition udp_dns_set (s : ServerState) (m : gmap bytes (SocketAddr * Z)) : ServerState :=
  ss_with_caches s (ss_rates s) (ss_seen_nonces s) m (ss_unauth s).

Definition udp_dns_store (s : ServerState) (key : bytes) (addr : SocketAddr) (now : Z) : ServerState :=
  if ss_udp_dns_ttl s =? 0 then s
  else
    let m := ss_udp_dns s in
    if UDP_DNS_CACHE_CAP <=? Z.of_nat (size m) then
      let m' := filter (fun kv => sat_sub now kv.2.2 <= ss_udp_dns_ttl s) m in
      if UDP_DNS_CACHE_CAP <=? Z.of_nat (size m') then udp_dns_set s m'
      else udp_dns_set s (<[key := (addr, now)]> m')
    else udp_dns_set s (<[key := (addr, now)]> m).

(** The counter loop of [try_acquire_session] when its compare-exchange meets
    no other thread; [acquire_step] below interleaves it. *)
Definition try_acquire_session (s : ServerState) : bool * ServerState :=
  let cur := ss_active_sessions s in
  if ss_max_sessions s <=? cur then (false, s) else (true, ss_set_active s (cur + 1)).

Definition release_session (s : ServerState) : ServerState :=
  ss_set_active s (wrap 64 (ss_active_sessions s - 1)).

Definition nonce_key (uid nonce : bytes) (ts : Z) : bytes :=
  uid ++ [c_pipe] ++ dec ts ++ [c_pipe] ++ hex nonce.

Definition set_nonces (s : ServerState) (m : gmap bytes Z) : ServerState :=
  ss_with_caches s (ss_rates s) m (ss_udp_dns s) (ss_unauth s).

Definition check_and_remember_nonce (now : Z) (s : ServerState) (uid nonce : bytes) (ts : Z)
  : bool * ServerState :=
  let key := nonce_key uid nonce ts in
  match ss_seen_nonces s !! key with
  | Some _ => (false, s)
  | None =>
    let cutoff := sat_sub now (2 * AUTH_WINDOW) in
    let m := filter (fun kv => cutoff < kv.2) (ss_seen_nonces s) in
    if NONCE_CAP <=? Z.of_nat (size m) then (false, set_nonces s m)
    else (true, set_nonces s (<[key := ts]> m))
  end.

(** ** The reaper *)

(** [if c.drop_session(sid) { self.release_session() }], for the connection
    object [cid]. *)
Definition drop_and_release (s : ServerState) (cid sid : Z) : ServerState :=
  match ss_heap s !! cid with
  | None => s
  | Some c =>
    let '(removed, t, c') := drop_session (ss_tokens s) c sid in
    let s' := ss_set_heap s (<[cid := c']> (ss_heap s)) t in
    if removed then release_session s' else s'
  end.

(** Milliseconds against a [Duration] in nanoseconds. *)
Definition longer_than (ms ns : Z) : bool := ns <? ms * 1000000.

Definition expired_sids (now idle : Z) (c : ConnState) : list Z :=
  map fst (filter (fun e => longer_than (sh_idle_for now e.2) idle = true) (map_to_list (cs_sessions c))).

(** One connection of the reaper's loop; [dead] collects the ids to remove. *)
Definition reap_conn (now : Z) (s : ServerState) (dead : list Z) (cid : Z) : ServerState * list Z :=
  match ss_heap s !! cid with
  | None => (s, dead)
  | Some c =>
    let s := fold_left (fun s sid => drop_and_release s cid sid) (expired_sids now (ss_idle s) c) s in
    match ss_heap s !! cid with
    | None => (s, dead)
    | Some c =>
      if bool_decide (cs_sessions c = ∅) && longer_than (cs_idle_for now c) (ss_idle s * 3)
      then (ss_set_heap s (ss_heap s) (cancel (ss_tokens s) (cs_cancel c)), dead ++ [cid])
      else (s, dead)
    end
  end.

Definition remove_conns (s : ServerState) (dead : list Z) : ServerState :=
  ss_with_sessions s (ss_conns s ∖ list_to_set dead) (ss_heap s) (ss_tokens s) (ss_conn_seq s)
                   (ss_active_sessions s).

Definition reap_idle (now : Z) (s : ServerState) : ServerState :=
  let '(s, dead) := fold_left (fun '(s, dead) cid => reap_conn now s dead cid)
                              (elements (ss_conns s)) (s, []) in
  remove_conns s dead.

Definition conn_cancelled (s : ServerState) (cid : Z) : bool :=
  match ss_heap s !! cid with
  | Some c => is_cancelled (ss_tokens s) (cs_cancel c)
  | None => false
  end.

Definition sweep_conns (s : ServerState) : ServerState :=
  ss_with_sessions s (filter (fun cid => conn_cancelled s cid = false) (ss_conns s))
                   (ss_heap s) (ss_tokens s) (ss_conn_seq s) (ss_active_sessions s).

(** ** The quota loop, interleaved *)

(** A thread in [try_acquire_session]: about to load, or about to
    compare-exchange what it loaded; [Acquired n] and [Refused n] are its two
    results, with the counter value at the access that decided. *)
Inductive AcqPhase := AStart | ALoaded (cur : Z) | AAcquired (at_ : Z) | ARefused (at_ : Z).

Inductive acquire_step (max : Z) : Z * list AcqPhase -> Z * list AcqPhase -> Prop :=
| as_load n ts1 ts2 : n < max ->
    acquire_step max (n, ts1 ++ AStart :: ts2) (n, ts1 ++ ALoaded n :: ts2)
| as_full n ts1 ts2 : max <= n ->
    acquire_step max (n, ts1 ++ AStart :: ts2) (n, ts1 ++ ARefused n :: ts2)
| as_cas_ok n ts1 ts2 :
    acquire_step max (n, ts1 ++ ALoaded n :: ts2) (n + 1, ts1 ++ AAcquired n :: ts2)
| as_cas_fail n ts1 cur ts2 : cur <> n ->
    acquire_step max (n, ts1 ++ ALoaded cur :: ts2) (n, ts1 ++ AStart :: ts2)
| as_release n ts1 at_ ts2 :
    acquire_step max (n, ts1 ++ AAcquired at_ :: ts2) (wrap 64 (n - 1), ts1 ++ ts2).

Definition acquired (p : AcqPhase) : Z := match p with AAcquired _ => 1 | _ => 0 end.

(** Each result is the one [try_acquire_session] gives at the deciding access. *)
Definition acq_ok (max : Z) (p : AcqPhase) : Prop :=
  match p with
  | AStart => True
  | ALoaded cur | AAcquired cur => cur < max
  | ARefused cur => max <= cur
  end.

Definition acquire_inv (max : Z) (s : Z * list AcqPhase) : Prop :=
  s.1 = sumz acquired s.2 /\ s.1 <= max /\ Forall (acq_ok max) s.2.

Lemma acquired_nonneg ts : 0 <= sumz acquired ts.
Proof. apply sumz_nonneg; intros []; cbn; lia. Qed.

Lemma acquire_inv_step max s s' : max <= u64_max ->
  acquire_inv max s -> acquire_step max s s' -> acquire_inv max s'.
Proof.
  unfold acquire_inv, u64_max; intros Hm (H1 & H2 & H3) Hs; destruct Hs; cbn [fst snd] in *;
    autorewrite with sumz in *; cbn [acquired] in *;
    apply Forall_app in H3 as [? [Hp ?]%Forall_cons]; cbn in Hp;
    pose proof (acquired_nonneg ts1); pose proof (acquired_nonneg ts2);
    try (rewrite wrap_small by lia); split_and!; try lia;
    (apply Forall_app; split; [done|]); try done; constructor; cbn; done || lia.
Qed.

(** ** Sessions of one connection *)

Lemma cancelled_mem tk k : k ∈ tk_cancelled tk -> is_cancelled tk k = true.
Proof. intros Hk; unfold is_cancelled; destruct (tk_next tk); cbn; by rewrite bool_decide_true. Qed.


Lemma drop_session_flag t c sid : (drop_session t c sid).1.1 = bool_decide (is_Some (cs_sessions c !! sid)).
Proof.
  unfold drop_session; cbn. by destruct (cs_sessions c !! sid).
Qed.

Lemma drop_session_count t c sid b t' c' : drop_session t c sid = (b, t', c') ->
  session_count c' = session_count c - (if b then 1 else 0).
Proof.
  unfold drop_session, session_count; cbn; destruct (cs_sessions c !! sid) as [h|] eqn:E; intros; simplify_eq; cbn.
  - rewrite map_size_delete_Some by eauto.
    pose proof (map_size_ne_0_lookup_2 (cs_sessions c) sid ltac:(eauto)). lia.
  - lia.
Qed.

Lemma session_count_nonneg c : 0 <= session_count c.
Proof. unfold session_count; lia. Qed.

Lemma register_count now c sid tok b c' : try_register_with now c sid tok = (b, c') ->
  session_count c' = session_count c + (if b then 1 else 0).
Proof.
  unfold try_register_with, session_count; cbn; destruct (cs_sessions c !! sid) eqn:E; intros; simplify_eq; cbn; [lia|].
  rewrite map_size_insert_None by done; lia.
Qed.

(** ** Quota accounting *)

(** Registered sessions over all connection objects. *)
Definition total_sessions (s : ServerState) : Z := map_sum session_count (ss_heap s).

(** [k] quota units are held by tasks that have not registered yet, or have
    dropped a handle and not released yet. *)
Definition quota_inv (k : Z) (s : ServerState) : Prop :=
  0 <= k /\ ss_active_sessions s = total_sessions s + k
  /\ ss_active_sessions s <= ss_max_sessions s <= u64_max.

Lemma total_nonneg s : 0 <= total_sessions s.
Proof. apply map_sum_nonneg, session_count_nonneg. Qed.

Lemma drop_and_release_quota k s cid sid : quota_inv k s -> quota_inv k (drop_and_release s cid sid).
Proof.
  intros (Hk & Ha & Hm); unfold drop_and_release; destruct (ss_heap s !! cid) as [c|] eqn:Ec; [|done].
  destruct (drop_session (ss_tokens s) c sid) as [[b t] c'] eqn:Ed.
  pose proof (drop_session_count _ _ _ _ _ _ Ed); pose proof (session_count_nonneg c').
  unfold quota_inv, total_sessions, u64_max in *. pose proof (total_nonneg s).
  pose proof (map_sum_update session_count _ _ _ c' Ec) as Hu.
  pose proof (map_sum_lookup session_count _ _ _ session_count_nonneg Ec).
  destruct b; cbn; rewrite Hu; [rewrite wrap_small by lia|]; lia.
Qed.

Lemma fold_inv {A B} (I : A -> Prop) (f : A -> B -> A) l a :
  (forall a b, I a -> I (f a b)) -> I a -> I (fold_left f l a).
Proof. intros Hf; revert a; induction l; cbn; auto. Qed.

Lemma reap_conn_quota k now s dead cid : quota_inv k s -> quota_inv k (reap_conn now s dead cid).1.
Proof.
  intros H; unfold reap_conn; destruct (ss_heap s !! cid); [|done].
  set (s1 := fold_left _ _ _). assert (H1 : quota_inv k s1) by (apply fold_inv; [intros; by apply drop_and_release_quota|done]).
  destruct (ss_heap s1 !! cid); [|done]. destruct (_ && _); done.
Qed.

Lemma reap_fold_quota k now l s dead : quota_inv k s ->
  quota_inv k (fold_left (fun '(s, dead) cid => reap_conn now s dead cid) l (s, dead)).1.
Proof.
  revert s dead; induction l as [|cid l IH]; intros s dead H; [done|]; cbn.
  pose proof (reap_conn_quota k now s dead cid H). destruct (reap_conn now s dead cid) as [s' dead']. by apply IH.
Qed.

(** ** What the reaper does to each connection *)

Definition expired (now idle : Z) (h : SessionHandle) : bool := longer_than (sh_idle_for now h) idle.

(** The sessions that survive. *)
Definition survivors (now idle : Z) (m : gmap Z SessionHandle) : gmap Z SessionHandle :=
  filter (fun e => expired now idle e.2 = false) m.

Lemma drop_and_release_heap s cid sid c : ss_heap s !! cid = Some c ->
  exists c', ss_heap (drop_and_release s cid sid) = <[cid := c']> (ss_heap s)
  /\ cs_sessions c' = delete sid (cs_sessions c) /\ cs_last_active c' = cs_last_active c
  /\ ss_idle (drop_and_release s cid sid) = ss_idle s
  /\ ss_conns (drop_and_release s cid sid) = ss_conns s.
Proof.
  intros H; unfold drop_and_release; rewrite H; unfold drop_session; cbn.
  destruct (cs_sessions c !! sid) as [h|] eqn:E; cbn; eexists; split_and!; try done.
  cbn; by rewrite delete_id.
Qed.

Lemma drop_all_heap l : forall s cid c, ss_heap s !! cid = Some c ->
  let s' := fold_left (fun s sid => drop_and_release s cid sid) l s in
  exists c', ss_heap s' = <[cid := c']> (ss_heap s)
  /\ (forall sid, cs_sessions c' !! sid = if bool_decide (sid ∈ l) then None else cs_sessions c !! sid)
  /\ cs_last_active c' = cs_last_active c /\ ss_idle s' = ss_idle s /\ ss_conns s' = ss_conns s.
Proof.
  induction l as [|x l IH]; intros s cid c H; cbn.
  - exists c; split_and!; try done. by rewrite insert_id.
  - destruct (drop_and_release_heap s cid x c H) as (c1 & E1 & E2 & E3 & E4 & E5).
    destruct (IH (drop_and_release s cid x) cid c1) as (c' & F1 & F2 & F3 & F4 & F5); [by rewrite E1, lookup_insert_eq|].
    exists c'; rewrite F1, E1, insert_insert_eq, F3, F4, F5; split_and!; try done.
    intros sid; rewrite F2, E2. destruct (decide (sid = x)) as [->|Hne].
    + rewrite lookup_delete_eq, (bool_decide_true (x ∈ x :: l)) by set_solver. by destruct (bool_decide _).
    + rewrite lookup_delete_ne by done. by rewrite (bool_decide_ext (sid ∈ l) (sid ∈ x :: l)) by set_solver.
Qed.

Lemma elem_expired_sids now idle c sid :
  sid ∈ expired_sids now idle c <-> exists h, cs_sessions c !! sid = Some h /\ expired now idle h = true.
Proof.
  unfold expired_sids; rewrite list_elem_of_In, in_map_iff. split.
  - intros ([k h] & <- & [Hf Hm]%list_elem_of_In%list_elem_of_filter). apply elem_of_map_to_list in Hm; eauto.
  - intros (h & Hl & He); exists (sid, h); split; [done|]. apply list_elem_of_In, list_elem_of_filter.
    split; [done|by apply elem_of_map_to_list].
Qed.

(** Whether a connection is removed: no session left and idle three times as long. *)
Definition conn_dead (now idle : Z) (c : ConnState) : bool :=
  bool_decide (survivors now idle (cs_sessions c) = ∅) && longer_than (cs_idle_for now c) (idle * 3).

Lemma reap_conn_spec now s dead cid c : ss_heap s !! cid = Some c ->
  let '(s', dead') := reap_conn now s dead cid in
  exists c', ss_heap s' = <[cid := c']> (ss_heap s) /\ cs_sessions c' = survivors now (ss_idle s) (cs_sessions c)
  /\ ss_idle s' = ss_idle s /\ ss_conns s' = ss_conns s
  /\ dead' = (if conn_dead now (ss_idle s) c then dead ++ [cid] else dead).
Proof.
  intros H; unfold reap_conn; rewrite H.
  destruct (drop_all_heap (expired_sids now (ss_idle s) c) s cid c H) as (c' & E1 & E2 & E3 & E4 & E5).
  set (s1 := fold_left _ _ s) in *. rewrite E1, lookup_insert_eq, E4.
  assert (Hs : cs_sessions c' = survivors now (ss_idle s) (cs_sessions c)).
  { apply map_eq; intros sid; rewrite E2; unfold survivors; rewrite map_lookup_filter.
    destruct (cs_sessions c !! sid) as [h|] eqn:El; cbn; [|by destruct (bool_decide _)].
    destruct (expired now (ss_idle s) h) eqn:Ee.
    - rewrite bool_decide_true by (apply elem_expired_sids; eauto). by rewrite option_guard_False.
    - rewrite bool_decide_false by (rewrite elem_expired_sids; intros (? & ? & ?); congruence).
      by rewrite option_guard_True. }
  unfold conn_dead; rewrite <- Hs; unfold cs_idle_for; rewrite E3.
  destruct (_ && _); exists c'; cbn; rewrite ?E1; done.
Qed.

Lemma reap_conn_none now s dead cid : ss_heap s !! cid = None -> reap_conn now s dead cid = (s, dead).
Proof. intros H; unfold reap_conn; by rewrite H. Qed.

Lemma reap_fold_spec now l : forall s dead, NoDup l ->
  let '(s', dead') := fold_left (fun '(s, dead) cid => reap_conn now s dead cid) l (s, dead) in
  ss_conns s' = ss_conns s
  /\ (forall cid, cid ∉ l -> ss_heap s' !! cid = ss_heap s !! cid)
  /\ (forall cid c, cid ∈ l -> ss_heap s !! cid = Some c -> exists c', ss_heap s' !! cid = Some c'
        /\ cs_sessions c' = survivors now (ss_idle s) (cs_sessions c))
  /\ (forall cid, cid ∈ dead' <-> cid ∈ dead \/ cid ∈ l /\
        exists c, ss_heap s !! cid = Some c /\ conn_dead now (ss_idle s) c = true).
Proof.
  induction l as [|x l IH]; intros s dead Hnd; cbn [fold_left]; [split_and!; set_solver|].
  inv Hnd. destruct (ss_heap s !! x) as [c|] eqn:Hx.
  - pose proof (reap_conn_spec now s dead x c Hx) as Hr. destruct (reap_conn now s dead x) as [s1 dead1].
    destruct Hr as (c' & E1 & E2 & E3 & E4 & E5). specialize (IH s1 dead1 ltac:(done)).
    destruct (fold_left _ l (s1, dead1)) as [s' dead']. destruct IH as (F1 & F2 & F3 & F4).
    rewrite F1, E4. split_and!; [done| | |].
    + intros cid Hc; rewrite F2, E1, lookup_insert_ne by set_solver; done.
    + intros cid d Hc Hd; apply elem_of_cons in Hc as [->|Hc].
      * exists c'; rewrite F2, E1, lookup_insert_eq by done. by simplify_eq.
      * rewrite <- E3; apply F3; [done|]. rewrite E1, lookup_insert_ne; [done|set_solver].
    + intros cid; rewrite F4, E5, E3; split.
      * intros [Hd|(Hc & d & Hd & ?)].
        -- destruct (conn_dead _ _ c) eqn:?; [|auto]. apply elem_of_app in Hd as [?|Hd]; [auto|].
           apply list_elem_of_singleton in Hd as ->. right; split; [set_solver|eauto].
        -- right; split; [set_solver|]. rewrite E1, lookup_insert_ne in Hd by set_solver; eauto.
      * intros [Hd|([->|Hc]%elem_of_cons & d & Hd & Hdd)]; [left; destruct (conn_dead _ _ _); set_solver|simplify_eq; rewrite Hdd; left; set_solver|].
        right; split; [done|]. exists d; rewrite E1, lookup_insert_ne by set_solver; done.
  - rewrite reap_conn_none by done. specialize (IH s dead ltac:(done)).
    destruct (fold_left _ l (s, dead)) as [s' dead']. destruct IH as (F1 & F2 & F3 & F4).
    split_and!; [done|set_solver| |].
    + intros cid d [->|?]%elem_of_cons Hd; [congruence|eauto].
    + intros cid; rewrite F4; split; [set_solver|]. intros [?|([->|?]%elem_of_cons & d & Hd & ?)]; [auto|congruence|eauto].
Qed.

(** ** Properties *)

(** The compare-exchange loop of [try_acquire_session] is atomic: under
    every interleaving of acquisitions and releases, the counter equals the
    number of units held, never exceeds [max_sessions] and never wraps, and
    every grant and refusal is the sequential answer at one instant. *)
Theorem quota_loop_atomic max n ts : 0 <= max <= u64_max ->
  star (acquire_step max) (0, repeat AStart n) ts -> acquire_inv max ts.
Proof.
  intros Hm Hs; eapply star_invariant; [|exact Hs|].
  - intros a b; apply acquire_inv_step, Hm.
  - split_and!; cbn; [|lia|].
    + clear; induction n; cbn; rewrite ?sumz_cons; [done|]; cbn; lia.
    + apply Forall_forall; intros p Hp%list_elem_of_In%repeat_spec; by subst.
Qed.

(** Tearing a session down reports a removal exactly when the sid was
    registered, leaves no handle and no route for it, cancels its token, and
    touches no other session. *)
Theorem drop_session_spec t c sid b t' c' : drop_session t c sid = (b, t', c') ->
  b = bool_decide (is_Some (cs_sessions c !! sid))
  /\ cs_sessions c' !! sid = None /\ cs_tcp_routes c' !! sid = None /\ cs_udp_routes c' !! sid = None
  /\ (forall h, cs_sessions c !! sid = Some h -> is_cancelled t' (sh_cancel h) = true)
  /\ (forall r, cs_udp_routes c !! sid = Some r -> is_cancelled t' (ur_cancel r) = true)
  /\ (forall k, k <> sid -> cs_sessions c' !! k = cs_sessions c !! k).
Proof.
  intros E; pose proof (drop_session_flag t c sid) as Hb; rewrite E in Hb; cbn in Hb.
  split; [done|]. unfold drop_session in E; cbn in E.
  destruct (cs_sessions c !! sid) as [h|] eqn:Es; simplify_eq; cbn [cs_sessions cs_tcp_routes cs_udp_routes cs_set_sessions cs_set_routes].
  - split_and!; [apply lookup_delete_eq..| | |].
    + intros h' [= <-]; apply cancelled_mem; cbn; set_solver.
    + intros r Hr; apply cancelled_mem; rewrite Hr; cbn; set_solver.
    + intros k Hk; by rewrite lookup_delete_ne.
  - split_and!; [done|apply lookup_delete_eq..|done| |done].
    intros r Hr; apply cancelled_mem; rewrite Hr; cbn; set_solver.
Qed.

(** The reaper keeps the quota exact: each handle it removes releases one
    unit, no more and no less, so the counter still is the number of
    registered sessions plus the units in flight. *)
Theorem reap_idle_quota k now s : quota_inv k s -> quota_inv k (reap_idle now s).
Proof.
  intros H; unfold reap_idle; pose proof (reap_fold_quota k now (elements (ss_conns s)) s [] H).
  by destruct (fold_left _ _ _) as [s' dead].
Qed.

(** One pass of the reaper drops exactly the sessions idle longer than the
    timeout, of every connection in the table; it removes exactly the
    connections left without a session and idle three times as long; and it
    leaves the objects outside the table alone. *)
Theorem reap_idle_exact now s :
  (forall cid c, cid ∈ ss_conns s -> ss_heap s !! cid = Some c ->
     exists c', ss_heap (reap_idle now s) !! cid = Some c'
     /\ cs_sessions c' = survivors now (ss_idle s) (cs_sessions c)
     /\ (cid ∈ ss_conns (reap_idle now s) <-> conn_dead now (ss_idle s) c = false))
  /\ (forall cid, cid ∉ ss_conns s -> ss_heap (reap_idle now s) !! cid = ss_heap s !! cid).
Proof.
  unfold reap_idle. pose proof (reap_fold_spec now (elements (ss_conns s)) s [] (NoDup_elements _)) as H.
  destruct (fold_left _ _ _) as [s' dead]; destruct H as (H1 & H2 & H3 & H4); cbn [remove_conns ss_with_sessions ss_heap ss_conns].
  split; [|intros cid Hc; apply H2; by rewrite elem_of_elements].
  intros cid c Hc Hl; destruct (H3 cid c) as (c' & E1 & E2); [by apply elem_of_elements|done|].
  exists c'; split_and!; [done..|]. rewrite H1, elem_of_difference, elem_of_list_to_set, H4.
  split.
  - intros [_ Hn]; apply not_true_is_false; intros Hd; apply Hn; right; split; [by apply elem_of_elements|eauto].
  - intros Hd; split; [done|]. intros [?|(_ & d & Hd' & ?)]; [set_solver|]. simplify_eq; congruence.
Qed.

(** The UDP name cache never holds more than its cap, whatever names are
    looked up. *)
Theorem udp_dns_bounded s key addr now :
  Z.of_nat (size (ss_udp_dns s)) <= UDP_DNS_CACHE_CAP ->
  Z.of_nat (size (ss_udp_dns (udp_dns_store s key addr now))) <= UDP_DNS_CACHE_CAP.
Proof.
  intros H; unfold udp_dns_store.
  assert (Hi : forall m : gmap bytes (SocketAddr * Z), Z.of_nat (size m) < UDP_DNS_CACHE_CAP ->
               Z.of_nat (size (<[key := (addr, now)]> m)) <= UDP_DNS_CACHE_CAP).
  { intros m Hm; rewrite map_size_insert; destruct (m !! key); cbn; lia. }
  destruct (_ =? 0); [done|]. destruct (Z.leb_spec UDP_DNS_CACHE_CAP (Z.of_nat (size (ss_udp_dns s)))); [|by apply Hi].
  cbn zeta. set (m' := filter _ _). destruct (Z.leb_spec UDP_DNS_CACHE_CAP (Z.of_nat (size m'))); [|by apply Hi].
  cbn. etrans; [|exact H]. apply Nat2Z.inj_le, map_subseteq_size, map_filter_subseteq.
Qed.

(** A name stored in the cache is answered from it, with the stored
    address, exactly until the time to live has passed. *)
Theorem udp_dns_ttl_exact s key addr now later : 0 < ss_udp_dns_ttl s ->
  Z.of_nat (size (ss_udp_dns s)) < UDP_DNS_CACHE_CAP -> now <= later ->
  udp_dns_cached (udp_dns_store s key addr now) key later
  = if later - now <=? ss_udp_dns_ttl s then Some addr else None.
Proof.
  intros Ht Hs Hn; unfold udp_dns_store, udp_dns_cached.
  destruct (Z.eqb_spec (ss_udp_dns_ttl s) 0); [lia|]. zbool. cbn.
  destruct (Z.eqb_spec (ss_udp_dns_ttl s) 0); [lia|]. rewrite lookup_insert_eq.
  by replace (sat_sub later now) with (later - now) by (unfold sat_sub; lia).
Qed.

(** ** Witnesses *)

Module StateWitness.

Definition conn (active : Z) : ConnState := {|
  cs_id := 1; cs_uid := []; cs_cipher := {| fc_key := [] |}; cs_stream_counters := cg_stream_server;
  cs_cancel := 0; cs_sessions := {[7 := {| sh_cancel := 1; sh_last_active := active |};
                                   8 := {| sh_cancel := 2; sh_last_active := 90000 |}]};
  cs_tcp_routes := {[7 := []]}; cs_udp_routes := ∅; cs_max_per_conn := 64; cs_last_active := 90000;
  cs_limit := 16384 |}.

Definition server : ServerState := {|
  ss_static_keys := ∅; ss_conns := {[1]}; ss_heap := {[1 := conn 0]};
  ss_tokens := {| tk_next := 3; tk_parent := {[1%nat := 0%nat; 2%nat := 0%nat]}; tk_cancelled := ∅ |};
  ss_conn_seq := 2; ss_active_sessions := 2; ss_max_sessions := 200; ss_rate_mbps := 0; ss_rates := ∅;
  ss_idle := 60000000000; ss_allow_private_targets := false; ss_unauth := ug_new 1 1;
  ss_seen_nonces := ∅; ss_path := []; ss_max_plaintext := 16384; ss_udp_dns := ∅; ss_udp_dns_ttl := 10 |}.

Lemma server_quota : quota_inv 0 server.
Proof. unfold quota_inv; vm_compute; intuition discriminate. Qed.

Lemma quota_loop_atomic_witness :
  acquire_inv 1 (1, [AAcquired 0; ARefused 1]).
Proof.
  apply (quota_loop_atomic 1 2); [unfold u64_max; lia|].
  eapply star_step; [apply (as_load 1 0 []); lia|].
  eapply star_step; [apply (as_cas_ok 1 0 [])|].
  eapply star_step; [apply (as_full 1 1 [AAcquired 0]); lia|]. apply star_refl.
Defined.

Lemma drop_session_spec_witness : exists t' c', drop_session (ss_tokens server) (conn 0) 7 = (true, t', c')
  /\ cs_sessions c' !! 7 = None.
Proof.
  destruct (drop_session (ss_tokens server) (conn 0) 7) as [[b t'] c'] eqn:E.
  destruct (drop_session_spec _ _ _ _ _ _ E) as (Hb & H & _). subst b. eauto.
Defined.

Lemma reap_idle_quota_witness : quota_inv 0 (reap_idle 100000 server) /\ ss_active_sessions (reap_idle 100000 server) = 1.
Proof. split; [exact (reap_idle_quota 0 100000 server server_quota)|vm_compute; reflexivity]. Defined.

Definition addr : SocketAddr := {| sa_ip := IpV4 [8; 8; 8; 8]; sa_port := 53 |}.

Lemma udp_dns_bounded_witness :
  Z.of_nat (size (ss_udp_dns (udp_dns_store server (str "a:53") addr 5))) <= UDP_DNS_CACHE_CAP.
Proof. apply (udp_dns_bounded server (str "a:53") addr 5). vm_compute; discriminate. Defined.

Lemma udp_dns_ttl_exact_witness :
  udp_dns_cached (udp_dns_store server (str "a:53") addr 5) (str "a:53") 15 = Some addr.
Proof.
  rewrite (udp_dns_ttl_exact server (str "a:53") addr 5 15); [reflexivity|..]; vm_compute; congruence.
Defined.

End StateWitness.
