(* ===== verification/ServerAuth.v ===== *)
(** * Server-side authentication: [server/mod.rs], the handshakes of
    [server/wt.rs] and [server/fallback.rs]

    The shared state built from the configuration, the bearer check on the
    HTTP request, the in-band AUTH frame, and the establishment of a
    connection's state once both passed. *)

From S2P Require Import Prelude Bytes Crypto Frame Net Limit State Config.

Section auth.
Context {P : Prims}.

(** ** Shared state *)

Definition SECOND : Z := 1000000000.

Definition build_state (cfg : ServerConfig) : ServerState := {|
  ss_static_keys := foldl (fun m '(u, p) => <[u := derive_static_key p u]> m) ∅ (sc_users cfg);
  ss_conns := ∅; ss_heap := ∅; ss_tokens := tk_empty;
  ss_conn_seq := 1; ss_active_sessions := 0;
  ss_max_sessions := sc_max_sessions cfg; ss_rate_mbps := sc_rate_mbps cfg; ss_rates := ∅;
  ss_idle := sc_idle_secs cfg * SECOND;
  ss_allow_private_targets := sc_allow_private_targets cfg;
  ss_unauth := ug_new (sc_max_unauth cfg) (clamp (sc_max_unauth cfg / 8) 2 64);
  ss_seen_nonces := ∅; ss_path := sc_path cfg; ss_max_plaintext := sc_max_plaintext cfg;
  ss_udp_dns := ∅; ss_udp_dns_ttl := sc_udp_dns_ttl cfg * SECOND;
|}.

(** ** The bearer token of the HTTP request *)

(** The first header whose name matches, ASCII case-insensitively; [headers]
    is the map's iteration order. *)
Definition header_value (headers : list (bytes * bytes)) (name : bytes) : option bytes :=
  match List.find (fun kv => eq_ignore_case kv.1 name) headers with Some (_, v) => Some v | None => None end.

Definition bearer_token (h : bytes) : option bytes :=
  match strip_prefix (str "Bearer ") h with
  | Some t => Some t
  | None => strip_prefix (str "bearer ") h
  end.

(** [bearer_user]; [now1] is the clock when the token is verified and [now2]
    when the nonce cache is consulted. The result carries the recorded
    [(ts, nonce)] besides the user and key. *)
Definition bearer_user (now1 now2 : Z) (st : ServerState) (header : option bytes)
  : option (bytes * bytes * (Z * bytes)) * ServerState :=
  match header with
  | None => (None, st)
  | Some h =>
    match bearer_token h with
    | None => (None, st)
    | Some token =>
      match bearer_uid token with
      | None => (None, st)
      | Some uid =>
        match ss_static_keys st !! uid with
        | None => (None, st)
        | Some key =>
          match verify_bearer_parts now1 token key uid AUTH_WINDOW with
          | None => (None, st)
          | Some (ts, nonce) =>
            match check_and_remember_nonce now2 st uid nonce ts with
            | (false, st') => (None, st')
            | (true, st') => (Some (uid, key, (ts, nonce)), st')
            end
          end
        end
      end
    end
  end.

Definition bearer_ok (now1 now2 : Z) (st : ServerState) (header : option bytes) : bool * ServerState :=
  let '(r, st') := bearer_user now1 now2 st header in (match r with Some _ => true | None => false end, st').

(** ** The in-band AUTH frame *)

Inductive AuthOutcome :=
| AuthAccepted (uid skey : bytes) (ap : AuthPayload)
| AuthVersionMismatch (client server : Z)
| AuthRejected.

(** The loop over the users; [order] is the map's iteration order. *)
Fixpoint auth_loop (now1 now2 : Z) (st : ServerState) (f : Frame) (order : list (bytes * bytes))
  : AuthOutcome * ServerState :=
  match order with
  | [] => (AuthRejected, st)
  | (uid, skey) :: order' =>
    match open (cipher_new skey) (f_counter f) (f_aad f) (f_payload f) with
    | Err _ => auth_loop now1 now2 st f order'
    | Ok pt =>
      match ap_decode pt with
      | Err _ => auth_loop now1 now2 st f order'
      | Ok ap =>
        if negb (bool_decide (ap_uid ap = uid)) then auth_loop now1 now2 st f order'
        else if negb (ap_proto_version_compatible ap)
        then (AuthVersionMismatch (ap_proto_version ap) PROTO_VERSION, st)
        else if negb (ap_verify now1 ap skey AUTH_WINDOW) then auth_loop now1 now2 st f order'
        else match check_and_remember_nonce now2 st uid (ap_nonce ap) (ap_ts ap) with
             | (false, st') => (AuthRejected, st')
             | (true, st') => (AuthAccepted uid skey ap, st')
             end
      end
    end
  end.

Definition auth_from_frame (now1 now2 : Z) (st : ServerState) (f : Frame) : AuthOutcome * ServerState :=
  auth_loop now1 now2 st f (map_to_list (ss_static_keys st)).

#[global] Instance FrameType_eq_dec : EqDecision FrameType.
Proof. solve_decision. Defined.

(** The decoder a channel starts with: no cipher, raw payloads. *)
Definition raw_decoder : FrameDecoder := fd_set_raw (fd_new None None) true.

(** [read_mode_a_auth] (and the same step of [handle_wt_conn]): the first frame
    of the channel must be an AUTH frame; [src] lists the reads, an error entry
    standing for a failed read or the expired timeout. *)
Definition read_auth (now1 now2 : Z) (st : ServerState) (src : list (result msg bytes))
  : AuthOutcome * ServerState * list (result msg bytes) * FrameDecoder :=
  match fr_read src raw_decoder with
  | (Ok (Some f), src', d) =>
    if bool_decide (f_ftype f = FAuth)
    then let '(o, st') := auth_from_frame now1 now2 st f in (o, st', src', d)
    else (AuthRejected, st, src', d)
  | (_, src', d) => (AuthRejected, st, src', d)
  end.

(** ** Establishing the connection *)

Definition MAX_PER_CONN : Z := 64.

(** Registers the state of a new connection and returns its id; [now] in
    milliseconds. *)
Definition new_conn (now : Z) (st : ServerState) (uid : bytes) (cipher : FrameCipher) (limit : Z)
  : Z * ServerState :=
  let conn_id := ss_conn_seq st in
  let '(cancel, t) := token_new (ss_tokens st) in
  let '(_, st1) := rate_for st uid in
  let c := {| cs_id := conn_id; cs_uid := uid; cs_cipher := cipher;
              cs_stream_counters := cg_stream_server; cs_cancel := cancel;
              cs_sessions := ∅; cs_tcp_routes := ∅; cs_udp_routes := ∅;
              cs_max_per_conn := MAX_PER_CONN; cs_last_active := now; cs_limit := limit |} in
  (conn_id, ss_with_sessions st1 ({[conn_id]} ∪ ss_conns st1) (<[conn_id := c]> (ss_heap st1)) t
                             (wrap 64 (conn_id + 1)) (ss_active_sessions st1)).

(** What the server holds for an authenticated channel. *)
Record Established := {
  es_conn : Z;
  es_uid : bytes;
  es_negotiated : Z;
  es_decoder : FrameDecoder;
  es_writer : FrameWriter;
}.

(** The rest of the handshake after a verified AUTH frame: session key,
    negotiated limit, the AuthOk reply and the connection's state ([io] is the
    outcome of the socket write of the reply). *)
Definition accept_auth (now : Z) (io : result msg unit) (st : ServerState) (uid static_key : bytes)
  (ap : AuthPayload) (d : FrameDecoder) : option Established * ServerState :=
  let cipher := cipher_new (derive_session_key static_key (ap_salt ap)) in
  let negotiated := negotiate (ap_max_plaintext ap) (wrap 32 (ss_max_plaintext st)) in
  let d' := fd_set_limit (fd_set_cipher d cipher) negotiated in
  let w := {| fw_out := []; fw_enc := {| fe_cipher := cipher; fe_counters := cg_stream_server;
                                         fe_limit := negotiated |} |} in
  match fw_write io w FAuthOk 0 0 (le_bytes 4 (wrap 32 negotiated)) with
  | (Err _, _) => (None, st)
  | (Ok _, w') =>
    let '(id, st') := new_conn now st uid cipher negotiated in
    (Some {| es_conn := id; es_uid := uid; es_negotiated := negotiated; es_decoder := d';
             es_writer := w' |}, st')
  end.

(** [handle_wt_conn] up to the established connection: the guard's slot is
    returned on every path. *)
Definition handle_wt_conn (now1 now2 now_ms : Z) (io : result msg unit) (st : ServerState)
  (ip : option IpAddr) (src : list (result msg bytes)) : option Established * ServerState :=
  let release st := ss_with_caches st (ss_rates st) (ss_seen_nonces st) (ss_udp_dns st)
                                   (drop_guard (ss_unauth st) ip) in
  match read_auth now1 now2 st src with
  | (AuthAccepted uid key ap, st', _, d) => accept_auth now_ms io (release st') uid key ap d
  | (_, st', _, _) => (None, release st')
  end.

End auth.

(** ** Replay: a run of authentication requests *)

Section replay.
Context {P : Prims}.

(** One request: the clock at verification and at the nonce check, and either
    a bearer header or an AUTH frame. *)
Inductive AuthReq := InBand (f : Frame) | Bearer (header : option bytes).

Definition auth_req (now1 now2 : Z) (st : ServerState) (r : AuthReq)
  : option (bytes * Z * bytes) * ServerState :=
  match r with
  | InBand f =>
    match auth_from_frame now1 now2 st f with
    | (AuthAccepted uid _ ap, st') => (Some (uid, ap_ts ap, ap_nonce ap), st')
    | (_, st') => (None, st')
    end
  | Bearer h =>
    match bearer_user now1 now2 st h with
    | (Some (uid, _, (ts, nonce)), st') => (Some (uid, ts, nonce), st')
    | (None, st') => (None, st')
    end
  end.

(** The accepted [(uid, ts, nonce)] of a sequence of requests. *)
Fixpoint auth_run (st : ServerState) (rs : list (Z * Z * AuthReq)) : list (bytes * Z * bytes) :=
  match rs with
  | [] => []
  | (now1, now2, r) :: rs' =>
    let '(o, st') := auth_req now1 now2 st r in
    match o with Some t => t :: auth_run st' rs' | None => auth_run st' rs' end
  end.

(** Clock readings: the nonce lock orders the second readings; a request takes
    less than a minute between its two readings; the clock is past its first
    minute. *)
Fixpoint clock_ok (t : Z) (rs : list (Z * Z * AuthReq)) : Prop :=
  match rs with
  | [] => True
  | (now1, now2, _) :: rs' => AUTH_WINDOW < now1 /\ now1 <= now2 < now1 + AUTH_WINDOW /\ t <= now2 /\ clock_ok now2 rs'
  end.

(** What the cache remembers: every accepted triple that is not older than the
    cutoff. *)
Definition remembers (t : Z) (st : ServerState) (acc : list (bytes * Z * bytes)) : Prop :=
  forall uid ts nonce, (uid, ts, nonce) ∈ acc -> sat_sub t (2 * AUTH_WINDOW) < ts ->
  ss_seen_nonces st !! nonce_key uid nonce ts = Some ts.

Lemma remembers_mono t t' st acc : t <= t' -> remembers t st acc -> remembers t' st acc.
Proof. intros Ht H uid ts nonce Hin Hlt; apply H; [done|]. unfold sat_sub in *; lia. Qed.

Lemma check_nonce_spec now st uid nonce ts ok st' acc t : t <= now -> remembers t st acc ->
  check_and_remember_nonce now st uid nonce ts = (ok, st') ->
  remembers now st' (if ok then (uid, ts, nonce) :: acc else acc)
  /\ (ok = true -> ss_seen_nonces st !! nonce_key uid nonce ts = None).
Proof.
  intros Ht Hr H; apply (remembers_mono _ now) in Hr; [|done]. unfold check_and_remember_nonce in H.
  destruct (ss_seen_nonces st !! nonce_key uid nonce ts) eqn:El; [simplify_eq; by split|].
  set (m := filter _ _) in *.
  assert (Hm : forall u t n, (u, t, n) ∈ acc -> sat_sub now (2 * AUTH_WINDOW) < t ->
               m !! nonce_key u n t = Some t).
  { intros u t0 n Hin Hlt; apply map_lookup_filter_Some; split; [by apply Hr|done]. }
  destruct (_ <=? _); simplify_eq; (split; [|done]); intros u t0 n Hin Hlt; [by apply Hm|].
  cbn. destruct (decide (nonce_key uid nonce ts = nonce_key u n t0)) as [E|Hne].
  - rewrite E, lookup_insert_eq. apply elem_of_cons in Hin as [Hin|Hin]; [by simplify_eq|].
    rewrite E in El; rewrite (Hr u t0 n Hin Hlt) in El; done.
  - rewrite lookup_insert_ne by done. apply elem_of_cons in Hin as [Hin|Hin]; [by simplify_eq|]. by apply Hm.
Qed.

Lemma out_of_window_ok now ts : out_of_window now ts AUTH_WINDOW = false -> Z.abs (now - ts) <= AUTH_WINDOW.
Proof. intros H; apply out_of_window_false in H; [done|]. unfold AUTH_WINDOW; lia. Qed.

(** The frame carries a payload of the listed user that verifies at [now1]. *)
Definition verified (now1 : Z) (f : Frame) (order : list (bytes * bytes)) (uid skey : bytes) (ap : AuthPayload) : Prop :=
  (uid, skey) ∈ order /\ ap_uid ap = uid
  /\ ap_proto_version_compatible ap = true /\ ap_verify now1 ap skey AUTH_WINDOW = true
  /\ exists pt, open (cipher_new skey) (f_counter f) (f_aad f) (f_payload f) = Ok pt /\ ap_decode pt = Ok ap.

(** Every outcome of the loop comes from the nonce cache, after a payload of a
    known user verified, or leaves the state alone. *)
Definition auth_result (now1 now2 : Z) (st : ServerState) (f : Frame) (order : list (bytes * bytes))
  (o : AuthOutcome) (st' : ServerState) : Prop :=
  (st' = st /\ (o = AuthRejected \/ exists c, o = AuthVersionMismatch c PROTO_VERSION))
  \/ exists uid skey ap, verified now1 f order uid skey ap
     /\ ((check_and_remember_nonce now2 st uid (ap_nonce ap) (ap_ts ap) = (true, st')
          /\ o = AuthAccepted uid skey ap)
         \/ (check_and_remember_nonce now2 st uid (ap_nonce ap) (ap_ts ap) = (false, st') /\ o = AuthRejected)).

Lemma auth_result_cons now1 now2 st f x order o st' :
  auth_result now1 now2 st f order o st' -> auth_result now1 now2 st f (x :: order) o st'.
Proof.
  intros [?|(u & k & ap & (Hin & Hv) & Hrest)]; [by left|].
  right; exists u, k, ap; split; [split; [by right|exact Hv]|exact Hrest].
Qed.

Lemma auth_loop_inv now1 now2 st f order o st' : auth_loop now1 now2 st f order = (o, st') ->
  auth_result now1 now2 st f order o st'.
Proof.
  induction order as [|[uid skey] order IH]; cbn [auth_loop]; intros H; [simplify_eq; left; auto|].
  destruct (open _ _ _ _) as [pt|] eqn:Eo; [|by apply auth_result_cons, IH].
  destruct (ap_decode pt) as [ap|] eqn:Ed; [|by apply auth_result_cons, IH].
  destruct (bool_decide_reflect (ap_uid ap = uid)) as [Eu|]; cbn [negb] in H; [|by apply auth_result_cons, IH].
  destruct (ap_proto_version_compatible ap) eqn:Ev; cbn [negb] in H; [|simplify_eq; left; eauto].
  destruct (ap_verify now1 ap skey AUTH_WINDOW) eqn:Em; cbn [negb] in H; [|by apply auth_result_cons, IH].
  destruct (check_and_remember_nonce _ _ _ _ _) as [[] st1] eqn:Ec; simplify_eq;
    right; exists (ap_uid ap), skey, ap; (split; [split_and!; [by left|done..|eauto]|auto]).
Qed.

Lemma verified_fresh now1 f order uid skey ap : verified now1 f order uid skey ap ->
  Z.abs (now1 - ap_ts ap) <= AUTH_WINDOW.
Proof.
  intros (_ & _ & _ & H & _); unfold ap_verify in H.
  destruct (out_of_window _ _ _) eqn:E; [done|]. by apply out_of_window_ok.
Qed.

(** A request either goes through the nonce check with a fresh timestamp, or
    changes nothing and is refused. *)
Lemma auth_req_inv {L : PrimsLaws P} now1 now2 st r o st' : auth_req now1 now2 st r = (o, st') ->
  (o = None /\ st' = st)
  \/ exists uid ts nonce ok, check_and_remember_nonce now2 st uid nonce ts = (ok, st')
     /\ Z.abs (now1 - ts) <= AUTH_WINDOW /\ o = (if ok then Some (uid, ts, nonce) else None).
Proof.
  destruct r as [f|h]; cbn [auth_req]; intros H.
  - destruct (auth_from_frame now1 now2 st f) as [a st1] eqn:E; apply auth_loop_inv in E.
    destruct E as [[-> [->|[c ->]]]|(uid & k & ap & Hv & Hc)]; [simplify_eq; auto..|].
    pose proof (verified_fresh _ _ _ _ _ _ Hv).
    destruct Hc as [[Hc ->]|[Hc ->]]; simplify_eq; right; repeat eexists; done.
  - unfold bearer_user in H. destruct h as [h|]; [|simplify_eq; auto].
    destruct (bearer_token h) as [tok|]; [|simplify_eq; auto].
    destruct (bearer_uid tok) as [uid|]; [|simplify_eq; auto].
    destruct (ss_static_keys st !! uid) as [key|]; [|simplify_eq; auto].
    destruct (verify_bearer_parts _ _ _ _ _) as [[ts nonce]|] eqn:Ev; [|simplify_eq; auto].
    apply verify_bearer_inv in Ev as (_ & _ & _ & _ & _ & _ & _ & Hw); [|unfold AUTH_WINDOW; lia].
    destruct (check_and_remember_nonce _ _ _ _ _) as [[] st1] eqn:Ec; simplify_eq;
      right; repeat eexists; done.
Qed.

Lemma auth_run_fresh {L : PrimsLaws P} rs : forall t st acc, clock_ok t rs -> remembers t st acc ->
  NoDup (auth_run st rs) /\ Forall (fun e => e ∉ acc) (auth_run st rs).
Proof.
  induction rs as [|[[now1 now2] r] rs IH]; intros t st acc Hc Hr; cbn [auth_run clock_ok] in *; [split; constructor|].
  destruct Hc as (Hpos & Hn & Ht & Hc). destruct (auth_req now1 now2 st r) as [o st'] eqn:E.
  apply auth_req_inv in E as [[-> ->]|(uid & ts & nonce & ok & Ec & Hw & ->)].
  { apply (IH now2); [done|]. by eapply remembers_mono. }
  destruct (check_nonce_spec _ _ _ _ _ _ _ acc t Ht Hr Ec) as [Hr' Hnew].
  destruct ok; [|by apply (IH now2)].
  destruct (IH now2 st' ((uid, ts, nonce) :: acc) Hc Hr') as [Hnd Hfr].
  assert (Hni : (uid, ts, nonce) ∉ acc).
  { intros Hin. rewrite (Hr uid ts nonce Hin) in Hnew; [by specialize (Hnew eq_refl)|].
    unfold sat_sub, AUTH_WINDOW in *; lia. }
  split; constructor; try done.
  - intros Hin; eapply Forall_forall in Hfr; [|exact Hin]. apply Hfr; by left.
  - eapply Forall_impl; [exact Hfr|]. intros e He Hin; apply He; by right.
Qed.
End replay.

(** ** Properties *)

Section properties.
Context {P : Prims} {L : PrimsLaws P}.

(** C1: no authentication can be replayed: over any sequence of bearer headers
    and AUTH frames a server with an empty nonce cache receives, no
    [(user, timestamp, nonce)] is accepted twice, as long as the clock does
    not run backwards. *)
Theorem auth_no_replay st rs t : ss_seen_nonces st = ∅ -> clock_ok t rs -> NoDup (auth_run st rs).
Proof.
  intros Hs Hc; apply (auth_run_fresh rs t st []); [done|].
  intros uid ts nonce Hin; by apply elem_of_nil in Hin.
Qed.


(** The nonce cache is bounded: it never grows past its cap, and a request
    that would exceed it is refused. *)
Theorem nonce_cache_bounded now st uid nonce ts :
  Z.of_nat (size (ss_seen_nonces st)) <= NONCE_CAP ->
  Z.of_nat (size (ss_seen_nonces (check_and_remember_nonce now st uid nonce ts).2)) <= NONCE_CAP.
Proof.
  intros H; unfold check_and_remember_nonce. destruct (ss_seen_nonces st !! _); [done|].
  set (m := filter _ _). destruct (Z.leb_spec NONCE_CAP (Z.of_nat (size m))); cbn.
  - etrans; [|exact H]. apply Nat2Z.inj_le, map_subseteq_size, map_filter_subseteq.
  - rewrite map_size_insert. destruct (m !! _); cbn; lia.
Qed.

End properties.
