(* ===== verification/Handshake.v ===== *)
(** * The client side of the handshake: [client/wt.rs], [client/fallback.rs]

    The AUTH frame a client writes, the reply it adopts, and the agreement of
    the two ends: session key, negotiated frame limit and paired codecs. *)

From S2P Require Import Prelude Bytes Crypto Frame Net Limit State Config ServerAuth.

Section client.
Context {P : Prims}.

Record PoolCfg := { pc_static_key : bytes; pc_uid : bytes; pc_max_plaintext : Z }.

Definition auth_payload (cfg : PoolCfg) (salt nonce : bytes) (ts : Z) : AuthPayload :=
  {| ap_proto_version := PROTO_VERSION; ap_salt := salt; ap_ts := ts; ap_nonce := nonce;
     ap_uid := pc_uid cfg; ap_mac := auth_mac (pc_static_key cfg) (pc_uid cfg) ts nonce;
     ap_max_plaintext := wrap 32 (pc_max_plaintext cfg) |}.

Definition session_cipher (static_key salt : bytes) : FrameCipher :=
  cipher_new (derive_session_key static_key salt).

(** The client's writer before the handshake: static key, fresh counters. *)
Definition auth_writer (cfg : PoolCfg) : FrameWriter :=
  {| fw_out := [];
     fw_enc := {| fe_cipher := cipher_new (pc_static_key cfg); fe_counters := cg_stream;
                  fe_limit := pc_max_plaintext cfg |} |}.

(** [connect], first half: the AUTH frame with its random tail is written under
    the static key, then the writer switches to the session key. *)
Definition send_auth (io : result msg unit) (cfg : PoolCfg) (salt nonce : bytes) (ts : Z) (pad : bytes)
  : result msg FrameWriter :=
  let auth := auth_payload cfg salt nonce ts in
  match fw_write io (auth_writer cfg) FAuth 0 0 (ap_encode auth ++ pad) with
  | (Err e, _) => Err e
  | (Ok _, w) => Ok (fw_set_cipher w (session_cipher (pc_static_key cfg) salt))
  end.

(** The negotiated limit a reply carries, clamped to what was advertised. *)
Definition adopt_limit (advertised : Z) (payload : bytes) : result msg Z :=
  let? _ := ensure (4 <=? len payload) "short auth reply" in
  Ok (negotiate (le_val (take 4 payload)) (wrap 32 advertised)).

(** [connect], second half: the reply must be AuthOk under the session key. *)
Definition recv_reply (cfg : PoolCfg) (salt : bytes) (src : list (result msg bytes))
  : result msg (Z * FrameDecoder) :=
  let d := fd_with_limit (Some (session_cipher (pc_static_key cfg) salt)) None (pc_max_plaintext cfg) in
  let '(r, _, d') := fr_read src d in
  let? reply := r in
  match reply with
  | Some f =>
    if bool_decide (f_ftype f = FAuthOk) then
      let? limit := adopt_limit (pc_max_plaintext cfg) (f_payload f) in
      Ok (limit, fd_set_limit d' limit)
    else Err "server rejected authentication"
  | None => Err "server rejected authentication"
  end.

(** [FallbackClient::connect]: the AUTH wire bytes of the HTTP fallback, sealed
    by an encoder of its own under the baseline limit. *)
Definition fallback_auth_wire (cfg : PoolCfg) (salt nonce : bytes) (ts : Z) (pad : bytes) : result msg bytes :=
  fst (encode {| fe_cipher := cipher_new (pc_static_key cfg); fe_counters := cg_stream;
                 fe_limit := MAX_PLAINTEXT |} FAuth 0 0 (ap_encode (auth_payload cfg salt nonce ts) ++ pad)).

(** [handshake_mux]: the fallback's reply, where a closed channel and an
    unexpected frame are told apart. *)
Definition handshake_mux (cfg : PoolCfg) (salt : bytes) (src : list (result msg bytes))
  : result msg (Z * FrameDecoder) :=
  let d := fd_with_limit (Some (session_cipher (pc_static_key cfg) salt)) None (pc_max_plaintext cfg) in
  let '(r, _, d') := fr_read src d in
  let? reply := r in
  let? f := ok_or reply "channel closed during auth" in
  let? _ := ensure (bool_decide (f_ftype f = FAuthOk)) "unexpected auth reply" in
  let? limit := adopt_limit (fd_limit d) (f_payload f) in
  Ok (limit, fd_set_limit d' limit).

End client.

(** ** Lemmas *)

Section lemmas.
Context {P : Prims} {L : PrimsLaws P}.

(** The queue entry of the AUTH frame. *)
Definition auth_frame (cfg : PoolCfg) (salt nonce : bytes) (ts : Z) (pad : bytes) : OutFrame :=
  {| of_ftype := FAuth; of_flags := 0; of_sid := 0;
     of_payload := ap_encode (auth_payload cfg salt nonce ts) ++ pad |}.

(** The frame a raw decoder delivers for [m] on the wire [w]: its ciphertext. *)
Definition raw_frame (m : OutFrame) (c : Z) (w : bytes) : Frame :=
  {| f_ftype := of_ftype m; f_flags := of_flags m; f_sid := of_sid m; f_counter := c;
     f_aad := f_aad (frame_of m c); f_payload := drop 20 w |}.

Lemma wire_open k m c w : wire_for k m c w -> open k c (f_aad (frame_of m c)) (drop 20 w) = Ok (of_payload m).
Proof. intros (body & -> & _ & Ho). by rewrite drop_app_len by apply length_build_header. Qed.

(** In raw mode a complete frame is delivered with its ciphertext. *)
Lemma next_frame_raw d k m c w r : fd_raw d = true -> 0 <= fd_limit d <= MAX_PLAINTEXT_CAP ->
  out_wf m -> is_u64 c -> len (of_payload m) <= fd_limit d -> wire_for k m c w -> fd_buf d = w ++ r ->
  next_frame d = (Ok (Some (raw_frame m c w)), fd_set_buf d r).
Proof.
  intros Hraw Hlim Hm Hc Hl Hw E; unfold next_frame.
  pose proof (len_wire _ _ _ _ Hw) as Hlw; pose proof (len_nonneg (of_payload m)); pose proof (len_nonneg r).
  rewrite (next_frame_header k m c w (fd_buf d) [] r) by
    (try done; rewrite ?app_nil_r, ?E, ?len_app; unfold TAG_LEN, HEADER_LEN in *; (done || lia)).
  rewrite E, sat_add_small, len_app, Hlw by lia; cbn [hi_ct_len].
  unfold HEADER_LEN, TAG_LEN in *; zbool; cbn [negb andb]. unfold raw_frame.
  destruct Hw as (body & -> & Hb & Ho); rewrite <- app_assoc.
  rewrite !drop_app_len by apply length_build_header.
  rewrite take_app_len, drop_app_len by (unfold len, TAG_LEN in *; lia).
  unfold decode_payload; cbn [fd_raw fd_cipher fd_window fd_set_buf hi_counter hi_aad].
  by rewrite Hraw.
Qed.

(** A raw decoder reads the frame from any chunking. *)
Lemma fr_read_raw k m c w cs d r : fd_raw d = true -> 0 <= fd_limit d <= MAX_PLAINTEXT_CAP -> out_wf m -> is_u64 c ->
  len (of_payload m) <= fd_limit d -> wire_for k m c w -> Forall (fun b => b <> []) cs -> fd_buf d ++ concat cs = w ++ r ->
  exists cs' b', fr_read (map Ok cs) d = (Ok (Some (raw_frame m c w)), map Ok cs', fd_set_buf d b')
  /\ Forall (fun b => b <> []) cs' /\ b' ++ concat cs' = r.
Proof.
  intros Hraw Hlim Hm Hc Hl Hw Hne E.
  apply (fr_read_chunks (fun d0 => fd_raw d0 = true /\ fd_limit d0 = fd_limit d) w); try done.
  - intros d0 b2 r0 [_ Hl0]; apply (next_frame_partial d0 k (fd_limit d) m c w b2 r0); [done|lia|done..].
  - intros d0 r0 [Hr0 Hl0]; apply (next_frame_raw d0 k m c w r0); rewrite ?Hl0; done.
Qed.

Lemma le4_limit n : 0 <= n <= MAX_PLAINTEXT_CAP -> le_val (take 4 (le_bytes 4 (wrap 32 n))) = n.
Proof.
  unfold MAX_PLAINTEXT_CAP; intros; rewrite wrap_small by lia.
  rewrite take_ge by (by rewrite length_le_bytes). apply le_val_small; cbn; lia.
Qed.

Lemma negotiate_range a b : MAX_PLAINTEXT <= negotiate a b <= MAX_PLAINTEXT_CAP.
Proof. unfold negotiate, clamp, MAX_PLAINTEXT, MAX_PLAINTEXT_CAP; lia. Qed.

(** Inside the protocol's range the limit is the smaller advertisement. *)
Definition in_limit (n : Z) : Prop := MAX_PLAINTEXT <= n <= MAX_PLAINTEXT_CAP.

Lemma wrap_limit n : in_limit n -> wrap 32 n = n.
Proof. unfold in_limit, MAX_PLAINTEXT, MAX_PLAINTEXT_CAP; intros; apply wrap_small; lia. Qed.

Lemma negotiate_min a b : in_limit a -> in_limit b -> negotiate a b = Z.min a b.
Proof. unfold in_limit, negotiate, clamp; lia. Qed.

Lemma ap_verify_own cfg salt nonce ts now : Z.abs (now - ts) <= AUTH_WINDOW ->
  ap_verify now (auth_payload cfg salt nonce ts) (pc_static_key cfg) AUTH_WINDOW = true.
Proof.
  intros Hw; unfold ap_verify; cbn [ap_ts ap_uid ap_nonce ap_mac auth_payload].
  rewrite (proj2 (out_of_window_false now ts AUTH_WINDOW ltac:(unfold AUTH_WINDOW; lia)) Hw).
  by apply Z.eqb_eq, ct_diff_zero.
Qed.

Lemma auth_payload_wf cfg salt nonce ts : length salt = 16%nat -> length nonce = 16%nat -> is_u64 ts ->
  utf8_valid (pc_uid cfg) = true -> ap_wf (auth_payload cfg salt nonce ts).
Proof.
  intros; unfold ap_wf; cbn. split_and!; try done; try (unfold is_byte, PROTO_VERSION; lia).
  - unfold auth_mac; apply hmac_len.
  - by apply wrap_bound.
  - by apply wrap_bound.
Qed.

Lemma len_auth_payload cfg salt nonce ts pad : length salt = 16%nat -> length nonce = 16%nat ->
  len (pc_uid cfg) <= 255 -> len pad <= 512 ->
  len (ap_encode (auth_payload cfg salt nonce ts) ++ pad) <= MAX_PLAINTEXT.
Proof.
  intros Hs Hn Hu Hp; unfold ap_encode; cbn [ap_proto_version ap_salt ap_ts ap_nonce ap_uid ap_mac ap_max_plaintext auth_payload].
  rewrite !len_app, len_cons, !len_app, len_le_bytes, len_cons, !len_app, len_le_bytes.
  assert (len salt = 16) by (unfold len; lia). assert (len nonce = 16) by (unfold len; lia).
  assert (len (auth_mac (pc_static_key cfg) (pc_uid cfg) ts nonce) = 32) by (unfold auth_mac, len; by rewrite hmac_len).
  unfold MAX_PLAINTEXT; lia.
Qed.

(** The loop accepts the frame of a registered user whose key alone opens it. *)
Lemma auth_loop_accepts now1 now2 st f uid key ap pt st' order :
  (uid, key) ∈ order -> (forall k, (uid, k) ∈ order -> k = key) ->
  (forall u k, (u, k) ∈ order -> u <> uid -> is_ok (open (cipher_new k) (f_counter f) (f_aad f) (f_payload f)) = false) ->
  open (cipher_new key) (f_counter f) (f_aad f) (f_payload f) = Ok pt -> ap_decode pt = Ok ap ->
  ap_uid ap = uid -> ap_proto_version_compatible ap = true -> ap_verify now1 ap key AUTH_WINDOW = true ->
  check_and_remember_nonce now2 st uid (ap_nonce ap) (ap_ts ap) = (true, st') ->
  auth_loop now1 now2 st f order = (AuthAccepted uid key ap, st').
Proof.
  intros Hin Huniq Hsep Ho Hd Hu Hv Hm Hc. induction order as [|[u k] order IH]; [by apply elem_of_nil in Hin|].
  cbn [auth_loop]. destruct (decide (u = uid)) as [->|Hne].
  - rewrite (Huniq k) by (by left). rewrite Ho, Hd, Hu, bool_decide_true, Hv, Hm, Hc by done. done.
  - pose proof (Hsep u k ltac:(by left) Hne) as Hs. destruct (open (cipher_new k) _ _ _); [done|].
    apply IH.
    + apply elem_of_cons in Hin as [Hin|Hin]; [by simplify_eq|done].
    + intros; apply Huniq; by right.
    + intros; eapply Hsep; [by right|done].
Qed.

(** Setup shared by both ends. *)
Definition hello_ok (cfg : PoolCfg) (salt nonce : bytes) (ts : Z) (pad : bytes) : Prop :=
  length salt = 16%nat /\ length nonce = 16%nat /\ is_u64 ts /\ utf8_valid (pc_uid cfg) = true
  /\ len (pc_uid cfg) <= 255 /\ len pad <= 512
  /\ MAX_PLAINTEXT <= pc_max_plaintext cfg <= MAX_PLAINTEXT_CAP.

Lemma send_auth_wire cfg salt nonce ts pad : hello_ok cfg salt nonce ts pad ->
  exists w, send_auth (Ok tt) cfg salt nonce ts pad = Ok w
  /\ fw_enc w = {| fe_cipher := session_cipher (pc_static_key cfg) salt;
                   fe_counters := snd (cg_take cg_stream); fe_limit := pc_max_plaintext cfg |}
  /\ wire_for (cipher_new (pc_static_key cfg)) (auth_frame cfg salt nonce ts pad) 1 (fw_out w).
Proof.
  intros (Hs & Hn & Ht & Hu & Hul & Hp & Hm).
  pose proof (len_auth_payload cfg salt nonce ts pad Hs Hn Hul Hp) as Hl.
  destruct (encode_wire (fw_enc (auth_writer cfg)) (auth_frame cfg salt nonce ts pad)) as (w & Ew & Hw);
    [cbn [of_payload auth_frame fe_limit fw_enc auth_writer]; lia..|].
  unfold encode in Ew; cbn [of_ftype of_flags of_sid of_payload auth_frame] in Ew.
  unfold send_auth, fw_write; rewrite Ew. eexists; split; [done|]. split; [done|]. done.
Qed.

Lemma check_nonce_accepts now st uid nonce ts :
  ss_seen_nonces st !! nonce_key uid nonce ts = None -> Z.of_nat (size (ss_seen_nonces st)) < NONCE_CAP ->
  exists st', check_and_remember_nonce now st uid nonce ts = (true, st')
  /\ ss_max_plaintext st' = ss_max_plaintext st.
Proof.
  intros Hn Hc; unfold check_and_remember_nonce; rewrite Hn. set (m := filter _ _).
  assert (size m <= size (ss_seen_nonces st))%nat by (apply map_subseteq_size, map_filter_subseteq).
  destruct (Z.leb_spec NONCE_CAP (Z.of_nat (size m))); [lia|]. eexists; split; done.
Qed.

End lemmas.

(** ** Properties *)

Section properties.
Context {P : Prims} {L : PrimsLaws P}.

(** No other user's key opens what the client sealed. *)
Definition keys_separate (st : ServerState) (uid key : bytes) : Prop :=
  forall u k, ss_static_keys st !! u = Some k -> u <> uid ->
  forall n a ct, is_ok (open (cipher_new key) n a ct) = true -> is_ok (open (cipher_new k) n a ct) = false.

Lemma read_auth_accepts cfg salt nonce ts pad w st now1 now2 st1 cs r : hello_ok cfg salt nonce ts pad ->
  ss_static_keys st !! pc_uid cfg = Some (pc_static_key cfg) ->
  keys_separate st (pc_uid cfg) (pc_static_key cfg) -> Z.abs (now1 - ts) <= AUTH_WINDOW ->
  check_and_remember_nonce now2 st (pc_uid cfg) nonce ts = (true, st1) ->
  wire_for (cipher_new (pc_static_key cfg)) (auth_frame cfg salt nonce ts pad) 1 w ->
  Forall (fun b => b <> []) cs -> concat cs = w ++ r ->
  exists cs' b', read_auth now1 now2 st (map Ok cs)
    = (AuthAccepted (pc_uid cfg) (pc_static_key cfg) (auth_payload cfg salt nonce ts), st1, map Ok cs',
       fd_set_buf raw_decoder b') /\ Forall (fun b => b <> []) cs' /\ b' ++ concat cs' = r.
Proof.
  intros (Hs & Hn & Ht & Hu & Hul & Hp & Hm) Hk Hsep Hw Hc Hwire Hne E.
  pose proof (len_auth_payload cfg salt nonce ts pad Hs Hn Hul Hp) as Hl.
  destruct (fr_read_raw (cipher_new (pc_static_key cfg)) (auth_frame cfg salt nonce ts pad) 1 w cs raw_decoder r)
    as (cs' & b' & Hf & Hne' & E');
    [done|vm_compute; split; discriminate|unfold out_wf; cbn; lia|unfold is_u64; lia|exact Hl|done..|].
  exists cs', b'; split; [|done].
  unfold read_auth. rewrite Hf. cbn [f_ftype of_ftype auth_frame raw_frame].
  rewrite bool_decide_true by done. unfold auth_from_frame.
  rewrite (auth_loop_accepts now1 now2 st _ (pc_uid cfg) (pc_static_key cfg) (auth_payload cfg salt nonce ts)
             (of_payload (auth_frame cfg salt nonce ts pad)) st1); try done.
  - by apply elem_of_map_to_list.
  - intros k Hin%elem_of_map_to_list. congruence.
  - intros u k Hin%elem_of_map_to_list Hne0; cbn [f_counter f_aad f_payload raw_frame]. eapply Hsep; [done..|].
    by rewrite (wire_open _ _ _ _ Hwire).
  - by apply wire_open.
  - apply ap_decode_encode; [by apply auth_payload_wf|done].
  - by apply ap_verify_own.
Qed.

(** The reply announces the limit, and the client adopts it. *)
Definition auth_reply (negotiated : Z) : OutFrame :=
  {| of_ftype := FAuthOk; of_flags := 0; of_sid := 0; of_payload := le_bytes 4 (wrap 32 negotiated) |}.

Lemma adopt_reply advertised neg : in_limit advertised -> in_limit neg -> neg <= advertised ->
  adopt_limit advertised (of_payload (auth_reply neg)) = Ok neg.
Proof.
  intros Ha Hn Hle; unfold adopt_limit; cbn [auth_reply of_payload].
  rewrite len_le_bytes, le4_limit by (unfold in_limit, MAX_PLAINTEXT in *; lia).
  change (4 <=? Z.of_nat 4) with true; cbn [ensure rbind]. rewrite wrap_limit, negotiate_min by done.
  f_equal; lia.
Qed.

Lemma read_reply cfg salt neg c w cs d0 : in_limit (pc_max_plaintext cfg) -> is_u64 c ->
  d0 = fd_with_limit (Some (session_cipher (pc_static_key cfg) salt)) None (pc_max_plaintext cfg) ->
  wire_for (session_cipher (pc_static_key cfg) salt) (auth_reply neg) c w ->
  Forall (fun b => b <> []) cs -> concat cs = w ->
  exists d', fr_read (map Ok cs) d0 = (Ok (Some (frame_of (auth_reply neg) c)), [], d')
    /\ paired d' (session_cipher (pc_static_key cfg) salt) (pc_max_plaintext cfg) /\ fd_buf d' = [].
Proof.
  intros [Hm1 Hm2] Hu -> Hw Hne E.
  destruct (fr_read_frame (session_cipher (pc_static_key cfg) salt) (pc_max_plaintext cfg) (auth_reply neg) c w cs
              (fd_with_limit (Some (session_cipher (pc_static_key cfg) salt)) None (pc_max_plaintext cfg)) [])
    as (cs' & d' & Hr & Hp & Hne' & E'); try done.
  - unfold auth_reply; cbn [of_payload]; rewrite len_le_bytes. unfold MAX_PLAINTEXT in *; lia.
  - cbn; by rewrite E, app_nil_r.
  - apply app_nil in E' as [Eb Ec]. destruct cs' as [|x cs']; [by exists d'|].
    inv Hne'; cbn in Ec. by apply app_nil in Ec as [? _].
Qed.

(** The handshake agrees. A client of a registered user and a server whose
    clock is within the window, run against each other, both succeed, however
    the network cuts the AUTH frame and the reply: the server authenticates the
    user, both ends compute the same session key and the same negotiated limit,
    and each end's decoder is left empty and set up for the other end's
    encoder. *)
Theorem handshake_agrees cfg salt nonce ts pad st now1 now2 now_ms ip :
  hello_ok cfg salt nonce ts pad ->
  ss_static_keys st !! pc_uid cfg = Some (pc_static_key cfg) ->
  keys_separate st (pc_uid cfg) (pc_static_key cfg) ->
  MAX_PLAINTEXT <= ss_max_plaintext st <= MAX_PLAINTEXT_CAP ->
  Z.abs (now1 - ts) <= AUTH_WINDOW ->
  ss_seen_nonces st !! nonce_key (pc_uid cfg) nonce ts = None ->
  Z.of_nat (size (ss_seen_nonces st)) < NONCE_CAP ->
  exists w, send_auth (Ok tt) cfg salt nonce ts pad = Ok w /\
  forall up, Forall (fun b => b <> []) up -> concat up = fw_out w ->
  exists est st', handle_wt_conn now1 now2 now_ms (Ok tt) st ip (map Ok up) = (Some est, st')
    /\ es_uid est = pc_uid cfg
    /\ es_negotiated est = Z.min (pc_max_plaintext cfg) (ss_max_plaintext st)
    /\ paired (es_decoder est) (fe_cipher (fw_enc w)) (es_negotiated est) /\ fd_buf (es_decoder est) = []
    /\ fe_limit (fw_enc (es_writer est)) = es_negotiated est
    /\ forall down, Forall (fun b => b <> []) down -> concat down = fw_out (es_writer est) ->
       exists d, recv_reply cfg salt (map Ok down) = Ok (es_negotiated est, d)
         /\ paired d (fe_cipher (fw_enc (es_writer est))) (es_negotiated est) /\ fd_buf d = [].
Proof.
  intros Hh Hk Hsep Hmax Hw Hn Hc. destruct (send_auth_wire cfg salt nonce ts pad Hh) as (w & Esend & Eenc & Hwire).
  destruct (check_nonce_accepts now2 st (pc_uid cfg) nonce ts Hn Hc) as (st1 & Ec & Emp).
  exists w; split; [done|]. intros up Hup Eup.
  destruct (read_auth_accepts cfg salt nonce ts pad (fw_out w) st now1 now2 st1 up [] Hh Hk Hsep Hw Ec Hwire Hup)
    as (cs' & b' & Er & _ & Eb); [by rewrite Eup, app_nil_r|].
  apply app_nil in Eb as [-> _]. unfold handle_wt_conn; rewrite Er. unfold accept_auth.
  set (neg := negotiate _ _). cbn [ap_salt auth_payload] in *.
  pose proof Hh as (_ & _ & _ & _ & _ & _ & Hm).
  assert (Hneg : neg = Z.min (pc_max_plaintext cfg) (ss_max_plaintext st)).
  { subst neg; cbn; rewrite Emp, !wrap_limit by done. by apply negotiate_min. }
  assert (Hr : in_limit neg) by apply negotiate_range. clearbody neg.
  set (enc := {| fe_cipher := cipher_new _; fe_counters := cg_stream_server; fe_limit := neg |}).
  destruct (encode_wire enc (auth_reply neg)) as (rw & Erw & Hrw);
    [unfold auth_reply, enc; cbn [of_payload fe_limit]; rewrite ?len_le_bytes; unfold in_limit, MAX_PLAINTEXT in Hr; lia..|].
  unfold fw_write; cbn [fw_enc fw_out]. unfold encode, auth_reply in Erw; cbn [of_ftype of_flags of_sid of_payload] in Erw; rewrite Erw.
  destruct (new_conn _ _ _ _ _) as [id st2]. eexists _, st2; split; [done|].
  cbn [es_writer fw_out es_negotiated es_uid es_decoder fw_enc].
  split_and!; try done; [by rewrite Eenc; split_and!; try done; apply Hr|]. intros down Hdn Edn; cbn [app] in Edn.
  destruct (read_reply cfg salt neg (cg_take cg_stream_server).1 rw down _ Hm ltac:(vm_compute; split; [discriminate|reflexivity])
              eq_refl Hrw Hdn Edn) as (d' & Hf & (Hp1 & Hp2 & Hp3 & _ & _) & Hb).
  unfold recv_reply; rewrite Hf; cbn [rbind frame_of f_ftype f_payload auth_reply of_ftype].
  rewrite bool_decide_true, (adopt_reply (pc_max_plaintext cfg) neg) by (done || lia). cbn [rbind].
  eexists; split; [done|]. split; [unfold paired; split_and!; (done || apply Hr)|done].
Qed.

(** Every AUTH frame of a user is sealed under one nonce: whatever the
    salt, timestamp and padding, on both transports the frame's counter is 1,
    so two connections of a user reuse the static key's nonce. *)
Theorem auth_frame_nonce_reuse cfg salt nonce ts pad w : hello_ok cfg salt nonce ts pad ->
  (exists fw, send_auth (Ok tt) cfg salt nonce ts pad = Ok fw /\ w = fw_out fw)
  \/ fallback_auth_wire cfg salt nonce ts pad = Ok w ->
  exists body, w = build_header FAuth 0 0 (len (ap_encode (auth_payload cfg salt nonce ts) ++ pad) + TAG_LEN) 1 ++ body
  /\ open (cipher_new (pc_static_key cfg)) 1 (take 12 w) body = Ok (ap_encode (auth_payload cfg salt nonce ts) ++ pad).
Proof.
  intros Hh Hw.
  assert (Hwire : wire_for (cipher_new (pc_static_key cfg)) (auth_frame cfg salt nonce ts pad) 1 w).
  { destruct Hw as [(fw & Es & ->)|Ef].
    - destruct (send_auth_wire cfg salt nonce ts pad Hh) as (w' & E & _ & Hww). rewrite Es in E; injection E as ->; exact Hww.
    - destruct Hh as (Hs & Hn & _ & _ & Hul & Hp & _).
      pose proof (len_auth_payload cfg salt nonce ts pad Hs Hn Hul Hp) as Hl.
      unfold fallback_auth_wire in Ef. set (e := {| fe_cipher := _ |}) in Ef.
      destruct (encode_wire e (auth_frame cfg salt nonce ts pad)) as (w' & E & ?);
        [exact Hl|cbn; unfold MAX_PLAINTEXT, MAX_PLAINTEXT_CAP; lia|].
      cbn [of_ftype of_flags of_sid of_payload auth_frame] in E. rewrite E in Ef. cbn [fst] in Ef; injection Ef as <-; assumption. }
  destruct Hwire as (body & -> & _ & Ho). exists body; split; [done|].
  rewrite take_app_le by (rewrite length_build_header; lia). done.
Qed.

End properties.

(** ** Witnesses *)

Module HandshakeWitness.

Definition uid : bytes := str "alice".
Definition key : bytes := Eval vm_compute in derive_static_key (str "secret") uid.
Definition cfg : PoolCfg := {| pc_static_key := key; pc_uid := uid; pc_max_plaintext := 65536 |}.
Definition salt : bytes := replicate 16 3.
Definition nonce : bytes := replicate 16 9.
Definition pad : bytes := replicate 70 1.
Definition ts : Z := 1700000000.

Definition server : ServerState := build_state {|
  sc_listen := None; sc_cert := CertSelfSigned; sc_fallback_listen := None; sc_http_listen := None;
  sc_acme_dir := None; sc_path := str "/api"; sc_users := [(uid, str "secret")];
  sc_max_sessions := 200; sc_rate_mbps := 0; sc_idle_secs := 60; sc_allow_private_targets := false;
  sc_max_unauth := 128; sc_recv_window := 1; sc_shutdown_grace := 1; sc_health := None;
  sc_max_plaintext := 32768; sc_udp_dns_ttl := 3600 |}.

Lemma hello : hello_ok cfg salt nonce ts pad.
Proof. unfold hello_ok, is_u64; split_and!; try reflexivity; vm_compute; discriminate. Qed.

Definition wire : bytes := Eval vm_compute in
  match send_auth (Ok tt) cfg salt nonce ts pad with Ok w => fw_out w | Err _ => [] end.

Lemma server_separate : keys_separate server (pc_uid cfg) (pc_static_key cfg).
Proof.
  intros u k Hl Hne. exfalso; apply Hne.
  change (ss_static_keys server) with ({[uid := derive_static_key (str "secret") uid]} : gmap bytes bytes) in Hl.
  apply lookup_singleton_Some in Hl as [Hl _]. symmetry; exact Hl.
Qed.

Lemma handshake_agrees_witness : exists w est st',
    send_auth (Ok tt) cfg salt nonce ts pad = Ok w
    /\ handle_wt_conn (ts + 5) (ts + 5) 0 (Ok tt) server None (map Ok [take 9 wire; drop 9 wire]) = (Some est, st')
    /\ es_uid est = uid /\ es_negotiated est = 32768
    /\ forall down, Forall (fun b => b <> []) down -> concat down = fw_out (es_writer est) ->
       exists d, recv_reply cfg salt (map Ok down) = Ok (es_negotiated est, d).
Proof.
  destruct (handshake_agrees cfg salt nonce ts pad server (ts + 5) (ts + 5) 0 None hello) as (w & Es & H).
  - vm_compute; reflexivity.
  - exact server_separate.
  - vm_compute; split; discriminate.
  - unfold AUTH_WINDOW; lia.
  - vm_compute; reflexivity.
  - vm_compute; reflexivity.
  - assert (Ew : fw_out w = wire).
    { transitivity (match send_auth (Ok tt) cfg salt nonce ts pad with Ok w => fw_out w | Err _ => [] end);
        [by rewrite Es|vm_compute; reflexivity]. }
    destruct (H [take 9 wire; drop 9 wire]) as (est & st' & Eh & Eu & En & _ & _ & _ & Hd).
    + repeat constructor; vm_compute; discriminate.
    + rewrite Ew; vm_compute; reflexivity.
    + exists w, est, st'. split; [exact Es|]. split; [exact Eh|]. split; [exact Eu|].
      split; [rewrite En; vm_compute; reflexivity|]. intros down Hne E.
      destruct (Hd down Hne E) as (d & Hr & _). exists d; exact Hr.
Defined.

Lemma auth_frame_nonce_reuse_witness : exists body,
  wire = build_header FAuth 0 0 (len (ap_encode (auth_payload cfg salt nonce ts) ++ pad) + TAG_LEN) 1 ++ body
  /\ open (cipher_new key) 1 (take 12 wire) body = Ok (ap_encode (auth_payload cfg salt nonce ts) ++ pad).
Proof.
  apply (auth_frame_nonce_reuse cfg salt nonce ts pad wire hello).
  left; eexists; split; [vm_compute; reflexivity|vm_compute; reflexivity].
Defined.

End HandshakeWitness.

(** Witnesses of the authentication properties of the server. *)
Module ServerAuthWitness.

Definition frame : Frame := Eval vm_compute in
  match next_frame (fd_feed raw_decoder HandshakeWitness.wire) with
  | (Ok (Some f), _) => f
  | _ => {| f_ftype := FError; f_flags := 0; f_sid := 0; f_counter := 0; f_aad := []; f_payload := [] |}
  end.
Definition header : bytes :=
  str "Bearer " ++ make_bearer HandshakeWitness.key HandshakeWitness.uid 1700000000 (replicate 16 5).
Definition requests : list (Z * Z * AuthReq) :=
  [ (1700000001, 1700000001, Bearer (Some header)); (1700000002, 1700000003, InBand frame);
    (1700000030, 1700000030, InBand frame); (1700000031, 1700000031, Bearer (Some header)) ].

Lemma auth_no_replay_witness :
  length (auth_run HandshakeWitness.server requests) = 2%nat /\ NoDup (auth_run HandshakeWitness.server requests).
Proof.
  split; [vm_compute; reflexivity|].
  apply (auth_no_replay HandshakeWitness.server requests 0); [reflexivity|].
  cbn; unfold AUTH_WINDOW; lia.
Defined.


Lemma nonce_cache_bounded_witness :
  Z.of_nat (size (ss_seen_nonces (check_and_remember_nonce 1700000000 HandshakeWitness.server (str "a") [1] 1700000000).2)) <= NONCE_CAP.
Proof. apply (nonce_cache_bounded 1700000000 HandshakeWitness.server). vm_compute; discriminate. Defined.

End ServerAuthWitness.
