(* ===== verification/Web.v ===== *)
(** * The HTTPS fallback: [server/fallback.rs], [proto/stream.rs]

    The mode-A channel over POST and WebSocket (gate, bearer token, in-band
    AUTH, connection state), the adapter that turns a message stream into a
    byte stream, and the plaintext front (redirect and ACME challenges). The
    HTTP server is a parameter: a request is its headers and body reads, a
    response one of the few the handlers build. *)

From S2P Require Import Prelude Bytes Crypto Frame Net Limit State Config ServerAuth Handshake.

(** ** The message-stream adapter *)

(** What [poll_next] answers. *)
Inductive StreamPoll := SPending | SItem (b : bytes) | SError (m : msg) | SEnd.

Record StreamAsRead := { sr_buf : bytes; sr_done : bool }.
Definition sr_new : StreamAsRead := {| sr_buf := []; sr_done := false |}.

Inductive ReadPoll := RPending | RReady (b : bytes) | RError (m : msg).

(** [poll_read] into [room] bytes, over the stream's next answers (none left is
    a pending stream); the answers not consumed are returned. *)
Fixpoint sr_poll_read (s : StreamAsRead) (polls : list StreamPoll) (room : nat) : ReadPoll * StreamAsRead * list StreamPoll :=
  if negb (bool_decide (sr_buf s = [])) then
    let n := Nat.min (length (sr_buf s)) room in
    (RReady (take n (sr_buf s)), {| sr_buf := drop n (sr_buf s); sr_done := sr_done s |}, polls)
  else if sr_done s then (RReady [], s, polls)
  else match polls with
       | [] => (RPending, s, [])
       | SPending :: t => (RPending, s, t)
       | SItem b :: t => sr_poll_read {| sr_buf := sr_buf s ++ b; sr_done := false |} t room
       | SError m :: t => (RError m, s, t)
       | SEnd :: t =>
         (* the next turn of the loop answers from [done] *)
         (RReady [], {| sr_buf := sr_buf s; sr_done := true |}, t)
       end.

(** Successive reads until the first that is not data: the bytes read, the
    state, the answers left. *)
Fixpoint sr_reads (s : StreamAsRead) (polls : list StreamPoll) (rooms : list nat) : bytes * StreamAsRead * list StreamPoll :=
  match rooms with
  | [] => ([], s, polls)
  | room :: t =>
    match sr_poll_read s polls room with
    | (RReady b, s', polls') => let '(bs, s'', p) := sr_reads s' polls' t in (b ++ bs, s'', p)
    | (_, s', polls') => sr_reads s' polls' t
    end
  end.

(** The bytes a stream delivers before an end. *)
Fixpoint stream_bytes (polls : list StreamPoll) : bytes :=
  match polls with
  | [] | SEnd :: _ => []
  | SItem b :: t => b ++ stream_bytes t
  | _ :: t => stream_bytes t
  end.

(** What is still to come out of the adapter. *)
Definition sr_left (s : StreamAsRead) (polls : list StreamPoll) : bytes :=
  sr_buf s ++ if sr_done s then [] else stream_bytes polls.

Lemma sr_poll_left s polls room : let '(r, s', polls') := sr_poll_read s polls room in
  (match r with RReady b => b | _ => [] end) ++ sr_left s' polls' = sr_left s polls.
Proof.
  revert s; induction polls as [|p t IH]; intros s; unfold sr_left; cbn [sr_poll_read];
    destruct (bool_decide_reflect (sr_buf s = [])) as [E|E]; cbn [negb];
    try (cbn [sr_buf sr_done]; rewrite app_assoc, take_drop; done);
    destruct (sr_done s) eqn:Ed; cbn [sr_buf sr_done]; rewrite ?E, ?Ed; try done.
  destruct p as [|b|m|]; cbn [sr_buf sr_done]; rewrite ?E, ?Ed; try done.
  specialize (IH {| sr_buf := [] ++ b; sr_done := false |}); unfold sr_left in IH; cbn in IH |- *.
  destruct (sr_poll_read _ t room) as [[r s'] polls']; done.
Qed.

Lemma sr_reads_left rooms : forall s p, let '(b, s', p') := sr_reads s p rooms in b ++ sr_left s' p' = sr_left s p.
Proof.
  induction rooms as [|r t IH]; intros s p; cbn [sr_reads]; [done|].
  pose proof (sr_poll_left s p r) as Hp; destruct (sr_poll_read s p r) as [[rr s1] p1].
  specialize (IH s1 p1); destruct rr; destruct (sr_reads s1 p1 t) as [[b2 s2] p2]; cbn in Hp;
    rewrite <- ?app_assoc, IH; done.
Qed.

(** The adapter delivers the byte stream whatever the message boundaries.
    For any sequence of stream answers and of read sizes, the bytes read,
    followed by what is still buffered or to come, are the concatenation of the
    stream's messages: frames may span messages and messages may hold several
    frames without a byte lost, repeated or reordered. Two streams that carry
    the same bytes are indistinguishable. *)
Theorem stream_boundaries_irrelevant polls rooms : let '(b, s, polls') := sr_reads sr_new polls rooms in
  b ++ sr_left s polls' = stream_bytes polls.
Proof. apply (sr_reads_left rooms sr_new polls). Qed.

(** ** The plaintext front *)

Definition host_char (c : Z) : bool :=
  is_alnum c || (c =? c_dot) || (c =? c_minus) || (c =? c_colon) || (c =? c_lbrack) || (c =? c_rbrack).

Definition build_redirect_target (host path : bytes) : bytes :=
  let host := trim host in
  let host_ok := negb (bool_decide (host = [])) && (len host <=? 253) && forallb host_char host in
  let host := if host_ok : bool then host else str "localhost" in
  let path := if starts_with (str "/") path then path else str "/" in
  str "https://" ++ host ++ path.

Definition is_safe_acme_token (token : bytes) : bool :=
  negb (bool_decide (token = [])) && (len token <=? 255)
  && forallb (fun c => is_alnum c || (c =? c_minus) || (c =? c_underscore)) token.

(** [Path::join] on Unix. *)
Definition path_join (dir name : bytes) : bytes :=
  if starts_with (str "/") name then name
  else if bool_decide (dir = []) then name
  else if bool_decide (last dir = Some c_slash) then dir ++ name
  else dir ++ str "/" ++ name.

Inductive PlainResponse := PRedirect (location : bytes) | PBody (b : bytes).

Definition redirect_handler (host path : option bytes) : PlainResponse :=
  PRedirect (build_redirect_target (default [] host) (default (str "/") path)).

(** [acme_handler]; [read] is the file system. *)
Definition acme_handler (read : bytes -> option bytes) (acme_dir : option bytes) (token : bytes)
  (host path : option bytes) : PlainResponse :=
  match acme_dir with
  | Some dir =>
    if is_safe_acme_token token then
      match read (path_join dir token) with
      | Some body => PBody body
      | None => redirect_handler host path
      end
    else redirect_handler host path
  | None => redirect_handler host path
  end.

Lemma safe_token_chars token c : is_safe_acme_token token = true -> c ∈ token ->
  is_alnum c = true \/ c = c_minus \/ c = c_underscore.
Proof.
  unfold is_safe_acme_token; intros H Hin; bsimpl.
  match goal with H : forallb _ _ = true |- _ => pose proof (proj1 (forallb_forall _ _) H) as Hf end.
  apply list_elem_of_In in Hin; apply Hf in Hin; clear -Hin.
  apply orb_true_iff in Hin as [Hin|Hin]; [apply orb_true_iff in Hin as [Hin|Hin]|]; bsimpl; auto.
Qed.

(** The plaintext front serves challenge files only. A body is served only
    with a challenge directory configured, and then it is the content of one
    file directly under that directory, named by the token, which has neither a
    slash nor a dot; every other request is redirected to [https], to the
    request's host when its name is made of host characters alone and to
    [localhost] otherwise, with a path that starts with a slash. *)
Theorem plain_front_safe read acme_dir token host path :
  match acme_handler read acme_dir token host path with
  | PBody b => exists dir, acme_dir = Some dir /\ c_slash ∉ token /\ c_dot ∉ token /\ token <> [] /\
      read (path_join dir token) = Some b /\
      (path_join dir token = token \/ path_join dir token = dir ++ token \/ path_join dir token = dir ++ c_slash :: token)
  | PRedirect l => redirect_handler host path = PRedirect l /\
      exists h p, l = str "https://" ++ h ++ p /\ forallb host_char h = true /\ h <> [] /\
        len h <= 253 /\ starts_with (str "/") p = true /\
        (h = trim (default [] host) \/ h = str "localhost")
  end.
Proof.
  assert (Hr : forall l, redirect_handler host path = PRedirect l -> redirect_handler host path = PRedirect l /\
      exists h p, l = str "https://" ++ h ++ p /\ forallb host_char h = true /\ h <> [] /\
        len h <= 253 /\ starts_with (str "/") p = true /\
        (h = trim (default [] host) \/ h = str "localhost")).
  { intros l H; split; [done|]. unfold redirect_handler, build_redirect_target in H; injection H as <-.
    destruct (negb _ && _ && _) eqn:E; [bsimpl|]; eexists _, _; (split; [reflexivity|]).
    - split_and!; try done; [|by left]. by destruct (starts_with (str "/") (default _ path)) eqn:Es.
    - split_and!; try done; [|by right]. by destruct (starts_with (str "/") (default _ path)) eqn:Es. }
  unfold acme_handler; destruct acme_dir as [dir|]; [|by apply Hr].
  destruct (is_safe_acme_token token) eqn:Et; [|by apply Hr].
  destruct (read (path_join dir token)) as [b|] eqn:Eb; [|by apply Hr].
  pose proof (safe_token_chars token) as Hc.
  assert (Hs : c_slash ∉ token) by (intros H; apply Hc in H as [H|[H|H]]; done).
  assert (Hd : c_dot ∉ token) by (intros H; apply Hc in H as [H|[H|H]]; done).
  assert (Hn : token <> []) by (unfold is_safe_acme_token in Et; by bsimpl).
  exists dir; split_and!; try done. unfold path_join.
  destruct (starts_with (str "/") token); [by left|].
  destruct (bool_decide (dir = [])); [by left|].
  destruct (bool_decide (last dir = Some c_slash)); auto.
Qed.

(** ** The mode-A channel *)

Section channel.
Context {P : Prims}.

Definition set_unauth (st : ServerState) (g : UnauthGate) : ServerState :=
  ss_with_caches st (ss_rates st) (ss_seen_nonces st) (ss_udp_dns st) g.

(** Dropping the guard of a request admitted without an address. *)
Definition release_guard (st : ServerState) : ServerState := set_unauth st (drop_guard (ss_unauth st) None).

(** What an accepted request leaves running: the connection, the decoder of the
    uplink, the encoder and first frame of the downlink. *)
Record FbChannel := {
  fb_conn : Z;
  fb_decoder : FrameDecoder;
  fb_encoder : FrameEncoder;
  fb_queue : list OutFrame;
}.

Definition spawn_mode_a_channel (now : Z) (st : ServerState) (uid static_key : bytes) (ap : AuthPayload)
  (d : FrameDecoder) (negotiated : Z) : FbChannel * ServerState :=
  let cipher := cipher_new (derive_session_key static_key (ap_salt ap)) in
  let d := fd_set_limit (fd_set_cipher d cipher) negotiated in
  let '(id, st) := new_conn now st uid cipher negotiated in
  ({| fb_conn := id; fb_decoder := d;
      fb_encoder := {| fe_cipher := cipher; fe_counters := cg_stream_server; fe_limit := negotiated |};
      fb_queue := [ {| of_ftype := FAuthOk; of_flags := 0; of_sid := 0;
                       of_payload := le_bytes 4 (wrap 32 negotiated) |} ] |}, st).

(** The channel's writer task: a frame that does not encode is dropped. *)
Fixpoint fb_writer (e : FrameEncoder) (q : list OutFrame) : list bytes :=
  match q with
  | [] => []
  | f :: t =>
    match encode e (of_ftype f) (of_flags f) (of_sid f) (of_payload f) with
    | (Ok w, e) => w :: fb_writer e t
    | (Err _, e) => fb_writer e t
    end
  end.

Inductive FbResponse := FbDisguise | FbChannelOpen (c : FbChannel) | FbUpgradedClosed.

(** The clock readings of the bearer check and of the AUTH check, and the
    monotonic time of the registration. *)
Record FbTimes := { ft_bearer1 : Z; ft_bearer2 : Z; ft_auth1 : Z; ft_auth2 : Z; ft_now_ms : Z }.

(** The in-band part shared by the two handlers; [fail] is what a failed AUTH
    answers. *)
Definition fb_in_band (tm : FbTimes) (st : ServerState) (src : list (result msg bytes)) (fail : FbResponse)
  : FbResponse * ServerState :=
  match read_auth (ft_auth1 tm) (ft_auth2 tm) st src with
  | (AuthAccepted uid key ap, st, _, d) =>
    let negotiated := negotiate (ap_max_plaintext ap) (wrap 32 (ss_max_plaintext st)) in
    let '(c, st) := spawn_mode_a_channel (ft_now_ms tm) (release_guard st) uid key ap d negotiated in
    (FbChannelOpen c, st)
  | (_, st, _, _) => (fail, release_guard st)
  end.

(** [api_handler] (POST). *)
Definition api_handler (tm : FbTimes) (st : ServerState) (auth : option bytes) (src : list (result msg bytes))
  : FbResponse * ServerState :=
  match try_admit (ss_unauth st) None with
  | (false, g) => (FbDisguise, set_unauth st g)
  | (true, g) =>
    match bearer_ok (ft_bearer1 tm) (ft_bearer2 tm) (set_unauth st g) auth with
    | (false, st) => (FbDisguise, release_guard st)
    | (true, st) => fb_in_band tm st src FbDisguise
    end
  end.

(** [ws_handler] with [ws_channel]; [upgrade] is whether the request is a
    WebSocket upgrade. *)
Definition ws_handler (tm : FbTimes) (st : ServerState) (auth : option bytes) (upgrade : bool)
  (src : list (result msg bytes)) : FbResponse * ServerState :=
  match bearer_ok (ft_bearer1 tm) (ft_bearer2 tm) st auth with
  | (false, st) => (FbDisguise, st)
  | (true, st) =>
    if negb upgrade then (FbDisguise, st)
    else match try_admit (ss_unauth st) None with
         | (false, g) => (FbUpgradedClosed, set_unauth st g)
         | (true, g) => fb_in_band tm (set_unauth st g) src FbUpgradedClosed
         end
  end.

(** ** Lemmas *)

(** The authentication steps change only the nonce cache. *)
Definition same_but_nonces (a b : ServerState) : Prop := exists m, b = set_nonces a m.

Lemma same_refl a : same_but_nonces a a.
Proof. exists (ss_seen_nonces a); by destruct a. Qed.

Lemma check_nonce_same now st uid nonce ts : same_but_nonces st (check_and_remember_nonce now st uid nonce ts).2.
Proof.
  unfold check_and_remember_nonce. destruct (ss_seen_nonces st !! _); [apply same_refl|].
  destruct (_ <=? _); by eexists.
Qed.

Lemma bearer_same n1 n2 st h : same_but_nonces st (bearer_ok n1 n2 st h).2.
Proof.
  unfold bearer_ok, bearer_user. destruct h as [h|]; [|apply same_refl].
  destruct (bearer_token h) as [t|]; [|apply same_refl]. destruct (bearer_uid t) as [u|]; [|apply same_refl].
  destruct (ss_static_keys st !! u) as [k|]; [|apply same_refl].
  destruct (verify_bearer_parts _ _ _ _ _) as [[ts nonce]|]; [|apply same_refl].
  pose proof (check_nonce_same n2 st u nonce ts) as H.
  destruct (check_and_remember_nonce n2 st u nonce ts) as [[] st']; exact H.
Qed.

Lemma auth_loop_same n1 n2 st f order : same_but_nonces st (auth_loop n1 n2 st f order).2.
Proof.
  induction order as [|[uid skey] t IH]; cbn [auth_loop]; [apply same_refl|].
  destruct (open _ _ _ _) as [pt|]; [|done]. destruct (ap_decode pt) as [ap|]; [|done].
  destruct (negb (bool_decide _)); [done|]. destruct (negb (ap_proto_version_compatible ap)); [apply same_refl|].
  destruct (negb _); [done|].
  pose proof (check_nonce_same n2 st uid (ap_nonce ap) (ap_ts ap)) as H.
  destruct (check_and_remember_nonce _ _ _ _ _) as [[] st']; exact H.
Qed.

Lemma read_auth_same n1 n2 st src : let '(_, st', _, _) := read_auth n1 n2 st src in same_but_nonces st st'.
Proof.
  unfold read_auth; destruct (fr_read src raw_decoder) as [[[[f|]|e] src'] d]; try apply same_refl.
  destruct (bool_decide _); [|apply same_refl].
  pose proof (auth_loop_same n1 n2 st f (map_to_list (ss_static_keys st))) as H.
  unfold auth_from_frame; destruct (auth_loop _ _ _ _ _) as [o st']; exact H.
Qed.

(** A slot taken without an address and given back. *)
Lemma gate_roundtrip g : 0 <= ug_global g < 2 ^ 64 - 1 ->
  match try_admit g None with (true, g') => drop_guard g' None = g | (false, g') => g' = g end.
Proof.
  intros Hg; unfold try_admit, bump_global, drop_guard; destruct g as [n ips mg mi]; cbn in *.
  destruct (mg <=? n); [done|]; unfold ug_set_global; cbn.
  by rewrite Z.add_simpl_r, wrap_small by lia.
Qed.

Lemma spawn_spec now st uid key ap d n : let '(c, st') := spawn_mode_a_channel now st uid key ap d n in
  ss_unauth st' = ss_unauth st /\ fb_conn c = ss_conn_seq st /\ ss_conns st' = {[ss_conn_seq st]} ∪ ss_conns st /\
  fe_cipher (fb_encoder c) = cipher_new (derive_session_key key (ap_salt ap)) /\
  fe_limit (fb_encoder c) = n /\ fd_limit (fb_decoder c) = n /\ map of_payload (fb_queue c) = [le_bytes 4 (wrap 32 n)].
Proof.
  unfold spawn_mode_a_channel, new_conn, rate_for, token_new.
  destruct (ss_rates st !! uid); cbn; split_and!; done.
Qed.

Lemma api_handler_spec tm st auth src r st' :
  0 <= ug_global (ss_unauth st) < 2 ^ 64 - 1 -> api_handler tm st auth src = (r, st') ->
  ss_unauth st' = ss_unauth st /\
  match r with
  | FbChannelOpen c =>
    (bearer_ok (ft_bearer1 tm) (ft_bearer2 tm) (set_unauth st (try_admit (ss_unauth st) None).2) auth).1 = true /\
    exists st1 uid key ap src' d,
      read_auth (ft_auth1 tm) (ft_auth2 tm)
        (bearer_ok (ft_bearer1 tm) (ft_bearer2 tm) (set_unauth st (try_admit (ss_unauth st) None).2) auth).2 src
        = (AuthAccepted uid key ap, st1, src', d) /\
      let negotiated := negotiate (ap_max_plaintext ap) (wrap 32 (ss_max_plaintext st)) in
      fb_conn c = ss_conn_seq st /\ ss_conns st' = {[ss_conn_seq st]} ∪ ss_conns st /\
      fe_cipher (fb_encoder c) = cipher_new (derive_session_key key (ap_salt ap)) /\
      fe_limit (fb_encoder c) = negotiated /\ fd_limit (fb_decoder c) = negotiated /\
      map of_payload (fb_queue c) = [le_bytes 4 (wrap 32 negotiated)]
  | FbDisguise => ss_conns st' = ss_conns st /\ ss_heap st' = ss_heap st
  | FbUpgradedClosed => False
  end.
Proof.
  intros Hg; unfold api_handler, fb_in_band. pose proof (gate_roundtrip (ss_unauth st) Hg) as Hr.
  destruct (try_admit (ss_unauth st) None) as [[] g] eqn:Eg; cbn [snd]; [|intros; simplify_eq; done].
  pose proof (bearer_same (ft_bearer1 tm) (ft_bearer2 tm) (set_unauth st g) auth) as [m Hb].
  destruct (bearer_ok _ _ _ auth) as [[] st1] eqn:Eb; cbn [fst snd] in *; [|intros; simplify_eq; done].
  pose proof (read_auth_same (ft_auth1 tm) (ft_auth2 tm) st1 src) as Ha.
  destruct (read_auth _ _ st1 src) as [[[o st2] src'] d] eqn:Er; destruct Ha as [m' Ha].
  destruct o as [uid key ap|c s|]; [|intros; simplify_eq; done..].
  pose proof (spawn_spec (ft_now_ms tm) (release_guard st2) uid key ap d
    (negotiate (ap_max_plaintext ap) (wrap 32 (ss_max_plaintext st2)))) as Hs.
  destruct (spawn_mode_a_channel _ _ _ _ _ _ _) as [c st3]; intros; simplify_eq; cbn in Hs.
  destruct Hs as (-> & ? & ? & ? & ? & ? & ?). split; [done|]. split; [done|].
  eexists _, uid, key, ap, src', d; split; [reflexivity|]. cbn; split_and!; done.
Qed.

(** C13: the fallback answers everyone else with the landing page. A POST opens a
    channel only if its bearer token is valid and the first frame of its body is
    a verified AUTH frame of a registered user; then one connection is added,
    under a fresh id, with the negotiated limit and the key derived from that
    user's key and the frame's salt, and the first frame queued announces the
    limit. Every other request, whatever made it fail, gets the same page and
    leaves the connections alone. In all cases the unauthenticated-connection
    slot is returned. *)
Theorem fallback_stealth tm st auth src r st' :
  0 <= ug_global (ss_unauth st) < 2 ^ 64 - 1 -> api_handler tm st auth src = (r, st') ->
  ss_unauth st' = ss_unauth st /\
  match r with
  | FbChannelOpen c =>
    (bearer_ok (ft_bearer1 tm) (ft_bearer2 tm) (set_unauth st (try_admit (ss_unauth st) None).2) auth).1 = true /\
    exists st1 uid key ap src' d,
      read_auth (ft_auth1 tm) (ft_auth2 tm)
        (bearer_ok (ft_bearer1 tm) (ft_bearer2 tm) (set_unauth st (try_admit (ss_unauth st) None).2) auth).2 src
        = (AuthAccepted uid key ap, st1, src', d) /\
      let negotiated := negotiate (ap_max_plaintext ap) (wrap 32 (ss_max_plaintext st)) in
      fb_conn c = ss_conn_seq st /\ ss_conns st' = {[ss_conn_seq st]} ∪ ss_conns st /\
      fe_cipher (fb_encoder c) = cipher_new (derive_session_key key (ap_salt ap)) /\
      fe_limit (fb_encoder c) = negotiated /\ fd_limit (fb_decoder c) = negotiated /\
      map of_payload (fb_queue c) = [le_bytes 4 (wrap 32 negotiated)]
  | FbDisguise => ss_conns st' = ss_conns st /\ ss_heap st' = ss_heap st
  | FbUpgradedClosed => False
  end.
Proof. apply api_handler_spec. Qed.

(** The WebSocket variant hides itself the same way: before the upgrade
    every refused request gets the landing page, after it a refused channel is
    closed without a message; no connection is added and the slot is
    returned. *)
Theorem fallback_ws_stealth tm st auth upgrade src r st' :
  0 <= ug_global (ss_unauth st) < 2 ^ 64 - 1 -> ws_handler tm st auth upgrade src = (r, st') ->
  ss_unauth st' = ss_unauth st /\
  match r with
  | FbChannelOpen c => (bearer_ok (ft_bearer1 tm) (ft_bearer2 tm) st auth).1 = true /\ upgrade = true /\
      fb_conn c = ss_conn_seq st /\ ss_conns st' = {[ss_conn_seq st]} ∪ ss_conns st
  | FbDisguise => ((bearer_ok (ft_bearer1 tm) (ft_bearer2 tm) st auth).1 = false \/ upgrade = false) /\
      ss_conns st' = ss_conns st /\ ss_heap st' = ss_heap st
  | FbUpgradedClosed => ss_conns st' = ss_conns st /\ ss_heap st' = ss_heap st
  end.
Proof.
  intros Hg; unfold ws_handler, fb_in_band. pose proof (gate_roundtrip (ss_unauth st) Hg) as Hr.
  pose proof (bearer_same (ft_bearer1 tm) (ft_bearer2 tm) st auth) as [m Hb].
  destruct (bearer_ok _ _ st auth) as [[] st1] eqn:Eb; cbn [fst snd] in *; [|intros; simplify_eq; auto].
  subst st1. destruct upgrade; cbn [negb]; [|intros; simplify_eq; auto].
  change (ss_unauth (set_nonces st m)) with (ss_unauth st).
  destruct (try_admit (ss_unauth st) None) as [[] g] eqn:Eg; [|intros; simplify_eq; auto].
  pose proof (read_auth_same (ft_auth1 tm) (ft_auth2 tm) (set_unauth (set_nonces st m) g) src) as Ha.
  destruct (read_auth _ _ _ src) as [[[o st2] src'] d] eqn:Er; destruct Ha as [m' Ha].
  destruct o as [uid key ap|c s|]; [|intros; simplify_eq; cbn; split_and!; auto..].
  pose proof (spawn_spec (ft_now_ms tm) (release_guard st2) uid key ap d
    (negotiate (ap_max_plaintext ap) (wrap 32 (ss_max_plaintext st2)))) as Hs.
  destruct (spawn_mode_a_channel _ _ _ _ _ _ _) as [c st3]; intros; simplify_eq; cbn in Hs.
  destruct Hs as (-> & ? & ? & _); cbn; split_and!; auto.
Qed.

End channel.

(** ** Witnesses *)

Module WebWitness.

Definition times : FbTimes := {|
  ft_bearer1 := 1700000001; ft_bearer2 := 1700000001; ft_auth1 := 1700000002; ft_auth2 := 1700000002; ft_now_ms := 0 |}.
Definition bearer : bytes :=
  str "Bearer " ++ make_bearer HandshakeWitness.key HandshakeWitness.uid 1700000000 (replicate 16 5).

Lemma fallback_stealth_witness : exists c st',
  api_handler times HandshakeWitness.server (Some bearer) [Ok HandshakeWitness.wire] = (FbChannelOpen c, st') /\
  ss_conns st' = {[1]} ∪ ∅ /\ ss_unauth st' = ss_unauth HandshakeWitness.server.
Proof.
  destruct (api_handler times HandshakeWitness.server (Some bearer) [Ok HandshakeWitness.wire]) as [r st'] eqn:E.
  pose proof (fallback_stealth times HandshakeWitness.server (Some bearer) [Ok HandshakeWitness.wire] r st'
    ltac:(vm_compute; split; [discriminate|reflexivity]) E) as [Hu H].
  destruct r as [|c|].
  - exfalso. apply (f_equal fst) in E. vm_compute in E. discriminate.
  - destruct H as (_ & st1 & u & k & ap & s & d & _ & _ & Hc & _). eauto.
  - destruct H.
Defined.

Lemma fallback_ws_stealth_witness :
  ss_conns (ws_handler times HandshakeWitness.server (Some bearer) false []).2 = ∅.
Proof.
  destruct (ws_handler times HandshakeWitness.server (Some bearer) false []) as [r st'] eqn:E.
  pose proof (fallback_ws_stealth times HandshakeWitness.server (Some bearer) false [] r st'
    ltac:(vm_compute; split; [discriminate|reflexivity]) E) as [_ H].
  destruct r as [|c|]; cbn [snd].
  - destruct H as (_ & H & _). exact H.
  - destruct H as (_ & H & _). discriminate.
  - destruct H as [H _]. exact H.
Defined.

End WebWitness.
