(* ===== verification/Egress.v ===== *)
(** * Egress policy and dialing: [server/hub.rs], first part

    Which targets the server may connect to, name resolution with its cache,
    and the dial of a TCP target. Name lookup and connecting are the
    environment's: arguments of the definitions. *)

From S2P Require Import Prelude Bytes Crypto Frame Net Ip Addr Limit State.

(** [proto::mux::OpenError]. *)
Inductive OpenError := DialFailed | OLimit | BadTarget | Denied.

#[global] Instance OpenError_eq_dec : EqDecision OpenError.
Proof. solve_decision. Defined.

(** ** Address classes of [std::net] *)

Definition oct (o : bytes) (i : nat) : Z := nth i o 0.

Definition v4_is_unspecified (o : bytes) : bool := (oct o 0 =? 0) && (oct o 1 =? 0) && (oct o 2 =? 0) && (oct o 3 =? 0).
Definition v4_is_loopback (o : bytes) : bool := oct o 0 =? 127.
Definition v4_is_private (o : bytes) : bool :=
  (oct o 0 =? 10) || ((oct o 0 =? 172) && in_rng 16 31 (oct o 1)) || ((oct o 0 =? 192) && (oct o 1 =? 168)).
Definition v4_is_link_local (o : bytes) : bool := (oct o 0 =? 169) && (oct o 1 =? 254).
Definition v4_is_multicast (o : bytes) : bool := in_rng 224 239 (oct o 0).
Definition v4_is_broadcast (o : bytes) : bool :=
  (oct o 0 =? 255) && (oct o 1 =? 255) && (oct o 2 =? 255) && (oct o 3 =? 255).

(** [Ipv6Addr::segments]. *)
Definition seg (o : bytes) (i : nat) : Z := 256 * oct o (2 * i) + oct o (2 * i + 1).

Definition segs_zero (o : bytes) (i j : nat) : bool := forallb (fun k => seg o k =? 0) (seq i (j - i)).

Definition v6_is_unspecified (o : bytes) : bool := segs_zero o 0 8.
Definition v6_is_loopback (o : bytes) : bool := segs_zero o 0 7 && (seg o 7 =? 1).
Definition v6_is_multicast (o : bytes) : bool := oct o 0 =? 255.

(** ** The policy *)

(** The IPv4 address in the two segments [hi], [lo]. *)
Definition seg_v4 (hi lo : Z) : bytes :=
  [wrap 8 (Z.shiftr hi 8); wrap 8 hi; wrap 8 (Z.shiftr lo 8); wrap 8 lo].

Definition embedded_ipv4 (o : bytes) : option bytes :=
  if segs_zero o 0 5 && (seg o 5 =? 65535) then Some (seg_v4 (seg o 6) (seg o 7))
  else if segs_zero o 0 4 && (seg o 4 =? 65535) && (seg o 5 =? 0) then Some (seg_v4 (seg o 6) (seg o 7))
  else if segs_zero o 0 6 then Some (seg_v4 (seg o 6) (seg o 7))
  else if (seg o 0 =? 100) && (seg o 1 =? 65435) && segs_zero o 2 6 then Some (seg_v4 (seg o 6) (seg o 7))
  else if seg o 0 =? 8194 then Some (seg_v4 (seg o 1) (seg o 2))
  else None.

Definition v4_public (o : bytes) : bool :=
  negb (v4_is_unspecified o) && negb (v4_is_loopback o) && negb (v4_is_private o)
  && negb (v4_is_link_local o) && negb (v4_is_multicast o) && negb (v4_is_broadcast o)
  && (negb (oct o 0 =? 0)
      && negb (Z.land (oct o 0) 240 =? 240)
      && negb ((oct o 0 =? 100) && in_rng 64 127 (oct o 1))
      && negb ((oct o 0 =? 192) && (oct o 1 =? 0) && (oct o 2 =? 0))
      && negb ((oct o 0 =? 192) && (oct o 1 =? 0) && (oct o 2 =? 2))
      && negb ((oct o 0 =? 198) && (oct o 1 =? 18))
      && negb ((oct o 0 =? 198) && (oct o 1 =? 19))
      && negb ((oct o 0 =? 198) && (oct o 1 =? 51) && (oct o 2 =? 100))
      && negb ((oct o 0 =? 203) && (oct o 1 =? 0) && (oct o 2 =? 113))).

Definition v6_public (o : bytes) : bool :=
  match embedded_ipv4 o with
  | Some v4 => v4_public v4
  | None =>
    negb (v6_is_unspecified o) && negb (v6_is_loopback o) && negb (v6_is_multicast o)
    && negb (Z.land (seg o 0) 65024 =? 64512)
    && negb (Z.land (seg o 0) 65472 =? 65152)
    && negb ((seg o 0 =? 8193) && (seg o 1 =? 3512))
    && negb ((seg o 0 =? 8193) && (seg o 1 =? 0))
    && negb ((seg o 0 =? 8193) && ((Z.land (seg o 1) 65520 =? 16) || (Z.land (seg o 1) 65520 =? 32)))
    && negb ((seg o 0 =? 256) && segs_zero o 1 4)
  end.

Definition is_public_target (a : SocketAddr) : bool :=
  match sa_ip a with IpV4 o => v4_public o | IpV6 o => v6_public o end.

(** ** Resolution and dialing *)

Section dial.

(** [lookup_host] under its timeout: [None] for a failure or a timeout. *)
Context (lookup_host : bytes -> Z -> option (list SocketAddr)).

Definition resolve_target (host : bytes) (port : Z) (allow_private : bool) : result OpenError (list SocketAddr) :=
  let? addrs := match parse_ip host with
                | Some ip => Ok [ {| sa_ip := ip; sa_port := port |} ]
                | None => ok_or (lookup_host host port) DialFailed
                end in
  let addrs := List.filter (fun a => allow_private || is_public_target a) addrs in
  if bool_decide (addrs = []) then Err Denied else Ok addrs.

(** The connect loop: [connect] gives, for each attempt, [Some] socket,
    or [None] for a failed attempt; [budget] is the number of attempts the
    timeout leaves room for. Returns the socket and the addresses tried. *)
Fixpoint connect_loop {Sock} (connect : SocketAddr -> option Sock) (budget : nat) (addrs : list SocketAddr)
  : option Sock * list SocketAddr :=
  match budget, addrs with
  | O, _ => (None, [])
  | _, [] => (None, [])
  | S n, a :: t =>
    match connect a with
    | Some s => (Some s, [a])
    | None => let '(r, tried) := connect_loop connect n t in (r, a :: tried)
    end
  end.

Definition dial_target {Sock} (connect : SocketAddr -> option Sock) (budget : nat) (host : bytes) (port : Z)
  (allow_private : bool) : result OpenError Sock * list SocketAddr :=
  if bool_decide (host = []) || (255 <? len host) then (Err BadTarget, [])
  else match resolve_target host port allow_private with
       | Err e => (Err e, [])
       | Ok addrs =>
         let '(r, tried) := connect_loop connect budget addrs in
         (ok_or r DialFailed, tried)
       end.

Definition udp_dns_key (host : bytes) (port : Z) : bytes := lower host ++ [c_colon] ++ dec port.

Definition resolve_udp_target (dst : UdpAddr) (allow_private : bool) (st : ServerState) (now : Z)
  : result OpenError SocketAddr * ServerState :=
  let literal a := if allow_private || is_public_target a then Ok a else Err Denied in
  match dst with
  | UV4 ip port => (literal {| sa_ip := IpV4 ip; sa_port := port |}, st)
  | UV6 ip port _ _ => (literal {| sa_ip := IpV6 ip; sa_port := port |}, st)
  | UDomain host port =>
    let key := udp_dns_key host port in
    match udp_dns_cached st key now with
    | Some a => (literal a, st)
    | None =>
      match (let? addrs := resolve_target host port allow_private in ok_or (head addrs) Denied) with
      | Err e => (Err e, st)
      | Ok a => (Ok a, udp_dns_store st key a now)
      end
    end
  end.

End dial.

(** ** The policy against the registry of special-purpose blocks *)

(** The 32-bit value of an IPv4 address and a CIDR block of it. *)
Definition v4_val (o : bytes) : Z := ((oct o 0 * 256 + oct o 1) * 256 + oct o 2) * 256 + oct o 3.
Definition in_block (v : Z) (b : Z * Z * Z * Z * Z) : bool :=
  let '(a, b, c, d, n) := b in
  let base := ((a * 256 + b) * 256 + c) * 256 + d in
  (base <=? v) && (v <? base + 2 ^ (32 - n)).

(** Special-purpose IPv4 blocks: this network, private, shared address space,
    loopback, link-local, protocol assignments, documentation, benchmarking,
    multicast, reserved. *)
Definition v4_special : list (Z * Z * Z * Z * Z) :=
  [ (0, 0, 0, 0, 8); (10, 0, 0, 0, 8); (100, 64, 0, 0, 10); (127, 0, 0, 0, 8); (169, 254, 0, 0, 16);
    (172, 16, 0, 0, 12); (192, 0, 0, 0, 24); (192, 0, 2, 0, 24); (192, 168, 0, 0, 16);
    (198, 18, 0, 0, 15); (198, 51, 100, 0, 24); (203, 0, 113, 0, 24); (224, 0, 0, 0, 4); (240, 0, 0, 0, 4) ].

(** The IPv6 forms that carry an IPv4 address [v], and the 6to4 prefix of it. *)
Definition v6_embed (prefix : bytes) (v : bytes) : bytes := prefix ++ v.
Definition embed_prefixes : list bytes :=
  [ replicate 10 0 ++ [255; 255]; replicate 8 0 ++ [255; 255; 0; 0]; replicate 12 0;
    [0; 100; 255; 155] ++ replicate 8 0 ].
Definition v6_6to4 (v rest : bytes) : bytes := [32; 2] ++ v ++ rest.

Lemma land240 x : is_byte x -> (Z.land x 240 =? 240) = (240 <=? x).
Proof.
  intros Hx. assert (Hall : Forall (fun x => (Z.land x 240 =? 240) = (240 <=? x)) (map Z.of_nat (seq 0 256))).
  { apply (bool_decide_unpack _). vm_compute. exact I. }
  rewrite Forall_forall in Hall; apply Hall. unfold is_byte in Hx.
  apply list_elem_of_In, in_map_iff. exists (Z.to_nat x); split; [lia|]. apply in_seq; lia.
Qed.

Lemma seg_bytes a b : is_byte a -> is_byte b ->
  wrap 8 (Z.shiftr (256 * a + b) 8) = a /\ wrap 8 (256 * a + b) = b.
Proof.
  unfold is_byte, wrap; intros; rewrite Z.shiftr_div_pow2 by lia; change (2 ^ 8) with 256.
  rewrite <- (Z.div_unique (256 * a + b) 256 a b) by lia.
  split; [apply Z.mod_small; lia|]. symmetry; apply (Z.mod_unique _ _ a); lia.
Qed.

Lemma seg_v4_octets a b c d : wf_bytes [a; b; c; d] -> seg_v4 (256 * a + b) (256 * c + d) = [a; b; c; d].
Proof.
  intros H; repeat (apply wf_bytes_cons in H as [? H]); unfold seg_v4.
  destruct (seg_bytes a b) as [-> ->]; [done..|]. by destruct (seg_bytes c d) as [-> ->].
Qed.

(** Membership in a block is a test on the leading octets. *)
Lemma block8 v a b c d n : wf_bytes [a; b; c; d] -> v = v4_val [a; b; c; d] ->
  in_block v (n, 0, 0, 0, 8) = (a =? n).
Proof.
  intros H ->; repeat (apply wf_bytes_cons in H as [? H]); unfold is_byte in *.
  unfold in_block, v4_val, oct; cbn [nth]. change (2 ^ (32 - 8)) with 16777216. lia.
Qed.
Lemma block4 v a b c d n : wf_bytes [a; b; c; d] -> v = v4_val [a; b; c; d] ->
  in_block v (n, 0, 0, 0, 4) = (n <=? a) && (a <=? n + 15).
Proof.
  intros H ->; repeat (apply wf_bytes_cons in H as [? H]); unfold is_byte in *.
  unfold in_block, v4_val, oct; cbn [nth]. change (2 ^ (32 - 4)) with 268435456. lia.
Qed.
Lemma block_b v a b c d n m k : wf_bytes [a; b; c; d] -> v = v4_val [a; b; c; d] ->
  0 <= m -> 8 < k <= 16 -> m + 2 ^ (16 - k) <= 256 ->
  in_block v (n, m, 0, 0, k) = (a =? n) && (m <=? b) && (b <? m + 2 ^ (16 - k)).
Proof.
  intros H -> Hm Hk Hb; repeat (apply wf_bytes_cons in H as [? H]); unfold is_byte in *.
  unfold in_block, v4_val, oct; cbn [nth].
  replace (32 - k) with (16 + (16 - k)) by lia. rewrite Z.pow_add_r by lia. change (2 ^ 16) with 65536.
  pose proof (Z.pow_pos_nonneg 2 (16 - k)). lia.
Qed.
Lemma block24 v a b c d n m l : wf_bytes [a; b; c; d] -> v = v4_val [a; b; c; d] ->
  is_byte m -> is_byte l ->
  in_block v (n, m, l, 0, 24) = (a =? n) && (b =? m) && (c =? l).
Proof.
  intros H -> Hm Hl; repeat (apply wf_bytes_cons in H as [? H]); unfold is_byte in *.
  unfold in_block, v4_val, oct; cbn [nth]. change (2 ^ (32 - 24)) with 256. lia.
Qed.

Lemma v4_tests a b c d : wf_bytes [a; b; c; d] ->
  v4_public [a; b; c; d] = negb (existsb (in_block (v4_val [a; b; c; d])) v4_special).
Proof.
  intros H. cbn [existsb v4_special].
  rewrite !(block8 _ a b c d), !(block4 _ a b c d), !(block24 _ a b c d) by (done || unfold is_byte; lia).
  rewrite !(block_b _ a b c d) by (done || lia).
  repeat (apply wf_bytes_cons in H as [? H]).
  unfold v4_public. change (oct [a; b; c; d] 0) with a. rewrite land240 by done.
  unfold is_byte, v4_is_unspecified, v4_is_loopback, v4_is_private, v4_is_link_local, v4_is_multicast,
    v4_is_broadcast, oct, in_rng in *; cbn [nth].
  change (16 - 10) with 6; change (16 - 16) with 0; change (16 - 12) with 4; change (16 - 15) with 1.
  change (2 ^ 6) with 64; change (2 ^ 0) with 1; change (2 ^ 4) with 16; change (2 ^ 1) with 2.
  repeat match goal with |- context [a =? ?k] =>
    destruct (Z.eqb_spec a k) as [->|]; [cbn [Z.eqb Z.leb Z.compare Pos.compare Pos.compare_cont Pos.eqb andb orb negb]; lia|] end.
  cbn [andb orb negb]. lia.
Qed.

Lemma v4_shape (o : bytes) : length o = 4%nat -> exists a b c d, o = [a; b; c; d].
Proof. intros H; do 5 (destruct o as [|? o]; try done). eauto. Qed.

Lemma v4_public_eq v : ip_wf (IpV4 v) ->
  v4_public v = negb (existsb (in_block (v4_val v)) v4_special).
Proof. intros [Hw Hl]; destruct (v4_shape v Hl) as (a & b & c & d & ->). by apply v4_tests. Qed.

(** Resolution returns only addresses the policy allows. *)
Lemma resolve_target_allowed lh host port allow addrs : resolve_target lh host port allow = Ok addrs ->
  addrs <> [] /\ Forall (fun a => allow || is_public_target a = true) addrs.
Proof.
  unfold resolve_target; intros H; rinv. destruct (bool_decide_reflect (List.filter (fun a => allow || is_public_target a) x = [])) as [|Hne]; [done|].
  rinv; subst. split; [done|]. apply Forall_forall; intros a [_ Ha]%list_elem_of_In%List.filter_In. done.
Qed.

Lemma connect_loop_tried {Sock} (connect : SocketAddr -> option Sock) n addrs (Q : SocketAddr -> Prop) :
  Forall Q addrs -> Forall Q (connect_loop connect n addrs).2.
Proof.
  intros H; revert n; induction H as [|a l Ha Hl IH]; intros [|n]; cbn; try constructor.
  destruct (connect a); [by repeat constructor|]. specialize (IH n); destruct (connect_loop connect n l); by constructor.
Qed.

Lemma connect_loop_first {Sock} (connect : SocketAddr -> option Sock) n addrs s :
  (connect_loop connect n addrs).1 = Some s ->
  exists a, connect a = Some s /\ a ∈ addrs.
Proof.
  revert n; induction addrs as [|a l IH]; intros [|n]; cbn; try done.
  destruct (connect a) as [s'|] eqn:E; [intros [= <-]; exists a; split; [done|by left]|].
  specialize (IH n); destruct (connect_loop connect n l) as [r tried]; cbn [fst snd] in *.
  intros Hr; destruct (IH Hr) as (b & Hc & Hin). exists b; split; [done|by right].
Qed.

(** ** Properties *)

(** The IPv4 policy is exact: an address is public if and only if it lies
    in none of the special-purpose blocks. *)
Theorem v4_policy_exact o port : ip_wf (IpV4 o) ->
  is_public_target {| sa_ip := IpV4 o; sa_port := port |} = negb (existsb (in_block (v4_val o)) v4_special).
Proof. apply v4_public_eq. Qed.

(** An IPv4 address cannot be smuggled in an IPv6 one: its mapped,
    translated, compatible, NAT64 and 6to4 forms get exactly its verdict. *)
Theorem embedded_policy v rest : ip_wf (IpV4 v) -> length rest = 10%nat ->
  (forall p port, p ∈ embed_prefixes ->
     is_public_target {| sa_ip := IpV6 (v6_embed p v); sa_port := port |}
     = is_public_target {| sa_ip := IpV4 v; sa_port := port |})
  /\ forall port, is_public_target {| sa_ip := IpV6 (v6_6to4 v rest); sa_port := port |}
     = is_public_target {| sa_ip := IpV4 v; sa_port := port |}.
Proof.
  intros [Hw Hl] Hr; destruct (v4_shape v Hl) as (a & b & c & d & ->).
  pose proof (seg_v4_octets a b c d Hw) as Hs.
  split.
  - intros p port Hp. unfold is_public_target; cbn [sa_ip]; unfold v6_public.
    replace (embedded_ipv4 (v6_embed p [a; b; c; d])) with (Some [a; b; c; d]); [done|].
    rewrite <- (f_equal Some Hs); unfold embed_prefixes in Hp.
    repeat (apply elem_of_cons in Hp as [->|Hp]); try (by apply elem_of_nil in Hp); reflexivity.
  - intros port. unfold is_public_target; cbn [sa_ip]; unfold v6_public.
    replace (embedded_ipv4 (v6_6to4 [a; b; c; d] rest)) with (Some [a; b; c; d]); [done|].
    rewrite <- (f_equal Some Hs). do 10 (destruct rest as [|? rest]; [done|]). reflexivity.
Qed.

(** The policy admits two IPv6 ranges that are not public: the deprecated
    site-local prefix [fec0::/10] and the local-use translation prefix
    [64:ff9b:1::/48], whatever the rest of the address. *)
Theorem v6_policy_gap port rest : length rest = 10%nat ->
  is_public_target {| sa_ip := IpV6 ([254; 192; 0; 0; 0; 0] ++ rest); sa_port := port |} = true
  /\ is_public_target {| sa_ip := IpV6 ([0; 100; 255; 155; 0; 1] ++ rest); sa_port := port |} = true.
Proof. intros Hr; do 10 (destruct rest as [|? rest]; [done|]). split; reflexivity. Qed.


(** A UDP datagram is only ever sent to a public address when private
    targets are disallowed, even if the name cache holds a private one. *)
Theorem udp_target_only_public lh dst st now a st' :
  resolve_udp_target lh dst false st now = (Ok a, st') -> is_public_target a = true.
Proof.
  unfold resolve_udp_target; cbn [orb]. destruct dst as [ip p|ip p fl sc|h p].
  1,2: destruct (is_public_target _) eqn:E; intros; simplify_eq; done.
  destruct (udp_dns_cached st (udp_dns_key h p) now) as [c|].
  - destruct (is_public_target c) eqn:E; intros; simplify_eq; done.
  - destruct (resolve_target lh h p false) as [addrs|e] eqn:E; cbn [rbind]; [|done].
    apply resolve_target_allowed in E as [_ Ha]. destruct addrs as [|x l]; cbn [head ok_or]; [done|].
    intros; simplify_eq. by apply Forall_cons in Ha as [? _].
Qed.

(** ** Witnesses *)

Module EgressWitness.

Lemma v4_policy_exact_witness :
  is_public_target {| sa_ip := IpV4 [172; 31; 0; 1]; sa_port := 80 |} = false
  /\ is_public_target {| sa_ip := IpV4 [172; 32; 0; 1]; sa_port := 80 |}
     = negb (existsb (in_block (v4_val [172; 32; 0; 1])) v4_special).
Proof.
  split; [reflexivity|]. apply (v4_policy_exact [172; 32; 0; 1] 80).
  apply (bool_decide_unpack _); vm_compute; exact I.
Defined.

Lemma embedded_policy_witness : forall port,
  is_public_target {| sa_ip := IpV6 (v6_6to4 [127; 0; 0; 1] (replicate 10 0)); sa_port := port |} = false.
Proof.
  apply (embedded_policy [127; 0; 0; 1] (replicate 10 0)); [|reflexivity].
  apply (bool_decide_unpack _); vm_compute; exact I.
Defined.

Lemma v6_policy_gap_witness :
  is_public_target {| sa_ip := IpV6 ([254; 192; 0; 0; 0; 0] ++ replicate 10 1); sa_port := 80 |} = true
  /\ is_public_target {| sa_ip := IpV6 ([0; 100; 255; 155; 0; 1] ++ replicate 10 1); sa_port := 80 |} = true.
Proof. apply (v6_policy_gap 80 (replicate 10 1)); reflexivity. Defined.

(** A name that resolves to a private and a public address. *)
Definition lookup (h : bytes) (p : Z) : option (list SocketAddr) :=
  Some [ {| sa_ip := IpV4 [10; 0; 0; 1]; sa_port := p |}; {| sa_ip := IpV4 [8; 8; 8; 8]; sa_port := p |} ].
Definition st : ServerState := {|
  ss_static_keys := ∅; ss_conns := ∅; ss_heap := ∅; ss_tokens := tk_empty; ss_conn_seq := 1;
  ss_active_sessions := 0; ss_max_sessions := 1; ss_rate_mbps := 0; ss_rates := ∅; ss_idle := 0;
  ss_allow_private_targets := false; ss_unauth := ug_new 1 1; ss_seen_nonces := ∅; ss_path := [];
  ss_max_plaintext := 16384;
  ss_udp_dns := ∅; ss_udp_dns_ttl := 10 |}.

Lemma udp_target_only_public_witness :
  is_public_target {| sa_ip := IpV4 [8; 8; 8; 8]; sa_port := 53 |} = true.
Proof.
  eapply (udp_target_only_public lookup (UDomain (str "dns.example") 53) st 0).
  vm_compute; reflexivity.
Defined.

End EgressWitness.
