(* ===== verification/Mux.v ===== *)
(** * Session multiplexing: [proto/mux.rs]

    Frame sinks, the client multiplexer (sid allocation, pending opens, data
    routing) and the server's frame handler against the [ServerHooks]
    interface. Channels are FIFO queues with a flag for a live receiver; a
    bounded queue's back pressure only delays a send, so a send is an append. *)

From S2P Require Import Prelude Bytes Crypto Frame Addr Net Limit State Egress.

(** ** Open errors on the wire *)

Definition to_code (e : OpenError) : Z :=
  match e with
  | DialFailed => OPEN_ERR_DIAL | OLimit => OPEN_ERR_LIMIT
  | BadTarget => OPEN_ERR_BAD_TARGET | Denied => OPEN_ERR_DENIED
  end.

Definition from_code (c : Z) : OpenError :=
  if c =? OPEN_ERR_DIAL then DialFailed
  else if c =? OPEN_ERR_LIMIT then OLimit
  else if c =? OPEN_ERR_BAD_TARGET then BadTarget
  else Denied.

Definition tag (e : OpenError) : bytes :=
  match e with
  | DialFailed => str "dial-failed" | OLimit => str "session-limit"
  | BadTarget => str "bad-target" | Denied => str "private-target-denied"
  end.

Definition code_to_open_error (payload : bytes) : OpenError := from_code (default 0 (head payload)).

Definition out (t : FrameType) (flags sid : Z) (payload : bytes) : OutFrame :=
  {| of_ftype := t; of_flags := flags; of_sid := sid; of_payload := payload |}.

(** ** Frame sinks *)

Section sink.
Context {P : Prims}.

(** [Chan]: a queue into a writer task. [Datagram]: the datagram encoder and
    the fallback queue. *)
Inductive FrameSink := SChan | SDatagram (enc : FrameEncoder).

(** The sink's queue (capacity [sq_cap], a live receiver) and the datagrams it
    sent. *)
Record SinkState := { sq_queue : list OutFrame; sq_cap : Z; sq_open : bool; sq_sent : list bytes }.

Definition sq_push (s : SinkState) (f : OutFrame) : SinkState :=
  {| sq_queue := sq_queue s ++ [f]; sq_cap := sq_cap s; sq_open := sq_open s; sq_sent := sq_sent s |}.
Definition sq_datagram (s : SinkState) (w : bytes) : SinkState :=
  {| sq_queue := sq_queue s; sq_cap := sq_cap s; sq_open := sq_open s; sq_sent := sq_sent s ++ [w] |}.

(** [tx.send(f).await]: waits for room, so only a closed queue fails. *)
Definition chan_send (s : SinkState) (f : OutFrame) : result msg unit * SinkState :=
  if sq_open s then (Ok tt, sq_push s f) else (Err "sink closed", s).

(** [tx.try_send(f)]. *)
Definition chan_try_send (s : SinkState) (f : OutFrame) : bool * SinkState :=
  if sq_open s && (len (sq_queue s) <? sq_cap s) then (true, sq_push s f) else (false, s).

(** [max] is [max_datagram_size()] and [dg_ok] the outcome of [send_datagram]. *)
Definition sink_send (max : option Z) (dg_ok : bool) (sink : FrameSink) (s : SinkState) (t : FrameType)
  (flags sid : Z) (payload : bytes) : result msg unit * FrameSink * SinkState :=
  match sink with
  | SChan => let '(r, s') := chan_send s (out t flags sid payload) in (r, sink, s')
  | SDatagram enc =>
    match encode enc t flags sid payload with
    | (Err e, enc') => (Err e, SDatagram enc', s)
    | (Ok wire, enc') =>
      if (len wire <=? default 0 max) && dg_ok then (Ok tt, SDatagram enc', sq_datagram s wire)
      else let '(r, s') := chan_send s (out t flags sid payload) in (r, SDatagram enc', s')
    end
  end.

Definition try_send_lossy (max : option Z) (dg_ok : bool) (sink : FrameSink) (s : SinkState) (t : FrameType)
  (flags sid : Z) (payload : bytes) : bool * FrameSink * SinkState :=
  if MAX_PLAINTEXT_CAP <? len payload then (false, sink, s)
  else match sink with
       | SChan => let '(r, s') := chan_try_send s (out t flags sid payload) in (r, sink, s')
       | SDatagram enc =>
         match encode enc t flags sid payload with
         | (Err _, enc') => (false, SDatagram enc', s)
         | (Ok wire, enc') =>
           if (len wire <=? default 0 max) && dg_ok then (true, SDatagram enc', sq_datagram s wire)
           else let '(r, s') := chan_try_send s (out t flags sid payload) in (r, SDatagram enc', s')
         end
       end.

End sink.

(** ** The client multiplexer *)

(** A channel: whether its receiver is alive, and what was sent. *)
Record Chan (A : Type) := { ch_alive : bool; ch_sent : list A }.
Arguments ch_alive {A}. Arguments ch_sent {A}.

(** [tx.send(x).await]. *)
Definition ch_send {A} (c : Chan A) (x : A) : bool * Chan A :=
  if ch_alive c then (true, {| ch_alive := true; ch_sent := ch_sent c ++ [x] |}) else (false, c).

(** The routing tables map sids to channels and waiters by number; the objects
    live in [mx_tcp], [mx_dgram] and [mx_replies] (the outcome a oneshot
    delivered), since their receivers outlive the table entries. *)
Record MuxInner := {
  mx_cmd : list OutFrame;
  mx_cmd_open : bool;
  mx_sessions : gmap Z nat;
  mx_udp : gmap Z nat;
  mx_pending_open : gmap Z nat;
  mx_pending_udp : gmap Z nat;
  mx_next_sid : Z;
  mx_closed : bool;
  mx_tcp : gmap nat (Chan bytes);
  mx_dgram : gmap nat (Chan (UdpAddr * bytes));
  mx_replies : gmap nat (result OpenError unit);
}.

Definition mx_set_routes (m : MuxInner) (s u : gmap Z nat) : MuxInner :=
  {| mx_cmd := mx_cmd m; mx_cmd_open := mx_cmd_open m; mx_sessions := s; mx_udp := u;
     mx_pending_open := mx_pending_open m; mx_pending_udp := mx_pending_udp m;
     mx_next_sid := mx_next_sid m; mx_closed := mx_closed m; mx_tcp := mx_tcp m;
     mx_dgram := mx_dgram m; mx_replies := mx_replies m |}.
Definition mx_set_pending (m : MuxInner) (po pu : gmap Z nat) (r : gmap nat (result OpenError unit)) : MuxInner :=
  {| mx_cmd := mx_cmd m; mx_cmd_open := mx_cmd_open m; mx_sessions := mx_sessions m; mx_udp := mx_udp m;
     mx_pending_open := po; mx_pending_udp := pu;
     mx_next_sid := mx_next_sid m; mx_closed := mx_closed m; mx_tcp := mx_tcp m;
     mx_dgram := mx_dgram m; mx_replies := r |}.
Definition mx_set_chans (m : MuxInner) (t : gmap nat (Chan bytes)) (d : gmap nat (Chan (UdpAddr * bytes))) : MuxInner :=
  {| mx_cmd := mx_cmd m; mx_cmd_open := mx_cmd_open m; mx_sessions := mx_sessions m; mx_udp := mx_udp m;
     mx_pending_open := mx_pending_open m; mx_pending_udp := mx_pending_udp m;
     mx_next_sid := mx_next_sid m; mx_closed := mx_closed m; mx_tcp := t; mx_dgram := d;
     mx_replies := mx_replies m |}.
Definition mx_set_misc (m : MuxInner) (cmd : list OutFrame) (next : Z) (closed : bool) : MuxInner :=
  {| mx_cmd := cmd; mx_cmd_open := mx_cmd_open m; mx_sessions := mx_sessions m; mx_udp := mx_udp m;
     mx_pending_open := mx_pending_open m; mx_pending_udp := mx_pending_udp m;
     mx_next_sid := next; mx_closed := closed; mx_tcp := mx_tcp m;
     mx_dgram := mx_dgram m; mx_replies := mx_replies m |}.

(** [cmd_tx.send(f).await]. *)
Definition cmd_send (m : MuxInner) (f : OutFrame) : bool * MuxInner :=
  if mx_cmd_open m then (true, mx_set_misc m (mx_cmd m ++ [f]) (mx_next_sid m) (mx_closed m)) else (false, m).

(** The loop of [alloc_sid] from counter value [v]; [None] when [fuel] runs out. *)
Fixpoint alloc_loop (fuel : nat) (taken : Z -> bool) (v : Z) : option (Z * Z) :=
  match fuel with
  | O => None
  | S n => if negb (v =? 0) && negb (taken v) then Some (v, wrap 32 (v + 1))
           else alloc_loop n taken (wrap 32 (v + 1))
  end.

Definition sid_taken (m : MuxInner) (v : Z) : bool :=
  bool_decide (is_Some (mx_sessions m !! v)) || bool_decide (is_Some (mx_udp m !! v)).

(** Enough fuel for the registered sids and zero. *)
Definition alloc_fuel (m : MuxInner) : nat := size (mx_sessions m) + size (mx_udp m) + 2.

Definition alloc_sid (m : MuxInner) : option (Z * MuxInner) :=
  match alloc_loop (alloc_fuel m) (sid_taken m) (mx_next_sid m) with
  | Some (v, next) => Some (v, mx_set_misc m (mx_cmd m) next (mx_closed m))
  | None => None
  end.

Definition teardown_all (m : MuxInner) : MuxInner :=
  mx_set_pending (mx_set_routes (mx_set_misc m (mx_cmd m) (mx_next_sid m) true) ∅ ∅) ∅ ∅ (mx_replies m).

(** [open_tcp] up to the wait for the reply: [ch] is the new data channel and
    [wt] the new oneshot. *)
Definition open_tcp_start (m : MuxInner) (host : bytes) (port : Z) (ch wt : nat) : result msg Z * MuxInner :=
  if bool_decide (host = []) || (255 <? len host) then (Err "invalid host", m)
  else match alloc_sid m with
       | None => (Err "no free sid", m)
       | Some (sid, m) =>
         let m := mx_set_chans m (<[ch := {| ch_alive := true; ch_sent := [] |}]> (mx_tcp m)) (mx_dgram m) in
         let m := mx_set_routes m (<[sid := ch]> (mx_sessions m)) (mx_udp m) in
         let m := mx_set_pending m (<[sid := wt]> (mx_pending_open m)) (mx_pending_udp m) (mx_replies m) in
         match cmd_send m (out FOpen 0 sid (encode_open host port)) with
         | (true, m) => (Ok sid, m)
         | (false, m) =>
           let m := mx_set_routes m (delete sid (mx_sessions m)) (mx_udp m) in
           (Err "mux channel closed",
            mx_set_pending m (delete sid (mx_pending_open m)) (mx_pending_udp m) (mx_replies m))
         end
       end.

(** The rest of [open_tcp]: [None] is the timeout or a dropped oneshot. *)
Definition open_tcp_finish (m : MuxInner) (sid : Z) (reply : option (result OpenError unit))
  : result msg unit * MuxInner :=
  let drop_route m := mx_set_routes m (delete sid (mx_sessions m)) (mx_udp m) in
  match reply with
  | None =>
    (Err "no reply from server",
     mx_set_pending (drop_route m) (delete sid (mx_pending_open m)) (mx_pending_udp m) (mx_replies m))
  | Some (Err _) => (Err "open_tcp", drop_route m)
  | Some (Ok _) => (Ok tt, m)
  end.

(** [udp_associate], both halves. *)
Definition udp_associate_start (m : MuxInner) (ch wt : nat) : result msg Z * MuxInner :=
  match alloc_sid m with
  | None => (Err "no free sid", m)
  | Some (sid, m) =>
    let m := mx_set_chans m (mx_tcp m) (<[ch := {| ch_alive := true; ch_sent := [] |}]> (mx_dgram m)) in
    let m := mx_set_routes m (mx_sessions m) (<[sid := ch]> (mx_udp m)) in
    let m := mx_set_pending m (mx_pending_open m) (<[sid := wt]> (mx_pending_udp m)) (mx_replies m) in
    match cmd_send m (out FUdpAssociate 0 sid []) with
    | (true, m) => (Ok sid, m)
    | (false, m) =>
      let m := mx_set_routes m (mx_sessions m) (delete sid (mx_udp m)) in
      (Err "mux channel closed",
       mx_set_pending m (mx_pending_open m) (delete sid (mx_pending_udp m)) (mx_replies m))
    end
  end.

Definition udp_associate_finish (m : MuxInner) (sid : Z) (reply : option (result OpenError unit))
  : result msg unit * MuxInner :=
  let drop_route m := mx_set_routes m (mx_sessions m) (delete sid (mx_udp m)) in
  match reply with
  | None =>
    (Err "udp_associate: no reply",
     mx_set_pending (drop_route m) (mx_pending_open m) (delete sid (mx_pending_udp m)) (mx_replies m))
  | Some (Err _) => (Err "udp_associate", drop_route m)
  | Some (Ok _) => (Ok tt, m)
  end.

(** [if let Some((_, tx)) = pending.remove(&sid) { let _ = tx.send(r) }]. *)
Definition resolve_open (m : MuxInner) (sid : Z) (r : result OpenError unit) : option MuxInner :=
  match mx_pending_open m !! sid with
  | Some w => Some (mx_set_pending m (delete sid (mx_pending_open m)) (mx_pending_udp m) (<[w := r]> (mx_replies m)))
  | None => None
  end.
Definition resolve_udp (m : MuxInner) (sid : Z) (r : result OpenError unit) : option MuxInner :=
  match mx_pending_udp m !! sid with
  | Some w => Some (mx_set_pending m (mx_pending_open m) (delete sid (mx_pending_udp m)) (<[w := r]> (mx_replies m)))
  | None => None
  end.
Definition resolve_either (m : MuxInner) (sid : Z) (r : result OpenError unit) : MuxInner :=
  match resolve_open m sid r with
  | Some m' => m'
  | None => default m (resolve_udp m sid r)
  end.

Definition drop_tcp_route (m : MuxInner) (sid : Z) : MuxInner :=
  mx_set_routes m (delete sid (mx_sessions m)) (mx_udp m).

(** Data for [sid]: queued for its reader, or the route dropped when the
    reader is gone. *)
Definition route_data (m : MuxInner) (sid : Z) (payload : bytes) : MuxInner :=
  match mx_sessions m !! sid with
  | None => m
  | Some c =>
    match mx_tcp m !! c with
    | None => m
    | Some ch =>
      match ch_send ch payload with
      | (true, ch') => mx_set_chans m (<[c := ch']> (mx_tcp m)) (mx_dgram m)
      | (false, _) => drop_tcp_route m sid
      end
    end
  end.

Definition route_datagram (m : MuxInner) (sid : Z) (src : UdpAddr) (data : bytes) : MuxInner :=
  match mx_udp m !! sid with
  | None => m
  | Some c =>
    match mx_dgram m !! c with
    | None => m
    | Some ch => mx_set_chans m (mx_tcp m) (<[c := (ch_send ch (src, data)).2]> (mx_dgram m))
    end
  end.

Definition has_flag (flags flag : Z) : bool := negb (Z.land flags flag =? 0).

(** [handle_client_frame] (it never asks for a teardown). *)
Definition handle_client_frame (m : MuxInner) (f : Frame) : MuxInner :=
  match f_ftype f with
  | FOpenOk => default m (resolve_open m (f_sid f) (Ok tt))
  | FOpenErr => resolve_either m (f_sid f) (Err (code_to_open_error (f_payload f)))
  | FUdpOk => default m (resolve_udp m (f_sid f) (Ok tt))
  | FError => drop_tcp_route (resolve_either m (f_sid f) (Err (code_to_open_error (f_payload f)))) (f_sid f)
  | FData =>
    let m := route_data m (f_sid f) (f_payload f) in
    if has_flag (f_flags f) FLAG_FIN then drop_tcp_route m (f_sid f) else m
  | FClose => mx_set_routes m (delete (f_sid f) (mx_sessions m)) (delete (f_sid f) (mx_udp m))
  | FUdpData =>
    match ua_decode (rd_new (f_payload f)) with
    | Ok (src, r) => route_datagram m (f_sid f) src (fst (rest r))
    | Err _ => m
    end
  | FPing => (cmd_send m (out FPong 0 0 [])).2
  | _ => m
  end.

(** [run_client_reader] over the results of successive reads (the list's end is
    a reader still waiting). *)
Fixpoint run_client_reader (m : MuxInner) (reads : list (result msg (option Frame))) : MuxInner :=
  match reads with
  | [] => m
  | Ok (Some f) :: t => run_client_reader (handle_client_frame m f) t
  | Ok None :: _ | Err _ :: _ => teardown_all m
  end.

(** ** The server side *)

(** [trait ServerHooks]: what the mux loop asks of the server, over a world [W]
    of server state; an [async] method is its effect and result. *)
Class ServerHooks (W : Type) := {
  open_tcp : Z -> bytes -> Z -> W -> result OpenError unit * W;
  feed_tcp : Z -> bytes -> bool -> bool -> W -> W;
  close_tcp : Z -> bool -> W -> W;
  udp_associate : Z -> W -> result OpenError unit * W;
  udp_feed : Z -> UdpAddr -> bytes -> W -> W;
  hook_touch : Z -> W -> W;
}.

Section server.
Context {W : Type} {H : ServerHooks W}.

(** [handle_server_frame]: the frames it sends through the sink, in order. *)
Definition handle_server_frame (w : W) (f : Frame) : list OutFrame * W :=
  match f_ftype f with
  | FOpen =>
    match decode_open (f_payload f) with
    | Ok (host, port) =>
      match open_tcp (f_sid f) host port w with
      | (Ok _, w') => ([out FOpenOk 0 (f_sid f) []], w')
      | (Err e, w') => ([out FOpenErr 0 (f_sid f) [to_code e]], w')
      end
    | Err _ => ([out FOpenErr 0 (f_sid f) [to_code BadTarget]], w)
    end
  | FData =>
    let w := hook_touch (f_sid f) w in
    let fin := has_flag (f_flags f) FLAG_FIN in
    let rst := has_flag (f_flags f) FLAG_RST in
    ([], feed_tcp (f_sid f) (f_payload f) fin rst w)
  | FClose =>
    let rst := has_flag (f_flags f) FLAG_RST in
    let fin := has_flag (f_flags f) FLAG_FIN in
    if fin && negb rst then ([], feed_tcp (f_sid f) [] true false w)
    else ([], close_tcp (f_sid f) rst w)
  | FPing => ([out FPong 0 0 []], w)
  | FUdpAssociate =>
    match udp_associate (f_sid f) w with
    | (Ok _, w') => ([out FUdpOk 0 (f_sid f) []], w')
    | (Err e, w') => ([out FOpenErr 0 (f_sid f) [to_code e]], w')
    end
  | FUdpData =>
    match ua_decode (rd_new (f_payload f)) with
    | Ok (dst, r) => ([], udp_feed (f_sid f) dst (fst (rest r)) (hook_touch (f_sid f) w))
    | Err _ => ([], w)
    end
  | FError => ([], close_tcp (f_sid f) true w)
  | _ => ([], w)
  end.

(** ** The server loop, with its workers *)

Definition MAX_MUX_TASKS : Z := 32.

Definition is_concurrent (t : FrameType) : bool :=
  match t with FOpen | FUdpAssociate | FUdpData => true | _ => false end.

(** The loop's state: the hooks' world, the workers holding a permit (by the
    frame each handles), and the frames sent. *)
Record MuxLoop := { ml_world : W; ml_workers : list Frame; ml_sent : list OutFrame }.

Inductive mux_step : MuxLoop -> MuxLoop -> Prop :=
| ms_spawn l f : is_concurrent (f_ftype f) = true -> len (ml_workers l) < MAX_MUX_TASKS ->
    mux_step l {| ml_world := ml_world l; ml_workers := f :: ml_workers l; ml_sent := ml_sent l |}
| ms_inline l f fs w : is_concurrent (f_ftype f) = false -> handle_server_frame (ml_world l) f = (fs, w) ->
    mux_step l {| ml_world := w; ml_workers := ml_workers l; ml_sent := ml_sent l ++ fs |}
| ms_worker l f ws1 ws2 fs w : ml_workers l = ws1 ++ f :: ws2 -> handle_server_frame (ml_world l) f = (fs, w) ->
    mux_step l {| ml_world := w; ml_workers := ws1 ++ ws2; ml_sent := ml_sent l ++ fs |}.

End server.

(** ** Sid allocation lemmas *)

Lemma wrap_succ_neq v k j : 0 <= v < 2 ^ 32 -> (Z.of_nat k < 2 ^ 32) -> (j < k)%nat ->
  wrap 32 (v + Z.of_nat j) <> wrap 32 (v + Z.of_nat k).
Proof.
  unfold wrap; intros Hv Hk Hj E. change (2 ^ 32) with 4294967296 in *.
  apply (f_equal (fun x => (x - v) mod 4294967296)) in E.
  rewrite !Zminus_mod_idemp_l, !Z.add_simpl_l, !Z.mod_small in E by lia. lia.
Qed.

(** The [k] sids tried from [v]. *)
Definition tried (v : Z) (k : nat) : list Z := map (fun j => wrap 32 (v + Z.of_nat j)) (seq 0 k).

Lemma tried_nodup v k : 0 <= v < 2 ^ 32 -> Z.of_nat k <= 2 ^ 32 -> NoDup (tried v k).
Proof.
  intros Hv Hk; unfold tried. apply NoDup_fmap_2_strong; [|apply NoDup_seq].
  intros i j Hi%list_elem_of_In%in_seq Hj%list_elem_of_In%in_seq E.
  destruct (Nat.lt_total i j) as [Hlt|[?|Hlt]]; [|done|].
  - by apply wrap_succ_neq in E; [|lia..].
  - symmetry in E; by apply wrap_succ_neq in E; [|lia..].
Qed.

Lemma tried_succ v n : 0 <= v < 2 ^ 32 -> tried v (S n) = v :: tried (wrap 32 (v + 1)) n.
Proof.
  intros Hv; unfold tried; cbn [seq map]. rewrite Z.add_0_r, wrap_small by lia. f_equal.
  rewrite <- seq_shift, map_map. apply map_ext; intros j. unfold wrap.
  rewrite Zplus_mod_idemp_l. f_equal; lia.
Qed.

Lemma size_union_alt_le (X Y : gset Z) : (size (X ∪ Y) <= size X + size Y)%nat.
Proof. rewrite size_union_alt. pose proof (subseteq_size (Y ∖ X) Y ltac:(set_solver)). lia. Qed.

Lemma alloc_loop_spec fuel taken v : 0 <= v < 2 ^ 32 ->
  match alloc_loop fuel taken v with
  | Some (s, next) => s <> 0 /\ taken s = false /\ 0 <= s < 2 ^ 32 /\ next = wrap 32 (s + 1)
  | None => Forall (fun s => s = 0 \/ taken s = true) (tried v fuel)
  end.
Proof.
  revert v; induction fuel as [|n IH]; intros v Hv; cbn [alloc_loop]; [constructor|].
  destruct (negb (v =? 0) && negb (taken v)) eqn:E; [bsimpl; split_and!; done || lia|].
  specialize (IH (wrap 32 (v + 1)) (wrap_bound 32 _ ltac:(lia))).
  destruct (alloc_loop n taken _) as [[s next]|]; [done|].
  rewrite tried_succ by done. constructor; [|done].
  apply andb_false_iff in E as [E|E]; bsimpl; auto.
Qed.

(** With more fuel than taken sids (and zero) the loop ends with a free one. *)
Lemma alloc_loop_total fuel taken v (X : gset Z) : 0 <= v < 2 ^ 32 -> Z.of_nat fuel <= 2 ^ 32 ->
  (forall s, taken s = true -> s ∈ X) -> (size X + 1 < fuel)%nat ->
  exists s, alloc_loop fuel taken v = Some (s, wrap 32 (s + 1)) /\ s <> 0 /\ taken s = false /\ 0 <= s < 2 ^ 32.
Proof.
  intros Hv Hf HX Hsz; pose proof (alloc_loop_spec fuel taken v Hv) as H.
  destruct (alloc_loop fuel taken v) as [[s next]|].
  { destruct H as (? & ? & ? & ->). eauto 10. }
  exfalso. assert (Hsub : (list_to_set (tried v fuel) : gset Z) ⊆ {[0]} ∪ X).
  { intros s Hs%elem_of_list_to_set. eapply Forall_forall in H; [|exact Hs].
    destruct H as [->|H]; [set_solver|]. apply HX in H; set_solver. }
  apply subseteq_size in Hsub.
  rewrite size_list_to_set in Hsub by (by apply tried_nodup).
  pose proof (size_union_alt_le {[0]} X) as Hu; rewrite size_singleton in Hu.
  assert (length (tried v fuel) = fuel) as Hl by (unfold tried; by rewrite length_map, length_seq).
  lia.
Qed.

Lemma alloc_sid_total m : 0 <= mx_next_sid m < 2 ^ 32 -> Z.of_nat (alloc_fuel m) <= 2 ^ 32 ->
  exists sid m', alloc_sid m = Some (sid, m') /\ sid <> 0 /\ sid_taken m sid = false /\ 0 <= sid < 2 ^ 32
  /\ m' = mx_set_misc m (mx_cmd m) (wrap 32 (sid + 1)) (mx_closed m).
Proof.
  intros Hn Hf; unfold alloc_sid.
  destruct (alloc_loop_total (alloc_fuel m) (sid_taken m) (mx_next_sid m) (dom (mx_sessions m) ∪ dom (mx_udp m)))
    as (s & -> & ? & ? & ?); [done|done| | |eauto 10].
  - intros s H. unfold sid_taken in H; apply orb_true_iff in H as [H|H]; bsimpl; apply elem_of_dom in H; set_solver.
  - unfold alloc_fuel. pose proof (size_union_alt_le (dom (mx_sessions m)) (dom (mx_udp m))) as Hu.
    rewrite !size_dom in Hu; lia.
Qed.

(** ** Routing lemmas *)

(** Frames only remove TCP routes. *)
Lemma resolve_either_routes m sid r :
  mx_sessions (resolve_either m sid r) = mx_sessions m /\ mx_tcp (resolve_either m sid r) = mx_tcp m.
Proof.
  unfold resolve_either, resolve_open, resolve_udp.
  destruct (mx_pending_open m !! sid); [done|]. by destruct (mx_pending_udp m !! sid).
Qed.

(** Whether a frame ends the TCP route of its sid. *)
Definition ends_route (f : Frame) : bool :=
  match f_ftype f with
  | FClose | FError => true
  | FData => has_flag (f_flags f) FLAG_FIN
  | _ => false
  end.

(** The payload a frame delivers to its TCP session. *)
Definition delivers (f : Frame) : list bytes := match f_ftype f with FData => [f_payload f] | _ => [] end.

(** What session [sid] receives of a sequence of frames. *)
Fixpoint tcp_view (sid : Z) (fs : list Frame) : list bytes :=
  match fs with
  | [] => []
  | f :: t =>
    if f_sid f =? sid then delivers f ++ (if ends_route f then [] else tcp_view sid t)
    else tcp_view sid t
  end.

(** Channel [c], with contents [q], belongs to [sid] and to no other session. *)
Definition owns (m : MuxInner) (sid : Z) (c : nat) (q : list bytes) : Prop :=
  mx_sessions m !! sid = Some c /\ mx_tcp m !! c = Some {| ch_alive := true; ch_sent := q |}
  /\ forall s, mx_sessions m !! s = Some c -> s = sid.

(** Once a session has no route, its channel is closed to it. *)
Definition disowned (m : MuxInner) (c : nat) (q : list bytes) : Prop :=
  mx_tcp m !! c = Some {| ch_alive := true; ch_sent := q |} /\ forall s, mx_sessions m !! s <> Some c.

Lemma handle_other m f sid c q : owns m sid c q -> f_sid f <> sid -> owns (handle_client_frame m f) sid c q.
Proof.
  intros (H1 & H2 & H3) Hne; unfold handle_client_frame, owns.
  assert (Hd : forall m' : MuxInner, mx_sessions m' = mx_sessions m -> mx_tcp m' = mx_tcp m ->
     mx_sessions (drop_tcp_route m' (f_sid f)) !! sid = Some c
     /\ mx_tcp (drop_tcp_route m' (f_sid f)) !! c = Some {| ch_alive := true; ch_sent := q |}
     /\ forall s, mx_sessions (drop_tcp_route m' (f_sid f)) !! s = Some c -> s = sid).
  { intros m' E1 E2; unfold drop_tcp_route; cbn; rewrite E1, E2. split_and!; [by rewrite lookup_delete_ne|done|].
    intros s [? ?]%lookup_delete_Some. by apply H3. }
  destruct (f_ftype f).
  - done.
  - done.
  - done.
  - unfold resolve_open; by destruct (mx_pending_open m !! f_sid f).
  - destruct (resolve_either_routes m (f_sid f) (Err (code_to_open_error (f_payload f)))) as [-> ->]; done.
  - assert (Hr : owns (route_data m (f_sid f) (f_payload f)) sid c q).
    { unfold route_data, owns. destruct (mx_sessions m !! f_sid f) as [c'|] eqn:Es; [|done].
      assert (c' <> c) by (intros ->; apply Hne, H3, Es).
      destruct (mx_tcp m !! c') as [ch|]; [|done]. destruct (ch_send ch (f_payload f)) as [[] ch'].
      - cbn; by rewrite lookup_insert_ne.
      - by apply Hd. }
    destruct (has_flag _ _); [|exact Hr]. destruct Hr as (R1 & R2 & R3). cbn.
    split_and!; [by rewrite lookup_delete_ne|done|]. intros s [? ?]%lookup_delete_Some; by apply R3.
  - cbn. split_and!; [by rewrite lookup_delete_ne|done|]. intros s [? ?]%lookup_delete_Some; by apply H3.
  - unfold cmd_send; by destruct (mx_cmd_open m).
  - done.
  - done.
  - unfold resolve_udp; by destruct (mx_pending_udp m !! f_sid f).
  - destruct (ua_decode _) as [[src r]|]; [|done]. unfold route_datagram.
    destruct (mx_udp m !! f_sid f) as [c'|]; [|done]. by destruct (mx_dgram m !! c').
  - apply Hd; apply resolve_either_routes.
Qed.

Lemma handle_own m f sid c q : owns m sid c q -> f_sid f = sid ->
  if ends_route f then disowned (handle_client_frame m f) c (q ++ delivers f)
  else owns (handle_client_frame m f) sid c (q ++ delivers f).
Proof.
  intros (H1 & H2 & H3) Hs; unfold handle_client_frame, ends_route, delivers, owns, disowned; rewrite Hs.
  destruct (f_ftype f); rewrite ?app_nil_r.
  1,2,3,9,10: done.
  - unfold resolve_open; by destruct (mx_pending_open m !! sid).
  - destruct (resolve_either_routes m sid (Err (code_to_open_error (f_payload f)))) as [-> ->]; done.
  - unfold route_data; rewrite H1, H2; cbn.
    destruct (has_flag (f_flags f) FLAG_FIN); cbn; rewrite lookup_insert_eq; split; try done.
    intros s [? ?]%lookup_delete_Some. by apply H3 in H0.
  - cbn; split; [done|]. intros s [? ?]%lookup_delete_Some. by apply H3 in H0.
  - unfold cmd_send; by destruct (mx_cmd_open m).
  - unfold resolve_udp; by destruct (mx_pending_udp m !! sid).
  - destruct (ua_decode _) as [[src r]|]; [|done]. unfold route_datagram.
    destruct (mx_udp m !! sid) as [c'|]; [|done]. by destruct (mx_dgram m !! c').
  - destruct (resolve_either_routes m sid (Err (code_to_open_error (f_payload f)))) as [E1 E2].
    unfold drop_tcp_route; cbn; rewrite E1, E2. split; [done|].
    intros s [? ?]%lookup_delete_Some. by apply H3 in H0.
Qed.

Lemma drop_disowned m sid c q : disowned m c q -> disowned (drop_tcp_route m sid) c q.
Proof. intros [H1 H2]; split; [done|]. cbn; intros s [? ?]%lookup_delete_Some. by eapply H2. Qed.

Lemma handle_disowned m f c q : disowned m c q -> disowned (handle_client_frame m f) c q.
Proof.
  intros Hd; pose proof Hd as [H1 H2]; unfold handle_client_frame. destruct (f_ftype f); try done.
  - unfold resolve_open; by destruct (mx_pending_open m !! f_sid f).
  - destruct (resolve_either_routes m (f_sid f) (Err (code_to_open_error (f_payload f)))) as [E1 E2].
    unfold disowned; by rewrite E1, E2.
  - assert (Hr : disowned (route_data m (f_sid f) (f_payload f)) c q).
    { unfold route_data. destruct (mx_sessions m !! f_sid f) as [c'|] eqn:Es; [|done].
      assert (c' <> c) by (intros ->; by eapply H2).
      destruct (mx_tcp m !! c') as [ch|]; [|done]. destruct (ch_send ch (f_payload f)) as [[] ch'].
      - split; cbn; [by rewrite lookup_insert_ne|done].
      - by apply drop_disowned. }
    destruct (has_flag _ _); [by apply drop_disowned|done].
  - split; [done|]. cbn; intros s [? ?]%lookup_delete_Some. by eapply H2.
  - unfold cmd_send; by destruct (mx_cmd_open m).
  - unfold resolve_udp; by destruct (mx_pending_udp m !! f_sid f).
  - destruct (ua_decode _) as [[src r]|]; [|done]. unfold route_datagram.
    destruct (mx_udp m !! f_sid f) as [c'|]; [|done]. by destruct (mx_dgram m !! c').
  - apply drop_disowned. destruct (resolve_either_routes m (f_sid f) (Err (code_to_open_error (f_payload f)))) as [E1 E2].
    unfold disowned; by rewrite E1, E2.
Qed.

Lemma demux_disowned fs : forall m c q, disowned m c q -> disowned (fold_left handle_client_frame fs m) c q.
Proof. induction fs as [|f fs IH]; intros m c q H; cbn; [done|]. by apply IH, handle_disowned. Qed.

Lemma demux fs : forall m sid c q, owns m sid c q ->
  mx_tcp (fold_left handle_client_frame fs m) !! c = Some {| ch_alive := true; ch_sent := q ++ tcp_view sid fs |}.
Proof.
  induction fs as [|f fs IH]; intros m sid c q H; cbn [fold_left tcp_view].
  - rewrite app_nil_r. apply H.
  - destruct (Z.eqb_spec (f_sid f) sid) as [Hs|Hs].
    + pose proof (handle_own m f sid c q H Hs) as Ho. destruct (ends_route f).
      * rewrite app_nil_r. by apply demux_disowned.
      * rewrite app_assoc. by apply IH.
    + by apply IH, handle_other.
Qed.

Lemma from_to_code e : from_code (to_code e) = e.
Proof. by destruct e. Qed.

(** ** Properties *)

(** Sid allocation always succeeds while ids remain: within as many steps
    as there are registered sids (plus two) it returns a nonzero 32-bit id that
    no session and no UDP route uses, and the counter moves past it. *)
Theorem alloc_sid_fresh m : 0 <= mx_next_sid m < 2 ^ 32 ->
  Z.of_nat (size (mx_sessions m) + size (mx_udp m) + 2) <= 2 ^ 32 ->
  exists sid m', alloc_sid m = Some (sid, m') /\ sid <> 0 /\ 0 <= sid < 2 ^ 32
  /\ mx_sessions m !! sid = None /\ mx_udp m !! sid = None /\ mx_next_sid m' = wrap 32 (sid + 1).
Proof.
  intros Hn Hf; destruct (alloc_sid_total m Hn Hf) as (sid & m' & E & H1 & H2 & H3 & ->).
  unfold sid_taken in H2; bsimpl. exists sid; eexists; split_and!; eauto; try lia;
    apply eq_None_not_Some; done.
Qed.

(** Demultiplexing is faithful and isolated: whatever frames of whatever
    sessions arrive, a session's reader receives exactly the payloads of its
    own Data frames, in order, up to the frame that ends its route, and
    nothing else. *)
Theorem client_demux fs m sid c q : owns m sid c q ->
  mx_tcp (fold_left handle_client_frame fs m) !! c = Some {| ch_alive := true; ch_sent := q ++ tcp_view sid fs |}.
Proof. apply demux. Qed.

(** When the reader ends (end of stream or a bad frame), every route and
    every pending open is dropped and the mux is marked closed, so no waiter
    can hang on a dead channel. *)
Theorem client_teardown_complete m fs e reads :
  let m' := run_client_reader m (map (fun f => Ok (Some f)) fs ++ e :: reads) in
  match e with Ok (Some _) => True | _ =>
    mx_closed m' = true /\ mx_sessions m' = ∅ /\ mx_udp m' = ∅ /\ mx_pending_open m' = ∅ /\ mx_pending_udp m' = ∅ end.
Proof. revert m; induction fs as [|f fs IH]; intros m; [by destruct e as [[]|]|]. apply IH. Qed.

(** The result of an open reaches its caller: the one frame the server
    sends for an Open resolves exactly the client's waiter of that sid, with
    the server's result. *)
Theorem open_result_roundtrip {W} {H : ServerHooks W} (w : W) f m wt c :
  f_ftype f = FOpen -> mx_pending_open m !! f_sid f = Some wt ->
  exists reply, (handle_server_frame w f).1 = [reply]
  /\ mx_replies (handle_client_frame m (frame_of reply c)) !! wt
     = Some (match decode_open (f_payload f) with
             | Ok (host, port) => (open_tcp (f_sid f) host port w).1
             | Err _ => Err BadTarget
             end)
  /\ mx_pending_open (handle_client_frame m (frame_of reply c)) !! f_sid f = None.
Proof.
  intros Ht Hp; unfold handle_server_frame; rewrite Ht.
  destruct (decode_open (f_payload f)) as [[host port]|e].
  - destruct (open_tcp (f_sid f) host port w) as [[[]|e] w']; (eexists; split; [done|]);
      unfold handle_client_frame, frame_of, out; cbn [f_ftype f_sid f_payload of_ftype of_sid of_payload fst];
      unfold resolve_either, resolve_open; rewrite Hp; cbn [from_option id mx_replies mx_pending_open mx_set_pending];
      rewrite lookup_insert_eq, lookup_delete_eq; [done|].
    unfold code_to_open_error; cbn [head from_option id]. by rewrite from_to_code.
  - eexists; split; [done|]. unfold handle_client_frame, frame_of, out; cbn [f_ftype f_sid f_payload of_ftype of_sid of_payload].
    unfold resolve_either, resolve_open; rewrite Hp; cbn; by rewrite lookup_insert_eq, lookup_delete_eq.
Qed.

(** The server never runs more than 32 slow operations of a channel at a
    time, whatever the client sends. *)
Theorem mux_workers_bounded {W} {H : ServerHooks W} (w : W) l :
  star mux_step {| ml_world := w; ml_workers := []; ml_sent := [] |} l ->
  len (ml_workers l) <= MAX_MUX_TASKS /\ Forall (fun f => is_concurrent (f_ftype f) = true) (ml_workers l).
Proof.
  intros Hs.
  apply (star_invariant mux_step (fun l => len (ml_workers l) <= MAX_MUX_TASKS
           /\ Forall (fun f => is_concurrent (f_ftype f) = true) (ml_workers l)) _ _) in Hs; [done| |].
  - intros a b [Hl Hf] Hst; destruct Hst; cbn [ml_workers]; [|done|].
    + rewrite len_cons; split; [unfold MAX_MUX_TASKS in *; lia|by constructor].
    + rewrite H0 in *. rewrite len_app, len_cons in Hl. apply Forall_app in Hf as [? [_ ?]%Forall_cons].
      rewrite len_app; split; [lia|by apply Forall_app].
  - cbn; split; [unfold MAX_MUX_TASKS; rewrite len_nil; lia|constructor].
Qed.

(** A lossy reply never poisons the control channel: a datagram sink only
    falls back to the queue with a frame the negotiated limit can carry. *)
Theorem lossy_fallback_encodable {P : Prims} max dg enc s t fl sid payload s' ok sink' :
  try_send_lossy max dg (SDatagram enc) s t fl sid payload = (ok, sink', s') ->
  sq_queue s' = sq_queue s \/ (ok = true /\ sq_queue s' = sq_queue s ++ [out t fl sid payload]
                               /\ len payload <= fe_limit enc).
Proof.
  unfold try_send_lossy; intros H. destruct (_ <? _); [simplify_eq; auto|].
  destruct (encode enc t fl sid payload) as [[wire|e] enc'] eqn:E; [|simplify_eq; auto].
  assert (len payload <= fe_limit enc).
  { apply Z.nlt_ge; intros Hl. unfold encode, encode_into in E. rewrite (proj2 (Z.leb_gt _ _)) in E by lia. done. }
  destruct (_ && _); [simplify_eq; auto|]. unfold chan_try_send in H.
  destruct (_ && _); simplify_eq; cbn; auto.
Qed.

(** ** Witnesses *)

Module MuxWitness.

Definition mux : MuxInner := {|
  mx_cmd := []; mx_cmd_open := true; mx_sessions := {[5 := 1%nat; 6 := 2%nat]}; mx_udp := ∅;
  mx_pending_open := {[6 := 9%nat]}; mx_pending_udp := ∅; mx_next_sid := 4294967295; mx_closed := false;
  mx_tcp := {[1%nat := {| ch_alive := true; ch_sent := [] |}; 2%nat := {| ch_alive := true; ch_sent := [] |}]};
  mx_dgram := ∅; mx_replies := ∅ |}.

Definition data (sid flags : Z) (p : bytes) : Frame :=
  {| f_ftype := FData; f_flags := flags; f_sid := sid; f_counter := 0; f_aad := []; f_payload := p |}.

Lemma alloc_sid_fresh_witness : exists sid m', alloc_sid mux = Some (sid, m') /\ sid <> 0 /\ 0 <= sid < 2 ^ 32
  /\ mx_sessions mux !! sid = None /\ mx_udp mux !! sid = None /\ mx_next_sid m' = wrap 32 (sid + 1).
Proof. apply (alloc_sid_fresh mux); vm_compute; [split; [discriminate|reflexivity]|discriminate]. Defined.

Lemma client_demux_witness :
  mx_tcp (fold_left handle_client_frame [data 5 0 [1]; data 6 0 [2]; data 5 FLAG_FIN [3]; data 5 0 [4]] mux) !! 1%nat
  = Some {| ch_alive := true; ch_sent := [[1]; [3]] |}.
Proof.
  apply (client_demux [data 5 0 [1]; data 6 0 [2]; data 5 FLAG_FIN [3]; data 5 0 [4]] mux 5 1%nat []).
  split_and!; [reflexivity|reflexivity|]. intros s Hs.
  change (mx_sessions mux) with (<[5 := 1%nat]> {[6 := 2%nat]} : gmap Z nat) in Hs.
  apply lookup_insert_Some in Hs as [[? _]|[_ Hs]]; [done|].
  apply lookup_singleton_Some in Hs as [_ Hs]; discriminate.
Defined.

#[local] Instance refusing : ServerHooks unit := {|
  open_tcp _ _ _ w := (Err OLimit, w); feed_tcp _ _ _ _ w := w; close_tcp _ _ w := w;
  udp_associate _ w := (Ok tt, w); udp_feed _ _ _ w := w; hook_touch _ w := w |}.

Definition open6 : Frame := {| f_ftype := FOpen; f_flags := 0; f_sid := 6; f_counter := 0; f_aad := [];
                              f_payload := encode_open (str "h") 80 |}.

Lemma open_result_roundtrip_witness : exists reply, (handle_server_frame tt open6).1 = [reply]
  /\ mx_replies (handle_client_frame mux (frame_of reply 3)) !! 9%nat = Some (Err OLimit)
  /\ mx_pending_open (handle_client_frame mux (frame_of reply 3)) !! 6 = None.
Proof.
  destruct (open_result_roundtrip tt open6 mux 9%nat 3) as (reply & H1 & H2 & H3); [reflexivity..|].
  assert (E : decode_open (f_payload open6) = Ok (str "h", 80)) by (vm_compute; reflexivity).
  rewrite E in H2. exists reply. split; [exact H1|]. split; [exact H2|exact H3].
Defined.

Lemma mux_workers_bounded_witness :
  len (ml_workers {| ml_world := tt; ml_workers := [open6]; ml_sent := [] |}) <= MAX_MUX_TASKS
  /\ Forall (fun f => is_concurrent (f_ftype f) = true) [open6].
Proof.
  apply (mux_workers_bounded tt {| ml_world := tt; ml_workers := [open6]; ml_sent := [] |}).
  eapply star_step; [apply (ms_spawn _ open6); vm_compute; reflexivity|]. apply star_refl.
Defined.

Definition enc : FrameEncoder := {| fe_cipher := cipher_new (replicate 32 7); fe_counters := cg_datagram_server; fe_limit := 20 |}.
Definition sink0 : SinkState := {| sq_queue := []; sq_cap := 4; sq_open := true; sq_sent := [] |}.

Lemma lossy_fallback_encodable_witness : exists ok sink' s',
  try_send_lossy None true (SDatagram enc) sink0 FUdpData 0 5 [1; 2] = (ok, sink', s')
  /\ (sq_queue s' = sq_queue sink0 \/ (ok = true /\ sq_queue s' = sq_queue sink0 ++ [out FUdpData 0 5 [1; 2]]
                                      /\ len [1; 2] <= fe_limit enc)).
Proof.
  eexists _, _, _; split; [vm_compute; reflexivity|].
  eapply (lossy_fallback_encodable None true enc sink0 FUdpData 0 5 [1; 2]); vm_compute; reflexivity.
Defined.

End MuxWitness.
