(* ===== verification/Hub.v ===== *)
(** * The session engine: [server/hub.rs], second part

    Admission of sessions, the hooks behind the fallback mux and the control
    stream, the pumps, and the lifetime of a session's quota unit. The
    sequential operations come first and implement the [ServerHooks] interface;
    [hub_step] then interleaves the atomic steps of any number of tasks. *)

From S2P Require Import Prelude Bytes Crypto Frame Addr Net Ip Limit State Egress Mux.

(** ** Admission *)

(** The admission method of [Hooks] for the connection object [cid]; [now] in milliseconds. *)
Definition hooks_admit (now : Z) (st : ServerState) (cid sid : Z) : result OpenError nat * ServerState :=
  match ss_heap st !! cid with
  | None => (Err Denied, st)
  | Some c =>
    if bool_decide (is_Some (cs_sessions c !! sid)) then (Err Denied, st)
    else if cs_max_per_conn c <=? session_count c then (Err OLimit, st)
    else match try_acquire_session st with
         | (false, st1) => (Err OLimit, st1)
         | (true, st1) =>
           let '(token, t) := child_token (ss_tokens st1) (cs_cancel c) in
           match try_register_with now c sid token with
           | (true, c') => (Ok token, ss_set_heap st1 (<[cid := c']> (ss_heap st1)) t)
           | (false, c') => (Err Denied, release_session (ss_set_heap st1 (<[cid := c']> (ss_heap st1)) t))
           end
         end
  end.

(** The check at the head of [udp_associate]: one namespace for TCP and UDP. *)
Definition udp_admit (now : Z) (st : ServerState) (cid sid : Z) : result OpenError nat * ServerState :=
  match ss_heap st !! cid with
  | None => (Err Denied, st)
  | Some c =>
    if bool_decide (is_Some (cs_udp_routes c !! sid)) then (Err Denied, st) else hooks_admit now st cid sid
  end.

(** ** The hooks *)

Section hooks.
Context (lookup_host : bytes -> Z -> option (list SocketAddr)).
Context (connect : SocketAddr -> option Z) (budget : nat).
(** [UdpSocket::bind] on the wildcard address of a family. *)
Context (bind : bool -> option Z).
(** The connection object the hooks are bound to. *)
Context (cid : Z).

(** The hooks' world: the server, the clocks (milliseconds and nanoseconds), the
    sockets the pumps own, the sids whose client-to-target pump has ended, and
    the datagrams sent. *)
Record HubWorld := {
  hw_st : ServerState;
  hw_now : Z;
  hw_instant : Z;
  hw_pumps : list (Z * Z);
  hw_rx_gone : gset Z;
  hw_udp_sent : list (Z * SocketAddr * bytes);
}.

Definition hw_set (w : HubWorld) (st : ServerState) : HubWorld :=
  {| hw_st := st; hw_now := hw_now w; hw_instant := hw_instant w; hw_pumps := hw_pumps w;
     hw_rx_gone := hw_rx_gone w; hw_udp_sent := hw_udp_sent w |}.

Definition hw_conn (w : HubWorld) (f : ConnState -> ConnState) : HubWorld :=
  hw_set w (ss_set_heap (hw_st w) (alter f cid (ss_heap (hw_st w))) (ss_tokens (hw_st w))).

(** [spawn_tcp_pumps]: the route is registered and the pumps own the socket. *)
Definition spawn_tcp_pumps (w : HubWorld) (sid sock : Z) : HubWorld :=
  let w := hw_conn w (fun c => cs_set_routes c (<[sid := []]> (cs_tcp_routes c)) (cs_udp_routes c)) in
  {| hw_st := hw_st w; hw_now := hw_now w; hw_instant := hw_instant w;
     hw_pumps := hw_pumps w ++ [(sid, sock)]; hw_rx_gone := hw_rx_gone w ∖ {[sid]};
     hw_udp_sent := hw_udp_sent w |}.

Definition hub_open_tcp (sid : Z) (host : bytes) (port : Z) (w : HubWorld) : result OpenError unit * HubWorld :=
  match hooks_admit (hw_now w) (hw_st w) cid sid with
  | (Err e, st) => (Err e, hw_set w st)
  | (Ok _, st) =>
    match (dial_target lookup_host connect budget host port (ss_allow_private_targets st)).1 with
    | Err e => (Err e, hw_set w (drop_and_release st cid sid))
    | Ok sock => (Ok tt, spawn_tcp_pumps (hw_set w st) sid sock)
    end
  end.

Definition hub_touch (sid : Z) (w : HubWorld) : HubWorld := hw_conn w (fun c => cs_touch (hw_now w) c sid).

Definition hub_feed_tcp (sid : Z) (data : bytes) (fin rst : bool) (w : HubWorld) : HubWorld :=
  if rst then hw_set w (drop_and_release (hw_st w) cid sid)
  else
    let w := hub_touch sid w in
    match ss_heap (hw_st w) !! cid with
    | None => w
    | Some c =>
      match cs_tcp_routes c !! sid with
      | None => w
      | Some q =>
        if bool_decide (sid ∈ hw_rx_gone w) then hw_set w (drop_and_release (hw_st w) cid sid)
        else hw_conn w (fun c => cs_set_routes c (<[sid := q ++ [(data, fin)]]> (cs_tcp_routes c)) (cs_udp_routes c))
      end
    end.

Definition hub_close_tcp (sid : Z) (_rst : bool) (w : HubWorld) : HubWorld :=
  hw_set w (drop_and_release (hw_st w) cid sid).

Definition hub_udp_associate (sid : Z) (w : HubWorld) : result OpenError unit * HubWorld :=
  match udp_admit (hw_now w) (hw_st w) cid sid with
  | (Err e, st) => (Err e, hw_set w st)
  | (Ok _, st) =>
    let '(tok, t) := token_new (ss_tokens st) in
    let w := hw_set w (ss_set_heap st (ss_heap st) t) in
    (Ok tt, hw_conn w (fun c => cs_set_routes c (cs_tcp_routes c)
                                  (<[sid := {| ur_cancel := tok; ur_v4 := None; ur_v6 := None |}]> (cs_udp_routes c))))
  end.

(** [get_or_bind_v4] / [get_or_bind_v6]: the socket, bound on first use. *)
Definition get_or_bind (v4 : bool) (r : UdpRelay) : option (Z * UdpRelay) :=
  match (if v4 then ur_v4 r else ur_v6 r) with
  | Some s => Some (s, r)
  | None =>
    match bind v4 with
    | None => None
    | Some s => Some (s, if v4 then {| ur_cancel := ur_cancel r; ur_v4 := Some s; ur_v6 := ur_v6 r |}
                         else {| ur_cancel := ur_cancel r; ur_v4 := ur_v4 r; ur_v6 := Some s |})
    end
  end.

Definition hub_udp_feed (sid : Z) (dst : UdpAddr) (data : bytes) (w : HubWorld) : HubWorld :=
  match ss_heap (hw_st w) !! cid with
  | None => w
  | Some c =>
    match cs_udp_routes c !! sid with
    | None => w
    | Some relay =>
      let w := hub_touch sid w in
      match resolve_udp_target lookup_host dst (ss_allow_private_targets (hw_st w)) (hw_st w) (hw_instant w) with
      | (Err _, st) => hw_set w st
      | (Ok addr, st) =>
        let w := hw_set w st in
        match get_or_bind (is_v4 (sa_ip addr)) relay with
        | None => w
        | Some (sock, relay') =>
          let w := hw_conn w (fun c => cs_set_routes c (cs_tcp_routes c)
                                         (alter (fun _ => relay') sid (cs_udp_routes c))) in
          {| hw_st := hw_st w; hw_now := hw_now w; hw_instant := hw_instant w; hw_pumps := hw_pumps w;
             hw_rx_gone := hw_rx_gone w; hw_udp_sent := hw_udp_sent w ++ [(sock, addr, data)] |}
        end
      end
    end
  end.

#[global] Instance Hooks : ServerHooks HubWorld := {|
  open_tcp := hub_open_tcp;
  feed_tcp := hub_feed_tcp;
  close_tcp := hub_close_tcp;
  udp_associate := hub_udp_associate;
  udp_feed := hub_udp_feed;
  hook_touch := hub_touch;
|}.

End hooks.

(** ** What the hooks promise the mux loop *)

(** [I] holds of the world between frames. *)
Class HooksKeep {W} (H : ServerHooks W) (I : W -> Prop) : Prop := {
  open_tcp_keeps sid host port w : I w -> I (open_tcp sid host port w).2;
  feed_tcp_keeps sid data fin rst w : I w -> I (feed_tcp sid data fin rst w);
  close_tcp_keeps sid rst w : I w -> I (close_tcp sid rst w);
  udp_associate_keeps sid w : I w -> I (udp_associate sid w).2;
  udp_feed_keeps sid dst data w : I w -> I (udp_feed sid dst data w);
  touch_keeps sid w : I w -> I (hook_touch sid w);
}.

(** The mux loop, for any hooks: a world invariant the hooks keep survives every
    frame. *)
Lemma handle_server_frame_keeps {W} {H : ServerHooks W} (I : W -> Prop) {K : HooksKeep H I} w f :
  I w -> I (handle_server_frame w f).2.
Proof.
  intros Hi; unfold handle_server_frame. destruct (f_ftype f); cbn [snd]; try done.
  - destruct (decode_open _) as [[host port]|]; [|done].
    pose proof (open_tcp_keeps (f_sid f) host port w Hi) as Ho. by destruct (open_tcp _ _ _ w) as [[] w'].
  - by apply feed_tcp_keeps, touch_keeps.
  - destruct (_ && _); cbn [snd]; [by apply feed_tcp_keeps|by apply close_tcp_keeps].
  - pose proof (udp_associate_keeps (f_sid f) w Hi) as Ho. by destruct (udp_associate _ w) as [[] w'].
  - destruct (ua_decode _) as [[dst r]|]; [|done]. by apply udp_feed_keeps, touch_keeps.
  - by apply close_tcp_keeps.
Qed.

Lemma mux_step_keeps {W} {H : ServerHooks W} (I : W -> Prop) {K : HooksKeep H I} l l' :
  star mux_step l l' -> I (ml_world l) -> I (ml_world l').
Proof.
  apply (star_invariant mux_step (fun l => I (ml_world l))). intros a b Hi Hs; destruct Hs; cbn; [done|..];
    match goal with E : handle_server_frame _ ?f = _ |- _ =>
      pose proof (handle_server_frame_keeps I _ f Hi) as Hk; rewrite E in Hk; exact Hk end.
Qed.

(** ** The quota under the hooks *)

Lemma quota_heap k s heap t : quota_inv k s -> map_sum session_count heap = total_sessions s ->
  quota_inv k (ss_set_heap s heap t).
Proof. intros (? & ? & ?) E; unfold quota_inv, total_sessions in *; cbn; rewrite E; done. Qed.

Lemma map_sum_alter {A} (g : A -> Z) (f : A -> A) m k : (forall x, g (f x) = g x) ->
  map_sum g (alter f k m) = map_sum g m.
Proof.
  intros Hf. destruct (m !! k) as [x|] eqn:E.
  - assert (alter f k m = <[k := f x]> m) as ->.
    { rewrite <- (insert_id m k x E) at 1. apply alter_insert_eq. }
    rewrite (map_sum_update g m k x (f x) E), Hf. lia.
  - by rewrite alter_id'.
Qed.

Lemma acquire_quota k s s' : quota_inv k s -> try_acquire_session s = (true, s') -> quota_inv (k + 1) s'.
Proof.
  unfold try_acquire_session, quota_inv, total_sessions; intros (? & ? & ?) Ha.
  destruct (Z.leb_spec (ss_max_sessions s) (ss_active_sessions s)); simplify_eq; cbn. lia.
Qed.

Lemma release_quota k s : quota_inv (k + 1) s -> 0 <= k -> quota_inv k (release_session s).
Proof.
  unfold quota_inv, release_session; intros (? & Ha & ?) Hk; pose proof (total_nonneg s).
  cbn [ss_active_sessions ss_set_active ss_with_sessions ss_max_sessions].
  unfold u64_max in *. rewrite wrap_small by lia. change (total_sessions (ss_set_active s _)) with (total_sessions s). lia.
Qed.

Lemma register_quota k s cid c now sid tok c' t : quota_inv (k + 1) s -> 0 <= k -> ss_heap s !! cid = Some c ->
  try_register_with now c sid tok = (true, c') -> quota_inv k (ss_set_heap s (<[cid := c']> (ss_heap s)) t).
Proof.
  intros (? & Ha & ?) Hk Hc Hr; apply register_count in Hr.
  pose proof (map_sum_update session_count _ _ _ c' Hc) as Hu.
  unfold quota_inv, total_sessions in *; cbn; rewrite Hu. lia.
Qed.

Lemma register_fail_quota k s cid c now sid tok c' t : quota_inv k s -> ss_heap s !! cid = Some c ->
  try_register_with now c sid tok = (false, c') -> quota_inv k (ss_set_heap s (<[cid := c']> (ss_heap s)) t).
Proof.
  intros Hq Hc Hr; apply register_count in Hr. apply quota_heap; [done|].
  rewrite (map_sum_update session_count _ _ _ c' Hc). unfold total_sessions; lia.
Qed.

Lemma try_acquire_heap s b s' : try_acquire_session s = (b, s') -> ss_heap s' = ss_heap s /\ (b = false -> s' = s).
Proof. unfold try_acquire_session; intros; destruct (_ <=? _); by simplify_eq. Qed.

Lemma admit_quota now s cid sid : quota_inv 0 s -> quota_inv 0 (hooks_admit now s cid sid).2.
Proof.
  intros Hq; unfold hooks_admit. destruct (ss_heap s !! cid) as [c|] eqn:Hc; [|done].
  destruct (bool_decide _); [done|]. destruct (_ <=? _); [done|].
  destruct (try_acquire_session s) as [[] s1] eqn:Ea; apply try_acquire_heap in Ea as He; destruct He as [He Hf];
    [|by rewrite Hf].
  apply (acquire_quota 0) in Ea; [|done]. rewrite <- He in Hc. unfold child_token.
  destruct (try_register_with now c sid (tk_next (ss_tokens s1))) as [[] c'] eqn:Er; cbn [snd].
  - by eapply (register_quota 0).
  - apply release_quota; [|lia]. by eapply (register_fail_quota 1).
Qed.

Lemma touch_count now c sid : session_count (cs_touch now c sid) = session_count c.
Proof.
  unfold cs_touch, session_count; cbn. destruct (cs_sessions c !! sid) as [h|] eqn:E; cbn; [|done].
  by rewrite map_size_insert, E.
Qed.

(** The world's quota is exact. *)
Definition hub_ok (w : HubWorld) : Prop := quota_inv 0 (hw_st w).

Lemma hw_conn_ok cid w f : (forall c, session_count (f c) = session_count c) -> hub_ok w -> hub_ok (hw_conn cid w f).
Proof. intros Hf Hw; unfold hub_ok, hw_conn; cbn. apply quota_heap; [done|]. by apply map_sum_alter. Qed.

Lemma udp_dns_store_quota k s key a now : quota_inv k s -> quota_inv k (udp_dns_store s key a now).
Proof. unfold udp_dns_store; intros H; destruct (_ =? 0); [done|]. destruct (_ <=? _); [|done]. by destruct (_ <=? _). Qed.

Lemma resolve_udp_quota k lh dst allow s now : quota_inv k s ->
  quota_inv k (resolve_udp_target lh dst allow s now).2.
Proof.
  intros H; unfold resolve_udp_target. destruct dst; [done..|].
  destruct (udp_dns_cached _ _ _); [done|]. destruct (rbind _ _); [by apply udp_dns_store_quota|done].
Qed.

#[global] Instance hooks_keep_quota lh conn budget bind cid :
  HooksKeep (Hooks lh conn budget bind cid) hub_ok.
Proof.
  assert (Ht : forall sid w, hub_ok w -> hub_ok (hub_touch cid sid w)).
  { intros; apply hw_conn_ok; [intros; apply touch_count|done]. }
  assert (Hdr : forall sid w, hub_ok w -> hub_ok (hw_set w (drop_and_release (hw_st w) cid sid))).
  { intros; by apply drop_and_release_quota. }
  split; cbn.
  - intros sid host port w Hw; unfold hub_open_tcp.
    pose proof (admit_quota (hw_now w) (hw_st w) cid sid Hw) as Ha.
    destruct (hooks_admit _ _ _ _) as [[tok|e] st]; cbn [snd] in *; [|done].
    destruct (dial_target _ _ _ _ _ _).1; cbn [snd]; [|by apply drop_and_release_quota].
    apply (hw_conn_ok cid (hw_set w st)); done.
  - intros sid data fin rst w Hw; unfold hub_feed_tcp. destruct rst; [by apply Hdr|].
    apply (Ht sid) in Hw. set (w1 := hub_touch cid sid w) in *.
    destruct (ss_heap (hw_st w1) !! cid) as [c|]; [|done]. destruct (cs_tcp_routes c !! sid); [|done].
    destruct (bool_decide _); [by apply Hdr|by apply hw_conn_ok].
  - intros; by apply Hdr.
  - intros sid w Hw; unfold hub_udp_associate, udp_admit.
    destruct (ss_heap (hw_st w) !! cid); [|done]. destruct (bool_decide _); [done|].
    pose proof (admit_quota (hw_now w) (hw_st w) cid sid Hw) as Ha.
    destruct (hooks_admit _ _ _ _) as [[tok|e] st]; cbn [snd] in *; [|done]. cbn. apply hw_conn_ok; done.
  - intros sid dst data w Hw; unfold hub_udp_feed.
    destruct (ss_heap (hw_st w) !! cid) as [c|]; [|done]. destruct (cs_udp_routes c !! sid) as [relay|]; [|done].
    apply (Ht sid) in Hw. set (w1 := hub_touch cid sid w) in *.
    pose proof (resolve_udp_quota 0 lh dst (ss_allow_private_targets (hw_st w1)) (hw_st w1) (hw_instant w1) Hw) as Hr.
    destruct (resolve_udp_target _ _ _ _ _) as [[a|e] st]; cbn [snd] in *; [|done].
    destruct (get_or_bind _ _ _) as [[sock relay']|]; [|done].
    apply (hw_conn_ok cid (hw_set w1 st)); done.
  - done.
Qed.

(** ** Interleaved sessions *)

(** A task between two atomic accesses: the per-connection checks passed; the
    quota unit taken; the session registered and its target being dialed; the
    pump (or UDP watcher) that owns the teardown running; a handle removed, or
    a registration lost, with the unit still to be released. *)
Inductive Task :=
| TChecked (cid sid : Z)
| TAcquired (cid sid : Z)
| TDialing (cid sid : Z)
| TPump (cid sid : Z)
| TReleasing.

Definition HubSys : Type := ServerState * list Task.

(** The tasks left after [drop_session] reported [removed]. *)
Definition after_drop (removed : bool) (ts : list Task) : list Task := if removed then TReleasing :: ts else ts.

(** [conn.drop_session(sid)] on the object [cid]. *)
Definition drop_at (s : ServerState) (cid sid : Z) : bool * ServerState :=
  match ss_heap s !! cid with
  | None => (false, s)
  | Some c =>
    let '(b, t, c') := drop_session (ss_tokens s) c sid in (b, ss_set_heap s (<[cid := c']> (ss_heap s)) t)
  end.

(** [aborts]: whether a worker can be aborted while it dials (the fallback mux
    aborts its workers when the channel ends). *)
Inductive hub_step (aborts : bool) : HubSys -> HubSys -> Prop :=
| hs_connect s ts cid c : ss_heap s !! cid = None -> cs_sessions c = ∅ ->
    hub_step aborts (s, ts) (ss_with_sessions s ({[cid]} ∪ ss_conns s) (<[cid := c]> (ss_heap s)) (ss_tokens s)
                                       (ss_conn_seq s) (ss_active_sessions s), ts)
| hs_disconnect s ts cid :
    hub_step aborts (s, ts) (remove_conns s [cid], ts)
| hs_check s ts cid sid c : ss_heap s !! cid = Some c -> cs_sessions c !! sid = None ->
    session_count c < cs_max_per_conn c ->
    hub_step aborts (s, ts) (s, TChecked cid sid :: ts)
| hs_acquire s ts1 cid sid ts2 s' : try_acquire_session s = (true, s') ->
    hub_step aborts (s, ts1 ++ TChecked cid sid :: ts2) (s', ts1 ++ TAcquired cid sid :: ts2)
| hs_full s ts1 cid sid ts2 s' : try_acquire_session s = (false, s') ->
    hub_step aborts (s, ts1 ++ TChecked cid sid :: ts2) (s', ts1 ++ ts2)
| hs_register s ts1 cid sid ts2 c c' now tok t : ss_heap s !! cid = Some c ->
    child_token (ss_tokens s) (cs_cancel c) = (tok, t) -> try_register_with now c sid tok = (true, c') ->
    hub_step aborts (s, ts1 ++ TAcquired cid sid :: ts2)
             (ss_set_heap s (<[cid := c']> (ss_heap s)) t, ts1 ++ TDialing cid sid :: ts2)
| hs_lost s ts1 cid sid ts2 c c' now tok t : ss_heap s !! cid = Some c ->
    child_token (ss_tokens s) (cs_cancel c) = (tok, t) -> try_register_with now c sid tok = (false, c') ->
    hub_step aborts (s, ts1 ++ TAcquired cid sid :: ts2)
             (ss_set_heap s (<[cid := c']> (ss_heap s)) t, ts1 ++ TReleasing :: ts2)
| hs_dialed s ts1 cid sid ts2 :
    hub_step aborts (s, ts1 ++ TDialing cid sid :: ts2) (s, ts1 ++ TPump cid sid :: ts2)
| hs_dial_failed s ts1 cid sid ts2 b s' : drop_at s cid sid = (b, s') ->
    hub_step aborts (s, ts1 ++ TDialing cid sid :: ts2) (s', after_drop b (ts1 ++ ts2))
| hs_pump_end s ts1 cid sid ts2 b s' : drop_at s cid sid = (b, s') ->
    hub_step aborts (s, ts1 ++ TPump cid sid :: ts2) (s', after_drop b (ts1 ++ ts2))
| hs_close s ts cid sid b s' : drop_at s cid sid = (b, s') ->
    hub_step aborts (s, ts) (s', after_drop b ts)
| hs_release s ts1 ts2 :
    hub_step aborts (s, ts1 ++ TReleasing :: ts2) (release_session s, ts1 ++ ts2)
| hs_abort s ts1 cid sid ts2 : aborts = true ->
    hub_step aborts (s, ts1 ++ TDialing cid sid :: ts2) (s, ts1 ++ ts2).

(** Quota units held by a task outside the session tables. *)
Definition holding (t : Task) : Z := match t with TAcquired _ _ | TReleasing => 1 | _ => 0 end.

Definition hub_inv (y : HubSys) : Prop := quota_inv (sumz holding y.2) y.1.

Lemma holding_nonneg ts : 0 <= sumz holding ts.
Proof. apply sumz_nonneg; intros []; cbn; lia. Qed.

Lemma drop_at_quota k s cid sid b s' : drop_at s cid sid = (b, s') -> quota_inv k s ->
  quota_inv (k + if b then 1 else 0) s'.
Proof.
  unfold drop_at; intros E (Hk & Ha & Hm). destruct (ss_heap s !! cid) as [c|] eqn:Ec; [|simplify_eq; by rewrite Z.add_0_r].
  destruct (drop_session (ss_tokens s) c sid) as [[b' t] c'] eqn:Ed; simplify_eq.
  pose proof (drop_session_count _ _ _ _ _ _ Ed). pose proof (map_sum_update session_count _ _ _ c' Ec) as Hu.
  unfold quota_inv, total_sessions in *; cbn; rewrite Hu. destruct b; lia.
Qed.

Lemma after_drop_sum b ts : sumz holding (after_drop b ts) = sumz holding ts + if b then 1 else 0.
Proof. destruct b; cbn [after_drop]; rewrite ?sumz_cons; cbn [holding]; lia. Qed.

Lemma quota_inv_eq k k' s : k = k' -> quota_inv k s -> quota_inv k' s.
Proof. by intros ->. Qed.

Lemma hub_inv_step aborts y y' : hub_inv y -> hub_step aborts y y' -> hub_inv y'.
Proof.
  unfold hub_inv; intros Hi Hs; destruct Hs; cbn [fst snd] in *; autorewrite with sumz in *; cbn [holding] in *; try done.
  - destruct Hi as (? & Ha & ?); unfold quota_inv, total_sessions in *; cbn.
    rewrite map_sum_insert by done. unfold session_count at 1; rewrite H0, map_size_empty. lia.
  - eapply quota_inv_eq; [|by eapply acquire_quota]. lia.
  - by apply try_acquire_heap in H as [_ ->].
  - eapply register_quota; [eapply quota_inv_eq; [|exact Hi]; lia| |done..].
    pose proof (holding_nonneg ts1); pose proof (holding_nonneg ts2); lia.
  - by eapply register_fail_quota.
  - rewrite after_drop_sum, sumz_app. by eapply drop_at_quota.
  - rewrite after_drop_sum, sumz_app. by eapply drop_at_quota.
  - rewrite after_drop_sum. by eapply drop_at_quota.
  - apply release_quota; [eapply quota_inv_eq; [|exact Hi]; lia|].
    pose proof (holding_nonneg ts1); pose proof (holding_nonneg ts2); lia.
Qed.

(** ** Every registered session has a task that will drop it *)

Definition owner (cid sid : Z) (t : Task) : Prop :=
  match t with TDialing c s | TPump c s => c = cid /\ s = sid | _ => False end.

Definition owned (y : HubSys) : Prop :=
  forall cid c sid, ss_heap y.1 !! cid = Some c -> is_Some (cs_sessions c !! sid) -> Exists (owner cid sid) y.2.

(** Replacing or removing the focused task keeps the others. *)
Lemma owner_keep cid sid ts1 t ts2 ts' : Exists (owner cid sid) (ts1 ++ t :: ts2) ->
  ~ owner cid sid t -> (forall x, Exists x (ts1 ++ ts2) -> Exists x ts') -> Exists (owner cid sid) ts'.
Proof.
  intros He Hn Hsub; apply Hsub. apply Exists_app in He as [He|He]; [apply Exists_app; by left|].
  apply Exists_cons in He as [?|?]; [done|apply Exists_app; by right].
Qed.

Lemma exists_mid {A} (Q : A -> Prop) l1 x l2 : Exists Q (l1 ++ l2) -> Exists Q (l1 ++ x :: l2).
Proof. rewrite !Exists_app, Exists_cons. tauto. Qed.

Lemma exists_after_drop b ts Q : Exists Q ts -> Exists Q (after_drop b ts).
Proof. destruct b; [by right|done]. Qed.

Lemma drop_at_heap s cid sid b s' : drop_at s cid sid = (b, s') ->
  forall cid' c' sid', ss_heap s' !! cid' = Some c' -> is_Some (cs_sessions c' !! sid') ->
  (exists c, ss_heap s !! cid' = Some c /\ is_Some (cs_sessions c !! sid')) /\ (cid' <> cid \/ sid' <> sid).
Proof.
  unfold drop_at; intros E cid' c' sid' Hc' Hs'. destruct (ss_heap s !! cid) as [c|] eqn:Ec; simplify_eq.
  - destruct (drop_session (ss_tokens s) c sid) as [[b' t] d] eqn:Ed; simplify_eq; cbn in Hc'.
    destruct (decide (cid' = cid)) as [->|Hne].
    + rewrite lookup_insert_eq in Hc'; simplify_eq.
      unfold drop_session in Ed; cbn in Ed. destruct (cs_sessions c !! sid) as [h|] eqn:Eh; simplify_eq; cbn in Hs'.
      * destruct Hs' as [h' [? ?]%lookup_delete_Some]. split; eauto.
      * split; [eauto|]. right; intros ->. rewrite Eh in Hs'; by destruct Hs'.
    + rewrite lookup_insert_ne in Hc' by done. split; eauto.
  - split; [eauto|]. left; intros ->; congruence.
Qed.

Lemma register_heap now c sid tok b c' : try_register_with now c sid tok = (b, c') ->
  forall sid', is_Some (cs_sessions c' !! sid') -> is_Some (cs_sessions c !! sid') \/ (b = true /\ sid' = sid).
Proof.
  unfold try_register_with; cbn; intros E sid' Hs. destruct (cs_sessions c !! sid) eqn:El; simplify_eq; cbn in Hs; [auto|].
  destruct (decide (sid' = sid)) as [->|Hne]; [auto|]. rewrite lookup_insert_ne in Hs by done; auto.
Qed.

Lemma owned_set s cid c c' ts t : ss_heap s !! cid = Some c -> owned (s, ts) ->
  (forall sid, is_Some (cs_sessions c' !! sid) -> is_Some (cs_sessions c !! sid) \/ Exists (owner cid sid) ts) ->
  owned (ss_set_heap s (<[cid := c']> (ss_heap s)) t, ts).
Proof.
  intros Hc Ho Hn cid' d sid Hd Hs; cbn in Hd. destruct (decide (cid' = cid)) as [->|Hne].
  - rewrite lookup_insert_eq in Hd; simplify_eq. destruct (Hn sid Hs) as [?|?]; [by eapply (Ho cid c)|done].
  - rewrite lookup_insert_ne in Hd by done. by eapply (Ho cid' d).
Qed.

Lemma owned_tasks s ts ts' : owned (s, ts) -> (forall cid sid, Exists (owner cid sid) ts -> Exists (owner cid sid) ts') ->
  owned (s, ts').
Proof. intros Ho Ht cid c sid Hc Hs; by apply Ht, (Ho cid c sid). Qed.

Lemma owned_drop s cid sid b s' ts ts' : drop_at s cid sid = (b, s') -> owned (s, ts) ->
  (forall c x, Exists (owner c x) ts -> c <> cid \/ x <> sid -> Exists (owner c x) ts') -> owned (s', ts').
Proof.
  intros Hd Ho Ht c' d x Hc Hs; cbn [fst] in Hc.
  destruct (drop_at_heap _ _ _ _ _ Hd c' d x Hc Hs) as [(c & Hc0 & Hs0) Hne].
  apply Ht; [by eapply (Ho c' c)|done].
Qed.

Lemma owned_step y y' : owned y -> hub_step false y y' -> owned y'.
Proof.
  assert (Hdrop : forall c x cid sid b ts1 t ts2, Exists (owner c x) (ts1 ++ t :: ts2) ->
     (forall c' x', owner c' x' t -> c' = cid /\ x' = sid) -> c <> cid \/ x <> sid ->
     Exists (owner c x) (after_drop b (ts1 ++ ts2))).
  { intros c x cid sid b ts1 t ts2 He Ht Hne; eapply owner_keep; [done| |intros; by apply exists_after_drop].
    intros Hw; apply Ht in Hw; naive_solver. }
  intros Ho Hs; destruct Hs.
  - intros cid' d sid' Hd Hs; cbn in Hd. destruct (decide (cid' = cid)) as [->|].
    + rewrite lookup_insert_eq in Hd; simplify_eq. rewrite H0, lookup_empty in Hs; by destruct Hs.
    + rewrite lookup_insert_ne in Hd by done. by eapply (Ho cid' d).
  - exact Ho.
  - eapply owned_tasks; [done|]. intros; by right.
  - apply try_acquire_heap in H as [E _]. intros cid' d sid' Hd Hs; cbn in Hd; rewrite E in Hd.
    eapply owner_keep; [by eapply (Ho cid' d)|cbn; tauto|]. intros; by apply exists_mid.
  - apply try_acquire_heap in H as [E _]. intros cid' d sid' Hd Hs; cbn in Hd; rewrite E in Hd.
    eapply owner_keep; [by eapply (Ho cid' d)|cbn; tauto|done].
  - eapply owned_set; [done| |].
    + eapply owned_tasks; [done|]. intros c0 s0 He. eapply owner_keep; [done|cbn; tauto|intros; by apply exists_mid].
    + intros sid' Hs'. destruct (register_heap _ _ _ _ _ _ H1 sid' Hs') as [?|[_ ->]]; [by left|].
      right; apply Exists_app; right; by left.
  - eapply owned_set; [done| |].
    + eapply owned_tasks; [done|]. intros c0 s0 He. eapply owner_keep; [done|cbn; tauto|intros; by apply exists_mid].
    + intros sid' Hs'. destruct (register_heap _ _ _ _ _ _ H1 sid' Hs') as [?|[? ?]]; [by left|done].
  - eapply owned_tasks; [done|]. intros c0 s0. rewrite !Exists_app, !Exists_cons. done.
  - eapply owned_drop; [done..|]. intros; eapply Hdrop; [done| |done]. cbn; intuition.
  - eapply owned_drop; [done..|]. intros; eapply Hdrop; [done| |done]. cbn; intuition.
  - eapply owned_drop; [done..|]. intros; by apply exists_after_drop.
  - intros cid' d sid' Hd Hs; eapply owner_keep; [by eapply (Ho cid' d)|cbn; tauto|done].
  - done.
Qed.

(** ** Properties *)

(** A server with no connection and no session. *)
Definition idle_server (s : ServerState) : Prop :=
  ss_heap s = ∅ /\ ss_active_sessions s = 0 /\ 0 <= ss_max_sessions s <= u64_max.

Lemma idle_quota s : idle_server s -> quota_inv 0 s.
Proof. intros (E & Ha & Hm); unfold quota_inv, total_sessions; rewrite E, map_sum_empty. lia. Qed.

(** C2: the session quota is exact. Under every interleaving of openers, dials,
    pumps, Close frames and releases (aborted workers included), the counter
    is the number of registered sessions plus the units in flight, never
    exceeds [max_sessions] and never wraps. *)
Theorem quota_exact aborts s s' ts : idle_server s -> star (hub_step aborts) (s, []) (s', ts) ->
  ss_active_sessions s' = total_sessions s' + sumz holding ts
  /\ 0 <= ss_active_sessions s' <= ss_max_sessions s'.
Proof.
  intros Hs Hr. pose proof (star_invariant _ hub_inv _ _ (hub_inv_step aborts) Hr (idle_quota s Hs)) as (Hk & Ha & Hm).
  cbn [fst snd] in *. pose proof (total_nonneg s'). lia.
Qed.

(** No quota leaks as long as no worker is aborted mid-dial: once every
    task has finished, no session is registered and the counter is back to
    zero. *)
Theorem quota_drains s s' : idle_server s -> star (hub_step false) (s, []) (s', []) ->
  ss_active_sessions s' = 0.
Proof.
  intros Hs Hr.
  pose proof (star_invariant _ hub_inv _ _ (hub_inv_step false) Hr (idle_quota s Hs)) as (_ & Ha & _).
  assert (Ho : owned (s', [])).
  { apply (star_invariant _ owned _ _ owned_step Hr). destruct Hs as [E _]. intros cid c sid Hc; cbn in Hc.
    rewrite E, lookup_empty in Hc; done. }
  cbn in Ha; rewrite Ha, Z.add_0_r. apply map_sum_zero. intros cid c Hc. unfold session_count.
  destruct (decide (cs_sessions c = ∅)) as [->|Hne]; [done|].
  apply map_choose in Hne as (sid & h & Hh). specialize (Ho cid c sid Hc ltac:(eauto)). by inv Ho.
Qed.

(** The quota stays exact through the fallback mux: whatever frames a
    channel carries, with up to 32 workers in any order, the counter equals the
    registered sessions of all connections. *)
Theorem mux_keeps_quota lh conn budget bind cid w l :
  hub_ok w -> star (@mux_step HubWorld (Hooks lh conn budget bind cid))
                   {| ml_world := w; ml_workers := []; ml_sent := [] |} l ->
  ss_active_sessions (hw_st (ml_world l)) = total_sessions (hw_st (ml_world l))
  /\ ss_active_sessions (hw_st (ml_world l)) <= ss_max_sessions (hw_st (ml_world l)).
Proof.
  intros Hw Hs; apply (mux_step_keeps hub_ok) in Hs as (_ & Ha & Hm); [lia|done].
Qed.

(** Admission without interference respects the per-connection cap: a
    session is only registered below the cap and under a free sid, and a
    refusal leaves the quota and the sessions as they were. *)
Theorem admit_spec now st cid sid c : quota_inv 0 st -> ss_heap st !! cid = Some c ->
  match hooks_admit now st cid sid with
  | (Ok tok, st') => cs_sessions c !! sid = None /\ session_count c < cs_max_per_conn c
      /\ ss_active_sessions st' = ss_active_sessions st + 1
      /\ exists c', ss_heap st' !! cid = Some c' /\ cs_sessions c' = <[sid := sh_from_token now tok]> (cs_sessions c)
  | (Err e, st') => st' = st /\ ((e = Denied /\ is_Some (cs_sessions c !! sid))
      \/ (e = OLimit /\ (cs_max_per_conn c <= session_count c \/ ss_max_sessions st <= ss_active_sessions st)))
  end.
Proof.
  intros Hq Hc; unfold hooks_admit; rewrite Hc.
  destruct (bool_decide_reflect (is_Some (cs_sessions c !! sid))) as [?|Hn]; [auto|].
  destruct (Z.leb_spec (cs_max_per_conn c) (session_count c)); [auto|].
  unfold try_acquire_session. destruct (Z.leb_spec (ss_max_sessions st) (ss_active_sessions st)); [auto 6|].
  apply eq_None_not_Some in Hn. unfold try_register_with; cbn. rewrite Hn. cbn.
  split_and!; [done|lia|done|]. eexists; by rewrite lookup_insert_eq.
Qed.

(** ** Findings *)

Module HubWitness.

Definition blank : ServerState := {|
  ss_static_keys := ∅; ss_conns := ∅; ss_heap := ∅; ss_tokens := tk_empty; ss_conn_seq := 1;
  ss_active_sessions := 0; ss_max_sessions := 200; ss_rate_mbps := 0; ss_rates := ∅; ss_idle := 0;
  ss_allow_private_targets := false; ss_unauth := ug_new 1 1; ss_seen_nonces := ∅; ss_path := [];
  ss_max_plaintext := 16384; ss_udp_dns := ∅; ss_udp_dns_ttl := 0 |}.

Definition conn (cap : Z) : ConnState := {|
  cs_id := 1; cs_uid := []; cs_cipher := {| fc_key := [] |}; cs_stream_counters := cg_stream_server;
  cs_cancel := 0; cs_sessions := ∅; cs_tcp_routes := ∅; cs_udp_routes := ∅; cs_max_per_conn := cap;
  cs_last_active := 0; cs_limit := 16384 |}.

Lemma blank_idle : idle_server blank.
Proof. split_and!; [done|done|vm_compute; discriminate|vm_compute; discriminate]. Qed.

(** One session opened on a fresh connection, up to its dial. *)
Lemma dialing aborts cap : 0 < cap -> exists s,
  star (hub_step aborts) (blank, []) (s, [TDialing 1 7]) /\ ss_active_sessions s = 1
  /\ ss_conns s = {[1]} /\ exists c, ss_heap s = {[1 := c]}.
Proof.
  intros Hc. eexists; split.
  - eapply star_step; [apply (hs_connect _ blank [] 1 (conn cap)); done|].
    eapply star_step; [eapply (hs_check _ _ _ 1 7 (conn cap)); [done|done|exact Hc]|].
    eapply star_step; [eapply (hs_acquire _ _ []); reflexivity|].
    eapply star_step; [eapply (hs_register _ _ [] 1 7 [] (conn cap) _ 0); reflexivity|].
    apply star_refl.
  - split_and!; [done|done|]. eexists; done.
Qed.

End HubWitness.

(** Aborting a worker while it dials leaks its quota unit for good: there
    is an execution after which no task is left and no connection is in the
    table, yet the counter is 1, and no pass of the reaper ever lowers it. *)
Theorem quota_leak_on_abort : exists s s', idle_server s /\ star (hub_step true) (s, []) (s', [])
  /\ ss_active_sessions s' = 1 /\ ss_conns s' = ∅ /\ forall now, ss_active_sessions (reap_idle now s') = 1.
Proof.
  destruct (HubWitness.dialing true 64 ltac:(lia)) as (s & Hr & Ha & Hc & _).
  exists HubWitness.blank, (remove_conns s [1]). split; [apply HubWitness.blank_idle|]. split.
  - eapply star_trans; [exact Hr|]. eapply star_step; [apply (hs_abort true s [] 1 7 []); done|].
    eapply star_step; [apply (hs_disconnect true s [] 1)|]. apply star_refl.
  - assert (Hcs : ss_conns (remove_conns s [1]) = ∅) by (cbn; rewrite Hc; set_solver).
    split_and!; [done|done|]. intros now; unfold reap_idle. rewrite Hcs, elements_empty. done.
Qed.

(** The per-connection cap is checked before the quota is taken, not
    atomically with the registration: two openers that pass the check together
    both register, above a cap of one. *)
Theorem per_conn_cap_race : exists s s' c, idle_server s
  /\ star (hub_step false) (s, []) (s', [TDialing 1 8; TDialing 1 7])
  /\ ss_heap s' !! 1 = Some c /\ cs_max_per_conn c = 1 /\ session_count c = 2.
Proof.
  exists HubWitness.blank. eexists _, _. split; [apply HubWitness.blank_idle|]. split.
  - eapply star_step; [apply (hs_connect _ HubWitness.blank [] 1 (HubWitness.conn 1)); done|].
    eapply star_step; [eapply (hs_check _ _ _ 1 7 (HubWitness.conn 1)); [done|done|reflexivity]|].
    eapply star_step; [eapply (hs_check _ _ _ 1 8 (HubWitness.conn 1)); [done|done|reflexivity]|].
    eapply star_step; [eapply (hs_acquire _ _ [] 1 8); reflexivity|].
    eapply star_step; [eapply (hs_acquire _ _ [_] 1 7); reflexivity|].
    eapply star_step; [eapply (hs_register _ _ [] 1 8 _ _ _ 0); reflexivity|].
    eapply star_step; [eapply (hs_register _ _ [_] 1 7 _ _ _ 0); reflexivity|].
    apply star_refl.
  - split; [reflexivity|]. split; reflexivity.
Qed.

(** ** Witnesses *)

Module HubPropertyWitness.
Import HubWitness.

Lemma quota_exact_witness : exists s, ss_active_sessions s = total_sessions s + sumz holding [TDialing 1 7]
  /\ 0 <= ss_active_sessions s <= ss_max_sessions s.
Proof.
  destruct (dialing true 64 ltac:(lia)) as (s & Hr & _). exists s.
  apply (quota_exact true blank s [TDialing 1 7] blank_idle Hr).
Defined.

Lemma quota_drains_witness : exists s, star (hub_step false) (blank, []) (s, []) /\ ss_active_sessions s = 0.
Proof.
  destruct (dialing false 64 ltac:(lia)) as (s & Hr & _).
  destruct (drop_at s 1 7) as [b s1] eqn:Ed.
  assert (Hend : exists s2, star (hub_step false) (blank, []) (s2, [])).
  { destruct b.
    - exists (release_session s1). eapply star_trans; [exact Hr|].
      eapply star_step; [apply (hs_dial_failed false s [] 1 7 [] true s1 Ed)|].
      eapply star_step; [apply (hs_release false s1 [] [])|]. apply star_refl.
    - exists s1. eapply star_trans; [exact Hr|].
      eapply star_step; [apply (hs_dial_failed false s [] 1 7 [] false s1 Ed)|]. apply star_refl. }
  destruct Hend as [s2 H2]. exists s2; split; [exact H2|]. exact (quota_drains blank s2 blank_idle H2).
Defined.

Definition world : HubWorld := {|
  hw_st := ss_with_sessions blank {[1]} {[1 := conn 64]} tk_empty 2 0;
  hw_now := 0; hw_instant := 0; hw_pumps := []; hw_rx_gone := ∅; hw_udp_sent := [] |}.
Definition open_frame : Frame := {|
  f_ftype := FOpen; f_flags := 0; f_sid := 7; f_counter := 2; f_aad := [];
  f_payload := encode_open (str "8.8.8.8") 53 |}.

#[local] Instance hooks : ServerHooks HubWorld :=
  Hooks (fun _ _ => None) (fun _ => Some 3) 4%nat (fun _ => None) 1.

Lemma world_ok : hub_ok world.
Proof. unfold hub_ok, quota_inv; vm_compute; intuition discriminate. Qed.

Lemma mux_keeps_quota_witness : exists l,
  star (@mux_step HubWorld hooks) {| ml_world := world; ml_workers := []; ml_sent := [] |} l
  /\ ml_sent l = [out FOpenOk 0 7 []] /\ ss_active_sessions (hw_st (ml_world l)) = 1
  /\ ss_active_sessions (hw_st (ml_world l)) = total_sessions (hw_st (ml_world l)).
Proof.
  assert (Hs : star (@mux_step HubWorld hooks) {| ml_world := world; ml_workers := []; ml_sent := [] |}
    {| ml_world := (handle_server_frame world open_frame).2; ml_workers := [];
       ml_sent := [out FOpenOk 0 7 []] |}).
  { eapply star_step; [apply (ms_spawn _ open_frame); vm_compute; reflexivity|].
    eapply star_step; [|apply star_refl].
    apply (ms_worker {| ml_world := world; ml_workers := [open_frame]; ml_sent := [] |} open_frame [] []
             [out FOpenOk 0 7 []] (handle_server_frame world open_frame).2); [reflexivity|].
    rewrite (surjective_pairing (handle_server_frame world open_frame)) at 1. f_equal. }
  eexists; split; [exact Hs|]. split; [reflexivity|]. split; [vm_compute; reflexivity|].
  exact (proj1 (mux_keeps_quota (fun _ _ => None) (fun _ => Some 3) 4%nat (fun _ => None) 1 world _ world_ok Hs)).
Defined.

Lemma admit_spec_witness : exists tok st', hooks_admit 5 (hw_st world) 1 9 = (Ok tok, st')
  /\ ss_active_sessions st' = 1.
Proof.
  pose proof (admit_spec 5 (hw_st world) 1 9 (conn 64) world_ok eq_refl) as H.
  destruct (hooks_admit 5 (hw_st world) 1 9) as [[tok|e] st'] eqn:E.
  - exists tok, st'; split; [reflexivity|]. destruct H as (_ & _ & H & _). rewrite H. reflexivity.
  - exfalso. vm_compute in E. discriminate.
Defined.

End HubPropertyWitness.
