(* ===== verification/Pumps.v ===== *)
(** * The byte pumps of a TCP session: [server/hub.rs], third part

    The four loops that carry a session's bytes between the tunnel and the
    target socket (two for the fallback mux, two for a WebTransport stream), the
    lifecycle of a WebTransport stream up to its pumps, and the delivery of the
    mux's frames to the session they name. A loop is a function of the events
    its [select!] sees, in order; it ends with the first event that breaks it,
    and is still running when the events are used up. *)

From S2P Require Import Prelude Bytes Crypto Frame Addr Net Ip Limit State Egress Mux Hub.

(** ** Where a pump's frames go *)

(** A frame output: [FrameSink::send] and [FrameWriter::write] under one name.
    [Env] is what the outside decides about one send. *)
Class FrameOut (Env S : Type) := frame_send : Env -> S -> FrameType -> Z -> Z -> bytes -> result msg unit * S.

Section outputs.
Context {P : Prims}.

(** The sink of a fallback channel: the datagram limit and outcome. *)
#[global] Instance sink_out : FrameOut (option Z * bool) (FrameSink * SinkState) :=
  fun env s t fl sid payload =>
    let '(r, sink, st) := sink_send env.1 env.2 s.1 s.2 t fl sid payload in (r, (sink, st)).

(** The counter of a direction is shared by all streams of a connection:
    before a write, other streams may have taken [n] values of it. *)
Definition fw_skip (n : nat) (w : FrameWriter) : FrameWriter :=
  {| fw_out := fw_out w;
     fw_enc := {| fe_cipher := fe_cipher (fw_enc w);
                  fe_counters := {| cg_base := cg_base (fe_counters (fw_enc w));
                                    cg_next := wrap 64 (cg_next (fe_counters (fw_enc w)) + Z.of_nat n) |};
                  fe_limit := fe_limit (fw_enc w) |} |}.

(** The writer of a WebTransport stream: the values others took, and the
    outcome of [write_all]. *)
#[global] Instance stream_out : FrameOut (nat * result msg unit) FrameWriter :=
  fun env w t fl sid payload => fw_write env.2 (fw_skip env.1 w) t fl sid payload.

End outputs.

(** ** Target to client *)

Definition READ_BUF : Z := 16 * 1024.

(** The token was cancelled, or a read of the target returned ([Ok []] is end
    of file), with what the outside decides about the send that follows. *)
Inductive OutEvent (Env : Type) := OCancelled | ORead (r : result msg bytes) (e : Env).
Arguments OCancelled {Env}. Arguments ORead {Env} r e.

Section target_to_client.
Context {Env S : Type} {F : FrameOut Env S} (cid sid : Z).

(** The loop: the world, the output, and whether it ended. *)
Fixpoint target_to_client (w : HubWorld) (s : S) (evs : list (OutEvent Env)) : HubWorld * S * bool :=
  match evs with
  | [] => (w, s, false)
  | OCancelled :: _ => (w, s, true)
  | ORead (Ok []) e :: _ => (w, (frame_send e s FData FLAG_FIN sid []).2, true)
  | ORead (Ok data) e :: t =>
    let w := hub_touch cid sid w in
    match frame_send e s FData 0 sid data with
    | (Ok _, s) => target_to_client w s t
    | (Err _, s) => (w, s, true)
    end
  | ORead (Err _) e :: _ => (w, (frame_send e s FClose FLAG_RST sid []).2, true)
  end.

(** The whole task: it owns the teardown of the session. For a WebTransport
    stream ([spawn_wt_target_to_client]) the last component is also whether the
    stream was finished. *)
Definition pump_out (w : HubWorld) (s : S) (evs : list (OutEvent Env)) : HubWorld * S * bool :=
  let '(w, s, ended) := target_to_client w s evs in
  (if ended then hw_set w (drop_and_release (hw_st w) cid sid) else w, s, ended).

(** The frames a run sends, with the event of each. *)
Fixpoint pump_frames (evs : list (OutEvent Env)) : list (Env * OutFrame) :=
  match evs with
  | [] | OCancelled :: _ => []
  | ORead (Ok []) e :: _ => [(e, out FData FLAG_FIN sid [])]
  | ORead (Ok data) e :: t => (e, out FData 0 sid data) :: pump_frames t
  | ORead (Err _) e :: _ => [(e, out FClose FLAG_RST sid [])]
  end.

Definition send_frame (s : S) (x : Env * OutFrame) : S :=
  (frame_send x.1 s (of_ftype x.2) (of_flags x.2) (of_sid x.2) (of_payload x.2)).2.

Lemma hub_touch_ok w : hub_ok w -> hub_ok (hub_touch cid sid w).
Proof. intros; apply hw_conn_ok; [intros; apply touch_count|done]. Qed.

Lemma target_to_client_ok evs : forall w s, hub_ok w -> hub_ok (target_to_client w s evs).1.1.
Proof.
  induction evs as [|[|[[|x b]|e] v] evs IH]; intros w s Hw; cbn [target_to_client]; try done.
  apply hub_touch_ok in Hw. destruct (frame_send v s FData 0 sid (x :: b)) as [[] s']; [by apply IH|done].
Qed.

Lemma pump_out_ok evs w s : hub_ok w -> hub_ok (pump_out w s evs).1.1.
Proof.
  intros Hw; unfold pump_out; pose proof (target_to_client_ok evs w s Hw) as H.
  destruct (target_to_client w s evs) as [[w' s'] []]; cbn in *; [by apply drop_and_release_quota|done].
Qed.

(** When the sends succeed, the output is the frames in order. *)
Lemma pump_out_sends (ready : S -> Prop) (good : Env * OutFrame -> Prop) evs :
  (forall s e m, ready s -> good (e, m) ->
     (frame_send e s (of_ftype m) (of_flags m) (of_sid m) (of_payload m)).1 = Ok tt /\ ready (send_frame s (e, m))) ->
  Forall good (pump_frames evs) -> forall w s, ready s ->
  (pump_out w s evs).1.2 = fold_left send_frame (pump_frames evs) s.
Proof.
  intros Hg; unfold pump_out. induction evs as [|[|[[|x b]|e] v] evs IH]; intros Hf w s Hs; cbn; try done.
  inv Hf. cbn [pump_frames fold_left]. destruct (Hg s v (out FData 0 sid (x :: b)) Hs) as [E Hr]; [done|].
  unfold send_frame in Hr at 1; cbn in E, Hr.
  destruct (frame_send v s FData 0 sid (x :: b)) as [r s'] eqn:Ef; cbn in E, Hr; subst r.
  unfold send_frame at 2; cbn; rewrite Ef. by apply IH.
Qed.

End target_to_client.

(** ** Client to target *)

(** The write half of the target socket: the bytes it took, and whether it was
    shut down. *)
Record TargetSock := { ts_out : bytes; ts_shut : bool }.

Definition ts_write (t : TargetSock) (b : bytes) : TargetSock := {| ts_out := ts_out t ++ b; ts_shut := ts_shut t |}.
Definition ts_shutdown (t : TargetSock) : TargetSock := {| ts_out := ts_out t; ts_shut := true |}.

(** The fallback mux: the token was cancelled, or the session's route gave an
    entry ([None] once every sender is gone); [io] is the outcome of the write. *)
Inductive InEvent := ICancelled | IRecv (m : option (bytes * bool)) (io : bool).

Fixpoint mux_client_to_target (t : TargetSock) (evs : list InEvent) : TargetSock * bool :=
  match evs with
  | [] => (t, false)
  | ICancelled :: _ => (t, true)
  | IRecv None _ :: _ => (t, true)
  | IRecv (Some (data, fin)) io :: evs =>
    if negb io then (t, true)
    else if fin then (ts_shutdown (ts_write t data), true)
    else mux_client_to_target (ts_write t data) evs
  end.

(** A WebTransport stream: a read of the frame reader returned. *)
Inductive StreamEvent := WCancelled | WRead (r : result msg (option Frame)) (io : bool).

(** How the loop stands: running, over with the session kept (a half-close),
    or over with the session dropped. *)
Inductive PumpEnd := PRunning | PHalfClosed | PAborted.

Section client_to_target.
Context (cid sid : Z).

Fixpoint wt_client_loop (w : HubWorld) (t : TargetSock) (evs : list StreamEvent) : HubWorld * TargetSock * PumpEnd :=
  match evs with
  | [] => (w, t, PRunning)
  | WCancelled :: _ => (w, t, PAborted)
  | WRead (Ok (Some f)) io :: evs =>
    match f_ftype f with
    | FData =>
      let w := hub_touch cid sid w in
      if negb io then (w, t, PAborted)
      else
        let t := ts_write t (f_payload f) in
        if has_flag (f_flags f) FLAG_FIN then (w, ts_shutdown t, PHalfClosed) else wt_client_loop w t evs
    | FClose => if has_flag (f_flags f) FLAG_FIN then (w, ts_shutdown t, PHalfClosed) else (w, t, PAborted)
    | _ => wt_client_loop w t evs
    end
  | WRead (Ok None) _ :: _ => (w, ts_shutdown t, PHalfClosed)
  | WRead (Err _) _ :: _ => (w, t, PAborted)
  end.

Definition wt_client_to_target (w : HubWorld) (t : TargetSock) (evs : list StreamEvent)
  : HubWorld * TargetSock * PumpEnd :=
  let '(w, t, e) := wt_client_loop w t evs in
  (match e with PAborted => hw_set w (drop_and_release (hw_st w) cid sid) | _ => w end, t, e).

Lemma wt_client_loop_ok evs : forall w t, hub_ok w -> hub_ok (wt_client_loop w t evs).1.1.
Proof.
  induction evs as [|[|[[f|]|e] io] evs IH]; intros w t Hw; cbn [wt_client_loop]; try done.
  destruct (f_ftype f); try (by apply IH).
  - destruct (negb io); [by apply hub_touch_ok|].
    destruct (has_flag _ _); [|apply IH]; by apply hub_touch_ok.
  - by destruct (has_flag _ _).
Qed.

Lemma wt_client_to_target_ok evs w t : hub_ok w -> hub_ok (wt_client_to_target w t evs).1.1.
Proof.
  intros Hw; unfold wt_client_to_target; pose proof (wt_client_loop_ok evs w t Hw) as H.
  destruct (wt_client_loop w t evs) as [[w' t'] []]; cbn in *; try done. by apply drop_and_release_quota.
Qed.

End client_to_target.

(** ** A WebTransport stream up to its pumps *)

(** How [handle_wt_stream] returned: without a word, after a refusal, when its
    acknowledgement could not be written, or with the pumps running. *)
Inductive StreamOutcome := SSilent | SRefused (e : OpenError) | SLost | SRunning (sid sock : Z).

Section stream.
Context {P : Prims}.
Context (lookup_host : bytes -> Z -> option (list SocketAddr)) (connect : SocketAddr -> option Z) (budget : nat)
        (cid : Z).

(** The quota and the registration, after the checks of the first frame; the
    answer is the code to refuse with. *)
Definition stream_admit (w : HubWorld) (c : ConnState) (sid : Z) : result OpenError unit * HubWorld :=
  if cs_max_per_conn c <=? session_count c then (Err OLimit, w)
  else match try_acquire_session (hw_st w) with
       | (false, st) => (Err OLimit, hw_set w st)
       | (true, st) =>
         let '(token, t) := child_token (ss_tokens st) (cs_cancel c) in
         match try_register_with (hw_now w) c sid token with
         | (true, c') => (Ok tt, hw_set w (ss_set_heap st (<[cid := c']> (ss_heap st)) t))
         | (false, c') => (Err Denied, hw_set w (release_session (ss_set_heap st (<[cid := c']> (ss_heap st)) t)))
         end
       end.

(** [handle_wt_stream] after the timed read of the first frame ([None]: the
    timeout, an error or the end of the stream); [env] decides the one reply. *)
Definition handle_wt_stream (w : HubWorld) (wr : FrameWriter) (first : option Frame) (env : nat * result msg unit)
  : StreamOutcome * HubWorld * FrameWriter :=
  match first, ss_heap (hw_st w) !! cid with
  | Some f, Some c =>
    if bool_decide (f_ftype f <> FOpen) then (SSilent, w, wr)
    else
      let sid := f_sid f in
      let refuse e := (frame_send env wr FOpenErr 0 sid [to_code e]).2 in
      let dropped w := hw_set w (drop_and_release (hw_st w) cid sid) in
      if bool_decide (is_Some (cs_sessions c !! sid)) then (SSilent, w, wr)
      else match stream_admit w c sid with
           | (Err e, w) => (SRefused e, w, refuse e)
           | (Ok _, w) =>
             match decode_open (f_payload f) with
             | Err _ => (SRefused BadTarget, dropped w, refuse BadTarget)
             | Ok (host, port) =>
               match (dial_target lookup_host connect budget host port (ss_allow_private_targets (hw_st w))).1 with
               | Err e => (SRefused e, dropped w, refuse e)
               | Ok sock =>
                 match frame_send env wr FOpenOk 0 sid [] with
                 | (Err _, wr) => (SLost, dropped w, wr)
                 | (Ok _, wr) => (SRunning sid sock, w, wr)
                 end
               end
             end
           end
  | _, _ => (SSilent, w, wr)
  end.

(** The sessions of every connection object, as the tables hold them. *)
Definition sessions_of (w : HubWorld) (i : Z) : option (gmap Z SessionHandle) := cs_sessions <$> ss_heap (hw_st w) !! i.

Lemma stream_admit_spec w c sid : hub_ok w -> ss_heap (hw_st w) !! cid = Some c -> cs_sessions c !! sid = None ->
  match stream_admit w c sid with
  | (Ok _, w') => hub_ok w' /\ session_count c < cs_max_per_conn c /\
      ss_active_sessions (hw_st w') = ss_active_sessions (hw_st w) + 1 /\
      (exists h, sessions_of w' cid = Some (<[sid := h]> (cs_sessions c))) /\
      (forall i, i <> cid -> sessions_of w' i = sessions_of w i) /\
      ss_allow_private_targets (hw_st w') = ss_allow_private_targets (hw_st w)
  | (Err e, w') => w' = w /\ e = OLimit /\
      (cs_max_per_conn c <= session_count c \/ ss_max_sessions (hw_st w) <= ss_active_sessions (hw_st w))
  end.
Proof.
  intros Hw Hc Hs; unfold stream_admit. destruct (Z.leb_spec (cs_max_per_conn c) (session_count c)); [auto|].
  destruct (try_acquire_session (hw_st w)) as [b st] eqn:Ea; pose proof (try_acquire_heap _ _ _ Ea) as [Eh Ef].
  pose proof Ea as Ea'; unfold try_acquire_session in Ea'; cbv zeta in Ea'.
  destruct (Z.leb_spec (ss_max_sessions (hw_st w)) (ss_active_sessions (hw_st w))); simplify_eq; [by destruct w; auto|].
  apply (acquire_quota 0) in Ea; [|done].
  assert (Hr : forall tok, try_register_with (hw_now w) c sid tok
     = (true, cs_set_sessions (cs_set_active c (hw_now w)) (<[sid := sh_from_token (hw_now w) tok]> (cs_sessions c)))).
  { intros; unfold try_register_with; cbn; by rewrite Hs. }
  unfold child_token; rewrite Hr; cbn [fst snd]. split_and!; try done.
  - eapply (register_quota 0); [exact Ea|lia|exact Hc|apply Hr].
  - exists (sh_from_token (hw_now w) (tk_next (ss_tokens (hw_st w)))). unfold sessions_of; cbn. by rewrite lookup_insert_eq.
  - intros i Hi; unfold sessions_of; cbn. by rewrite lookup_insert_ne.
Qed.

(** Dropping a session that is registered. *)
Lemma drop_registered w sid m h : hub_ok w -> sessions_of w cid = Some m -> m !! sid = Some h ->
  let w' := hw_set w (drop_and_release (hw_st w) cid sid) in
  hub_ok w' /\ ss_active_sessions (hw_st w') = ss_active_sessions (hw_st w) - 1 /\
  sessions_of w' cid = Some (delete sid m) /\ forall i, i <> cid -> sessions_of w' i = sessions_of w i.
Proof.
  intros Hw Hm Hh; cbn zeta; unfold sessions_of in *. apply fmap_Some in Hm as (c & Hc & ->).
  pose proof (drop_and_release_quota 0 (hw_st w) cid sid Hw) as Hq. split; [exact Hq|].
  unfold drop_and_release in *; rewrite Hc in *; unfold drop_session in *; cbn [cs_sessions cs_set_routes] in *;
    rewrite Hh in *; cbn in *.
  split_and!.
  - destruct Hw as (? & Ha & ?). pose proof (total_nonneg (hw_st w)).
    pose proof (map_sum_lookup session_count (ss_heap (hw_st w)) cid c) as Hl.
    assert (1 <= session_count c).
    { unfold session_count. assert (size (cs_sessions c) <> 0%nat); [|lia].
      apply map_size_non_empty_iff; intros E; by rewrite E, lookup_empty in Hh. }
    apply wrap_small. unfold total_sessions in *. specialize (Hl ltac:(intros; unfold session_count; lia) Hc).
    unfold u64_max in *; lia.
  - by rewrite lookup_insert_eq.
  - intros i Hi; by rewrite lookup_insert_ne.
Qed.

(** A stream keeps the quota exact, whatever it does. *)
Lemma handle_wt_stream_ok w wr first env : hub_ok w -> hub_ok (handle_wt_stream w wr first env).1.2.
Proof.
  intros Hw; unfold handle_wt_stream. destruct first as [f|]; [|done].
  destruct (ss_heap (hw_st w) !! cid) as [c|] eqn:Hc; [|done]. destruct (bool_decide _); [done|].
  destruct (bool_decide_reflect (is_Some (cs_sessions c !! f_sid f))) as [|Hs]; [done|]. apply eq_None_not_Some in Hs.
  pose proof (stream_admit_spec w c (f_sid f) Hw Hc Hs) as Ha.
  destruct (stream_admit w c (f_sid f)) as [[u|e] w1]; [|by destruct Ha as (-> & _)]. destruct Ha as (Hw1 & _).
  pose proof (drop_and_release_quota 0 (hw_st w1) cid (f_sid f) Hw1) as Hd.
  destruct (decode_open (f_payload f)) as [[host port]|]; [|done].
  destruct (dial_target _ _ _ _ _ _).1; [|done]. by destruct (frame_send _ _ _ _ _ _) as [[] ?].
Qed.


End stream.

(** ** Delivery of a channel's frames to a session *)

Section trace.
Context {W : Type} {H : ServerHooks W}.

(** A run of the mux loop over the frames that arrive, in order, with the order
    in which their handlers ran: workers run when they are scheduled, the other
    frames at once. *)
Inductive mux_trace : @MuxLoop W -> list Frame -> list Frame -> @MuxLoop W -> Prop :=
| mt_done l : mux_trace l [] [] l
| mt_spawn l f arr hnd l' : is_concurrent (f_ftype f) = true -> len (ml_workers l) < MAX_MUX_TASKS ->
    mux_trace {| ml_world := ml_world l; ml_workers := f :: ml_workers l; ml_sent := ml_sent l |} arr hnd l' ->
    mux_trace l (f :: arr) hnd l'
| mt_inline l f fs w arr hnd l' : is_concurrent (f_ftype f) = false -> handle_server_frame (ml_world l) f = (fs, w) ->
    mux_trace {| ml_world := w; ml_workers := ml_workers l; ml_sent := ml_sent l ++ fs |} arr hnd l' ->
    mux_trace l (f :: arr) (f :: hnd) l'
| mt_worker l f ws1 ws2 fs w arr hnd l' : ml_workers l = ws1 ++ f :: ws2 ->
    handle_server_frame (ml_world l) f = (fs, w) ->
    mux_trace {| ml_world := w; ml_workers := ws1 ++ ws2; ml_sent := ml_sent l ++ fs |} arr hnd l' ->
    mux_trace l arr (f :: hnd) l'.

Lemma mux_trace_star l arr hnd l' : mux_trace l arr hnd l' -> star mux_step l l'.
Proof.
  induction 1; [apply star_refl|..]; (eapply star_step; [|eassumption]).
  - by apply ms_spawn.
  - by eapply ms_inline.
  - by eapply ms_worker.
Qed.

(** The workers hold frames of the concurrent types only. *)
Definition workers_ok (l : @MuxLoop W) : Prop :=
  Forall (fun f => is_concurrent (f_ftype f) = true) (ml_workers l).

Definition inline (f : Frame) : bool := negb (is_concurrent (f_ftype f)).

Lemma concurrent_inline f : is_concurrent (f_ftype f) = true -> inline f = false.
Proof. unfold inline; by intros ->. Qed.

(** The order of arrival is kept for the frames handled inline, and the world
    is the one the handlers made. *)
Lemma mux_trace_inline l arr hnd l' : mux_trace l arr hnd l' -> workers_ok l ->
  List.filter inline hnd = List.filter inline arr /\
  ml_world l' = fold_left (fun w f => (handle_server_frame w f).2) hnd (ml_world l).
Proof.
  unfold workers_ok; induction 1 as [l|l f arr hnd l' Hf _ _ IH|l f fs w arr hnd l' Hf He _ IH|l f ws1 ws2 fs w arr hnd l' Hws He _ IH];
    intros Hok; cbn [List.filter fold_left] in *; [done|..].
  - destruct IH as [-> ->]; [by constructor|]. by rewrite (concurrent_inline f Hf).
  - destruct IH as [-> ->]; [done|]. assert (inline f = true) as -> by (unfold inline; by rewrite Hf). by rewrite He.
  - rewrite Hws in Hok. apply Forall_app in Hok as [H1 H2]; inv H2.
    destruct IH as [-> ->]; [by apply Forall_app|]. rewrite concurrent_inline by done. by rewrite He.
Qed.

End trace.

(** What a frame puts on the route of its session, and whether it ends it. *)
Definition feeds (f : Frame) : list (bytes * bool) :=
  match f_ftype f with
  | FData => [(f_payload f, has_flag (f_flags f) FLAG_FIN)]
  | FClose => [([], true)]
  | _ => []
  end.

Definition ends_session (f : Frame) : bool :=
  match f_ftype f with
  | FData => has_flag (f_flags f) FLAG_RST
  | FClose => negb (has_flag (f_flags f) FLAG_FIN && negb (has_flag (f_flags f) FLAG_RST))
  | FError => true
  | _ => false
  end.

Definition route_view (sid : Z) (fs : list Frame) : list (bytes * bool) :=
  concat (map feeds (List.filter (fun f => f_sid f =? sid) fs)).

Lemma feeds_inline f : inline f = false -> feeds f = [].
Proof. unfold inline, feeds; by destruct (f_ftype f). Qed.

Lemma ends_inline f : inline f = false -> ends_session f = false.
Proof. unfold inline, ends_session; by destruct (f_ftype f). Qed.

Lemma route_view_cons sid f fs : route_view sid (f :: fs) = (if f_sid f =? sid then feeds f else []) ++ route_view sid fs.
Proof. unfold route_view; cbn; by destruct (f_sid f =? sid). Qed.

Lemma route_view_inline sid fs : route_view sid (List.filter inline fs) = route_view sid fs.
Proof.
  induction fs as [|f fs IH]; [done|]; cbn [List.filter]. destruct (inline f) eqn:E; rewrite !route_view_cons, ?IH; [done|].
  rewrite feeds_inline by done; by destruct (_ =? _).
Qed.

Section demux.
Context (lookup_host : bytes -> Z -> option (list SocketAddr)) (connect : SocketAddr -> option Z) (budget : nat)
        (bind : bool -> option Z) (cid sid : Z).

#[local] Instance demux_hooks : ServerHooks HubWorld := Hooks lookup_host connect budget bind cid.

(** The session is registered on the connection, and its route holds [q]. *)
Definition on_route (st : ServerState) (q : list (bytes * bool)) : Prop :=
  exists c, ss_heap st !! cid = Some c /\ is_Some (cs_sessions c !! sid) /\ cs_tcp_routes c !! sid = Some q.

(** ... and its pump still reads the route. *)
Definition serves (w : HubWorld) (q : list (bytes * bool)) : Prop := on_route (hw_st w) q /\ sid ∉ hw_rx_gone w.

Lemma on_route_heap s s' q : ss_heap s' = ss_heap s -> on_route s q -> on_route s' q.
Proof. unfold on_route; by intros ->. Qed.

Lemma on_route_insert s c c' q q' t : ss_heap s !! cid = Some c -> on_route s q ->
  (is_Some (cs_sessions c !! sid) -> is_Some (cs_sessions c' !! sid)) ->
  (cs_tcp_routes c !! sid = Some q -> cs_tcp_routes c' !! sid = Some q') ->
  on_route (ss_set_heap s (<[cid := c']> (ss_heap s)) t) q'.
Proof.
  intros Hc (d & Hd & Hs & Hr) H1 H2; rewrite Hc in Hd; simplify_eq.
  exists c'; cbn; rewrite lookup_insert_eq; auto.
Qed.

Lemma on_route_drop s q x : x <> sid -> on_route s q -> on_route (drop_and_release s cid x) q.
Proof.
  intros Hne Ho; pose proof Ho as (c & Hc & Hs & Hr); unfold drop_and_release, drop_session; rewrite Hc; cbn.
  destruct (cs_sessions c !! x); [eapply on_route_heap; [reflexivity|]|];
    (eapply on_route_insert; [done|done|..]; cbn; intros; by rewrite ?lookup_delete_ne).
Qed.

Lemma serves_conn w g q q' : serves w q ->
  (forall c, is_Some (cs_sessions c !! sid) -> is_Some (cs_sessions (g c) !! sid)) ->
  (forall c, cs_tcp_routes c !! sid = Some q -> cs_tcp_routes (g c) !! sid = Some q') ->
  serves (hw_conn cid w g) q'.
Proof.
  intros [(c & Hc & Hs & Hr) Hx] H1 H2; split; [|done]. exists (g c); cbn.
  rewrite lookup_alter_eq, Hc; auto.
Qed.

Lemma serves_st w st q : on_route st q -> serves w q -> serves (hw_set w st) q.
Proof. by intros ? [_ ?]. Qed.

Lemma touch_keeps_session now c x : is_Some (cs_sessions c !! sid) -> is_Some (cs_sessions (cs_touch now c x) !! sid).
Proof.
  unfold cs_touch; cbn; intros Hs. destruct (cs_sessions c !! x) eqn:E; cbn; [|done].
  destruct (decide (x = sid)) as [->|]; [rewrite lookup_insert_eq; eauto|by rewrite lookup_insert_ne].
Qed.

Lemma serves_touch w x q : serves w q -> serves (hub_touch cid x w) q.
Proof.
  intros Hw; eapply serves_conn; [done|intros; by apply touch_keeps_session|].
  intros c; unfold cs_touch; cbn. by destruct (cs_sessions c !! x).
Qed.

Lemma on_route_admit now s x q : on_route s q ->
  on_route (hooks_admit now s cid x).2 q /\ (x = sid -> exists e, (hooks_admit now s cid x).1 = Err e).
Proof.
  intros Ho; pose proof Ho as (c & Hc & Hs & Hr); unfold hooks_admit; rewrite Hc.
  destruct (bool_decide_reflect (is_Some (cs_sessions c !! x))) as [|Hn]; [eauto|].
  assert (x <> sid) by (by intros ->). split; [|done].
  destruct (_ <=? _); [done|]. destruct (try_acquire_session s) as [[] s1] eqn:Ea;
    apply try_acquire_heap in Ea as [Eh _]; [|by eapply on_route_heap].
  assert (Ho1 : on_route s1 q) by (by eapply on_route_heap). rewrite <- Eh in Hc.
  unfold child_token, try_register_with; cbn. destruct (cs_sessions c !! x); cbn [snd];
    [eapply on_route_heap; [reflexivity|]|]; (eapply on_route_insert; [done|done|..]; cbn; try done).
  intros; by rewrite lookup_insert_ne.
Qed.

Lemma udp_dns_store_heap s key a now : ss_heap (udp_dns_store s key a now) = ss_heap s.
Proof.
  unfold udp_dns_store; destruct (_ =? 0); [done|]. destruct (_ <=? _); [|done]. by destruct (_ <=? _).
Qed.

Lemma resolve_udp_heap lh dst allow s now : ss_heap (resolve_udp_target lh dst allow s now).2 = ss_heap s.
Proof.
  unfold resolve_udp_target; destruct dst; [done..|]. destruct (udp_dns_cached _ _ _); [done|].
  destruct (rbind _ _); [apply udp_dns_store_heap|done].
Qed.

Lemma serves_open w x host port q : serves w q -> serves (hub_open_tcp lookup_host connect budget cid x host port w).2 q.
Proof.
  intros Hw; pose proof Hw as [Ho Hx]; unfold hub_open_tcp.
  destruct (on_route_admit (hw_now w) (hw_st w) x q Ho) as [Ha He].
  destruct (hooks_admit _ _ _ _) as [[tok|e] st]; cbn [fst snd] in *; [|by apply serves_st].
  assert (x <> sid) by (intros E; by destruct (He E)).
  destruct (dial_target _ _ _ _ _ _).1; cbn [snd]; [|by apply serves_st; [apply on_route_drop|]].
  destruct (serves_conn (hw_set w st) (fun c => cs_set_routes c (<[x := []]> (cs_tcp_routes c)) (cs_udp_routes c)) q q)
    as [H1 H2]; [by apply serves_st|done|intros; cbn; by rewrite lookup_insert_ne|].
  split; [exact H1|cbn; set_solver].
Qed.

Lemma serves_associate w x q : serves w q -> serves (hub_udp_associate cid x w).2 q.
Proof.
  intros Hw; pose proof Hw as [Ho Hx]; unfold hub_udp_associate, udp_admit.
  destruct (ss_heap (hw_st w) !! cid) as [c|] eqn:Hc; [|done]. destruct (bool_decide _); [done|].
  destruct (on_route_admit (hw_now w) (hw_st w) x q Ho) as [Ha _].
  destruct (hooks_admit _ _ _ _) as [[tok|e] st]; cbn [snd] in *; [|by apply serves_st].
  cbn. eapply serves_conn; [|done|done]. apply serves_st; [|done]. by eapply on_route_heap.
Qed.

Lemma serves_udp_feed w x dst data q : serves w q -> serves (hub_udp_feed lookup_host bind cid x dst data w) q.
Proof.
  intros Hw; unfold hub_udp_feed. destruct (ss_heap (hw_st w) !! cid) as [c|]; [|done].
  destruct (cs_udp_routes c !! x) as [relay|]; [|done].
  apply (serves_touch w x) in Hw. set (w1 := hub_touch cid x w) in *.
  pose proof (resolve_udp_heap lookup_host dst (ss_allow_private_targets (hw_st w1)) (hw_st w1) (hw_instant w1)) as Eh.
  destruct (resolve_udp_target _ _ _ _ _) as [[a|e] st]; cbn [snd] in *;
    (assert (Hst : serves (hw_set w1 st) q) by (apply serves_st; [eapply on_route_heap; [done|apply Hw]|done])); [|done].
  destruct (get_or_bind _ _ _) as [[sock relay']|]; [|done].
  by apply (serves_conn (hw_set w1 st) _ q q Hst).
Qed.

Lemma serves_feed w x data fin rst q : serves w q -> (x = sid -> rst = false) ->
  serves (hub_feed_tcp cid x data fin rst w) (q ++ if x =? sid then [(data, fin)] else []).
Proof.
  intros Hw Hr; unfold hub_feed_tcp. destruct (Z.eqb_spec x sid) as [->|Hne]; rewrite ?app_nil_r.
  - rewrite (Hr eq_refl). apply (serves_touch w sid) in Hw. set (w1 := hub_touch cid sid w) in *.
    pose proof Hw as [(c & Hc & Hs & Hq) Hx]; rewrite Hc, Hq. rewrite bool_decide_false by done.
    eapply serves_conn; [done|done|]. intros; cbn; by rewrite lookup_insert_eq.
  - destruct rst; [apply serves_st; [apply on_route_drop; [done|apply Hw]|done]|].
    apply (serves_touch w x) in Hw. set (w1 := hub_touch cid x w) in *.
    destruct (ss_heap (hw_st w1) !! cid) as [c|]; [|done]. destruct (cs_tcp_routes c !! x); [|done].
    destruct (bool_decide _); [apply serves_st; [apply on_route_drop; [done|apply Hw]|done]|].
    eapply serves_conn; [done|done|]. intros; cbn; by rewrite lookup_insert_ne.
Qed.

Lemma serves_frame w f q : serves w q -> (f_sid f = sid -> ends_session f = false) ->
  serves (handle_server_frame w f).2 (q ++ if f_sid f =? sid then feeds f else []).
Proof.
  intros Hw He; unfold handle_server_frame, ends_session, feeds in *.
  assert (Hnil : (if f_sid f =? sid then [] else []) = @nil (bytes * bool)) by (by destruct (_ =? _)).
  assert (Hdrop : f_sid f <> sid -> forall rst, serves (close_tcp (f_sid f) rst w) (q ++ if f_sid f =? sid then [([], true)] else [])).
  { intros Hne rst; zbool. rewrite app_nil_r. apply serves_st; [apply on_route_drop; [done|apply Hw]|done]. }
  destruct (f_ftype f); rewrite ?Hnil, ?app_nil_r; cbn [snd]; try done.
  - destruct (decode_open _) as [[host port]|]; [|done].
    pose proof (serves_open w (f_sid f) host port q Hw) as H. unfold open_tcp; cbn.
    by destruct (hub_open_tcp _ _ _ _ _ _ _ w) as [[] w'].
  - apply serves_feed; [by apply serves_touch|done].
  - destruct (has_flag (f_flags f) FLAG_FIN && negb (has_flag (f_flags f) FLAG_RST)); cbn [snd]; [by apply serves_feed|].
    apply Hdrop. intros E; by specialize (He E).
  - pose proof (serves_associate w (f_sid f) q Hw) as H. unfold udp_associate; cbn.
    by destruct (hub_udp_associate _ _ w) as [[] w'].
  - destruct (ua_decode _) as [[dst r]|]; [|done]. by apply serves_udp_feed, serves_touch.
  - assert (Hne : f_sid f <> sid) by (intros E; by specialize (He E)).
    specialize (Hdrop Hne true). by rewrite (proj2 (Z.eqb_neq _ _) Hne), app_nil_r in Hdrop.
Qed.

Lemma serves_frames fs : forall w q, serves w q -> Forall (fun f => f_sid f = sid -> ends_session f = false) fs ->
  serves (fold_left (fun w f => (handle_server_frame w f).2) fs w) (q ++ route_view sid fs).
Proof.
  induction fs as [|f fs IH]; intros w q Hw Hf; cbn [fold_left]; [by rewrite app_nil_r|].
  inv Hf. rewrite route_view_cons, app_assoc. apply IH; [by apply serves_frame|done].
Qed.

Lemma mux_trace_serves l arr hnd l' q : mux_trace l arr hnd l' -> workers_ok l -> serves (ml_world l) q ->
  Forall (fun f => f_sid f = sid -> ends_session f = false) arr ->
  serves (ml_world l') (q ++ route_view sid arr).
Proof.
  intros Ht Hok Hw Hf; destruct (mux_trace_inline _ _ _ _ Ht Hok) as [E ->].
  rewrite <- (route_view_inline sid arr), <- E, route_view_inline. apply serves_frames; [done|].
  apply Forall_forall; intros f Hin Hs. destruct (inline f) eqn:Ei; [|by apply ends_inline].
  assert (Hin' : f ∈ List.filter inline arr).
  { rewrite <- E. by apply list_elem_of_In, filter_In; split; [apply list_elem_of_In|]. }
  apply list_elem_of_In, filter_In in Hin' as [Hin' _]. rewrite Forall_forall in Hf.
  apply Hf; [by apply list_elem_of_In|done].
Qed.

End demux.

(** ** Witnesses *)

Module PumpsWitness.
Import CryptoWitness HubWitness HubPropertyWitness.

Definition writer : FrameWriter := {| fw_out := [];
  fw_enc := {| fe_cipher := cipher_new (replicate 32 7); fe_counters := cg_stream_server; fe_limit := 16384 |} |}.


End PumpsWitness.
