(* ===== verification/ServerWt.v ===== *)
(** * The WebTransport server's connection tasks and the shutdown:
    [server/wt.rs], [server/mod.rs]

    The control-stream reader and the datagram reader over the session engine
    of [Hub], the reaper's tick, and the teardown of a running server. *)

From S2P Require Import Prelude Bytes Crypto Frame Addr Net Ip Limit State Egress Mux Hub Pumps.

Section conn.
Context {P : Prims}.
Context (lookup_host : bytes -> Z -> option (list SocketAddr)) (connect : SocketAddr -> option Z) (budget : nat)
        (bind : bool -> option Z) (cid : Z).

(** The hooks both readers build per frame. *)
#[local] Instance conn_hooks : ServerHooks HubWorld := Hooks lookup_host connect budget bind cid.

(** A UDP datagram of the client, from either path. *)
Definition feed_datagram (w : HubWorld) (f : Frame) : HubWorld :=
  match ua_decode (rd_new (f_payload f)) with
  | Ok (dst, r) => udp_feed (f_sid f) dst (fst (rest r)) (hook_touch (f_sid f) w)
  | Err _ => w
  end.

(** One frame of the control stream: the frames sent back on it. *)
Definition handle_ctrl_frame (w : HubWorld) (f : Frame) : list OutFrame * HubWorld :=
  match f_ftype f with
  | FPing => ([out FPong 0 0 []], w)
  | FUdpAssociate =>
    match udp_associate (f_sid f) w with
    | (Ok _, w') => ([out FUdpOk 0 (f_sid f) []], w')
    | (Err e, w') => ([out FOpenErr 0 (f_sid f) [to_code e]], w')
    end
  | FUdpData => ([], feed_datagram w f)
  | FClose | FError => ([], hw_set w (drop_and_release (hw_st w) cid (f_sid f)))
  | _ => ([], w)
  end.

(** One frame out of a datagram. *)
Definition handle_dgram_frame (w : HubWorld) (f : Frame) : HubWorld :=
  match f_ftype f with FUdpData => feed_datagram w f | _ => w end.

(** [cs.cancel.cancel()]. *)
Definition cancel_conn (st : ServerState) : ServerState :=
  match ss_heap st !! cid with
  | Some c => ss_set_heap st (ss_heap st) (cancel (ss_tokens st) (cs_cancel c))
  | None => st
  end.

(** The control reader over the results of its reads: what it sends, and the
    world when it ends ([true]) or still waits. *)
Fixpoint ctrl_reader (w : HubWorld) (reads : list (result msg (option Frame))) : list OutFrame * HubWorld * bool :=
  match reads with
  | [] => ([], w, false)
  | Ok (Some f) :: t =>
    let '(fs, w) := handle_ctrl_frame w f in
    let '(fs', w, e) := ctrl_reader w t in (fs ++ fs', w, e)
  | _ :: _ => ([], hw_set w (cancel_conn (hw_st w)), true)
  end.

(** [spawn_death_watcher]'s end: the token, then the map. *)
Definition death_watcher (st : ServerState) : ServerState :=
  let st := cancel_conn st in
  ss_with_sessions st (ss_conns st ∖ {[cid]}) (ss_heap st) (ss_tokens st) (ss_conn_seq st) (ss_active_sessions st).

(** The connection's tasks in any order: the readers interleave frame by frame
    and other tasks (the reaper, other connections) may run in between. Streams
    open, and their pumps run and end, in any order too. *)
Inductive conn_step : HubWorld -> HubWorld -> Prop :=
| cs_ctrl w f : conn_step w (handle_ctrl_frame w f).2
| cs_dgram w f : conn_step w (handle_dgram_frame w f)
| cs_stream w wr first env : conn_step w (handle_wt_stream lookup_host connect budget cid w wr first env).1.2
| cs_pump_out w sid (wr : FrameWriter) evs : conn_step w (pump_out cid sid w wr evs).1.1
| cs_pump_in w sid t evs : conn_step w (wt_client_to_target cid sid w t evs).1.1
| cs_ended w : conn_step w (hw_set w (cancel_conn (hw_st w)))
| cs_death w : conn_step w (hw_set w (death_watcher (hw_st w)))
| cs_reap w now : conn_step w (hw_set w (sweep_conns (reap_idle now (hw_st w)))).

Lemma cancel_conn_ok st : quota_inv 0 st -> quota_inv 0 (cancel_conn st).
Proof. unfold cancel_conn; destruct (ss_heap st !! cid); done. Qed.

Lemma feed_datagram_ok w f : hub_ok w -> hub_ok (feed_datagram w f).
Proof.
  intros Hw; unfold feed_datagram; destruct (ua_decode _) as [[dst r]|]; [|done].
  by apply udp_feed_keeps, touch_keeps.
Qed.

Lemma ctrl_frame_ok w f : hub_ok w -> hub_ok (handle_ctrl_frame w f).2.
Proof.
  intros Hw; unfold handle_ctrl_frame.
  destruct (f_ftype f); cbn [snd]; try done; try (by apply drop_and_release_quota); [|by apply feed_datagram_ok].
  pose proof (udp_associate_keeps (f_sid f) w Hw) as Ho; by destruct (udp_associate (f_sid f) w) as [[] w'].
Qed.

Lemma reap_tick_ok now st : quota_inv 0 st -> quota_inv 0 (sweep_conns (reap_idle now st)).
Proof.
  intros H; unfold reap_idle; pose proof (reap_fold_quota 0 now (elements (ss_conns st)) st [] H).
  by destruct (fold_left _ _ _) as [s' dead].
Qed.

Lemma conn_step_ok w w' : hub_ok w -> conn_step w w' -> hub_ok w'.
Proof.
  intros Hw Hs; destruct Hs as [w f|w f|w wr first env|w sid wr evs|w sid t evs|w|w|w now].
  - by apply ctrl_frame_ok.
  - unfold handle_dgram_frame; destruct (f_ftype f); try done; by apply feed_datagram_ok.
  - by apply handle_wt_stream_ok.
  - by apply pump_out_ok.
  - by apply wt_client_to_target_ok.
  - by apply cancel_conn_ok.
  - by apply cancel_conn_ok.
  - by apply reap_tick_ok.
Qed.

(** The WebTransport tasks keep the session quota exact. Whatever frames
    arrive on the control stream, in datagrams and on session streams, whatever
    the pumps of the sessions meet, in any interleaving with the connection's
    death and the reaper's ticks, the global counter equals
    the sessions registered over all connections; closes and errors, even
    repeated or for unknown sids, release exactly the sessions they remove. *)
Theorem wt_tasks_keep_quota w w' : hub_ok w -> star conn_step w w' ->
  ss_active_sessions (hw_st w') = total_sessions (hw_st w') /\
  ss_active_sessions (hw_st w') <= ss_max_sessions (hw_st w').
Proof.
  intros Hw Hs; apply (star_invariant conn_step hub_ok) in Hs as (_ & Ha & Hm); [lia|apply conn_step_ok|done].
Qed.

(** A datagram drives the association only. A frame of any type other than
    UDP data that arrives in a datagram changes nothing: sessions are opened,
    fed and closed over streams alone. *)
Theorem dgram_only_udp w f : f_ftype f <> FUdpData -> handle_dgram_frame w f = w.
Proof. unfold handle_dgram_frame; by destruct (f_ftype f). Qed.

End conn.

(** ** Shutdown *)

(** The first step of [graceful_shutdown]: every live connection's token. *)
Definition cancel_all (st : ServerState) : ServerState :=
  let live := List.filter (fun cid => negb (conn_cancelled st cid)) (elements (ss_conns st)) in
  fold_left (fun st cid => cancel_conn cid st) live st.

(** The drain loop: [obs k] is the counter and the clock (milliseconds) the
    k-th turn of the loop reads; the number of sleeps, [None] when [fuel] runs
    out. *)
Fixpoint drain_loop (fuel k : nat) (obs : nat -> Z * Z) (deadline : Z) : option nat :=
  match fuel with
  | O => None
  | S n =>
    let '(active, now) := obs k in
    if negb (active =? 0) && (now <? deadline) then drain_loop n (S k) obs deadline else Some k
  end.

Definition DRAIN_SLEEP : Z := 50.

(** The state [graceful_shutdown] leaves, after the drain ended in [st]. *)
Definition shutdown_sweep (st : ServerState) : ServerState := sweep_conns st.

Lemma cancelled_up_mono n t k j : cancelled_up n t k = true -> cancelled_up n (cancel t j) k = true.
Proof.
  revert k; induction n as [|n IH]; intros k; cbn.
  - rewrite !orb_false_r; intros H; bsimpl; apply bool_decide_eq_true; set_solver.
  - intros [H|H]%orb_true_iff; apply orb_true_iff.
    + left; bsimpl; apply bool_decide_eq_true; set_solver.
    + right; destruct (tk_parent t !! k); [by apply IH|done].
Qed.

Lemma cancel_conn_heap x st : ss_heap (cancel_conn x st) = ss_heap st.
Proof. unfold cancel_conn; by destruct (ss_heap st !! x). Qed.

Lemma cancel_conn_self x st : is_Some (ss_heap st !! x) -> conn_cancelled (cancel_conn x st) x = true.
Proof.
  intros [c H]; unfold conn_cancelled; rewrite cancel_conn_heap, H; unfold cancel_conn; rewrite H.
  apply cancelled_mem; cbn; set_solver.
Qed.

Lemma cancel_conn_mono x st cid : conn_cancelled st cid = true -> conn_cancelled (cancel_conn x st) cid = true.
Proof.
  unfold conn_cancelled; rewrite cancel_conn_heap; destruct (ss_heap st !! cid); [|done].
  unfold cancel_conn; destruct (ss_heap st !! x); [|done]. apply cancelled_up_mono.
Qed.

Lemma cancel_all_spec l st cid : (cid ∈ l \/ conn_cancelled st cid = true) -> is_Some (ss_heap st !! cid) ->
  conn_cancelled (fold_left (fun st cid => cancel_conn cid st) l st) cid = true.
Proof.
  revert st; induction l as [|x l IH]; intros st Hin Hs; cbn [fold_left].
  { destruct Hin as [Hin|?]; [by apply elem_of_nil in Hin|done]. }
  apply IH; [|by rewrite cancel_conn_heap].
  destruct Hin as [[->|Hin]%elem_of_cons|Hc]; [right; by apply cancel_conn_self|by left|right; by apply cancel_conn_mono].
Qed.

Lemma cancel_all_covers st cid : cid ∈ ss_conns st -> is_Some (ss_heap st !! cid) -> conn_cancelled (cancel_all st) cid = true.
Proof.
  intros Hc Hh; unfold cancel_all; apply cancel_all_spec; [|done].
  destruct (conn_cancelled st cid) eqn:E; [by right|left].
  rewrite list_elem_of_In, filter_In, <- list_elem_of_In, E; split; [by apply elem_of_elements|done].
Qed.

Lemma cancel_all_conns st : ss_conns (cancel_all st) = ss_conns st.
Proof.
  unfold cancel_all. generalize (List.filter (fun cid => negb (conn_cancelled st cid)) (elements (ss_conns st))).
  intros l; revert st; induction l as [|x l IH]; intros st; [done|]; cbn [fold_left]; rewrite IH.
  unfold cancel_conn; by destruct (ss_heap st !! x).
Qed.

Lemma drain_loop_ends obs t0 grace : 0 <= grace -> (forall k, t0 + DRAIN_SLEEP * Z.of_nat k <= (obs k).2) ->
  exists n, drain_loop (Z.to_nat (grace / DRAIN_SLEEP) + 2) 0 obs (t0 + grace) = Some n /\ Z.of_nat n <= grace / DRAIN_SLEEP + 1.
Proof.
  intros Hg Ho; unfold DRAIN_SLEEP in *.
  assert (H : forall fuel k, Z.of_nat k <= grace / 50 + 1 -> (Z.to_nat (grace / 50) + 2 <= fuel + k)%nat ->
    exists n, drain_loop fuel k obs (t0 + grace) = Some n /\ Z.of_nat n <= grace / 50 + 1).
  { induction fuel as [|f IH]; intros k Hk Hf; [Z.to_euclidean_division_equations; lia|]; cbn [drain_loop].
    specialize (Ho k) as Hok; destruct (obs k) as [a now]; cbn in Hok.
    destruct (negb (a =? 0) && (now <? t0 + grace)) eqn:E; [|eauto].
    apply andb_prop in E as [_ E]; bsimpl. apply IH; [Z.to_euclidean_division_equations; lia|lia]. }
  apply H; [Z.to_euclidean_division_equations; lia|lia].
Qed.

(** The shutdown reaches every connection: after its first step every
    registered connection is cancelled (and with it the sessions, whose tokens
    are its children), so the final sweep removes them all. *)
Theorem shutdown_complete st : (forall cid, cid ∈ ss_conns st -> is_Some (ss_heap st !! cid)) ->
  (forall cid, cid ∈ ss_conns st -> conn_cancelled (cancel_all st) cid = true) /\
  ss_conns (shutdown_sweep (cancel_all st)) = ∅.
Proof.
  intros Hh; split; [intros cid Hc; apply cancel_all_covers; auto|].
  apply set_eq; intros cid; cbn. rewrite elem_of_filter, cancel_all_conns; split; [|set_solver].
  intros [Hf Hin]. rewrite cancel_all_covers in Hf by auto. done.
Qed.

(** ** Witnesses *)

Module ServerWtWitness.

Import HubWitness.

Definition assoc : Frame :=
  {| f_ftype := FUdpAssociate; f_flags := 0; f_sid := 9; f_counter := 2; f_aad := []; f_payload := [] |}.
Definition close : Frame :=
  {| f_ftype := FClose; f_flags := 0; f_sid := 9; f_counter := 4; f_aad := []; f_payload := [] |}.

Lemma wt_tasks_keep_quota_witness : exists w,
  star (conn_step (fun _ _ => None) (fun _ => None) 4%nat (fun _ => None) 1) HubPropertyWitness.world w /\
  ss_active_sessions (hw_st w) = 1 /\ ss_active_sessions (hw_st w) = total_sessions (hw_st w).
Proof.
  assert (H : star (conn_step (fun _ _ => None) (fun _ => None) 4%nat (fun _ => None) 1) HubPropertyWitness.world
    (handle_ctrl_frame (fun _ _ => None) (fun _ => None) 4%nat (fun _ => None) 1 HubPropertyWitness.world assoc).2)
    by (eapply star_step; [apply cs_ctrl|apply star_refl]).
  eexists; split; [exact H|]. split; [vm_compute; reflexivity|].
  exact (proj1 (wt_tasks_keep_quota _ _ _ _ _ _ _ HubPropertyWitness.world_ok H)).
Defined.

Lemma dgram_only_udp_witness :
  handle_dgram_frame (fun _ _ => None) (fun _ => None) 4%nat (fun _ => None) 1 HubPropertyWitness.world close
    = HubPropertyWitness.world.
Proof. apply (dgram_only_udp (fun _ _ => None) (fun _ => None) 4%nat (fun _ => None) 1 HubPropertyWitness.world close). discriminate. Defined.

Lemma shutdown_complete_witness : ss_conns (shutdown_sweep (cancel_all (hw_st HubPropertyWitness.world))) = ∅.
Proof.
  apply (shutdown_complete (hw_st HubPropertyWitness.world)).
  intros cid Hc; cbn in Hc. apply elem_of_singleton in Hc as ->. eexists; reflexivity.
Defined.

End ServerWtWitness.
