(* ===== verification/Outbound.v ===== *)
(** * Outbound selection: [client/outbound.rs]

    The circuit breaker of the WebTransport path and the choice between it and
    the HTTPS fallback. Instants are milliseconds of a monotonic clock, read by
    the caller. The two transports are clients of the [Transport] interface;
    a stream or a UDP pipe is its number. *)

From S2P Require Import Prelude Bytes Crypto Frame Addr Net Limit State Egress Mux.

(** ** Errors of an open *)

(** [anyhow::Error] as the callers classify it: a [TargetError] or anything
    else. *)
Inductive AnyError := ETarget (e : OpenError) | ETransport (m : msg).

Definition target_error (e : AnyError) : option OpenError :=
  match e with ETarget t => Some t | ETransport _ => None end.

Definition fallback_worthwhile (t : OpenError) : bool :=
  match t with OLimit => true | _ => false end.

Definition error_tag (e : AnyError) : bytes :=
  match target_error e with Some t => tag t | None => str "transport-failure" end.

Definition socks5_reply_code (e : AnyError) : Z :=
  match target_error e with
  | Some Denied => 2
  | Some DialFailed => 5
  | _ => 1
  end.

(** ** Circuit breaker *)

Definition BREAKER_THRESHOLD : Z := 3.
Definition BREAKER_COOLDOWN : Z := 60000.

Record Inner := { consecutive_failures : Z; tripped_until : option Z }.
Record CircuitBreaker := { cb_inner : Inner; cb_threshold : Z; cb_cooldown : Z }.

Definition cb_new (threshold cooldown : Z) : CircuitBreaker :=
  {| cb_inner := {| consecutive_failures := 0; tripped_until := None |};
     cb_threshold := threshold; cb_cooldown := cooldown |}.

Definition cb_set (cb : CircuitBreaker) (n : Z) (u : option Z) : CircuitBreaker :=
  {| cb_inner := {| consecutive_failures := n; tripped_until := u |};
     cb_threshold := cb_threshold cb; cb_cooldown := cb_cooldown cb |}.

(** [tripped_until.is_some_and(|t| now < t)]. *)
Definition tripped (cb : CircuitBreaker) (now : Z) : bool :=
  match tripped_until (cb_inner cb) with Some t => now <? t | None => false end.

Definition can_try (cb : CircuitBreaker) (now : Z) : bool := negb (tripped cb now).
Definition is_open (cb : CircuitBreaker) (now : Z) : bool := negb (can_try cb now).

Definition record_success (cb : CircuitBreaker) : CircuitBreaker := cb_set cb 0 None.

Definition record_failure (cb : CircuitBreaker) (now : Z) : CircuitBreaker :=
  if tripped cb now then cb
  else match tripped_until (cb_inner cb) with
       | Some _ => cb_set cb (consecutive_failures (cb_inner cb)) (Some (now + cb_cooldown cb))
       | None =>
         let n := wrap 32 (consecutive_failures (cb_inner cb) + 1) in
         if cb_threshold cb <=? n then cb_set cb 0 (Some (now + cb_cooldown cb))
         else cb_set cb n None
       end.

(** ** Selection *)

(** What the selection asks of a transport with state [T]. *)
Class Transport (T : Type) := {
  t_open_tcp : T -> bytes -> Z -> result AnyError nat * T;
  t_udp_associate : T -> result AnyError nat * T;
}.

Section outbound.
Context {P H : Type} {TP : Transport P} {TH : Transport H}.

Inductive Outbound :=
| OWt (p : P)
| OHttp (h : H)
| OBoth (p : P) (h : H) (cb : CircuitBreaker).

(** The readings of the clocks during one call: the breaker's check, the
    breaker's update and the wall clock of [note_fallback]. *)
Record Readings := { r_try : Z; r_record : Z; r_wall : Z }.

(** The primary attempt of [Both]: what the breaker learns, and [Some r] when
    the call returns [r] without the fallback. *)
Definition primary_outcome {A} (r : result AnyError A) (cb : CircuitBreaker) (now : Z)
  : option (result AnyError A) * CircuitBreaker :=
  match r with
  | Ok s => (Some (Ok s), record_success cb)
  | Err e =>
    match target_error e with
    | Some t => (if negb (fallback_worthwhile t) then Some (Err e) else None, record_success cb)
    | None => (None, record_failure cb now)
    end
  end.

(** A call through [primary] and [fallback], with [LAST_FALLBACK_MILLIS]. *)
Definition both_call {A} (primary : P -> result AnyError A * P) (fallback : H -> result AnyError A * H)
  (rd : Readings) (p : P) (h : H) (cb : CircuitBreaker) (last : Z)
  : result AnyError A * Outbound * Z :=
  let '(early, p', cb') :=
    if can_try cb (r_try rd) then
      let '(r, p') := primary p in
      let '(early, cb') := primary_outcome r cb (r_record rd) in (early, p', cb')
    else (None, p, cb) in
  match early with
  | Some r => (r, OBoth p' h cb', last)
  | None => let '(r, h') := fallback h in (r, OBoth p' h' cb', r_wall rd)
  end.

Definition ob_open_tcp (rd : Readings) (ob : Outbound) (host : bytes) (port last : Z)
  : result AnyError nat * Outbound * Z :=
  match ob with
  | OWt p => let '(r, p') := t_open_tcp p host port in (r, OWt p', last)
  | OHttp h => let '(r, h') := t_open_tcp h host port in (r, OHttp h', last)
  | OBoth p h cb => both_call (fun p => t_open_tcp p host port) (fun h => t_open_tcp h host port) rd p h cb last
  end.

Definition ob_udp_associate (rd : Readings) (ob : Outbound) (last : Z)
  : result AnyError nat * Outbound * Z :=
  match ob with
  | OWt p => let '(r, p') := t_udp_associate p in (r, OWt p', last)
  | OHttp h => let '(r, h') := t_udp_associate h in (r, OHttp h', last)
  | OBoth p h cb => both_call t_udp_associate t_udp_associate rd p h cb last
  end.


End outbound.

(** ** The breaker over a history of outcomes *)

Inductive Event := Success | Failure (now : Z).

Definition cb_apply (cb : CircuitBreaker) (e : Event) : CircuitBreaker :=
  match e with Success => record_success cb | Failure now => record_failure cb now end.
Definition cb_run (cb : CircuitBreaker) (es : list Event) : CircuitBreaker := fold_left cb_apply es cb.

(** A transport failure, and its instant. *)
Definition failed (e : Event) : bool := match e with Failure _ => true | Success => false end.

(** The failures at the end of a history. *)
Definition tail_failures (es : list Event) (suf : list Event) : Prop :=
  exists pre, es = pre ++ suf /\ Forall (fun e => failed e = true) suf.

Lemma cb_run_snoc cb es e : cb_run cb (es ++ [e]) = cb_apply (cb_run cb es) e.
Proof. unfold cb_run; by rewrite fold_left_app. Qed.

Lemma cb_apply_params cb e :
  cb_threshold (cb_apply cb e) = cb_threshold cb /\ cb_cooldown (cb_apply cb e) = cb_cooldown cb.
Proof. destruct e; [done|]; cbn; unfold record_failure; destr; auto. Qed.

Lemma cb_run_params cb es :
  cb_threshold (cb_run cb es) = cb_threshold cb /\ cb_cooldown (cb_run cb es) = cb_cooldown cb.
Proof.
  revert cb; induction es as [|e es IH]; intros cb; [done|].
  change (cb_run cb (e :: es)) with (cb_run (cb_apply cb e) es).
  destruct (IH (cb_apply cb e)) as [-> ->]; apply cb_apply_params.
Qed.

Lemma tail_failures_nil es : tail_failures es [].
Proof. exists es; by rewrite app_nil_r. Qed.

Lemma tail_failures_snoc es suf now : tail_failures es suf ->
  tail_failures (es ++ [Failure now]) (suf ++ [Failure now]).
Proof.
  intros (pre & -> & Hf); exists pre; rewrite <- app_assoc; split; [done|].
  apply Forall_app; split; [done|by constructor].
Qed.

(** The count is the length of the run of failures since the last success or
    trip; a trip was set by a failure closing such a run of [thr] or more. *)
Definition cb_inv (thr cool : Z) (es : list Event) (cb : CircuitBreaker) : Prop :=
  0 <= consecutive_failures (cb_inner cb) < thr /\
  exists suf, tail_failures es suf /\
  match tripped_until (cb_inner cb) with
  | None => len suf = consecutive_failures (cb_inner cb)
  | Some u => thr <= len suf /\ exists t, Failure t ∈ suf /\ u = t + cool
  end.

Lemma cb_run_inv thr cool es : 1 <= thr < 2 ^ 32 -> cb_inv thr cool es (cb_run (cb_new thr cool) es).
Proof.
  intros Hthr; induction es as [|e es IH] using rev_ind.
  { split; [cbn; lia|]; exists []; split; [apply tail_failures_nil|done]. }
  rewrite cb_run_snoc; destruct (cb_run_params (cb_new thr cool) es) as [Ht Hc]; cbn in Ht, Hc.
  set (cb := cb_run _ _) in *; clearbody cb; destruct IH as (Hn & suf & Hsuf & Hm).
  destruct e as [|now]; cbn [cb_apply].
  { split; [cbn; lia|]; exists []; split; [apply tail_failures_nil|done]. }
  pose proof (tail_failures_snoc _ _ now Hsuf) as Hsuf'.
  assert (Hin : Failure now ∈ suf ++ [Failure now]) by (apply elem_of_app; right; by apply list_elem_of_here).
  unfold record_failure, tripped; destruct (tripped_until (cb_inner cb)) as [u|] eqn:Eu.
  - destruct Hm as (Hl & t & Hti & ->).
    destruct (now <? t + cool).
    + split; [done|]; eexists; split; [exact Hsuf'|]; rewrite Eu; lens; split; [lia|].
      exists t; split; [|done]; apply elem_of_app; by left.
    + split; [done|]; eexists; split; [exact Hsuf'|]; cbn; lens; split; [lia|]; exists now; by rewrite Hc.
  - rewrite wrap_small by lia.
    destruct (cb_threshold cb <=? _) eqn:E; bsimpl; (split; [cbn; lia|]); eexists; (split; [exact Hsuf'|]); cbn; lens.
    + split; [lia|]; exists now; by rewrite Hc.
    + lia.
Qed.

(** [thr] failures from a closed breaker with no failure counted. *)
Lemma cb_run_trips cb fs n : tripped_until (cb_inner cb) = None ->
  consecutive_failures (cb_inner cb) = n -> 0 <= n -> cb_threshold cb < 2 ^ 32 ->
  Forall (fun e => failed e = true) fs -> n + len fs < cb_threshold cb ->
  cb_run cb fs = cb_set cb (n + len fs) None.
Proof.
  revert cb n; induction fs as [|e fs IH]; intros cb n Hu Hc Hn Ht Hf Hl.
  { cbn; rewrite Z.add_0_r, <- Hc, <- Hu; destruct cb as [[? ?] ? ?]; done. }
  apply Forall_cons in Hf as [He Hf]; destruct e as [|now]; [done|]; lens.
  pose proof (len_nonneg fs) as Hp.
  change (cb_run cb (Failure now :: fs)) with (cb_run (record_failure cb now) fs).
  unfold record_failure, tripped; rewrite Hu, Hc, wrap_small by lia; zbool.
  rewrite (IH _ (n + 1)); try done; [|cbn; lia..]. unfold cb_set; cbn; do 2 f_equal; lia.
Qed.

(** The breaker opens only for a run of failures and opens for every one.
    Over any history of outcomes: (1) a breaker that refuses the primary path
    at [now] has seen, since the last success, at least [thr] failures, one of
    them less than a cooldown ago; (2) after a success (or at the start) the
    [thr]-th failure in a row, at [t], makes it refuse the path until exactly
    [t + cool]; (3) once that instant has passed, one more failure at [t'] makes
    it refuse until [t' + cool]; (4) a success closes it. *)
Theorem breaker_spec thr cool : 1 <= thr < 2 ^ 32 ->
  (forall es now, can_try (cb_run (cb_new thr cool) es) now = false ->
     exists suf t, tail_failures es suf /\ thr <= len suf /\ Failure t ∈ suf /\ now < t + cool) /\
  (forall es fs t, Forall (fun e => failed e = true) fs -> len fs = thr - 1 ->
     (es = [] \/ exists es', es = es' ++ [Success]) ->
     let cb := cb_run (cb_new thr cool) (es ++ fs ++ [Failure t]) in
     (forall now, can_try cb now = negb (now <? t + cool)) /\
     (forall t' now, t + cool <= t' -> can_try (cb_apply cb (Failure t')) now = negb (now <? t' + cool))) /\
  (forall es now, can_try (cb_run (cb_new thr cool) (es ++ [Success])) now = true).
Proof.
  intros Hthr; split; [|split].
  - intros es now H; destruct (cb_run_inv thr cool es Hthr) as (Hn & suf & Hsuf & Hm).
    unfold can_try, tripped in H; destruct (tripped_until _) as [u|]; [|done].
    destruct Hm as (Hl & t & Hin & ->); bsimpl; by exists suf, t.
  - intros es fs t Hf Hl Hes cb.
    assert (Hcb : cb = cb_set (cb_new thr cool) 0 (Some (t + cool))).
    { unfold cb; rewrite app_assoc, cb_run_snoc; unfold cb_run at 1; rewrite fold_left_app.
      fold (cb_run (cb_new thr cool) es); set (c0 := cb_run _ es).
      assert (c0 = cb_new thr cool) as ->.
      { unfold c0; destruct Hes as [->|(es' & ->)]; [done|]; rewrite cb_run_snoc.
        destruct (cb_run_params (cb_new thr cool) es') as [H1 H2].
        cbn; unfold record_success, cb_set; by rewrite H1, H2. }
      fold (cb_run (cb_new thr cool) fs); rewrite (cb_run_trips _ fs 0) by (done || cbn; lia).
      cbn; unfold record_failure, tripped; cbn; rewrite wrap_small by lia; by zbool. }
    rewrite Hcb; split; [done|]; intros t' now Ht'.
    cbn; unfold record_failure, tripped; cbn; zbool; done.
  - intros es now; by rewrite cb_run_snoc.
Qed.

(** ** Witnesses *)

Module OutboundWitness.

(** After the cooldown every caller may try, not one: the check does not
    change the breaker. *)
Example half_open_admits_all :
  let cb := cb_run (cb_new 3 60000) [Failure 0; Failure 0; Failure 0] in
  can_try cb 59999 = false /\ can_try cb 60000 = true /\ can_try cb 60001 = true.
Proof. vm_compute; auto. Qed.

Lemma breaker_spec_witness :
  can_try (cb_run (cb_new BREAKER_THRESHOLD BREAKER_COOLDOWN) [Success; Failure 1; Failure 2; Failure 3]) 60002 = false.
Proof.
  assert (Hthr : 1 <= BREAKER_THRESHOLD < 2 ^ 32) by (unfold BREAKER_THRESHOLD; lia).
  destruct (breaker_spec BREAKER_THRESHOLD BREAKER_COOLDOWN Hthr) as (_ & Hb & _).
  destruct (Hb [Success] [Failure 1; Failure 2] 3) as [H _];
    [repeat constructor|reflexivity|right; by exists []|].
  apply (H 60002).
Defined.

End OutboundWitness.
