(* ===== verification/Socks5.v ===== *)
(** * The SOCKS5 inbound: [client/socks5.rs] (and [constant_time_eq] of
    [client/mod.rs])

    The handshake is a program over the bytes the client sends and the replies
    written to it; a read past the end of the client's bytes is an error, a
    write always succeeds (a failed write only ends the handler). The UDP relay
    is a state machine over the datagrams that arrive on its two sides. *)

From S2P Require Import Prelude Bytes Crypto Frame Addr Net Ip Limit State Egress Mux Outbound.

Definition constant_time_eq (a b : bytes) : bool :=
  if negb (len a =? len b) then false else ct_diff a b =? 0.

(** ** Conversations: what is read, what is written *)

Definition conv (A : Type) : Type := bytes -> list bytes * result msg (A * bytes).

Definition cret {A} (a : A) : conv A := fun s => ([], Ok (a, s)).
Definition cfail {A} (m : msg) : conv A := fun _ => ([], Err m).
Definition cbind {A B} (c : conv A) (k : A -> conv B) : conv B := fun s =>
  match c s with
  | (ws, Ok (a, s')) => let '(ws', r) := k a s' in (ws ++ ws', r)
  | (ws, Err e) => (ws, Err e)
  end.
Definition cwrite (b : bytes) : conv unit := fun s => ([b], Ok (tt, s)).
(** [read_exact] of [n] bytes. *)
Definition cread (n : nat) : conv bytes := fun s =>
  if Nat.ltb (length s) n then ([], Err "early eof") else ([], Ok (take n s, drop n s)).
(** [read_exact] of one byte. *)
Definition cread1 : conv Z := fun s =>
  match s with b :: t => ([], Ok (b, t)) | [] => ([], Err "early eof") end.
Definition censure (c : bool) (m : msg) : conv unit := if c then cret tt else cfail m.

Notation "'let!' x ':=' c 'in' k" := (cbind c (fun x => k))
  (at level 10, x pattern, c at level 100, k at level 200) : newppp_scope.

(** ** The handshake *)

Definition read_rfc1929 : conv (bytes * bytes) :=
  let! ver := cread1 in
  let! _ := censure (ver =? 1) "bad RFC1929 version" in
  let! ulen := cread1 in
  let! u := cread (Z.to_nat ulen) in
  let! plen := cread1 in
  let! p := cread (Z.to_nat plen) in
  let! _ := censure (utf8_valid u) "bad username encoding" in
  let! _ := censure (utf8_valid p) "bad password encoding" in
  cret (u, p).

Definition read_target : conv (bytes * Z) :=
  let! atyp := cread1 in
  let! host :=
    if atyp =? 1 then let! b := cread 4 in cret (show_v4 b)
    else if atyp =? 3 then
      let! l := cread1 in
      let! d := cread (Z.to_nat l) in
      let! _ := censure (utf8_valid d) "bad domain" in cret d
    else if atyp =? 4 then let! b := cread 16 in cret (show_v6 b)
    else cfail "bad atyp" in
  let! p := cread 2 in
  cret (host, be_val p).

Definition reply (code : Z) : bytes := [5; code; 0; 1; 0; 0; 0; 0; 0; 0].

(** The greeting and the method the inbound's credentials ask for. *)
Definition select_method (auth : option (bytes * bytes)) (methods : bytes) : conv unit :=
  match auth with
  | Some (user, pass) =>
    if negb (has_char 2 methods) then
      let! _ := cwrite [5; 255] in cfail "client offered no username/password auth method"
    else
      let! _ := cwrite [5; 2] in
      let! (u, p) := read_rfc1929 in
      let ok := constant_time_eq u user && constant_time_eq p pass in
      let! _ := cwrite [1; if ok then 0 else 1] in
      censure ok "socks5 authentication failed"
  | None =>
    if has_char 0 methods then cwrite [5; 0]
    else let! _ := cwrite [5; 255] in cfail "client requires an unsupported auth method"
  end.

Inductive Request := RConnect (target : bytes * Z) | RUdp (target : bytes * Z).

(** [handle] up to the command's own handler. *)
Definition handle_request (auth : option (bytes * bytes)) : conv Request :=
  let! h0 := cread1 in
  let! h1 := cread1 in
  let! _ := censure (h0 =? 5) "not socks5" in
  let! methods := cread (Z.to_nat h1) in
  let! _ := select_method auth methods in
  let! head0 := cread1 in
  let! cmd := cread1 in
  let! _ := cread1 in
  let! _ := censure (head0 =? 5) "bad socks version" in
  let! target := read_target in
  if cmd =? 1 then cret (RConnect target)
  else if cmd =? 3 then cret (RUdp target)
  else let! _ := cwrite (reply 7) in cfail "unsupported cmd".

(** [udp_client_ip]. *)
Definition udp_client_ip (requested : bytes) (peer : IpAddr) : IpAddr :=
  match parse_ip requested with
  | Some ip => if negb (is_unspecified ip) then ip else peer
  | None => peer
  end.

(** The success reply of a UDP association. *)
Definition udp_reply (local : IpAddr) (relay_port : Z) : bytes :=
  [5; 0; 0; if is_v4 local then 1 else 4]
  ++ match local with IpV4 o | IpV6 o => o end ++ be_bytes 2 relay_port.

(** ** The UDP relay *)

Record UdpRelayState := {
  ur_expected : IpAddr;
  ur_client : option SocketAddr;
  (** the TCP watcher's token *)
  ur_cancelled : bool;
  (** the task that reads the relay socket is running *)
  ur_out_running : bool;
  (** [udp_cmd]'s own loop is running *)
  ur_in_running : bool;
  ur_last_activity : Z;
  (** datagrams handed to the tunnel *)
  ur_tunnel : list (UdpAddr * bytes);
  (** datagrams sent to the local client *)
  ur_sent : list (bytes * SocketAddr);
}.

Inductive RelayEvent :=
| EvDatagram (from : SocketAddr) (buf : bytes) (tunnel_open : bool)
| EvSocketError
| EvInbound (now : Z) (src : UdpAddr) (data : bytes)
| EvPipeClosed
| EvTcpClosed
| EvTimer (now : Z).

Definition UDP_IDLE : Z := 300000.

Definition ur_set_out (s : UdpRelayState) client running tunnel : UdpRelayState :=
  {| ur_expected := ur_expected s; ur_client := client; ur_cancelled := ur_cancelled s;
     ur_out_running := running; ur_in_running := ur_in_running s; ur_last_activity := ur_last_activity s;
     ur_tunnel := tunnel; ur_sent := ur_sent s |}.
Definition ur_set_in (s : UdpRelayState) running last sent : UdpRelayState :=
  {| ur_expected := ur_expected s; ur_client := ur_client s; ur_cancelled := ur_cancelled s;
     ur_out_running := ur_out_running s; ur_in_running := running; ur_last_activity := last;
     ur_tunnel := ur_tunnel s; ur_sent := sent |}.

(** The outbound task on one datagram. *)
Definition relay_datagram (s : UdpRelayState) (from : SocketAddr) (buf : bytes) (tunnel_open : bool) : UdpRelayState :=
  if bool_decide (sa_ip from = ur_expected s) then
    let client := match ur_client s with None => Some from | Some c => Some c end in
    match parse_socks5_udp buf with
    | Ok (dst, payload) =>
      if tunnel_open then ur_set_out s client true (ur_tunnel s ++ [(dst, payload)])
      else ur_set_out s client false (ur_tunnel s)
    | Err _ => ur_set_out s client true (ur_tunnel s)
    end
  else s.

(** [udp_cmd]'s loop on one datagram from the tunnel. *)
Definition relay_inbound (s : UdpRelayState) (now : Z) (src : UdpAddr) (data : bytes) : UdpRelayState :=
  match ur_client s with
  | Some ca => ur_set_in s true now (ur_sent s ++ [(build_socks5_udp src data, ca)])
  | None => ur_set_in s true now (ur_sent s)
  end.

Definition relay_step (s : UdpRelayState) (e : RelayEvent) : UdpRelayState :=
  match e with
  | EvDatagram from buf open =>
    if ur_out_running s && negb (ur_cancelled s) then relay_datagram s from buf open else s
  | EvSocketError => ur_set_out s (ur_client s) false (ur_tunnel s)
  | EvInbound now src data =>
    if ur_in_running s && negb (ur_cancelled s) then relay_inbound s now src data else s
  | EvPipeClosed => ur_set_in s false (ur_last_activity s) (ur_sent s)
  | EvTcpClosed =>
    {| ur_expected := ur_expected s; ur_client := ur_client s; ur_cancelled := true;
       ur_out_running := false; ur_in_running := false; ur_last_activity := ur_last_activity s;
       ur_tunnel := ur_tunnel s; ur_sent := ur_sent s |}
  | EvTimer now =>
    if ur_in_running s && (UDP_IDLE <=? now - ur_last_activity s)
    then ur_set_in s false (ur_last_activity s) (ur_sent s) else s
  end.

Definition relay_run (s : UdpRelayState) (es : list RelayEvent) : UdpRelayState := fold_left relay_step es s.

(** ** Whole commands *)

Section commands.
Context {P H : Type} {TP : Transport P} {TH : Transport H}.

(** [connect_cmd]: the reply written, the stream to relay. *)
Definition connect_cmd (rd : Readings) (ob : Outbound (P := P) (H := H)) (target : bytes * Z) (last : Z)
  : list bytes * result AnyError nat * Outbound * Z :=
  let '(r, ob, last) := ob_open_tcp rd ob target.1 target.2 last in
  (match r with Ok _ => [reply 0] | Err e => [reply (socks5_reply_code e)] end, r, ob, last).

(** [udp_cmd] up to its tasks: the reply written and the relay's first state. *)
Definition udp_cmd (rd : Readings) (ob : Outbound (P := P) (H := H)) (target : bytes * Z) (peer local : IpAddr)
  (relay_port now last : Z) : list bytes * result AnyError UdpRelayState * Outbound * Z :=
  let expected := udp_client_ip target.1 peer in
  let '(r, ob, last) := ob_udp_associate rd ob last in
  match r with
  | Ok _ =>
    ([udp_reply local relay_port],
     Ok {| ur_expected := expected; ur_client := None; ur_cancelled := false; ur_out_running := true;
           ur_in_running := true; ur_last_activity := now; ur_tunnel := []; ur_sent := [] |}, ob, last)
  | Err e => ([reply (socks5_reply_code e)], Err e, ob, last)
  end.

End commands.

(** ** Lemmas *)

Lemma constant_time_eq_spec a b : constant_time_eq a b = true <-> a = b.
Proof.
  unfold constant_time_eq; destruct (len a =? len b) eqn:E; cbn [negb]; bsimpl.
  - rewrite Z.eqb_eq; apply ct_diff_zero; by apply len_eq.
  - split; [done|]; by intros ->.
Qed.

Lemma cbind_ok {A B} (c : conv A) (k : A -> conv B) s ws b r :
  cbind c k s = (ws, Ok (b, r)) <->
  exists ws1 a s' ws2, c s = (ws1, Ok (a, s')) /\ k a s' = (ws2, Ok (b, r)) /\ ws = ws1 ++ ws2.
Proof.
  unfold cbind; split.
  - destruct (c s) as [ws1 [[a s']|e]]; [|done]. destruct (k a s') as [ws2 r'] eqn:E; intros; simplify_eq; eauto 10.
  - by intros (ws1 & a & s' & ws2 & -> & -> & ->).
Qed.

Lemma cread_ok n s ws b r : cread n s = (ws, Ok (b, r)) <-> ws = [] /\ s = b ++ r /\ length b = n.
Proof.
  unfold cread; destruct (Nat.ltb (length s) n) eqn:E; split; intros H; [done| | |].
  - destruct H as (_ & -> & Hl). apply Nat.ltb_lt in E; rewrite length_app in E; lia.
  - simplify_eq. apply Nat.ltb_ge in E. rewrite take_drop, length_take; split_and!; [done|done|lia].
  - destruct H as (-> & -> & Hl). by rewrite take_app_len, drop_app_len.
Qed.

Lemma cread1_ok s ws b r : cread1 s = (ws, Ok (b, r)) <-> ws = [] /\ s = b :: r.
Proof. destruct s; cbn; (split; [intros H; by simplify_eq|intros [? ?]; by simplify_eq]). Qed.

Lemma censure_ok c m s ws u r : censure c m s = (ws, Ok (u, r)) <-> c = true /\ ws = [] /\ r = s.
Proof. unfold censure, cret, cfail; destruct c, u; (split; [intros H; by simplify_eq|intros (? & ? & ?); by simplify_eq]). Qed.

Lemma cret_ok {A} (a b : A) s ws r : cret a s = (ws, Ok (b, r)) <-> ws = [] /\ b = a /\ r = s.
Proof. unfold cret; (split; [intros H; by simplify_eq|intros (? & ? & ?); by simplify_eq]). Qed.
Lemma cwrite_ok b s ws u r : cwrite b s = (ws, Ok (u, r)) <-> ws = [b] /\ r = s.
Proof. unfold cwrite; destruct u; (split; [intros H; by simplify_eq|intros [? ?]; by simplify_eq]). Qed.

(** Inverts a conversation that succeeded. *)
Ltac cinv :=
  repeat match goal with
  | H : cbind _ _ _ = (_, Ok _) |- _ => apply cbind_ok in H as (? & ? & ? & ? & ? & ? & ?); simplify_eq
  | H : cread1 _ = (_, Ok _) |- _ => apply cread1_ok in H as [? ?]; simplify_eq
  | H : cread _ _ = (_, Ok _) |- _ => apply cread_ok in H as (? & ? & ?); simplify_eq
  | H : censure _ _ _ = (_, Ok _) |- _ => apply censure_ok in H as (? & ? & ?); simplify_eq
  | H : cret _ _ = (_, Ok _) |- _ => apply cret_ok in H as (? & ? & ?); simplify_eq
  | H : cwrite _ _ = (_, Ok _) |- _ => apply cwrite_ok in H as [? ?]; simplify_eq
  | H : cfail _ _ = (_, Ok _) |- _ => done
  end.

(** Runs the head of a conversation. *)
Lemma crun_read {B} (k : bytes -> conv B) b r n : length b = n -> cbind (cread n) k (b ++ r) = k b r.
Proof.
  intros Hl; unfold cbind. rewrite (proj2 (cread_ok n (b ++ r) [] b r)) by done. by destruct (k b r).
Qed.
Lemma crun_read1 {B} (k : Z -> conv B) b r : cbind cread1 k (b :: r) = k b r.
Proof. unfold cbind; cbn; by destruct (k b r). Qed.
Lemma crun_ensure {B} (k : unit -> conv B) c m s : c = true -> cbind (censure c m) k s = k tt s.
Proof. intros ->; unfold cbind; cbn; by destruct (k tt s). Qed.
Lemma crun_write {B} (k : unit -> conv B) b s : cbind (cwrite b) k s = (b :: (k tt s).1, (k tt s).2).
Proof. unfold cbind; cbn; by destruct (k tt s). Qed.
Lemma crun_of {A B} (c : conv A) (k : A -> conv B) s ws a s' : c s = (ws, Ok (a, s')) ->
  cbind c k s = (ws ++ (k a s').1, (k a s').2).
Proof. intros H; unfold cbind; rewrite H; by destruct (k a s'). Qed.

(** ** RFC 1928 requests *)

Inductive Dst := DV4 (o : bytes) (port : Z) | DDomain (d : bytes) (port : Z) | DV6 (o : bytes) (port : Z).

Definition dst_wf (d : Dst) : Prop :=
  match d with
  | DV4 o p => length o = 4%nat /\ 0 <= p < 2 ^ 16
  | DDomain n p => len n < 256 /\ utf8_valid n = true /\ 0 <= p < 2 ^ 16
  | DV6 o p => length o = 16%nat /\ 0 <= p < 2 ^ 16
  end.

(** ATYP, DST.ADDR, DST.PORT. *)
Definition dst_bytes (d : Dst) : bytes :=
  match d with
  | DV4 o p => 1 :: o ++ be_bytes 2 p
  | DDomain n p => 3 :: len n :: n ++ be_bytes 2 p
  | DV6 o p => 4 :: o ++ be_bytes 2 p
  end.

(** The target the tunnel is asked for. *)
Definition dst_target (d : Dst) : bytes * Z :=
  match d with
  | DV4 o p => (show_ip (IpV4 o), p)
  | DDomain n p => (n, p)
  | DV6 o p => (show_ip (IpV6 o), p)
  end.

(** A length byte and what it counts. *)
Definition counted (b : bytes) : bytes := len b :: b.

Lemma be_port b : wf_bytes b -> length b = 2%nat -> b = be_bytes 2 (be_val b) /\ 0 <= be_val b < 2 ^ 16.
Proof.
  intros Hw Hl; split; [by rewrite <- Hl, be_bytes_be_val|].
  pose proof (be_val_bound b Hw) as H; unfold len in H; rewrite Hl in H; exact H.
Qed.

Lemma len_of_nat (b : bytes) l : is_byte l -> length b = Z.to_nat l -> l = len b.
Proof. unfold is_byte, len; lia. Qed.

Lemma read_target_sound s ws t r : wf_bytes s -> read_target s = (ws, Ok (t, r)) ->
  exists d, dst_wf d /\ s = dst_bytes d ++ r /\ t = dst_target d /\ ws = [].
Proof.
  intros Hw H; unfold read_target in H; cinv.
  match goal with H : wf_bytes (?b :: _) |- _ => rename b into atyp end.
  destruct (atyp =? 1) eqn:E1; [|destruct (atyp =? 3) eqn:E3; [|destruct (atyp =? 4) eqn:E4; [|cinv]]]; cinv; bsimpl; subst;
    repeat match goal with
    | H : wf_bytes (_ :: _) |- _ => apply wf_bytes_cons in H as [? H]
    | H : wf_bytes (_ ++ _) |- _ => apply wf_bytes_app in H as [? H]
    end;
  match goal with Hp : length ?p = 2%nat |- _ => destruct (be_port p) as [Hb Hr]; [done..|] end.
  - match goal with |- exists d, _ /\ _ :: ?o ++ ?p ++ _ = _ /\ _ => exists (DV4 o (be_val p)) end.
    cbn [dst_wf dst_bytes app]; rewrite <- app_assoc, <- Hb; split_and!; done || lia.
  - match goal with |- exists d, _ /\ _ :: _ :: ?n ++ ?p ++ _ = _ /\ _ => exists (DDomain n (be_val p)) end.
    cbn [dst_wf dst_bytes app]; rewrite <- app_assoc, <- Hb.
    match goal with H : length ?d = Z.to_nat ?l, Hl : is_byte ?l |- _ =>
      pose proof (len_of_nat d l Hl H); unfold is_byte in Hl; subst l end; split_and!; done || lia.
  - match goal with |- exists d, _ /\ _ :: ?o ++ ?p ++ _ = _ /\ _ => exists (DV6 o (be_val p)) end.
    cbn [dst_wf dst_bytes app]; rewrite <- app_assoc, <- Hb; split_and!; done || lia.
Qed.

Lemma be_val_port p : 0 <= p < 2 ^ 16 -> be_val (be_bytes 2 p) = p.
Proof. intros; by apply (be_val_small 2). Qed.

Lemma read_target_complete d r : dst_wf d -> read_target (dst_bytes d ++ r) = ([], Ok (dst_target d, r)).
Proof.
  destruct d as [o p|n p|o p]; intros Hd; unfold read_target; cbn [dst_bytes app dst_wf] in *; rewrite crun_read1;
    cbn [Z.eqb Pos.eqb]; unfold cbind at 1.
  - destruct Hd as [Ho Hp]. rewrite <- app_assoc, crun_read by done. unfold cret at 1.
    rewrite crun_read by apply length_be_bytes. by rewrite be_val_port.
  - destruct Hd as (Hn & Hu & Hp). rewrite crun_read1, <- app_assoc, crun_read by (unfold len; lia).
    rewrite crun_ensure by done. unfold cret at 1.
    rewrite crun_read by apply length_be_bytes. by rewrite be_val_port.
  - destruct Hd as [Ho Hp]. rewrite <- app_assoc, crun_read by done. unfold cret at 1.
    rewrite crun_read by apply length_be_bytes. by rewrite be_val_port.
Qed.

Lemma read_rfc1929_sound s ws u p r : wf_bytes s -> read_rfc1929 s = (ws, Ok ((u, p), r)) ->
  ws = [] /\ s = 1 :: counted u ++ counted p ++ r.
Proof.
  intros Hw H; unfold read_rfc1929 in H; cinv; bsimpl; subst.
  repeat match goal with
  | H : wf_bytes (_ :: _) |- _ => apply wf_bytes_cons in H as [? H]
  | H : wf_bytes (_ ++ _) |- _ => apply wf_bytes_app in H as [? H]
  | Hl : length ?b = Z.to_nat ?l, Hb : is_byte ?l |- _ => apply (len_of_nat b l Hb) in Hl; subst l
  end.
  split; [done|]. unfold counted; cbn; by rewrite <- ?app_assoc.
Qed.

Lemma read_rfc1929_complete u p r : len u < 256 -> len p < 256 -> utf8_valid u = true -> utf8_valid p = true ->
  read_rfc1929 (1 :: counted u ++ counted p ++ r) = ([], Ok ((u, p), r)).
Proof.
  intros; unfold read_rfc1929, counted; rewrite crun_read1, crun_ensure by done; cbn [app].
  rewrite crun_read1, crun_read by (unfold len; lia). cbn [app].
  rewrite crun_read1, crun_read by (unfold len; lia).
  by rewrite !crun_ensure by done.
Qed.

(** What a client sends: greeting, sub-negotiation, request. *)
Definition client_hello (methods : bytes) : bytes := 5 :: counted methods.
Definition client_auth (u p : bytes) : bytes := 1 :: counted u ++ counted p.
Definition client_request (cmd rsv : Z) (d : Dst) : bytes := [5; cmd; rsv] ++ dst_bytes d.

Definition command (cmd : Z) (t : bytes * Z) : option Request :=
  if cmd =? 1 then Some (RConnect t) else if cmd =? 3 then Some (RUdp t) else None.

Lemma has_char_in c s : has_char c s = true <-> c ∈ s.
Proof.
  unfold has_char; rewrite existsb_exists; setoid_rewrite <- list_elem_of_In.
  split; [intros (x & Hx & E); bsimpl; by subst|intros H; exists c; split; [done|apply Z.eqb_refl]].
Qed.

(** What the chosen method makes the client send ([mid]) and the replies. *)
Definition method_run (auth : option (bytes * bytes)) (methods mid : bytes) (ws : list bytes) : Prop :=
  match auth with
  | Some (user, pass) => 2 ∈ methods /\ mid = client_auth user pass /\ ws = [[5; 2]; [1; 0]]
  | None => 0 ∈ methods /\ mid = [] /\ ws = [[5; 0]]
  end.

Lemma select_method_sound auth methods s ws u r : wf_bytes s ->
  select_method auth methods s = (ws, Ok (u, r)) -> exists mid, s = mid ++ r /\ method_run auth methods mid ws.
Proof.
  intros Hw H; unfold select_method, method_run in *; destruct auth as [[user pass]|].
  - destruct (has_char 2 methods) eqn:E; cbn [negb] in H; [|cinv].
    apply has_char_in in E.
    cinv. match goal with Hr : read_rfc1929 _ = (_, Ok (?up, _)) |- _ => destruct up as [u' p']; rename Hr into H2 end; cinv.
    apply read_rfc1929_sound in H2 as [-> ->]; [|done]. bsimpl.
    match goal with H : constant_time_eq u' user = true |- _ => apply constant_time_eq_spec in H; subst u' end.
    match goal with H : constant_time_eq p' pass = true |- _ => apply constant_time_eq_spec in H; subst p' end.
    rewrite (proj2 (constant_time_eq_spec _ _) eq_refl), (proj2 (constant_time_eq_spec _ _) eq_refl).
    eexists; split; [|done]. unfold client_auth; cbn; by rewrite <- !app_assoc.
  - destruct (has_char 0 methods) eqn:E; [|cinv].
    apply has_char_in in E; cinv. by exists [].
Qed.

Definition auth_ok (auth : option (bytes * bytes)) : Prop :=
  match auth with
  | Some (u, p) => len u < 256 /\ len p < 256 /\ utf8_valid u = true /\ utf8_valid p = true
  | None => True
  end.

Lemma select_method_complete auth methods mid ws r : auth_ok auth -> method_run auth methods mid ws ->
  select_method auth methods (mid ++ r) = (ws, Ok (tt, r)).
Proof.
  intros Ha Hm; unfold select_method, method_run in *; destruct auth as [[user pass]|].
  - destruct Hm as (Hin & -> & ->), Ha as (? & ? & ? & ?).
    rewrite (proj2 (has_char_in _ _) Hin); cbn [negb]. rewrite crun_write.
    unfold client_auth. rewrite <- app_comm_cons, <- app_assoc.
    rewrite (crun_of _ _ _ _ _ _ (read_rfc1929_complete user pass r ltac:(done) ltac:(done) ltac:(done) ltac:(done))).
    rewrite !(proj2 (constant_time_eq_spec _ _) eq_refl); cbn [andb]; by rewrite crun_write.
  - destruct Hm as (Hin & -> & ->). by rewrite (proj2 (has_char_in _ _) Hin).
Qed.

(** C28: the inbound's handshake accepts exactly the authenticated requests.
    Whatever bytes arrive, [handle] hands a request to a command's handler if
    and only if they are: a greeting whose method list offers the method the
    configuration asks for; with credentials configured, an RFC 1929 message
    carrying exactly that user and password; and a CONNECT or UDP ASSOCIATE
    request for an IPv4, domain or IPv6 destination, whose text form is the
    target. The replies written are then the method and the success code. So
    no byte sequence opens the tunnel without the configured credentials. *)
Theorem socks5_handshake_exact auth s ws req r : wf_bytes s -> auth_ok auth ->
  handle_request auth s = (ws, Ok (req, r)) <->
  exists methods mid cmd rsv d, len methods < 256 /\ method_run auth methods mid ws /\ dst_wf d /\
    command cmd (dst_target d) = Some req /\
    s = client_hello methods ++ mid ++ client_request cmd rsv d ++ r.
Proof.
  intros Hw Ha; unfold handle_request; split.
  - intros H.
    apply cbind_ok in H as (? & h0 & ? & ? & H0 & H & ->). cinv.
    match goal with H : select_method _ ?m _ = _ |- _ => rename H into Hsel; rename m into methods end.
    match goal with H : read_target _ = _ |- _ => rename H into Ht end.
    apply wf_bytes_cons in Hw as [_ Hw]; apply wf_bytes_cons in Hw as [Hm Hw]; apply wf_bytes_app in Hw as [_ Hw].
    match goal with Hl : length methods = _ |- _ => apply (len_of_nat _ _ Hm) in Hl; subst end.
    apply select_method_sound in Hsel as (mid & -> & Hrun); [|done].
    apply wf_bytes_app in Hw as [_ Hw]; do 3 apply wf_bytes_cons in Hw as [_ Hw].
    apply read_target_sound in Ht as (d & Hd & -> & -> & ->); [|done]. bsimpl; subst.
    unfold is_byte in Hm.
    match goal with H : context [?c =? 1] |- _ => rename H into Hc; exists methods, mid, c end.
    eexists _, d. unfold command.
    destruct (_ =? 1); [|destruct (_ =? 3); [|cinv]]; cinv; rewrite ?app_nil_r; split_and!; try done; try lia;
      unfold client_hello, client_request, counted; cbn; by rewrite <- ?app_assoc.
  - intros (methods & mid & cmd & rsv & d & Hl & Hrun & Hd & Hc & ->).
    unfold client_hello, counted; cbn [app]. rewrite !crun_read1, crun_ensure by done.
    rewrite crun_read by (unfold len; lia).
    unfold cbind at 1; rewrite (select_method_complete auth methods mid ws) by done.
    unfold client_request; cbn [app]. rewrite !crun_read1, crun_ensure by done.
    unfold cbind at 1; rewrite read_target_complete by done.
    unfold command in Hc; destruct (cmd =? 1); [|destruct (cmd =? 3)]; simplify_eq; cbn; by rewrite app_nil_r.
Qed.

(** A client that answers the method selection with other credentials is
    told so ([01 01]) and the handler ends there: nothing it sends afterwards
    is read. *)
Theorem socks5_bad_credentials user pass methods u p rest :
  len methods < 256 -> 2 ∈ methods -> len u < 256 -> len p < 256 ->
  utf8_valid u = true -> utf8_valid p = true -> (u, p) <> (user, pass) ->
  handle_request (Some (user, pass)) (client_hello methods ++ client_auth u p ++ rest)
    = ([[5; 2]; [1; 1]], Err "socks5 authentication failed").
Proof.
  intros Hm Hin Hu Hp Hvu Hvp Hne; unfold handle_request, client_hello, counted; cbn [app].
  rewrite !crun_read1, crun_ensure by done. rewrite crun_read by (unfold len; lia).
  unfold cbind at 1, select_method. rewrite (proj2 (has_char_in _ _) Hin); cbn [negb]. rewrite crun_write.
  unfold client_auth; rewrite <- app_comm_cons, <- app_assoc.
  rewrite (crun_of _ _ _ _ _ _ (read_rfc1929_complete u p rest Hu Hp Hvu Hvp)).
  assert (constant_time_eq u user && constant_time_eq p pass = false) as ->; [|done].
  apply not_true_iff_false; intros H; bsimpl; apply Hne.
  f_equal; by apply constant_time_eq_spec.
Qed.

(** The targets the handshake can hand over: text of at most 255 bytes, and a
    16-bit port, within what an Open frame carries. *)
Lemma dst_target_text d : dst_wf d -> wf_bytes (dst_bytes d) ->
  utf8_valid (dst_target d).1 = true /\ len (dst_target d).1 <= 255 /\ 0 <= (dst_target d).2 < 2 ^ 16.
Proof.
  assert (Hip : forall a, Forall ip_char (show_ip a) -> utf8_valid (show_ip a) = true).
  { intros a Ha. apply utf8_ascii. eapply Forall_impl; [exact Ha|]. unfold ip_char; lia. }
  destruct d as [o p|n p|o p]; cbn [dst_wf dst_bytes dst_target fst snd]; intros Hd Hw.
  1, 3: destruct Hd as [Hl Hp]; apply wf_bytes_cons in Hw as [_ Hw]; apply wf_bytes_app in Hw as [Hw _].
  - destruct (show_ip_text (IpV4 o)) as [H1 H2]; [done|by rewrite Hl; lia|]. auto.
  - destruct (show_ip_text (IpV6 o)) as [H1 H2]; [done|by rewrite Hl|]. auto.
  - destruct Hd as (Hl & Hu & Hp). split_and!; done || lia.
Qed.

Lemma handle_request_target auth s ws req r : wf_bytes s -> handle_request auth s = (ws, Ok (req, r)) ->
  let t := match req with RConnect t | RUdp t => t end in
  utf8_valid t.1 = true /\ len t.1 <= 255 /\ 0 <= t.2 < 2 ^ 16.
Proof.
  intros Hw H. unfold handle_request in H. apply cbind_ok in H as (? & h0 & ? & ? & H0 & H & ->). cinv.
  match goal with H : select_method _ ?m _ = _ |- _ => rename H into Hsel end.
  match goal with H : read_target _ = _ |- _ => rename H into Ht end.
  apply wf_bytes_cons in Hw as [_ Hw]; apply wf_bytes_cons in Hw as [_ Hw]; apply wf_bytes_app in Hw as [_ Hw].
  apply select_method_sound in Hsel as (mid & -> & _); [|done].
  apply wf_bytes_app in Hw as [_ Hw]; do 3 apply wf_bytes_cons in Hw as [_ Hw].
  apply read_target_sound in Ht as (d & Hd & -> & -> & ->); [|done]. apply wf_bytes_app in Hw as [Hw _].
  pose proof (dst_target_text d Hd Hw) as Hx.
  destruct (_ =? 1); [|destruct (_ =? 3); [|cinv]]; cinv; exact Hx.
Qed.

(** ** The relay accepts one client *)

(** A datagram from an address other than the association's. *)
Definition foreign (ip : IpAddr) (e : RelayEvent) : bool :=
  match e with EvDatagram from _ _ => negb (bool_decide (sa_ip from = ip)) | _ => false end.

(** An event that does not end a task. *)
Definition keeps_open (e : RelayEvent) : bool :=
  match e with EvDatagram _ _ open => open | EvInbound _ _ _ => true | _ => false end.

(** What an event puts into the tunnel. *)
Definition tunnelled (ip : IpAddr) (e : RelayEvent) : list (UdpAddr * bytes) :=
  match e with
  | EvDatagram from buf _ =>
    if bool_decide (sa_ip from = ip) then match parse_socks5_udp buf with Ok x => [x] | Err _ => [] end else []
  | _ => []
  end.

Lemma relay_step_expected s e : ur_expected (relay_step s e) = ur_expected s.
Proof. destruct e; cbn; unfold relay_datagram, relay_inbound; destr; done. Qed.

Lemma relay_step_foreign s e : foreign (ur_expected s) e = true -> relay_step s e = s.
Proof.
  destruct e as [from buf o| | | | |]; cbn; try done; intros H; bsimpl.
  unfold relay_datagram; rewrite bool_decide_false by done; by destruct (_ && _).
Qed.

Lemma relay_run_filter s es : relay_run s es = relay_run s (List.filter (fun e => negb (foreign (ur_expected s) e)) es).
Proof.
  unfold relay_run; revert s; induction es as [|e es IH]; intros s; [done|].
  cbn [List.filter]; destruct (foreign (ur_expected s) e) eqn:E; cbn [negb fold_left].
  - rewrite relay_step_foreign by done; apply IH.
  - rewrite IH, relay_step_expected; done.
Qed.

(** The endpoint is an accepted sender's, and everything sent went to it. *)
Definition relay_inv (ip : IpAddr) (s : UdpRelayState) : Prop :=
  ur_expected s = ip /\
  match ur_client s with
  | Some c => sa_ip c = ip /\ Forall (fun p => p.2 = c) (ur_sent s)
  | None => ur_sent s = []
  end.

Lemma relay_step_inv ip s e : relay_inv ip s -> relay_inv ip (relay_step s e).
Proof.
  intros [He Hc]; split; [by rewrite relay_step_expected|].
  destruct e as [from buf o| |now src data| | |now]; cbn; unfold relay_datagram, relay_inbound.
  - destruct (_ && _); [|done]. destruct (bool_decide _) eqn:Ei; [|done]. bsimpl.
    destruct (ur_client s) as [c|] eqn:Ec; destr; cbn; rewrite Hc; split; congruence || constructor.
  - done.
  - destruct (_ && _); [|done]. destruct (ur_client s) as [c|] eqn:Ec; cbn; rewrite Ec; [|done].
    destruct Hc; split; [done|]. apply Forall_app; split; [done|by repeat constructor].
  - done.
  - done.
  - by destruct (_ && _).
Qed.

Lemma relay_run_inv ip s es : relay_inv ip s -> relay_inv ip (relay_run s es).
Proof. unfold relay_run; revert s; induction es; intros s H; cbn; [done|]; auto using relay_step_inv. Qed.

(** Once learned, the endpoint does not change. *)
Lemma relay_step_client s e c : ur_client s = Some c -> ur_client (relay_step s e) = Some c.
Proof.
  intros H; destruct e; cbn; unfold relay_datagram, relay_inbound; rewrite ?H; destr; done.
Qed.
Lemma relay_run_client s es c : ur_client s = Some c -> ur_client (relay_run s es) = Some c.
Proof. unfold relay_run; revert s; induction es; intros s H; cbn; auto using relay_step_client. Qed.

Lemma relay_step_tunnel s e : ur_out_running s = true -> ur_cancelled s = false -> keeps_open e = true ->
  ur_tunnel (relay_step s e) = ur_tunnel s ++ tunnelled (ur_expected s) e /\
  ur_out_running (relay_step s e) = true /\ ur_cancelled (relay_step s e) = false.
Proof.
  intros Ho Hc Hk; destruct e as [from buf o| |now src data| | |now]; cbn in *; try done; rewrite ?app_nil_r, ?Hc; cbn.
  - rewrite Ho; subst o; cbn. unfold relay_datagram. destruct (bool_decide _); [|by rewrite app_nil_r].
    destruct (parse_socks5_udp buf) as [[dst pl]|e]; cbn; by rewrite ?app_nil_r.
  - unfold relay_inbound; destruct (_ && _); [|done]. by destruct (ur_client s).
Qed.

Lemma relay_run_tunnel s es : ur_out_running s = true -> ur_cancelled s = false ->
  Forall (fun e => keeps_open e = true) es ->
  ur_tunnel (relay_run s es) = ur_tunnel s ++ concat (map (tunnelled (ur_expected s)) es).
Proof.
  unfold relay_run; intros Ho Hc Hk; revert s Ho Hc; induction Hk as [|e es He _ IH]; intros s Ho Hc; cbn;
    [by rewrite app_nil_r|].
  destruct (relay_step_tunnel s e Ho Hc He) as (Ht & Ho' & Hc').
  by rewrite IH, Ht, relay_step_expected, <- app_assoc.
Qed.

Section relay_properties.
Context {P H : Type} {TP : Transport P} {TH : Transport H}.


End relay_properties.

(** The idle timeout closes half of the association. When [UDP_IDLE] has
    passed without a reply the command's loop ends and no reply is delivered
    any more, but the task reading the relay socket runs on: the next datagram
    of the client still enters the tunnel. *)
Theorem udp_idle_half_closed s now from buf dst payload :
  ur_out_running s = true -> ur_cancelled s = false -> ur_in_running s = true ->
  UDP_IDLE <= now - ur_last_activity s -> sa_ip from = ur_expected s -> parse_socks5_udp buf = Ok (dst, payload) ->
  let s' := relay_step s (EvTimer now) in
  ur_tunnel (relay_step s' (EvDatagram from buf true)) = ur_tunnel s ++ [(dst, payload)] /\
  forall es, ur_sent (relay_run s' es) = ur_sent s.
Proof.
  intros Ho Hc Hi Hidle Hip Hp s'.
  assert (Hs : s' = ur_set_in s false (ur_last_activity s) (ur_sent s)) by (unfold s'; cbn; rewrite Hi; by zbool).
  split.
  - destruct (relay_step_tunnel s' (EvDatagram from buf true)) as [-> _]; [by rewrite Hs..|done|].
    rewrite Hs; cbn; by rewrite bool_decide_true, Hp.
  - assert (Hin : ur_in_running s' = false) by (by rewrite Hs).
    assert (Hsent : ur_sent s' = ur_sent s) by (by rewrite Hs). clear Hs; clearbody s'. intros es.
    rewrite <- Hsent; clear Hsent; unfold relay_run; revert s' Hin; induction es as [|e es IH]; intros s' Hin; [done|].
    cbn [fold_left]; rewrite IH; destruct e; cbn; unfold relay_datagram; rewrite ?Hin; destr; done.
Qed.

(** ** Witnesses *)

Module Socks5Witness.

Definition greeting : bytes := client_hello [0; 2] ++ client_auth (str "u") (str "p")
  ++ client_request 1 0 (DDomain (str "example.com") 443) ++ str "GET".

Lemma socks5_handshake_exact_witness :
  handle_request (Some (str "u", str "p")) greeting
    = ([[5; 2]; [1; 0]], Ok (RConnect (str "example.com", 443), str "GET")).
Proof.
  apply socks5_handshake_exact; [apply (bool_decide_unpack _); vm_compute; exact I|cbn; done|].
  exists [0; 2], (client_auth (str "u") (str "p")), 1, 0, (DDomain (str "example.com") 443).
  split; [reflexivity|]. split.
  { split; [apply (bool_decide_unpack _); vm_compute; exact I|done]. }
  split; [vm_compute; done|]. split; reflexivity.
Defined.

Lemma socks5_bad_credentials_witness :
  handle_request (Some (str "u", str "p")) (client_hello [2] ++ client_auth (str "u") (str "q") ++ [5; 1; 0])
    = ([[5; 2]; [1; 1]], Err "socks5 authentication failed").
Proof.
  apply (socks5_bad_credentials (str "u") (str "p") [2] (str "u") (str "q") [5; 1; 0]);
    [reflexivity|apply list_elem_of_here|reflexivity..|discriminate].
Defined.

#[local] Instance unit_transport : Transport unit :=
  {| t_open_tcp := fun t _ _ => (Ok 0%nat, t); t_udp_associate := fun t => (Ok 0%nat, t) |}.

Definition peer : IpAddr := IpV4 [203; 0; 113; 5].
Definition other : IpAddr := IpV4 [198; 51; 100; 7].
Definition dgram (ip : IpAddr) (port : Z) (payload : bytes) : RelayEvent :=
  EvDatagram {| sa_ip := ip; sa_port := port |} ([0; 0; 0; 1; 8; 8; 8; 8; 0; 53] ++ payload) true.


Definition running : UdpRelayState := {|
  ur_expected := peer; ur_client := None; ur_cancelled := false; ur_out_running := true; ur_in_running := true;
  ur_last_activity := 0; ur_tunnel := []; ur_sent := [] |}.

Lemma udp_idle_half_closed_witness :
  ur_tunnel (relay_step (relay_step running (EvTimer 300000)) (dgram peer 1000 [2])) = [(UV4 [8; 8; 8; 8] 53, [2])].
Proof.
  eapply (udp_idle_half_closed running 300000 {| sa_ip := peer; sa_port := 1000 |}); first [reflexivity|unfold UDP_IDLE; cbn; lia].
Defined.

Example client_ip_concrete : udp_client_ip (str "198.51.100.7") peer = other
  /\ udp_client_ip (str "::") peer = peer /\ udp_client_ip (str "example.com") peer = peer.
Proof. vm_compute; auto. Qed.

End Socks5Witness.
