(* ===== verification/HttpProxy.v ===== *)
(** * The HTTP proxy inbound: [client/http_proxy.rs]

    Reading the request head from the chunks the socket delivers (the end of
    the chunk list is the end of the stream), the Basic authentication check,
    CONNECT and absolute-form forwarding, and the [Pipe] that replays the bytes
    read past the head. Base64 decoding belongs to the [base64] crate and is a
    parameter. *)

From S2P Require Import Prelude Bytes Crypto Frame Addr Net Ip Limit State Egress Mux Outbound Socks5.

Definition MAX_HEAD : Z := 16 * 1024.
Definition CHUNK : Z := 4096.
Definition double_crlf : bytes := [13; 10; 13; 10].

Definition find_double_crlf (buf : bytes) : option nat := find_sub double_crlf buf.

(** The read loop of [handle]: the buffer, the end of the head, the chunks not
    read yet. *)
Fixpoint read_head (buf : bytes) (chunks : list bytes) : result msg (bytes * nat * list bytes) :=
  match chunks with
  | [] => Err "client closed before sending request"
  | c :: cs =>
    let buf := buf ++ c in
    if MAX_HEAD <? len buf then Err "request head too large"
    else match find_double_crlf buf with
         | Some pos => Ok (buf, pos, cs)
         | None => read_head buf cs
         end
  end.

(** [reply_error]'s response. *)
Definition error_response (tg : bytes) : bytes :=
  let body := str "newppp error: " ++ tg ++ [c_nl] in
  str "HTTP/1.1 502 Bad Gateway" ++ crlf ++ str "Content-Type: text/plain" ++ crlf
  ++ str "X-Newppp-Error: " ++ tg ++ crlf ++ str "Content-Length: " ++ dec (len body) ++ crlf
  ++ str "Connection: close" ++ double_crlf ++ body.

Definition response_407 : bytes :=
  str "HTTP/1.1 407 Proxy Authentication Required" ++ crlf
  ++ str "Proxy-Authenticate: Basic realm=" ++ [c_dquote] ++ str "newppp" ++ [c_dquote] ++ crlf
  ++ str "Content-Length: 0" ++ crlf ++ str "Connection: close" ++ double_crlf.

Definition response_200 : bytes := str "HTTP/1.1 200 Connection Established" ++ double_crlf.

(** [s.find(['/', '?'])], as the two parts. *)
Fixpoint split_at_path (s : bytes) : bytes * bytes :=
  match s with
  | [] => ([], [])
  | c :: t => if (c =? c_slash) || (c =? c_qmark) then ([], s)
              else let '(a, b) := split_at_path t in (c :: a, b)
  end.

Definition parse_port (p : bytes) : result msg Z := ok_or (parse_uint u16_max p) "invalid digit found in string".

Definition parse_host_port (s : bytes) (default_port : Z) : result msg (bytes * Z) :=
  let s := trim s in
  let? _ := ensure (negb (bool_decide (s = []))) "empty target" in
  match strip_prefix (str "[") s with
  | Some stripped =>
    let? (host, after) := ok_or (split_once c_rbrack stripped) "bad ipv6 target" in
    let? port := match strip_prefix (str ":") after with
                 | Some p => parse_port p
                 | None => Ok default_port
                 end in
    Ok (host, port)
  | None =>
    match rsplit_once c_colon s with
    | Some (h, p) => if negb (has_char c_colon h) then let? port := parse_port p in Ok (h, port)
                     else Ok (s, default_port)
    | None => Ok (s, default_port)
    end
  end.

(** The lines of the head kept by [forward_http_head]. *)
Definition keep_line (line : bytes) : bool :=
  match split_once c_colon line with
  | None => false
  | Some (name, _) =>
    negb (eq_ignore_case name (str "proxy-authorization") || eq_ignore_case name (str "proxy-connection"))
  end.

Definition head_lines (head : bytes) : list bytes := split_pair 13 10 head.

Definition forward_http_head (head method origin version : bytes) : bytes :=
  method ++ str " " ++ origin ++ str " " ++ version ++ crlf
  ++ concat (map (fun l => l ++ crlf) (List.filter keep_line (drop 1 (head_lines head))))
  ++ crlf.

(** ** Authentication *)

Section auth.
(** [base64::engine::general_purpose::STANDARD.decode]. *)
Context (b64_decode : bytes -> option bytes).

(** The check of one [Proxy-Authorization] value. *)
Definition basic_ok (value user pass : bytes) : bool :=
  match split_once c_space (trim value) with
  | None => false
  | Some (scheme, b64) =>
    if negb (eq_ignore_case scheme (str "basic")) then false
    else match b64_decode (trim b64) with
         | None => false
         | Some raw =>
           match split_once c_colon raw with
           | None => false
           | Some (u, p) => constant_time_eq u user && constant_time_eq p pass
           end
         end
  end.

Fixpoint auth_lines (ls : list bytes) (user pass : bytes) : bool :=
  match ls with
  | [] => false
  | l :: t =>
    match split_once c_colon l with
    | None => auth_lines t user pass
    | Some (name, value) =>
      if negb (eq_ignore_case (trim name) (str "proxy-authorization")) then auth_lines t user pass
      else basic_ok value user pass
    end
  end.

Definition proxy_auth_ok (head user pass : bytes) : bool := auth_lines (drop 1 (head_lines head)) user pass.

(** ** The handler *)

(** What [handle] asks of the tunnel: a target, and the bytes it writes to it
    before relaying ([pending] bytes are those of the [Pipe]). *)
Inductive HttpRequest :=
| HConnect (host : bytes) (port : Z) (pending : bytes)
| HForward (host : bytes) (port : Z) (prefix : bytes).

Definition origin_form (suffix : bytes) : bytes :=
  if bool_decide (suffix = []) then str "/"
  else if starts_with (str "?") suffix then str "/" ++ suffix
  else suffix.

(** [handle] from the end of the head to the open: the response written on
    refusal, or the request. *)
Definition handle_head (auth : option (bytes * bytes)) (buf : bytes) (head_end : nat)
  : list bytes * result msg HttpRequest :=
  let head := utf8_lossy (take head_end buf) in
  let rest := drop (head_end + 4) buf in
  match head_lines head with
  | [] => ([], Err "missing request line")
  | request_line :: _ =>
    match split_whitespace request_line with
    | [] => ([], Err "missing method")
    | [_] => ([], Err "missing target")
    | [_; _] => ([], Err "missing HTTP version")
    | method :: target :: version :: more =>
      if negb (bool_decide (more = [])
               && (bool_decide (version = str "HTTP/1.0") || bool_decide (version = str "HTTP/1.1")))
      then ([], Err "malformed HTTP request line")
      else if match auth with Some (user, pass) => negb (proxy_auth_ok head user pass) | None => false end
      then ([response_407], Err "proxy authentication required")
      else if eq_ignore_case method (str "CONNECT") then
        match parse_host_port target 443 with
        | Ok (host, port) => ([], Ok (HConnect host port rest))
        | Err e => ([], Err e)
        end
      else
        match strip_prefix (str "http://") target with
        | None => ([], Err "only http:// and CONNECT supported")
        | Some hostport =>
          let '(authority, suffix) := split_at_path hostport in
          match parse_host_port authority 80 with
          | Ok (host, port) =>
            ([], Ok (HForward host port (forward_http_head head method (origin_form suffix) version ++ rest)))
          | Err e => ([], Err e)
          end
        end
    end
  end.

(** [handle] up to the open: also the chunks still on the socket. *)
Definition handle_http (auth : option (bytes * bytes)) (chunks : list bytes)
  : list bytes * result msg (HttpRequest * list bytes) :=
  match read_head [] chunks with
  | Err e => ([], Err e)
  | Ok (buf, pos, cs) =>
    match handle_head auth buf pos with
    | (ws, Ok r) => (ws, Ok (r, cs))
    | (ws, Err e) => (ws, Err e)
    end
  end.

End auth.

(** The open and the first bytes each way: what is written to the client and
    to the tunnel. *)
Section open.
Context {P H : Type} {TP : Transport P} {TH : Transport H}.

Definition request_target (r : HttpRequest) : bytes * Z :=
  match r with HConnect h p _ | HForward h p _ => (h, p) end.

Definition open_request (rd : Readings) (ob : Outbound (P := P) (H := H)) (r : HttpRequest) (last : Z)
  : list bytes * list bytes * result AnyError nat * Outbound * Z :=
  let '(o, ob, last) := ob_open_tcp rd ob (request_target r).1 (request_target r).2 last in
  match o, r with
  | Ok s, HConnect _ _ _ => ([response_200], [], Ok s, ob, last)
  | Ok s, HForward _ _ prefix => ([], [prefix], Ok s, ob, last)
  | Err e, _ => ([error_response (error_tag e)], [], Err e, ob, last)
  end.

End open.

(** ** The replaying pipe *)

(** [Pipe]: the pending bytes and what the inner stream will deliver. *)
Record Pipe := { pp_inner : bytes; pp_pending : bytes }.

(** [poll_read] into a buffer with [remaining] room, the inner stream having
    [avail] bytes ready: what is read. *)
Definition pipe_poll_read (p : Pipe) (remaining avail : nat) : bytes * Pipe :=
  match pp_pending p with
  | [] =>
    let n := Nat.min remaining avail in
    (take n (pp_inner p), {| pp_inner := drop n (pp_inner p); pp_pending := [] |})
  | _ =>
    let n := Nat.min (length (pp_pending p)) remaining in
    (take n (pp_pending p), {| pp_inner := pp_inner p; pp_pending := drop n (pp_pending p) |})
  end.

Fixpoint pipe_reads (p : Pipe) (polls : list (nat * nat)) : bytes * Pipe :=
  match polls with
  | [] => ([], p)
  | (room, avail) :: t =>
    let '(b, p) := pipe_poll_read p room avail in
    let '(bs, p) := pipe_reads p t in (b ++ bs, p)
  end.

(** ** Reading the head *)

(** However the stream is cut into chunks, the loop stops at the first blank
    line, having consumed nothing past the chunks it returns. *)
Lemma read_head_spec buf chunks n :
  find_double_crlf (buf ++ concat chunks) = Some n -> find_double_crlf buf = None ->
  Forall (fun c => len c <= CHUNK) chunks -> Z.of_nat n + CHUNK + 3 <= MAX_HEAD ->
  exists buf' cs, read_head buf chunks = Ok (buf', n, cs) /\ buf' ++ concat cs = buf ++ concat chunks
    /\ (n + 4 <= length buf')%nat.
Proof.
  revert buf; induction chunks as [|c cs IH]; intros buf Hs Hb Hc Hn; cbn [concat] in *.
  { rewrite app_nil_r in Hs; congruence. }
  apply Forall_cons in Hc as [Hc Hcs]; cbn [read_head].
  assert (Hlt : (length buf < n + 4)%nat).
  { destruct (Nat.lt_ge_cases (length buf) (n + 4)) as [|Hge]; [done|].
    unfold find_double_crlf in Hb; by rewrite (find_sub_within double_crlf buf (c ++ concat cs) n) in Hb by (done || cbn; lia). }
  rewrite (proj2 (Z.ltb_ge MAX_HEAD (len (buf ++ c)))) by (lens; unfold len in *; lia).
  rewrite app_assoc in Hs |- *.
  destruct (find_double_crlf (buf ++ c)) as [m|] eqn:Em.
  - unfold find_double_crlf in *; rewrite (find_sub_app _ _ (concat cs) _ Em) in Hs; simplify_eq.
    exists (buf ++ c), cs; split_and!; [done|done|].
    apply find_sub_some in Em as (_ & Hst & _); apply starts_with_len in Hst.
    rewrite length_drop in Hst; cbn in Hst; lia.
  - by apply IH.
Qed.

(** What the destination receives from the client: the bytes of the request
    and what the socket still delivers. *)
Definition wire_out (r : HttpRequest) (cs : list bytes) : bytes :=
  match r with HConnect _ _ b | HForward _ _ b => b ++ concat cs end.

Lemma handle_head_split b64 auth buf tail n : (n + 4 <= length buf)%nat ->
  match handle_head b64 auth buf n, handle_head b64 auth (buf ++ tail) n with
  | (ws, Ok (HConnect h p b)), (ws', r) => ws' = ws /\ r = Ok (HConnect h p (b ++ tail))
  | (ws, Ok (HForward h p b)), (ws', r) => ws' = ws /\ r = Ok (HForward h p (b ++ tail))
  | (ws, Err e), (ws', r) => ws' = ws /\ r = Err e
  end.
Proof.
  intros Hn; unfold handle_head.
  rewrite take_app_le, drop_app_le by lia; destr; split; try done; by rewrite <- ?app_assoc.
Qed.


(** ** The pipe *)

Lemma pipe_poll_keeps p room avail : let '(b, p') := pipe_poll_read p room avail in
  b ++ pp_pending p' ++ pp_inner p' = pp_pending p ++ pp_inner p.
Proof.
  unfold pipe_poll_read; destruct (pp_pending p) as [|x l] eqn:E; cbn [pp_pending pp_inner].
  - cbn; by rewrite take_drop.
  - by rewrite app_assoc, take_drop.
Qed.

Lemma pipe_poll_progress p room avail : (0 < room)%nat -> (0 < avail)%nat ->
  let '(b, p') := pipe_poll_read p room avail in
  (length (pp_pending p' ++ pp_inner p') <= length (pp_pending p ++ pp_inner p) - 1)%nat.
Proof.
  intros Hr Ha; unfold pipe_poll_read; destruct (pp_pending p) as [|x l] eqn:E; cbn [pp_pending pp_inner].
  - cbn [app]; rewrite length_drop; lia.
  - rewrite !length_app, length_drop; cbn [length]; lia.
Qed.

(** The pipe replays the bytes read past the head and then the socket, in
    order and once each: whatever the room and the available bytes of each
    poll, what was read is a prefix of the buffered bytes followed by the
    stream, and after as many productive polls as bytes everything was read. *)
Theorem pipe_replays_all p polls : let '(b, p') := pipe_reads p polls in
  b ++ pp_pending p' ++ pp_inner p' = pp_pending p ++ pp_inner p /\
  (Forall (fun q => (0 < q.1 /\ 0 < q.2)%nat) polls -> (length (pp_pending p ++ pp_inner p) <= length polls)%nat ->
   b = pp_pending p ++ pp_inner p).
Proof.
  revert p; induction polls as [|[room avail] t IH]; intros p; cbn [pipe_reads].
  - split; [done|]; intros _ Hl; cbn in Hl; destruct (pp_pending p ++ pp_inner p); cbn in Hl; [done|lia].
  - pose proof (pipe_poll_keeps p room avail) as Hk; pose proof (pipe_poll_progress p room avail) as Hp.
    destruct (pipe_poll_read p room avail) as [b1 p1]; specialize (IH p1).
    destruct (pipe_reads p1 t) as [b2 p2]; destruct IH as [IH1 IH2]; split.
    + by rewrite <- app_assoc, IH1.
    + intros HF Hl; apply Forall_cons in HF as [[Hr Ha] HF]; cbn in Hr, Ha.
      specialize (Hp Hr Ha); cbn in Hl; rewrite IH2, Hk by (done || lia); done.
Qed.

(** ** Authentication *)

(** The first [Proxy-Authorization] header of the head is [Basic] and decodes
    to the credentials. *)
Definition credentials_in (b64 : bytes -> option bytes) (head user pass : bytes) : Prop :=
  exists pre line post name value scheme tok,
    drop 1 (head_lines head) = pre ++ line :: post /\
    Forall (fun l => match split_once c_colon l with
                     | Some (nm, _) => eq_ignore_case (trim nm) (str "proxy-authorization") = false
                     | None => True end) pre /\
    split_once c_colon line = Some (name, value) /\
    eq_ignore_case (trim name) (str "proxy-authorization") = true /\
    split_once c_space (trim value) = Some (scheme, tok) /\ eq_ignore_case scheme (str "basic") = true /\
    b64 (trim tok) = Some (user ++ c_colon :: pass).

Lemma basic_ok_spec b64 value user pass : c_colon ∉ user ->
  basic_ok b64 value user pass = true <->
  exists scheme tok, split_once c_space (trim value) = Some (scheme, tok) /\
    eq_ignore_case scheme (str "basic") = true /\ b64 (trim tok) = Some (user ++ c_colon :: pass).
Proof.
  intros Hu; unfold basic_ok; split.
  - intros H; destruct (split_once c_space (trim value)) as [[scheme tok]|]; [|done].
    exists scheme, tok; split; [done|].
    destruct (eq_ignore_case scheme (str "basic")); [|done]; cbn [negb] in H; split; [done|].
    destruct (b64 (trim tok)) as [raw|]; [|done].
    destruct (split_once c_colon raw) as [[u p]|] eqn:E; [|done]. bsimpl.
    apply split_once_some in E as [-> _]; f_equal.
    by rewrite (proj1 (constant_time_eq_spec u user)), (proj1 (constant_time_eq_spec p pass)).
  - intros (scheme & tok & -> & -> & ->); cbn [negb].
    by rewrite split_once_char, !(proj2 (constant_time_eq_spec _ _) eq_refl).
Qed.

Lemma auth_lines_spec b64 user pass ls : auth_lines b64 ls user pass = true <->
  exists pre line post name value, ls = pre ++ line :: post /\
    Forall (fun l => match split_once c_colon l with
                     | Some (nm, _) => eq_ignore_case (trim nm) (str "proxy-authorization") = false
                     | None => True end) pre /\
    split_once c_colon line = Some (name, value) /\
    eq_ignore_case (trim name) (str "proxy-authorization") = true /\ basic_ok b64 value user pass = true.
Proof.
  induction ls as [|l ls IH]; cbn [auth_lines].
  { split; [done|]; intros (pre & line & post & n & v & H & _); by destruct pre. }
  destruct (split_once c_colon l) as [[nm v]|] eqn:E;
    [destruct (eq_ignore_case (trim nm) (str "proxy-authorization")) eqn:En; cbn [negb]|].
  - split; [intros H; by exists [], l, ls, nm, v|].
    intros (pre & line & post & n' & v' & H & Hf & Hs & Hn & Hb).
    destruct pre as [|x pre]; cbn in H; simplify_eq; [done|].
    apply Forall_cons in Hf as [Hx _]; rewrite E in Hx; congruence.
  - rewrite IH; split; intros (pre & line & post & n' & v' & H & Hf & Hs & Hn & Hb).
    + exists (l :: pre), line, post, n', v'; rewrite H; split_and!; try done. constructor; [by rewrite E|done].
    + destruct pre as [|x pre]; cbn in H; simplify_eq; try congruence.
      apply Forall_cons in Hf as [_ Hf]; by exists pre, line, post, n', v'.
  - rewrite IH; split; intros (pre & line & post & n' & v' & H & Hf & Hs & Hn & Hb).
    + exists (l :: pre), line, post, n', v'; rewrite H; split_and!; try done. constructor; [by rewrite E|done].
    + destruct pre as [|x pre]; cbn in H; simplify_eq; try congruence.
      apply Forall_cons in Hf as [_ Hf]; by exists pre, line, post, n', v'.
Qed.

Lemma proxy_auth_ok_spec b64 head user pass : c_colon ∉ user ->
  proxy_auth_ok b64 head user pass = true <-> credentials_in b64 head user pass.
Proof.
  intros Hu; unfold proxy_auth_ok, credentials_in; rewrite auth_lines_spec.
  setoid_rewrite (basic_ok_spec b64 _ user pass Hu); naive_solver.
Qed.

(** No request passes the proxy without the configured credentials. With
    [--inbound-auth user:pass], [handle] asks for a tunnel only if the head's
    first [Proxy-Authorization] header uses the Basic scheme and decodes to
    exactly [user:pass]; a well-formed request line without such a header is
    answered with 407 alone. *)
Theorem http_auth_gate b64 user pass buf n : c_colon ∉ user ->
  match handle_head b64 (Some (user, pass)) buf n with
  | (ws, Ok _) => ws = [] /\ credentials_in b64 (utf8_lossy (take n buf)) user pass
  | (ws, Err e) => (ws = [] \/ ws = [response_407]) /\
      (ws = [response_407] <-> e = "proxy authentication required"%string) /\
      (ws = [response_407] -> ~ credentials_in b64 (utf8_lossy (take n buf)) user pass)
  end.
Proof.
  intros Hu; pose proof (proxy_auth_ok_spec b64 (utf8_lossy (take n buf)) user pass Hu) as Hspec.
  assert (Hphp : forall s d e, parse_host_port s d = Err e -> e <> "proxy authentication required"%string).
  { intros s d e H; unfold parse_host_port, parse_port, ensure, rbind, ok_or in H; destr. }
  unfold handle_head. destruct (head_lines _) as [|rl ls]; [split_and!; naive_solver|].
  destruct (split_whitespace rl) as [|m [|t [|v more]]]; [split_and!; naive_solver..|].
  destruct (negb (_ && _)); [split_and!; naive_solver|].
  destruct (proxy_auth_ok _ _ _ _) eqn:Ea; cbn [negb].
  - pose proof (proj1 Hspec eq_refl). destruct (eq_ignore_case m (str "CONNECT")).
    + destruct (parse_host_port t 443) as [[h p]|e] eqn:E; [done|].
      specialize (Hphp _ _ _ E); split_and!; naive_solver.
    + destruct (strip_prefix _ t) as [hp|]; [|split_and!; naive_solver].
      destruct (split_at_path hp) as [a sfx].
      destruct (parse_host_port a 80) as [[h p]|e] eqn:E; [done|].
      specialize (Hphp _ _ _ E); split_and!; naive_solver.
  - split_and!; [by right|done|]. intros _ H; apply Hspec in H; congruence.
Qed.

Definition with_header (request_line name value : bytes) : bytes :=
  request_line ++ crlf ++ name ++ str ":" ++ value.

Lemma with_header_lines rl nm value : 13 ∉ rl -> 13 ∉ nm -> 13 ∉ value ->
  drop 1 (head_lines (with_header rl nm value)) = [nm ++ c_colon :: value].
Proof.
  intros Hr Hn Hv; unfold head_lines, with_header, crlf; cbn [app].
  rewrite split_pair_app by done; cbn [drop].
  rewrite split_pair_none; [done|].
  rewrite !elem_of_app; intros [?|[H|?]]; [done| |done].
  change (str ":") with [c_colon] in H. rewrite elem_of_cons, elem_of_nil in H; naive_solver.
Qed.

(** The proxy's credentials are withheld from the destination only when
    the header name is spelled without a trailing space. A request whose
    credentials come in [Proxy-Authorization:] is authenticated by them and
    forwarded without them; one that spells [Proxy-Authorization :] (the check
    trims the name, the filter does not) is authenticated by the same value and
    forwarded with the credentials in it. *)
Theorem http_credentials_forwarding b64 user pass rl value m o v : 13 ∉ rl -> 13 ∉ value ->
  let pa := str "Proxy-Authorization" in let pa_sp := str "Proxy-Authorization " in
  let start := m ++ str " " ++ o ++ str " " ++ v ++ crlf in
  proxy_auth_ok b64 (with_header rl pa value) user pass = basic_ok b64 value user pass /\
  proxy_auth_ok b64 (with_header rl pa_sp value) user pass = basic_ok b64 value user pass /\
  forward_http_head (with_header rl pa value) m o v = start ++ crlf /\
  forward_http_head (with_header rl pa_sp value) m o v = start ++ (pa_sp ++ str ":" ++ value ++ crlf) ++ crlf.
Proof.
  intros Hr Hv; cbv zeta.
  assert (Hno : forall c, c = 13 \/ c = c_colon ->
     c ∉ str "Proxy-Authorization" /\ c ∉ str "Proxy-Authorization ").
  { intros c [->| ->]; split; apply (bool_decide_unpack _); vm_compute; exact I. }
  destruct (Hno 13 ltac:(by left)) as [H1 H2], (Hno c_colon ltac:(by right)) as [H3 H4].
  unfold proxy_auth_ok, forward_http_head; rewrite !with_header_lines by done; cbn [auth_lines List.filter].
  unfold keep_line; rewrite !split_once_char by done.
  split_and!; [by vm_compute (eq_ignore_case _ _)| by vm_compute (eq_ignore_case _ _)|..].
  - replace (negb _) with false by (vm_compute; done). cbn [map concat]; by rewrite <- !app_assoc.
  - replace (negb _) with true by (vm_compute; done). cbn [map concat]; rewrite app_nil_r, <- !app_assoc; done.
Qed.

(** ** Targets *)

Lemma dec_plain n : forallb plain (dec n) = true.
Proof.
  apply forallb_forall; intros c Hc; apply list_elem_of_In, dec_digit in Hc.
  unfold plain, is_digit, in_rng in *; lia.
Qed.
Lemma dec_no_colon n : c_colon ∉ dec n.
Proof. intros H; by apply dec_digit in H. Qed.
Lemma parse_port_dec p : 0 <= p <= u16_max -> parse_port (dec p) = Ok p.
Proof. intros H; unfold parse_port; rewrite parse_uint_dec; [done|done|]; unfold u16_max in *; lia. Qed.

(** Targets are read as they are written: a host name or IPv4 literal with
    a port, without one (the scheme's default applies), and the bracketed forms
    of an IPv6 literal; the port of an explicit form is exact and a port above
    65535 is an error. *)
Theorem parse_host_port_forms h p d :
  forallb plain h = true -> h <> [] -> 0 <= p < 10 ^ 20 ->
  (c_colon ∉ h -> c_lbrack ∉ h ->
     parse_host_port h d = Ok (h, d) /\
     parse_host_port (h ++ str ":" ++ dec p) d =
       (if p <=? u16_max then Ok (h, p) else Err "invalid digit found in string")) /\
  (c_rbrack ∉ h ->
     parse_host_port (str "[" ++ h ++ str "]") d = Ok (h, d) /\
     parse_host_port (str "[" ++ h ++ str "]:" ++ dec p) d =
       (if p <=? u16_max then Ok (h, p) else Err "invalid digit found in string")).
Proof.
  intros Hp Hne Hpr.
  assert (Hport : parse_port (dec p) = if p <=? u16_max then Ok p else Err "invalid digit found in string").
  { destruct (p <=? u16_max) eqn:E; bsimpl; [apply parse_port_dec; lia|].
    unfold parse_port, parse_uint. pose proof (dec_digit p) as Hd; pose proof (dec_nonempty p) as Hn.
    assert (Hv : dec_val 0 (dec p) = Some p) by (apply dec_val_digits; cbn; lia).
    destruct (dec p) as [|c t]; [done|]. specialize (Hd c (list_elem_of_here _ _)).
    rewrite (proj2 (Z.eqb_neq c c_plus)) by (unfold is_digit, in_rng, c_plus in *; lia).
    rewrite Hv; by rewrite (proj2 (Z.leb_gt p u16_max)) by done. }
  assert (Hsome : forall a b, (bool_decide (a ++ h ++ b = []) = false))
    by (intros; apply bool_decide_eq_false; destruct a, h; done).
  split.
  - intros Hc Hb.
    assert (Hs : forall b, strip_prefix (str "[") (h ++ b) = None).
    { intros b; apply strip_prefix_none; intros r Heq; destruct h as [|x h]; [done|]; cbn in Heq.
      apply Hb; injection Heq as ->; apply list_elem_of_here. }
    split; unfold parse_host_port.
    + rewrite trim_plain by done. specialize (Hs []); specialize (Hsome [] []); cbn [app] in Hsome.
      rewrite app_nil_r in Hs, Hsome; rewrite Hsome; cbn [negb ensure rbind]; rewrite Hs.
      destruct (rsplit_once c_colon h) as [[a b]|] eqn:E; [|done]; exfalso.
      unfold rsplit_once in E; destruct (split_once c_colon (reverse h)) as [[x y]|] eqn:E'; [|done].
      apply split_once_some in E' as [E' _]; apply Hc; rewrite <- elem_of_reverse, E'.
      apply elem_of_app; right; apply list_elem_of_here.
    + rewrite trim_plain by (rewrite !forallb_app, Hp, dec_plain; done).
      specialize (Hsome [] (str ":" ++ dec p)); cbn [app] in Hsome; rewrite Hsome; cbn [negb ensure rbind].
      rewrite Hs; change (h ++ str ":" ++ dec p) with (h ++ c_colon :: dec p).
      rewrite rsplit_once_char by apply dec_no_colon.
      replace (has_char c_colon h) with false by (symmetry; apply not_true_iff_false; by rewrite has_char_in).
      cbn [negb]; rewrite Hport; by destruct (p <=? u16_max).
  - intros Hb; split; unfold parse_host_port.
    + rewrite trim_plain by (rewrite !forallb_app, Hp; done).
      rewrite Hsome; cbn [negb ensure rbind]; rewrite strip_prefix_app.
      change (h ++ str "]") with (h ++ c_rbrack :: []); by rewrite split_once_char.
    + rewrite trim_plain by (rewrite !forallb_app, Hp, dec_plain; done).
      rewrite Hsome; cbn [negb ensure rbind]; rewrite strip_prefix_app.
      change (h ++ str "]:" ++ dec p) with (h ++ c_rbrack :: str ":" ++ dec p).
      rewrite split_once_char by done. cbn [ok_or rbind]; rewrite strip_prefix_app, Hport.
      by destruct (p <=? u16_max).
Qed.

(** ** Witnesses *)

Module HttpProxyWitness.

Definition req : bytes := str "CONNECT example.com:8443 HTTP/1.1" ++ crlf
  ++ str "Proxy-Authorization: Basic dTpw" ++ double_crlf ++ str "HELLO".
Definition b64 (s : bytes) : option bytes := if bool_decide (s = str "dTpw") then Some (str "u:p") else None.

Example connect_request : handle_head b64 (Some (str "u", str "p")) req 66 =
  ([], Ok (HConnect (str "example.com") 8443 (str "HELLO"))).
Proof. vm_compute; reflexivity. Qed.


Lemma http_auth_gate_witness : credentials_in b64 (utf8_lossy (take 66 req)) (str "u") (str "p").
Proof.
  assert (Hc : c_colon ∉ str "u") by (apply (bool_decide_unpack _); vm_compute; exact I).
  pose proof (http_auth_gate b64 (str "u") (str "p") req 66 Hc) as H.
  rewrite connect_request in H. apply H.
Defined.

Lemma http_credentials_forwarding_witness :
  proxy_auth_ok b64 (with_header (str "GET http://h/ HTTP/1.1") (str "Proxy-Authorization ") (str " Basic dTpw"))
    (str "u") (str "p") = true.
Proof.
  destruct (http_credentials_forwarding b64 (str "u") (str "p") (str "GET http://h/ HTTP/1.1") (str " Basic dTpw")
    (str "GET") (str "/") (str "HTTP/1.1")) as (_ & H & _);
    [apply (bool_decide_unpack _); vm_compute; exact I..|].
  rewrite H; vm_compute; reflexivity.
Defined.

Lemma parse_host_port_forms_witness :
  parse_host_port (str "[::1]:8443") 443 = Ok (str "::1", 8443)
  /\ parse_host_port (str "example.com") 80 = Ok (str "example.com", 80).
Proof.
  split.
  - destruct (parse_host_port_forms (str "::1") 8443 443) as [_ H]; [reflexivity|discriminate|lia|].
    apply H; apply (bool_decide_unpack _); vm_compute; exact I.
  - destruct (parse_host_port_forms (str "example.com") 1 80) as [H _]; [reflexivity|discriminate|lia|].
    apply H; apply (bool_decide_unpack _); vm_compute; exact I.
Defined.

End HttpProxyWitness.
