(* ===== verification/ClientWt.v ===== *)
(** * The WebTransport client: [client/wt.rs]

    The connection pool (acquiring, trimming, refilling with back-off), one
    connection's session counter, UDP associations, frame dispatch, death and
    heartbeat. Connections are objects of a heap addressed by number, since the
    pool, the tasks and the callers share them. QUIC itself is a parameter: the
    result of dialing, of opening a stream and of the server's reply. *)

From S2P Require Import Prelude Bytes Crypto Frame Addr Net Ip Limit State Egress Mux Outbound.

Definition MAX_PER_CONN : Z := 50.
Definition PONG_MISS_LIMIT : Z := 2.
Definition HEARTBEAT_SECS : Z := 30.
Definition BASE_BACKOFF : Z := 10.
Definition MAX_BACKOFF : Z := 300.

(** The period drawn by [heartbeat_interval] for a jitter in [-band, band]. *)
Definition heartbeat_interval (jitter : Z) : Z :=
  let band := HEARTBEAT_SECS / 5 in
  HEARTBEAT_SECS + Z.max (- band) (Z.min band jitter).

Record WtConn := {
  wc_sessions : Z;
  wc_alive : bool;
  (** the [close] token is cancelled *)
  wc_closed : bool;
  wc_pong_seen : bool;
  wc_missed_pings : Z;
  wc_next_sid : Z;
  wc_udp : gmap Z nat;
  wc_pending_udp : gmap Z nat;
  (** the control queue and whether its writer task lives *)
  wc_ctrl : list OutFrame;
  wc_ctrl_open : bool;
  (** the inbound queues of the UDP pipes; the outcomes the oneshots delivered *)
  wc_dgram : gmap nat (Chan (UdpAddr * bytes));
  wc_replies : gmap nat (result OpenError unit);
}.

(** The state [connect] gives a new connection. *)
Definition wc_new (next_sid : Z) : WtConn := {|
  wc_sessions := 0; wc_alive := true; wc_closed := false; wc_pong_seen := false; wc_missed_pings := 0;
  wc_next_sid := next_sid; wc_udp := ∅; wc_pending_udp := ∅; wc_ctrl := []; wc_ctrl_open := true;
  wc_dgram := ∅; wc_replies := ∅ |}.

Definition wc_set_sessions (c : WtConn) (n : Z) : WtConn :=
  {| wc_sessions := n; wc_alive := wc_alive c; wc_closed := wc_closed c; wc_pong_seen := wc_pong_seen c;
     wc_missed_pings := wc_missed_pings c; wc_next_sid := wc_next_sid c; wc_udp := wc_udp c;
     wc_pending_udp := wc_pending_udp c; wc_ctrl := wc_ctrl c; wc_ctrl_open := wc_ctrl_open c;
     wc_dgram := wc_dgram c; wc_replies := wc_replies c |}.
Definition wc_set_life (c : WtConn) (alive closed pong : bool) (missed : Z) : WtConn :=
  {| wc_sessions := wc_sessions c; wc_alive := alive; wc_closed := closed; wc_pong_seen := pong;
     wc_missed_pings := missed; wc_next_sid := wc_next_sid c; wc_udp := wc_udp c;
     wc_pending_udp := wc_pending_udp c; wc_ctrl := wc_ctrl c; wc_ctrl_open := wc_ctrl_open c;
     wc_dgram := wc_dgram c; wc_replies := wc_replies c |}.
Definition wc_set_udp (c : WtConn) (next : Z) (udp pending : gmap Z nat) (ctrl : list OutFrame)
  (dg : gmap nat (Chan (UdpAddr * bytes))) (replies : gmap nat (result OpenError unit)) : WtConn :=
  {| wc_sessions := wc_sessions c; wc_alive := wc_alive c; wc_closed := wc_closed c; wc_pong_seen := wc_pong_seen c;
     wc_missed_pings := wc_missed_pings c; wc_next_sid := next; wc_udp := udp;
     wc_pending_udp := pending; wc_ctrl := ctrl; wc_ctrl_open := wc_ctrl_open c;
     wc_dgram := dg; wc_replies := replies |}.

(** ** One connection *)

(** [alive.store(false); close.cancel()]. *)
Definition wc_kill (c : WtConn) : WtConn := wc_set_life c false true (wc_pong_seen c) (wc_missed_pings c).

(** Dropping the waiters' senders leaves no reply, so they fail at once. *)
Definition expire (c : WtConn) : WtConn :=
  wc_kill (wc_set_udp c (wc_next_sid c) ∅ ∅ (wc_ctrl c) (wc_dgram c) (wc_replies c)).

Definition wc_reply_udp (c : WtConn) (sid : Z) (r : result OpenError unit) : WtConn :=
  match wc_pending_udp c !! sid with
  | Some w => wc_set_udp c (wc_next_sid c) (wc_udp c) (delete sid (wc_pending_udp c)) (wc_ctrl c) (wc_dgram c)
                (<[w := r]> (wc_replies c))
  | None => c
  end.

Definition dispatch (c : WtConn) (f : Frame) : WtConn :=
  match f_ftype f with
  | FUdpData =>
    match ua_decode (rd_new (f_payload f)) with
    | Ok (src, r) =>
      match wc_udp c !! f_sid f with
      | Some q =>
        match wc_dgram c !! q with
        | Some ch => wc_set_udp c (wc_next_sid c) (wc_udp c) (wc_pending_udp c) (wc_ctrl c)
                       (<[q := (ch_send ch (src, fst (rest r))).2]> (wc_dgram c)) (wc_replies c)
        | None => c
        end
      | None => c
      end
    | Err _ => c
    end
  | FUdpOk => wc_reply_udp c (f_sid f) (Ok tt)
  | FOpenErr | FError => wc_reply_udp c (f_sid f) (Err (code_to_open_error (f_payload f)))
  | FPong => wc_set_life c (wc_alive c) (wc_closed c) true (wc_missed_pings c)
  | _ => c
  end.

(** [ctrl_tx.send(f).await]. *)
Definition ctrl_send (c : WtConn) (f : OutFrame) : bool * WtConn :=
  if wc_ctrl_open c
  then (true, wc_set_udp c (wc_next_sid c) (wc_udp c) (wc_pending_udp c) (wc_ctrl c ++ [f]) (wc_dgram c) (wc_replies c))
  else (false, c).

(** One tick of the heartbeat task; [false] ends it. *)
Definition heartbeat_tick (c : WtConn) : bool * WtConn :=
  let judged :=
    if wc_pong_seen c then inl (wc_set_life c (wc_alive c) (wc_closed c) false 0)
    else let missed := wc_missed_pings c + 1 in
         let c := wc_set_life c (wc_alive c) (wc_closed c) false missed in
         if PONG_MISS_LIMIT <=? missed then inr (expire c) else inl c in
  match judged with
  | inr c => (false, c)
  | inl c => ctrl_send c (out FPing 0 0 [])
  end.

(** [alloc_sid] skips zero and the sids of live associations. *)
Definition wt_alloc_sid (c : WtConn) : option (Z * WtConn) :=
  match alloc_loop (size (wc_udp c) + 2) (fun v => bool_decide (is_Some (wc_udp c !! v))) (wc_next_sid c) with
  | Some (v, next) =>
    Some (v, wc_set_udp c next (wc_udp c) (wc_pending_udp c) (wc_ctrl c) (wc_dgram c) (wc_replies c))
  | None => None
  end.

(** How the stream open and the server's reply went. *)
Inductive OpenReply :=
| RFailed (m : msg)                (* a timeout or an error on the stream *)
| RFrame (f : option Frame).       (* the first frame read, [None] at its end *)

(** The reply's classification in [do_open_tcp]. *)
Definition open_reply (sid : Z) (r : OpenReply) : result AnyError unit :=
  match r with
  | RFailed m => Err (ETransport m)
  | RFrame (Some f) =>
    match f_ftype f with
    | FOpenOk => if f_sid f =? sid then Ok tt else Err (ETransport "unexpected open reply")
    | FOpenErr => Err (ETarget (code_to_open_error (f_payload f)))
    | _ => Err (ETransport "unexpected open reply")
    end
  | RFrame None => Err (ETransport "unexpected open reply")
  end.

(** [WtConn::open_tcp] up to the wait: [Ok sid] leaves the counter raised. *)
Definition wt_open_start (c : WtConn) : result AnyError Z * WtConn :=
  if negb (wc_alive c) then (Err (ETransport "connection closed"), c)
  else if MAX_PER_CONN <=? wc_sessions c then (Err (ETarget OLimit), c)
  else match wt_alloc_sid (wc_set_sessions c (wc_sessions c + 1)) with
       | Some (sid, c) => (Ok sid, c)
       | None => (Err (ETransport "no free sid"), c)
       end.

(** The end of [WtConn::open_tcp]. *)
Definition wt_open_finish (c : WtConn) (sid : Z) (r : OpenReply) : result AnyError unit * WtConn :=
  match open_reply sid r with
  | Ok _ => (Ok tt, c)
  | Err e => (Err e, wc_set_sessions c (wc_sessions c - 1))
  end.

(** [WtConn::open_tcp] with nothing in between. *)
Definition wt_open_tcp (c : WtConn) (r : OpenReply) : result AnyError unit * WtConn :=
  match wt_open_start c with
  | (Ok sid, c) => wt_open_finish c sid r
  | (Err e, c) => (Err e, c)
  end.

(** The reader task of a session ending. *)
Definition wt_session_end (c : WtConn) : WtConn := wc_set_sessions c (wc_sessions c - 1).

(** The reader task: what it writes to the local side. *)
Fixpoint wt_session_reader (reads : list (result msg (option Frame))) (local_ok : bytes -> bool) : list bytes :=
  match reads with
  | Ok (Some f) :: t =>
    match f_ftype f with
    | FData =>
      if negb (local_ok (f_payload f)) then []
      else if has_flag (f_flags f) FLAG_FIN then [f_payload f]
      else f_payload f :: wt_session_reader t local_ok
    | FClose => []
    | _ => wt_session_reader t local_ok
    end
  | _ => []
  end.

(** The writer task: the frames it sends for the chunks it reads, in order. *)
Definition wt_session_writer (sid : Z) (chunks : list bytes) : list OutFrame :=
  map (out FData 0 sid) chunks ++ [out FClose FLAG_FIN sid []].

(** [udp_associate] up to the wait. *)
Definition wt_udp_start (c : WtConn) (w : nat) : result AnyError Z * WtConn :=
  if negb (wc_alive c) then (Err (ETransport "connection closed"), c)
  else match wt_alloc_sid c with
       | None => (Err (ETransport "no free sid"), c)
       | Some (sid, c) =>
         let c := wc_set_udp c (wc_next_sid c) (wc_udp c) (<[sid := w]> (wc_pending_udp c)) (wc_ctrl c)
                    (wc_dgram c) (wc_replies c) in
         match ctrl_send c (out FUdpAssociate 0 sid []) with
         | (true, c) => (Ok sid, c)
         | (false, c) =>
           (Err (ETransport "control channel closed"),
            wc_set_udp c (wc_next_sid c) (wc_udp c) (delete sid (wc_pending_udp c)) (wc_ctrl c)
              (wc_dgram c) (wc_replies c))
         end
       end.

(** [udp_associate] after the wait; [None] is a timeout or a dropped sender. *)
Definition wt_udp_finish (c : WtConn) (sid : Z) (q : nat) (reply : option (result OpenError unit))
  : result AnyError unit * WtConn :=
  match reply with
  | None =>
    (Err (ETransport "udp_associate timeout"),
     wc_set_udp c (wc_next_sid c) (wc_udp c) (delete sid (wc_pending_udp c)) (wc_ctrl c) (wc_dgram c) (wc_replies c))
  | Some (Err e) => (Err (ETarget e), c)
  | Some (Ok _) =>
    (Ok tt, wc_set_udp c (wc_next_sid c) (<[sid := q]> (wc_udp c)) (wc_pending_udp c) (wc_ctrl c)
              (<[q := {| ch_alive := true; ch_sent := [] |}]> (wc_dgram c)) (wc_replies c))
  end.

(** [WtConn::udp_associate] with nothing in between. *)
Definition wt_udp_associate (c : WtConn) (w q : nat) (reply : option (result OpenError unit))
  : result AnyError unit * WtConn :=
  match wt_udp_start c w with
  | (Ok sid, c) => wt_udp_finish c sid q reply
  | (Err e, c) => (Err e, c)
  end.

(** The datagram task: one datagram of the local side. [false] ends the task,
    which removes the route. *)
Section udp_out.
Context {P : Prims}.

Definition wt_udp_send (max : option Z) (dg_ok : bool) (enc : FrameEncoder) (c : WtConn) (sid : Z)
  (dst : UdpAddr) (data : bytes) : bool * option bytes * FrameEncoder * WtConn :=
  let payload := ua_encode dst [] ++ data in
  match encode enc FUdpData 0 sid payload with
  | (Err _, enc) => (true, None, enc, c)
  | (Ok wire, enc) =>
    if (len wire <=? default 0 max) && dg_ok then (true, Some wire, enc, c)
    else let '(ok, c) := ctrl_send c (out FUdpData 0 sid payload) in (ok, None, enc, c)
  end.

Definition wt_udp_end (c : WtConn) (sid : Z) : WtConn :=
  wc_set_udp c (wc_next_sid c) (delete sid (wc_udp c)) (wc_pending_udp c) (wc_ctrl c) (wc_dgram c) (wc_replies c).

End udp_out.

(** ** The pool *)

Record WtPool := { wp_size : Z; wp_conns : list nat; wp_heap : gmap nat WtConn; wp_next : nat }.

Definition wp_set (p : WtPool) (conns : list nat) (heap : gmap nat WtConn) : WtPool :=
  {| wp_size := wp_size p; wp_conns := conns; wp_heap := heap; wp_next := wp_next p |}.

Definition wp_alive (h : gmap nat WtConn) (i : nat) : bool :=
  match h !! i with Some c => wc_alive c | None => false end.
Definition wp_sessions (h : gmap nat WtConn) (i : nat) : Z :=
  match h !! i with Some c => wc_sessions c | None => 0 end.

(** A dialed connection, added to the heap. *)
Definition wp_dial (p : WtPool) (sid : Z) : nat * WtPool :=
  (wp_next p, {| wp_size := wp_size p; wp_conns := wp_conns p; wp_heap := <[wp_next p := wc_new sid]> (wp_heap p);
                 wp_next := S (wp_next p) |}).

(** [position(|c| c.sessions == 0)] and removal: the victim and the others. *)
Fixpoint take_idle (h : gmap nat WtConn) (l : list nat) : option (nat * list nat) :=
  match l with
  | [] => None
  | i :: t => if wp_sessions h i =? 0 then Some (i, t)
              else match take_idle h t with Some (v, r) => Some (v, i :: r) | None => None end
  end.

(** The trimming loop; [fuel] is the length of the list. *)
Fixpoint trim_idle (fuel : nat) (size : Z) (h : gmap nat WtConn) (l : list nat) : list nat * gmap nat WtConn :=
  match fuel with
  | O => (l, h)
  | S n =>
    if len l <=? size then (l, h)
    else match take_idle h l with
         | None => (l, h)
         | Some (v, r) => trim_idle n size (alter wc_kill v h) r
         end
  end.

(** The pool half of a maintenance tick. *)
Definition maintain_pool (p : WtPool) : WtPool :=
  let l := List.filter (wp_alive (wp_heap p)) (wp_conns p) in
  let '(l, h) := trim_idle (length l) (wp_size p) (wp_heap p) l in
  wp_set p l h.

(** The back-off of the refilling loop, in seconds. *)
Record Backoff := { bo_delay : Z; bo_next : Z }.

(** [0..need] dials with their outcomes ([Some sid] for a success). *)
Fixpoint dial_all (p : WtPool) (dials : list (option Z)) : bool * WtPool :=
  match dials with
  | [] => (false, p)
  | d :: t =>
    match d with
    | Some sid =>
      let '(i, p) := wp_dial p sid in
      (true, (dial_all (wp_set p (wp_conns p ++ [i]) (wp_heap p)) t).2)
    | None => dial_all p t
    end
  end.

(** One tick of the maintenance task; [dials] gives an outcome per attempt. *)
Definition maintenance_tick (now : Z) (dials : list (option Z)) (p : WtPool) (b : Backoff) : WtPool * Backoff :=
  let p := maintain_pool p in
  let need := sat_sub (wp_size p) (len (wp_conns p)) in
  if need =? 0 then (p, {| bo_delay := BASE_BACKOFF; bo_next := now |})
  else if now <? bo_next b then (p, b)
  else match dial_all p (take (Z.to_nat need) dials) with
       | (true, p) => (p, {| bo_delay := BASE_BACKOFF; bo_next := now |})
       | (false, p) => let d := Z.min (bo_delay b * 2) MAX_BACKOFF in (p, {| bo_delay := d; bo_next := now + d |})
       end.

(** [min_by_key]: the first of the least loaded. *)
Fixpoint least_loaded (h : gmap nat WtConn) (l : list nat) : option nat :=
  match l with
  | [] => None
  | i :: t => match least_loaded h t with
              | Some j => if wp_sessions h j <? wp_sessions h i then Some j else Some i
              | None => Some i
              end
  end.

Definition usable (h : gmap nat WtConn) (i : nat) : bool := wp_alive h i && (wp_sessions h i <? MAX_PER_CONN).

(** [acquire]; [dial] is the outcome of a fresh dial. *)
Definition acquire (p : WtPool) (dial : result msg Z) : result AnyError nat * WtPool :=
  match least_loaded (wp_heap p) (List.filter (usable (wp_heap p)) (wp_conns p)) with
  | Some i => (Ok i, p)
  | None =>
    match dial with
    | Err m => (Err (ETransport m), p)
    | Ok sid =>
      let '(i, p) := wp_dial p sid in
      (Ok i, wp_set p (List.filter (wp_alive (wp_heap p)) (wp_conns p) ++ [i]) (wp_heap p))
    end
  end.

Definition wp_update (p : WtPool) (i : nat) (c : WtConn) : WtPool := wp_set p (wp_conns p) (<[i := c]> (wp_heap p)).

(** What the network answers to one open. *)
Record OpenEnv := { oe_dial : result msg Z; oe_reply : OpenReply; oe_udp_reply : option (result OpenError unit);
                    oe_waiter : nat; oe_queue : nat }.

(** After an error: a transport failure kills the connection, a target refusal
    does not. *)
Definition after_error (e : AnyError) (c : WtConn) : WtConn :=
  match target_error e with None => wc_kill c | Some _ => c end.

Definition pool_open_tcp (env : OpenEnv) (p : WtPool) : result AnyError nat * WtPool :=
  match acquire p (oe_dial env) with
  | (Err e, p) => (Err e, p)
  | (Ok i, p) =>
    match wp_heap p !! i with
    | None => (Err (ETransport "no connection"), p)
    | Some c =>
      match wt_open_tcp c (oe_reply env) with
      | (Ok _, c) => (Ok i, wp_update p i c)
      | (Err e, c) => (Err e, wp_update p i (after_error e c))
      end
    end
  end.

Definition pool_udp_associate (env : OpenEnv) (p : WtPool) : result AnyError nat * WtPool :=
  match acquire p (oe_dial env) with
  | (Err e, p) => (Err e, p)
  | (Ok i, p) =>
    match wp_heap p !! i with
    | None => (Err (ETransport "no connection"), p)
    | Some c =>
      match wt_udp_associate c (oe_waiter env) (oe_queue env) (oe_udp_reply env) with
      | (Ok _, c) => (Ok i, wp_update p i c)
      | (Err e, c) => (Err e, wp_update p i (after_error e c))
      end
    end
  end.

(** The pool as a transport: the answers of the network come in order (an
    empty list is a network that answers nothing). *)
Record PoolWorld := { pw_pool : WtPool; pw_env : list OpenEnv }.

Definition no_answer : OpenEnv := {|
  oe_dial := Err "connect timeout"; oe_reply := RFailed "open reply timeout"; oe_udp_reply := None;
  oe_waiter := 0; oe_queue := 0 |}.

Definition pw_run (f : OpenEnv -> WtPool -> result AnyError nat * WtPool) (w : PoolWorld)
  : result AnyError nat * PoolWorld :=
  let '(r, p) := f (default no_answer (head (pw_env w))) (pw_pool w) in
  (r, {| pw_pool := p; pw_env := drop 1 (pw_env w) |}).

#[global] Instance pool_transport : Transport PoolWorld := {|
  t_open_tcp := fun w _ _ => pw_run pool_open_tcp w;
  t_udp_associate := fun w => pw_run pool_udp_associate w |}.

(** ** Sid allocation and the session counter *)

Definition sids_ok (c : WtConn) : Prop := 0 <= wc_next_sid c < 2 ^ 32 /\ Z.of_nat (size (wc_udp c) + 2) <= 2 ^ 32.

Lemma wt_alloc_total c : sids_ok c -> exists sid c', wt_alloc_sid c = Some (sid, c') /\ sid <> 0 /\
  wc_udp c !! sid = None /\
  c' = wc_set_udp c (wrap 32 (sid + 1)) (wc_udp c) (wc_pending_udp c) (wc_ctrl c) (wc_dgram c) (wc_replies c).
Proof.
  intros [Hn Hs]; unfold wt_alloc_sid.
  destruct (alloc_loop_total (size (wc_udp c) + 2) (fun v => bool_decide (is_Some (wc_udp c !! v))) (wc_next_sid c)
    (dom (wc_udp c))) as (s & -> & ? & Ht & ?); [done|done| | |].
  - intros s H; bsimpl; by apply elem_of_dom.
  - rewrite size_dom; lia.
  - bsimpl. exists s; eexists; split_and!; [done|done|by apply eq_None_not_Some|done].
Qed.

Lemma wt_alloc_sessions c sid c' : wt_alloc_sid c = Some (sid, c') ->
  wc_sessions c' = wc_sessions c /\ wc_alive c' = wc_alive c.
Proof. unfold wt_alloc_sid; intros; destr. Qed.

(** A connection with the opens in flight (their sids), the sessions whose
    reader task runs, and the callers between the increment that found the
    connection full and the decrement that undoes it. *)
Record SessWorld := { sw_conn : WtConn; sw_inflight : list Z; sw_live : nat; sw_refusing : nat }.

Inductive sess_step : SessWorld -> SessWorld -> Prop :=
| ss_start c fl n r sid c' : sids_ok c -> wt_open_start c = (Ok sid, c') ->
    sess_step {| sw_conn := c; sw_inflight := fl; sw_live := n; sw_refusing := r |}
              {| sw_conn := c'; sw_inflight := sid :: fl; sw_live := n; sw_refusing := r |}
| ss_full_add c fl n r : wc_alive c = true -> MAX_PER_CONN <= wc_sessions c ->
    sess_step {| sw_conn := c; sw_inflight := fl; sw_live := n; sw_refusing := r |}
              {| sw_conn := wc_set_sessions c (wc_sessions c + 1); sw_inflight := fl; sw_live := n; sw_refusing := S r |}
| ss_full_sub c fl n r :
    sess_step {| sw_conn := c; sw_inflight := fl; sw_live := n; sw_refusing := S r |}
              {| sw_conn := wc_set_sessions c (wc_sessions c - 1); sw_inflight := fl; sw_live := n; sw_refusing := r |}
| ss_finish_ok c fl1 fl2 n r sid reply c' : wt_open_finish c sid reply = (Ok tt, c') ->
    sess_step {| sw_conn := c; sw_inflight := fl1 ++ sid :: fl2; sw_live := n; sw_refusing := r |}
              {| sw_conn := c'; sw_inflight := fl1 ++ fl2; sw_live := S n; sw_refusing := r |}
| ss_finish_err c fl1 fl2 n r sid reply e c' : wt_open_finish c sid reply = (Err e, c') ->
    sess_step {| sw_conn := c; sw_inflight := fl1 ++ sid :: fl2; sw_live := n; sw_refusing := r |}
              {| sw_conn := after_error e c'; sw_inflight := fl1 ++ fl2; sw_live := n; sw_refusing := r |}
| ss_end c fl n r :
    sess_step {| sw_conn := c; sw_inflight := fl; sw_live := S n; sw_refusing := r |}
              {| sw_conn := wt_session_end c; sw_inflight := fl; sw_live := n; sw_refusing := r |}
| ss_frame c fl n r f :
    sess_step {| sw_conn := c; sw_inflight := fl; sw_live := n; sw_refusing := r |}
              {| sw_conn := dispatch c f; sw_inflight := fl; sw_live := n; sw_refusing := r |}
| ss_tick c fl n r :
    sess_step {| sw_conn := c; sw_inflight := fl; sw_live := n; sw_refusing := r |}
              {| sw_conn := (heartbeat_tick c).2; sw_inflight := fl; sw_live := n; sw_refusing := r |}
| ss_expire c fl n r :
    sess_step {| sw_conn := c; sw_inflight := fl; sw_live := n; sw_refusing := r |}
              {| sw_conn := expire c; sw_inflight := fl; sw_live := n; sw_refusing := r |}
| ss_udp c fl n r w res c' : wt_udp_start c w = (res, c') ->
    sess_step {| sw_conn := c; sw_inflight := fl; sw_live := n; sw_refusing := r |}
              {| sw_conn := c'; sw_inflight := fl; sw_live := n; sw_refusing := r |}
| ss_udp_done c fl n r sid q reply res c' : wt_udp_finish c sid q reply = (res, c') ->
    sess_step {| sw_conn := c; sw_inflight := fl; sw_live := n; sw_refusing := r |}
              {| sw_conn := c'; sw_inflight := fl; sw_live := n; sw_refusing := r |}.

Definition sess_inv (w : SessWorld) : Prop :=
  wc_sessions (sw_conn w) = len (sw_inflight w) + Z.of_nat (sw_live w) + Z.of_nat (sw_refusing w) /\
  len (sw_inflight w) + Z.of_nat (sw_live w) <= MAX_PER_CONN.

Lemma dispatch_sessions c f : wc_sessions (dispatch c f) = wc_sessions c.
Proof. unfold dispatch, wc_reply_udp; destr; done. Qed.
Lemma tick_sessions c : wc_sessions (heartbeat_tick c).2 = wc_sessions c.
Proof. unfold heartbeat_tick, ctrl_send; destr; done. Qed.
Lemma after_error_sessions e c : wc_sessions (after_error e c) = wc_sessions c.
Proof. unfold after_error; destr; done. Qed.
Lemma udp_start_sessions c w r c' : wt_udp_start c w = (r, c') -> wc_sessions c' = wc_sessions c.
Proof.
  unfold wt_udp_start; destruct (wc_alive c); cbn [negb]; [|intros; by simplify_eq].
  destruct (wt_alloc_sid c) as [[sid c1]|] eqn:E; [|intros; by simplify_eq].
  apply wt_alloc_sessions in E as [<- _]; unfold ctrl_send; intros; destr.
Qed.
Lemma udp_finish_sessions c sid q rep r c' : wt_udp_finish c sid q rep = (r, c') -> wc_sessions c' = wc_sessions c.
Proof. unfold wt_udp_finish; intros; destr. Qed.

Lemma open_start_ok c sid c' : wt_open_start c = (Ok sid, c') ->
  wc_alive c = true /\ wc_sessions c < MAX_PER_CONN /\ wc_sessions c' = wc_sessions c + 1 /\ wc_alive c' = true.
Proof.
  unfold wt_open_start; destruct (wc_alive c) eqn:Ea; cbn [negb]; [|done].
  destruct (MAX_PER_CONN <=? wc_sessions c) eqn:E; [done|]; bsimpl.
  destruct (wt_alloc_sid _) as [[s c1]|] eqn:Es; [|done]; intros; simplify_eq.
  apply wt_alloc_sessions in Es as [-> ->]; cbn; auto.
Qed.

Lemma sess_step_inv a b : sess_inv a -> sess_step a b -> sess_inv b.
Proof.
  unfold sess_inv; intros [Hs Hm] Hstep; destruct Hstep; cbn in *;
    rewrite ?dispatch_sessions, ?tick_sessions, ?after_error_sessions; lens; try lia.
  - apply open_start_ok in H0 as (_ & ? & ? & _); lia.
  - unfold wt_open_finish in H; destruct (open_reply sid reply); simplify_eq; lia.
  - unfold wt_open_finish in H; destruct (open_reply sid reply); simplify_eq; cbn; lia.
  - apply udp_start_sessions in H; lia.
  - apply udp_finish_sessions in H; lia.
Qed.

(** C29: the session counter of a connection is exact and its cap holds, under
    every interleaving of opens, replies, refusals, session ends, frames,
    heartbeats, associations and the connection's death: the counter is the
    number of opens in flight, of live sessions and of callers about to undo
    their increment; at most [MAX_PER_CONN] sessions are open or opening; and
    when all of them are gone the counter is zero again. *)
Theorem wt_sessions_exact sid0 w :
  star sess_step {| sw_conn := wc_new sid0; sw_inflight := []; sw_live := 0; sw_refusing := 0 |} w ->
  wc_sessions (sw_conn w) = len (sw_inflight w) + Z.of_nat (sw_live w) + Z.of_nat (sw_refusing w) /\
  len (sw_inflight w) + Z.of_nat (sw_live w) <= MAX_PER_CONN /\
  (sw_inflight w = [] -> sw_live w = 0%nat -> sw_refusing w = 0%nat -> wc_sessions (sw_conn w) = 0).
Proof.
  intros H; assert (Hi : sess_inv w).
  { eapply star_invariant; [apply sess_step_inv|exact H|]. split; [reflexivity|vm_compute; discriminate]. }
  destruct Hi as [-> Hm]; split_and!; [done|done|]. intros -> -> ->; done.
Qed.

(** ** Heartbeat *)

Definition pong : Frame :=
  {| f_ftype := FPong; f_flags := 0; f_sid := 0; f_counter := 0; f_aad := []; f_payload := [] |}.

(** The heartbeat task over its ticks, each with whether a Pong arrived since
    the one before. *)
Fixpoint heartbeat_run (c : WtConn) (pongs : list bool) : bool * WtConn :=
  match pongs with
  | [] => (true, c)
  | b :: t =>
    match heartbeat_tick (if b : bool then dispatch c pong else c) with
    | (true, c) => heartbeat_run c t
    | (false, c) => (false, c)
    end
  end.

(** Two windows in a row without a Pong. *)
Fixpoint two_misses (pongs : list bool) : bool :=
  match pongs with
  | a :: (b :: _) as t => (negb a && negb b) || two_misses t
  | _ => false
  end.

Lemma two_misses_true l : two_misses (true :: l) = two_misses l.
Proof. by destruct l. Qed.

Lemma heartbeat_run_spec c pongs (m : bool) :
  wc_alive c = true -> wc_pong_seen c = false -> wc_ctrl_open c = true -> wc_missed_pings c = (if m then 1 else 0) ->
  let '(run, c') := heartbeat_run c pongs in
  run = negb (two_misses (negb m :: pongs)) /\ wc_alive c' = run /\ wc_closed c' = (if run then wc_closed c else true) /\
  (run = true -> wc_ctrl c' = wc_ctrl c ++ replicate (length pongs) (out FPing 0 0 [])).
Proof.
  revert c m; induction pongs as [|b t IH]; intros c m Ha Hp Ho Hm; cbn [heartbeat_run].
  { cbn; rewrite app_nil_r; by destruct m. }
  destruct b; unfold heartbeat_tick; cbn -[PONG_MISS_LIMIT].
  - unfold ctrl_send; cbn; rewrite Ho.
    specialize (IH (wc_set_udp (wc_set_life (dispatch c pong) (wc_alive c) (wc_closed c) false 0)
      (wc_next_sid c) (wc_udp c) (wc_pending_udp c) (wc_ctrl c ++ [out FPing 0 0 []]) (wc_dgram c) (wc_replies c)) false).
    cbn in IH; specialize (IH Ha eq_refl Ho eq_refl).
    destruct (heartbeat_run _ t) as [run c']; destruct IH as (-> & H1 & H2 & H3).
    rewrite andb_false_r; cbn [orb]; split_and!; [by destruct t|done|done|].
    intros Hr; by rewrite H3, <- app_assoc.
  - rewrite Hp, Hm; destruct m; cbn [negb andb orb].
    + cbn; split_and!; done.
    + change (PONG_MISS_LIMIT <=? 0 + 1) with false; unfold ctrl_send; cbn; rewrite Ho.
      specialize (IH (wc_set_udp (wc_set_life c (wc_alive c) (wc_closed c) false 1)
        (wc_next_sid c) (wc_udp c) (wc_pending_udp c) (wc_ctrl c ++ [out FPing 0 0 []]) (wc_dgram c) (wc_replies c)) true).
      cbn in IH; specialize (IH Ha eq_refl Ho eq_refl).
      destruct (heartbeat_run _ t) as [run c']; destruct IH as (-> & H1 & H2 & H3).
      split_and!; [done|done|done|]. intros Hr; by rewrite H3, <- app_assoc.
Qed.

(** The liveness judge retires a connection exactly when two consecutive
    heartbeat windows pass without a Pong. Over any sequence of windows of a
    fresh connection: the heartbeat task is running and the connection is in
    service if and only if no two windows in a row were silent, one Ping per
    window has been sent while it runs, and a retired connection's token is
    cancelled so the pool replaces it. *)
Theorem heartbeat_exact sid pongs : let '(run, c) := heartbeat_run (wc_new sid) pongs in
  wc_alive c = negb (two_misses pongs) /\ run = wc_alive c /\ wc_closed c = negb (wc_alive c) /\
  (run = true -> wc_ctrl c = replicate (length pongs) (out FPing 0 0 [])).
Proof.
  pose proof (heartbeat_run_spec (wc_new sid) pongs false eq_refl eq_refl eq_refl eq_refl) as H.
  destruct (heartbeat_run _ _) as [run c]; destruct H as (Hr & Ha & Hc & Hs).
  change (negb false :: pongs) with (true :: pongs) in Hr; rewrite two_misses_true in Hr.
  split_and!; [congruence|congruence| |done].
  rewrite Hc, Ha; by destruct run.
Qed.

(** The first window is judged before any Ping was sent. A connection whose
    first two windows are silent is retired with a single Ping outstanding,
    while one that has answered before is retired only after two: the limit of
    two unanswered pings does not hold at the start. *)
Theorem heartbeat_first_window sid :
  (let '(run, c) := heartbeat_run (wc_new sid) [false; false] in
   run = false /\ wc_alive c = false /\ wc_ctrl c = [out FPing 0 0 []]) /\
  (let '(run, c) := heartbeat_run (wc_new sid) [true; false] in
   run = true /\ wc_alive c = true /\ wc_ctrl c = [out FPing 0 0 []; out FPing 0 0 []]) /\
  (let '(run, c) := heartbeat_run (wc_new sid) [true; false; false] in
   run = false /\ wc_alive c = false /\ wc_ctrl c = [out FPing 0 0 []; out FPing 0 0 []]).
Proof. cbn; split_and!; done. Qed.

Lemma heartbeat_interval_band j : 24 <= heartbeat_interval j <= 36.
Proof. unfold heartbeat_interval, HEARTBEAT_SECS; change (30 / 5) with 6; lia. Qed.

(** ** Acquiring a connection *)

Lemma least_loaded_spec h l : match least_loaded h l with
  | Some i => i ∈ l /\ forall j, j ∈ l -> wp_sessions h i <= wp_sessions h j
  | None => l = []
  end.
Proof.
  induction l as [|i t IH]; cbn [least_loaded]; [done|].
  destruct (least_loaded h t) as [j|].
  - destruct IH as [Hj Hmin]; destruct (wp_sessions h j <? wp_sessions h i) eqn:E; bsimpl.
    + split; [by constructor|]. intros k [->|Hk]%elem_of_cons; [lia|auto].
    + split; [constructor|]. intros k [->|Hk]%elem_of_cons; [lia|]; specialize (Hmin k Hk); lia.
  - subst; split; [constructor|]. intros k Hk; apply list_elem_of_singleton in Hk as ->; lia.
Qed.

Lemma elem_of_lfilter {A} (f : A -> bool) l x : x ∈ List.filter f l <-> f x = true /\ x ∈ l.
Proof. rewrite !list_elem_of_In, filter_In; tauto. Qed.

(** What [acquire] may do. *)
Definition acquire_post (p : WtPool) (dial : result msg Z) (r : result AnyError nat) (p' : WtPool) : Prop :=
  match r with
  | Ok i =>
    (i ∈ wp_conns p /\ usable (wp_heap p) i = true /\ p' = p /\
     forall j, j ∈ wp_conns p -> usable (wp_heap p) j = true -> wp_sessions (wp_heap p) i <= wp_sessions (wp_heap p) j)
    \/ ((forall j, j ∈ wp_conns p -> usable (wp_heap p) j = false) /\ i = wp_next p /\ i ∈ wp_conns p' /\
        exists sid, dial = Ok sid /\ wp_heap p' = <[i := wc_new sid]> (wp_heap p))
  | Err e => (forall j, j ∈ wp_conns p -> usable (wp_heap p) j = false) /\
             exists m, dial = Err m /\ e = ETransport m /\ p' = p
  end.

Lemma acquire_correct p dial : acquire_post p dial (acquire p dial).1 (acquire p dial).2.
Proof.
  unfold acquire. pose proof (least_loaded_spec (wp_heap p) (List.filter (usable (wp_heap p)) (wp_conns p))) as H.
  destruct (least_loaded _ _) as [i|]; cbn.
  - destruct H as [Hi Hmin]; apply elem_of_lfilter in Hi as [Hu Hi]. left; split_and!; try done.
    intros j Hj Huj; apply Hmin; by apply elem_of_lfilter.
  - assert (Hn : forall j, j ∈ wp_conns p -> usable (wp_heap p) j = false).
    { intros j Hj; apply not_true_iff_false; intros Hu.
      assert (Hin : j ∈ List.filter (usable (wp_heap p)) (wp_conns p)) by (by apply elem_of_lfilter).
      rewrite H in Hin; by apply elem_of_nil in Hin. }
    destruct dial as [sid|m]; cbn; [|eauto 10].
    right; split_and!; [done|done| |eauto]. apply elem_of_app; right; by apply list_elem_of_singleton.
Qed.

(** [acquire] balances the pool and dials only when it must. It returns a
    pooled connection that is alive, below its session cap and has no more
    sessions than any other such connection, leaving the pool alone; when there
    is none, and only then, it dials, and adds the new connection to the pool
    or reports the dial's failure with the pool unchanged. *)
Theorem acquire_least_loaded p dial r p' : acquire p dial = (r, p') -> acquire_post p dial r p'.
Proof. intros H; pose proof (acquire_correct p dial) as Ha; by rewrite H in Ha. Qed.

(** ** Maintenance *)

Lemma kill_sessions h v i : wp_sessions (alter wc_kill v h) i = wp_sessions h i.
Proof.
  unfold wp_sessions; destruct (decide (v = i)) as [->|];
    [rewrite lookup_alter_eq; by destruct (h !! i)|by rewrite lookup_alter_ne].
Qed.

Lemma take_idle_spec h l : match take_idle h l with
  | Some (v, r) => exists a b, l = a ++ v :: b /\ r = a ++ b /\ wp_sessions h v = 0
  | None => Forall (fun i => wp_sessions h i <> 0) l
  end.
Proof.
  induction l as [|i t IH]; cbn [take_idle]; [constructor|].
  destruct (wp_sessions h i =? 0) eqn:E; bsimpl; [by exists [], t|].
  destruct (take_idle h t) as [[v r]|]; [|by constructor].
  destruct IH as (a & b & -> & -> & Hv); by exists (i :: a), b.
Qed.

(** What trimming a list of live connections [l] to [l'] may change. *)
Definition trim_post (size : Z) (h : gmap nat WtConn) (l l' : list nat) (h' : gmap nat WtConn) : Prop :=
  NoDup l' /\ l' ⊆ l /\ (forall i, i ∈ l' -> h' !! i = h !! i) /\
  (forall i, i ∈ l -> wp_sessions h i <> 0 -> i ∈ l') /\
  (forall i c, h !! i = Some c -> wc_sessions c <> 0 -> h' !! i = Some c) /\
  (size < len l' -> Forall (fun i => wp_sessions h i <> 0) l') /\
  (size <= len l -> size <= len l') /\ (len l <= size -> l' = l /\ h' = h).

Lemma trim_post_refl size h l : NoDup l -> (size < len l -> Forall (fun i => wp_sessions h i <> 0) l) ->
  trim_post size h l l h.
Proof. intros; unfold trim_post; split_and!; auto; done. Qed.

Lemma trim_idle_spec fuel size h l : NoDup l -> (length l <= fuel)%nat ->
  let '(l', h') := trim_idle fuel size h l in trim_post size h l l' h'.
Proof.
  revert h l; induction fuel as [|n IH]; intros h l Hnd Hf; cbn [trim_idle].
  { destruct l; [|cbn in Hf; lia]; apply trim_post_refl; [done|constructor]. }
  destruct (len l <=? size) eqn:E; bsimpl; [apply trim_post_refl; [done|lia]|].
  pose proof (take_idle_spec h l) as Ht; destruct (take_idle h l) as [[v r]|]; [|by apply trim_post_refl].
  destruct Ht as (a & b & -> & -> & Hv).
  apply NoDup_app in Hnd as (Ha & Hab & Hb); apply NoDup_cons in Hb as [Hvb Hb].
  assert (Hva : v ∉ a) by (intros H; apply (Hab v H); constructor).
  assert (Hnd' : NoDup (a ++ b)).
  { apply NoDup_app; split_and!; [done| |done]. intros x Hx Hx'; apply (Hab x Hx); by constructor. }
  specialize (IH (alter wc_kill v h) (a ++ b) Hnd'); rewrite length_app in Hf, IH; cbn in Hf.
  destruct (trim_idle n size _ (a ++ b)) as [l' h']; destruct (IH ltac:(lia)) as (I1 & I2 & I3 & I4 & I5 & I6 & I7 & I8).
  assert (Hvl : v ∉ l') by (intros H; apply I2, elem_of_app in H as [?|?]; done).
  lens; unfold trim_post; lens; split_and!; try done.
  - intros i Hi; apply I2 in Hi; set_solver.
  - intros i Hi; rewrite I3 by done; apply lookup_alter_ne; by intros ->.
  - intros i Hi Hs; apply I4; [|by rewrite kill_sessions]. apply elem_of_app in Hi as [?|Hi]; [set_solver|].
    apply elem_of_cons in Hi as [->|?]; [done|set_solver].
  - intros i c Hc Hs; apply I5; [|done]. rewrite lookup_alter_ne; [done|].
    intros ->; unfold wp_sessions in Hv; by rewrite Hc in Hv.
  - intros Hl; eapply Forall_impl; [apply I6; lia|]. intros i Hi; cbv beta in Hi |- *; by rewrite kill_sessions in Hi.
  - intros _; lens; apply I7; lia.
  - lia.
Qed.

(** Pool maintenance never touches a connection in use. A tick's pool half
    keeps only live connections, keeps every live connection that has sessions
    and leaves its state untouched, and retires idle ones only while the pool
    is larger than its size: afterwards the pool is within its size unless
    every connection left is in use, and it was not cut below that size. *)
Theorem maintenance_spares_sessions p : NoDup (wp_conns p) ->
  let p' := maintain_pool p in
  let live := List.filter (wp_alive (wp_heap p)) (wp_conns p) in
  (forall i, i ∈ wp_conns p' -> i ∈ wp_conns p /\ wp_alive (wp_heap p') i = true) /\
  (forall i c, wp_heap p !! i = Some c -> wc_sessions c <> 0 ->
     wp_heap p' !! i = Some c /\ (i ∈ wp_conns p -> wc_alive c = true -> i ∈ wp_conns p')) /\
  (wp_size p < len (wp_conns p') -> Forall (fun i => wp_sessions (wp_heap p) i <> 0) (wp_conns p')) /\
  (wp_size p <= len live -> wp_size p <= len (wp_conns p')).
Proof.
  intros Hnd; cbv zeta; unfold maintain_pool.
  set (l := List.filter (wp_alive (wp_heap p)) (wp_conns p)).
  assert (Hl : NoDup l) by (apply NoDup_ListNoDup, List.NoDup_filter, NoDup_ListNoDup, Hnd).
  pose proof (trim_idle_spec (length l) (wp_size p) (wp_heap p) l Hl (le_n _)) as H.
  destruct (trim_idle _ _ _ _) as [l' h']; destruct H as (_ & H2 & H3 & H4 & H5 & H6 & H7 & _); cbn.
  split_and!; [| |done|done].
  - intros i Hi; pose proof (H2 i Hi) as Hil; unfold l in Hil; apply elem_of_lfilter in Hil as [Hal Hin].
    split; [done|]; unfold wp_alive in *; by rewrite H3.
  - intros i c Hc Hs; split; [auto|]; intros Hin Ha.
    assert (Hil : i ∈ l) by (unfold l; apply elem_of_lfilter; unfold wp_alive; by rewrite Hc).
    apply H4; [done|]; unfold wp_sessions; by rewrite Hc.
Qed.

(** ** Refilling *)

Lemma dial_all_spec p dials : let '(ok, p') := dial_all p dials in
  ok = existsb (fun d => match d with Some _ => true | None => false end) dials /\
  wp_size p' = wp_size p /\
  len (wp_conns p') = len (wp_conns p) + len (List.filter (fun d => match d with Some _ => true | None => false end) dials).
Proof.
  revert p; induction dials as [|[sid|] t IH]; intros p; cbn [dial_all existsb List.filter].
  - lens; split_and!; [done|done|lia].
  - cbn; specialize (IH (wp_set (wp_dial p sid).2 (wp_conns p ++ [wp_next p]) (<[wp_next p := wc_new sid]> (wp_heap p)))).
    cbn in IH; destruct (dial_all _ t) as [ok p']; destruct IH as (_ & I1 & I2); cbn; lens; split_and!; [done|done|lia].
  - specialize (IH p); destruct (dial_all p t) as [ok p']; by destruct IH.
Qed.

(** The refilling loop restores the pool and backs off. In a tick with a
    delay between 10 s and 5 min, the delay stays in that range; while cooling
    down nothing is dialed; a tick whose dials all fail doubles the delay (up
    to the maximum) and postpones the next attempt by it; a tick with a
    success, or a pool that needs nothing, resets it; and when every dial
    succeeds the pool reaches its size. *)
Theorem maintenance_backoff now dials p b :
  BASE_BACKOFF <= bo_delay b <= MAX_BACKOFF ->
  let '(p', b') := maintenance_tick now dials p b in
  let p1 := maintain_pool p in
  let need := sat_sub (wp_size p) (len (wp_conns p1)) in
  let tried := take (Z.to_nat need) dials in
  let oks := len (List.filter (fun d => match d with Some _ => true | None => false end) tried) in
  BASE_BACKOFF <= bo_delay b' <= MAX_BACKOFF /\
  (0 < need -> now < bo_next b -> p' = p1 /\ b' = b) /\
  (0 < need -> bo_next b <= now -> oks = 0 ->
     bo_delay b' = Z.min (2 * bo_delay b) MAX_BACKOFF /\ bo_next b' = now + bo_delay b') /\
  (need = 0 \/ (bo_next b <= now /\ 0 < oks) -> b' = {| bo_delay := BASE_BACKOFF; bo_next := now |}) /\
  (bo_next b <= now -> need <= len dials -> Forall is_Some dials -> wp_size p <= len (wp_conns p')).
Proof.
  intros Hb; unfold maintenance_tick.
  set (p1 := maintain_pool p).
  assert (Hsz : wp_size p1 = wp_size p) by (unfold p1, maintain_pool; by destruct (trim_idle _ _ _ _)).
  rewrite Hsz; set (need := sat_sub (wp_size p) (len (wp_conns p1))).
  assert (Hneed : 0 <= need /\ wp_size p - len (wp_conns p1) <= need) by (unfold need, sat_sub; lia).
  set (tried := take (Z.to_nat need) dials). set (isok := fun d : option Z => match d with Some _ => true | None => false end).
  assert (Hall : Forall is_Some dials -> List.filter isok tried = tried).
  { intros HF; assert (HF' : Forall is_Some tried) by (by apply Forall_take).
    revert HF'; generalize tried; intros l HF'; induction HF' as [|d t [s ->] _ IH]; [done|]. cbn; by rewrite IH. }
  unfold BASE_BACKOFF, MAX_BACKOFF in *.
  destruct (need =? 0) eqn:En; bsimpl; cbn [bo_delay bo_next].
  { split_and!; try lia; done || (intros; lia). }
  destruct (now <? bo_next b) eqn:Ec; bsimpl.
  { split_and!; try done; try lia. }
  pose proof (dial_all_spec p1 tried) as Hd; fold isok in Hd; rewrite Hsz in Hd.
  destruct (dial_all p1 tried) as [ok p']; destruct Hd as (Hok & _ & Hlen).
  assert (Hfull : need <= len dials -> Forall is_Some dials -> wp_size p <= len (wp_conns p')).
  { intros Hl HF; rewrite Hlen, Hall by done; unfold tried; lens; lia. }
  assert (Hex : ok = true <-> 0 < len (List.filter isok tried)).
  { rewrite Hok; clear; induction tried as [|d t IH]; cbn; [done|]; destruct (isok d); cbn; [|done].
    lens; pose proof (len_nonneg (List.filter isok t)); split; [lia|done]. }
  pose proof (len_nonneg (List.filter isok tried)).
  destruct ok; cbn [bo_delay bo_next].
  - pose proof (proj1 Hex eq_refl). split_and!; try done; try lia.
  - assert (~ 0 < len (List.filter isok tried)) by (intros Hx; by apply Hex in Hx).
    split_and!; try done; try lia.
Qed.

(** ** Opening through the pool *)

(** The pool's references are live objects with numbers below the next one. *)
Definition wp_wf (p : WtPool) : Prop :=
  (forall i, i ∈ wp_conns p -> is_Some (wp_heap p !! i)) /\
  (forall i c, wp_heap p !! i = Some c -> (i < wp_next p)%nat /\ sids_ok c).

Definition env_ok (env : OpenEnv) : Prop :=
  match oe_dial env with Ok sid => 0 <= sid < 2 ^ 32 | Err _ => True end.

(** A connection's answer: one session more or as before, and still alive. *)
Lemma wt_open_tcp_spec c reply : sids_ok c -> wc_alive c = true -> wc_sessions c < MAX_PER_CONN ->
  let '(r, c') := wt_open_tcp c reply in
  wc_alive c' = true /\ wc_sessions c' = wc_sessions c + (if is_ok r then 1 else 0).
Proof.
  intros Hs Ha Hc; unfold wt_open_tcp, wt_open_start; rewrite Ha; cbn [negb]; zbool.
  destruct (wt_alloc_total (wc_set_sessions c (wc_sessions c + 1)) Hs) as (sid & c1 & -> & _ & _ & ->).
  unfold wt_open_finish; destruct (open_reply sid reply); cbn; split; done || lia.
Qed.

Lemma acquire_usable p dial r p' i : wp_wf p -> acquire p dial = (r, p') -> r = Ok i ->
  (match dial with Ok sid => 0 <= sid < 2 ^ 32 | Err _ => True end) ->
  exists c, wp_heap p' !! i = Some c /\ sids_ok c /\ wc_alive c = true /\ 0 <= MAX_PER_CONN - 1 - wc_sessions c /\
    forall j cj, wp_heap p !! j = Some cj -> wp_heap p' !! j = Some cj.
Proof.
  intros [Hl Hh] H -> Hd; pose proof (acquire_correct p dial) as Ha; rewrite H in Ha; cbn in Ha.
  destruct Ha as [(Hin & Hu & -> & _)|(_ & -> & _ & sid & -> & Heap)].
  - unfold usable, wp_alive, wp_sessions in Hu. destruct (Hl i Hin) as [c Hc]; rewrite Hc in Hu; bsimpl.
    destruct (Hh i c Hc) as [_ Hs]. exists c; split_and!; try done; lia.
  - exists (wc_new sid); rewrite Heap, lookup_insert_eq. split; [done|]. split.
    { split; [done|cbn; rewrite map_size_empty; lia]. }
    split; [done|]. split; [done|]. intros j cj Hj; rewrite lookup_insert_ne; [done|].
    intros <-; apply Hh in Hj as [? _]; lia.
Qed.

(** An open through the pool changes at most the connection it used. The
    connection of a successful open is alive and carries one session more,
    within the cap; a refusal by the target (denied, dial failed, limit) leaves
    every connection alive with its sessions; after a transport failure at most
    the connection used is dead, so the sessions of the others go on. *)
Theorem pool_open_spec env p r p' : wp_wf p -> env_ok env -> pool_open_tcp env p = (r, p') ->
  (forall j c, wp_heap p !! j = Some c -> exists c', wp_heap p' !! j = Some c' /\
     wc_sessions c' = wc_sessions c + match r with Ok i => if Nat.eqb i j then 1 else 0 | Err _ => 0 end) /\
  match r with
  | Ok i => exists c, wp_heap p' !! i = Some c /\ wc_alive c = true /\ wc_sessions c <= MAX_PER_CONN
  | Err (ETarget _) => forall j c, wp_heap p !! j = Some c -> wp_alive (wp_heap p') j = wc_alive c
  | Err (ETransport _) => exists i, forall j c, j <> i -> wp_heap p !! j = Some c -> wp_heap p' !! j = Some c
  end.
Proof.
  intros Hwf Henv; unfold pool_open_tcp.
  destruct (acquire p (oe_dial env)) as [[i|e] p1] eqn:Eacq.
  - destruct (acquire_usable _ _ _ _ i Hwf Eacq eq_refl Henv) as (c & Hc & Hs & Ha & Hm & Hold); rewrite Hc.
    pose proof (wt_open_tcp_spec c (oe_reply env) Hs Ha ltac:(lia)) as Ho.
    destruct (wt_open_tcp c (oe_reply env)) as [[u|e] c']; destruct Ho as [Ha' Hs']; cbn [is_ok] in Hs';
      intros; simplify_eq; cbn [wp_update wp_set wp_heap]; (split; [intros j cj Hj; apply Hold in Hj|]).
    + destruct (decide (j = i)) as [->|Hne].
      * rewrite Hc in Hj; simplify_eq. exists c'; rewrite lookup_insert_eq, Nat.eqb_refl; done.
      * exists cj; rewrite lookup_insert_ne, (proj2 (Nat.eqb_neq i j)) by congruence; split; [done|lia].
    + exists c'; rewrite lookup_insert_eq; split_and!; [done|done|lia].
    + destruct (decide (j = i)) as [->|Hne].
      * rewrite Hc in Hj; simplify_eq. eexists; rewrite lookup_insert_eq, after_error_sessions; split; [done|]. lia.
      * exists cj; rewrite lookup_insert_ne by congruence; split; [done|lia].
    + destruct e as [t|m].
      * intros j cj Hj; apply Hold in Hj; unfold wp_alive. destruct (decide (j = i)) as [->|Hne].
        -- rewrite Hc in Hj; simplify_eq. rewrite lookup_insert_eq; cbn; congruence.
        -- by rewrite lookup_insert_ne, Hj by congruence.
      * exists i; intros j cj Hne Hj; apply Hold in Hj; by rewrite lookup_insert_ne by congruence.
  - pose proof (acquire_correct p (oe_dial env)) as Hpost; rewrite Eacq in Hpost; cbn in Hpost.
    destruct Hpost as (_ & m & _ & -> & ->); intros; simplify_eq.
    split; [intros j c Hj; exists c; split; [done|lia]|].
    exists 0%nat; auto.
Qed.

(** ** Witnesses *)

Module ClientWtWitness.

Definition used (n : Z) : WtConn := wc_set_sessions (wc_new 1) n.
Definition pool : WtPool := {|
  wp_size := 1; wp_conns := [0; 1; 2]%nat;
  wp_heap := {[0%nat := used 3; 1%nat := used 0; 2%nat := used 1]}; wp_next := 3 |}.

Definition denied : OpenEnv := {|
  oe_dial := Err "unused";
  oe_reply := RFrame (Some {| f_ftype := FOpenErr; f_flags := 0; f_sid := 1; f_counter := 0; f_aad := [];
                              f_payload := [OPEN_ERR_DENIED] |});
  oe_udp_reply := None; oe_waiter := 0; oe_queue := 0 |}.

Lemma pool_wf : wp_wf pool.
Proof.
  split.
  - intros i Hi; cbn in Hi. repeat (apply elem_of_cons in Hi as [->|Hi]; [eexists; reflexivity|]). by apply elem_of_nil in Hi.
  - intros i c Hc; cbn in *.
    repeat (apply lookup_insert_Some in Hc as [[<- <-]|[_ Hc]]; [split; [lia|vm_compute; intuition discriminate]|]).
    apply lookup_singleton_Some in Hc as [<- <-]; split; [lia|vm_compute; intuition discriminate].
Qed.

Lemma wt_sessions_exact_witness : exists w,
  star sess_step {| sw_conn := wc_new 7; sw_inflight := []; sw_live := 0; sw_refusing := 0 |} w
  /\ wc_sessions (sw_conn w) = 1.
Proof.
  assert (H : star sess_step {| sw_conn := wc_new 7; sw_inflight := []; sw_live := 0; sw_refusing := 0 |}
    {| sw_conn := (wt_open_start (wc_new 7)).2; sw_inflight := [7]; sw_live := 0; sw_refusing := 0 |}).
  { eapply star_step; [|apply star_refl]. apply ss_start; [vm_compute; intuition discriminate|reflexivity]. }
  eexists; split; [exact H|]. destruct (wt_sessions_exact 7 _ H) as [Hs _]. rewrite Hs; reflexivity.
Defined.

Lemma acquire_least_loaded_witness : acquire_post pool (Err "unused") (Ok 1%nat) pool.
Proof. apply (acquire_least_loaded pool (Err "unused")). vm_compute; reflexivity. Defined.

Lemma maintenance_spares_sessions_witness :
  wp_conns (maintain_pool pool) = [0; 2]%nat /\ wp_heap (maintain_pool pool) !! 0%nat = Some (used 3).
Proof.
  split; [vm_compute; reflexivity|].
  apply (maintenance_spares_sessions pool ltac:(apply (bool_decide_unpack _); vm_compute; exact I));
    [reflexivity|discriminate].
Defined.

Lemma maintenance_backoff_witness :
  let p := {| wp_size := 2; wp_conns := []; wp_heap := ∅; wp_next := 0 |} in
  let b' := (maintenance_tick 100 [None; None] p {| bo_delay := 160; bo_next := 90 |}).2 in
  bo_delay b' = 300 /\ bo_next b' = 400.
Proof.
  cbv zeta.
  pose proof (maintenance_backoff 100 [None; None] {| wp_size := 2; wp_conns := []; wp_heap := ∅; wp_next := 0 |}
    {| bo_delay := 160; bo_next := 90 |} ltac:(vm_compute; split; discriminate)) as H.
  destruct (maintenance_tick _ _ _ _) as [p' b']; destruct H as (_ & _ & H & _). cbn [snd].
  destruct H as [Hd Hn]; [vm_compute; reflexivity|vm_compute; discriminate|vm_compute; reflexivity|].
  rewrite Hn, Hd; split; reflexivity.
Defined.

Lemma pool_open_spec_witness : exists p', pool_open_tcp denied pool = (Err (ETarget Denied), p')
  /\ wp_alive (wp_heap p') 1%nat = true.
Proof.
  eexists; split; [vm_compute; reflexivity|].
  edestruct (pool_open_spec denied pool) as [_ H]; [exact pool_wf|exact I|vm_compute; reflexivity|].
  cbn iota in H. erewrite H; [|reflexivity]. reflexivity.
Defined.

End ClientWtWitness.
