(* ===== verification/ClientFallback.v ===== *)
(** * The HTTPS fallback client: [client/fallback.rs]

    The shared mode-A channel: created on demand, replaced when it died, one
    retry of an open that a dying channel broke. A channel is the client
    multiplexer of [Mux]; what arrives on it while an open waits is a list of
    reads. The connection itself (HTTP or WebSocket) is a parameter, its
    handshake is in [Handshake]. *)

From S2P Require Import Prelude Bytes Crypto Frame Addr Net Ip Limit State Egress Mux Outbound ClientWt.

(** The channels live in [ho_heap]; [ho_mux] is the one in use. *)
Record HttpOutbound := { ho_mux : option nat; ho_heap : gmap nat MuxInner; ho_next : nat }.

(** What the network does during one attempt: the outcome of connecting, the
    reads of the channel until the open is decided, and the numbers of the new
    queue and oneshot. *)
Record HttpEnv := { he_connect : result msg MuxInner; he_reads : list (result msg (option Frame)); he_ch : nat; he_wt : nat }.

(** [MuxClient::is_closed]. *)
Definition is_closed (m : MuxInner) : bool := mx_closed m.

(** [ensure_mux]. *)
Definition ensure_mux (env : HttpEnv) (ho : HttpOutbound) : result AnyError nat * HttpOutbound :=
  let live := match ho_mux ho with
              | Some i => match ho_heap ho !! i with
                          | Some m => if negb (is_closed m) then Some i else None
                          | None => None
                          end
              | None => None
              end in
  match live with
  | Some i => (Ok i, ho)
  | None =>
    match he_connect env with
    | Err e => (Err (ETransport e), ho)
    | Ok m => (Ok (ho_next ho), {| ho_mux := Some (ho_next ho); ho_heap := <[ho_next ho := m]> (ho_heap ho);
                                   ho_next := S (ho_next ho) |})
    end
  end.

(** [MuxClient::open_tcp] with the frames that arrive while it waits. *)
Definition mux_open (env : HttpEnv) (m : MuxInner) (host : bytes) (port : Z) : result AnyError nat * MuxInner :=
  match open_tcp_start m host port (he_ch env) (he_wt env) with
  | (Err e, m) => (Err (ETransport e), m)
  | (Ok sid, m) =>
    let m := run_client_reader m (he_reads env) in
    match open_tcp_finish m sid (mx_replies m !! he_wt env) with
    | (Ok _, m) => (Ok (he_ch env), m)
    | (Err e, m) => (Err (ETransport e), m)
    end
  end.

(** [MuxClient::udp_associate], the same way. *)
Definition mux_udp (env : HttpEnv) (m : MuxInner) : result AnyError nat * MuxInner :=
  match udp_associate_start m (he_ch env) (he_wt env) with
  | (Err e, m) => (Err (ETransport e), m)
  | (Ok sid, m) =>
    let m := run_client_reader m (he_reads env) in
    match udp_associate_finish m sid (mx_replies m !! he_wt env) with
    | (Ok _, m) => (Ok (he_ch env), m)
    | (Err e, m) => (Err (ETransport e), m)
    end
  end.

Definition ho_update (ho : HttpOutbound) (i : nat) (m : MuxInner) : HttpOutbound :=
  {| ho_mux := ho_mux ho; ho_heap := <[i := m]> (ho_heap ho); ho_next := ho_next ho |}.

(** One attempt: also whether the channel used is closed afterwards. *)
Definition attempt (op : HttpEnv -> MuxInner -> result AnyError nat * MuxInner) (env : HttpEnv) (ho : HttpOutbound)
  : result AnyError nat * bool * HttpOutbound :=
  match ensure_mux env ho with
  | (Err e, ho) => (Err e, false, ho)
  | (Ok i, ho) =>
    match ho_heap ho !! i with
    | None => (Err (ETransport "no channel"), false, ho)
    | Some m => let '(r, m) := op env m in (r, is_closed m, ho_update ho i m)
    end
  end.

(** [open_tcp] / [udp_associate] of the outbound: a second attempt only when the
    first failed on a channel that died. *)
Definition with_retry (op : HttpEnv -> MuxInner -> result AnyError nat * MuxInner) (env1 env2 : HttpEnv)
  (ho : HttpOutbound) : result AnyError nat * HttpOutbound :=
  match attempt op env1 ho with
  | (Err _, true, ho) => let '(r, _, ho) := attempt op env2 ho in (r, ho)
  | (r, _, ho) => (r, ho)
  end.

Definition http_open_tcp (env1 env2 : HttpEnv) (ho : HttpOutbound) (host : bytes) (port : Z) : result AnyError nat * HttpOutbound :=
  with_retry (fun env m => mux_open env m host port) env1 env2 ho.
Definition http_udp_associate (env1 env2 : HttpEnv) (ho : HttpOutbound) : result AnyError nat * HttpOutbound :=
  with_retry mux_udp env1 env2 ho.

(** The fallback as a transport: each call takes the next two answers of the
    network. *)
Record HttpWorld := { hx_out : HttpOutbound; hx_env : list HttpEnv }.

Definition http_no_answer : HttpEnv := {| he_connect := Err "connect timeout"; he_reads := []; he_ch := 0; he_wt := 0 |}.

Definition hx_run (f : HttpEnv -> HttpEnv -> HttpOutbound -> result AnyError nat * HttpOutbound) (w : HttpWorld)
  : result AnyError nat * HttpWorld :=
  let e1 := default http_no_answer (hx_env w !! 0%nat) in
  let e2 := default http_no_answer (hx_env w !! 1%nat) in
  let '(r, ho) := f e1 e2 (hx_out w) in (r, {| hx_out := ho; hx_env := drop 2 (hx_env w) |}).

#[global] Instance http_transport : Transport HttpWorld := {|
  t_open_tcp := fun w host port => hx_run (fun a b ho => http_open_tcp a b ho host port) w;
  t_udp_associate := fun w => hx_run http_udp_associate w |}.

(** ** Lemmas *)

(** An operation whose failures are transport failures. *)
Definition only_transport (r : result AnyError nat) : Prop :=
  match r with Err (ETarget _) => False | _ => True end.

Lemma ensure_transport env ho : only_transport (ensure_mux env ho).1.
Proof.
  unfold ensure_mux; destruct (match ho_mux ho with Some i => _ | None => None end); [done|].
  by destruct (he_connect env).
Qed.

Lemma attempt_transport op env ho : (forall e m, only_transport (op e m).1) -> only_transport (attempt op env ho).1.1.
Proof.
  intros Hop; unfold attempt; pose proof (ensure_transport env ho) as He.
  destruct (ensure_mux env ho) as [[i|e] ho1]; [|done].
  destruct (ho_heap ho1 !! i) as [m|]; [|done]. specialize (Hop env m); by destruct (op env m).
Qed.

Lemma retry_transport op e1 e2 ho : (forall e m, only_transport (op e m).1) -> only_transport (with_retry op e1 e2 ho).1.
Proof.
  intros Hop; unfold with_retry; pose proof (attempt_transport op e1 ho Hop) as H1.
  destruct (attempt op e1 ho) as [[[s|e] []] ho1]; try done.
  pose proof (attempt_transport op e2 ho1 Hop) as H2; by destruct (attempt op e2 ho1) as [[r b] ho2].
Qed.

Lemma mux_open_transport host port e m : only_transport (mux_open e m host port).1.
Proof.
  unfold mux_open; destruct (open_tcp_start _ _ _ _ _) as [[sid|msg] m1]; [|done].
  by destruct (open_tcp_finish _ _ _) as [[u|msg] m2].
Qed.

Lemma mux_udp_transport e m : only_transport (mux_udp e m).1.
Proof.
  unfold mux_udp; destruct (udp_associate_start _ _ _) as [[sid|msg] m1]; [|done].
  by destruct (udp_associate_finish _ _ _) as [[u|msg] m2].
Qed.

(** Over the fallback the reason of a refusal is lost. Whatever the server
    answers (policy refusal, dial failure, bad target, limit), an open through
    the HTTPS outbound fails with an error that is not a target refusal, so the
    SOCKS5 inbound replies 0x01 and the HTTP inbound reports
    [transport-failure], where the same answer over WebTransport is told
    apart. *)
Theorem fallback_loses_refusal (w : HttpWorld) rd host port last e ob' last' :
  (ob_open_tcp rd (OHttp (P := PoolWorld) w) host port last = (Err e, ob', last') \/
   ob_udp_associate rd (OHttp (P := PoolWorld) w) last = (Err e, ob', last')) ->
  socks5_reply_code e = 1 /\ error_tag e = str "transport-failure".
Proof.
  intros H; assert (Ht : only_transport (Err e)).
  { destruct H as [H|H]; cbn in H; unfold hx_run in H.
    - pose proof (retry_transport (fun env m => mux_open env m host port)
        (default http_no_answer (hx_env w !! 0%nat)) (default http_no_answer (hx_env w !! 1%nat)) (hx_out w)
        (mux_open_transport host port)) as Hr.
      unfold http_open_tcp in H; destruct (with_retry _ _ _ _) as [r ho]; by simplify_eq.
    - pose proof (retry_transport mux_udp
        (default http_no_answer (hx_env w !! 0%nat)) (default http_no_answer (hx_env w !! 1%nat)) (hx_out w)
        mux_udp_transport) as Hr.
      unfold http_udp_associate in H; destruct (with_retry _ _ _ _) as [r ho]; by simplify_eq. }
  destruct e as [t|m]; [done|split; reflexivity].
Qed.

(** The channel table's references are below the next number. *)
Definition ho_wf (ho : HttpOutbound) : Prop := forall i m, ho_heap ho !! i = Some m -> (i < ho_next ho)%nat.

(** A dead channel costs one retry and a live one none. If the first
    attempt succeeds, or fails on a channel that is still open, its result is
    the result and the second answer of the network is not asked for; if the
    channel died under it, the open is tried once more, on a channel that is
    not the dead one; in all cases at most two channels are made. *)
Theorem fallback_retry_once op env1 env2 ho : ho_wf ho ->
  let '(r1, died, ho1) := attempt op env1 ho in
  let '(r, ho') := with_retry op env1 env2 ho in
  (is_ok r1 = true \/ died = false -> r = r1 /\ ho' = ho1) /\
  (is_ok r1 = false -> died = true ->
     (exists i m, ho_mux ho1 = Some i /\ ho_heap ho1 !! i = Some m /\ is_closed m = true /\
        match ensure_mux env2 ho1 with (Ok j, _) => j <> i | (Err e, _) => r = Err e end) /\
     r = (attempt op env2 ho1).1.1) /\
  (ho_next ho' <= ho_next ho + 2)%nat.
Proof.
  intros Hwf; unfold with_retry.
  assert (Hnext : forall env h, (ho_next (attempt op env h).2 <= ho_next h + 1)%nat).
  { intros env h; unfold attempt, ensure_mux.
    destruct (match ho_mux h with Some i => _ | None => None end); [|destruct (he_connect env)]; cbn;
      try (destruct (ho_heap h !! _)); try (destruct (<[_:=_]> _ !! _)); try destruct (op _ _); cbn; lia. }
  pose proof (Hnext env1 ho) as Hn1.
  assert (Hdied : forall r1 ho1, attempt op env1 ho = (r1, true, ho1) ->
    exists i m, ho_mux ho1 = Some i /\ ho_heap ho1 !! i = Some m /\ is_closed m = true /\ (i < ho_next ho1)%nat).
  { intros r1 ho1; unfold attempt, ensure_mux.
    destruct (ho_mux ho) as [i|] eqn:Em.
    - destruct (ho_heap ho !! i) as [m|] eqn:Eh; [destruct (is_closed m) eqn:Ec|]; cbn [negb].
      + destruct (he_connect env1) as [m'|]; [|done]; cbn; rewrite lookup_insert_eq.
        destruct (op env1 m') as [r m1]; intros; simplify_eq; exists (ho_next ho), m1; cbn.
        rewrite lookup_insert_eq; split_and!; done || lia.
      + rewrite Eh; destruct (op env1 m) as [r m1]; intros; simplify_eq; exists i, m1; cbn.
        rewrite lookup_insert_eq; split_and!; try done. by eapply Hwf.
      + destruct (he_connect env1) as [m'|]; [|done]; cbn; rewrite lookup_insert_eq.
        destruct (op env1 m') as [r m1]; intros; simplify_eq; exists (ho_next ho), m1; cbn.
        rewrite lookup_insert_eq; split_and!; done || lia.
    - destruct (he_connect env1) as [m'|]; [|done]; cbn; rewrite lookup_insert_eq.
      destruct (op env1 m') as [r m1]; intros; simplify_eq; exists (ho_next ho), m1; cbn.
      rewrite lookup_insert_eq; split_and!; done || lia. }
  destruct (attempt op env1 ho) as [[r1 died] ho1] eqn:E1; cbn [snd] in Hn1.
  destruct r1 as [s|e]; [split_and!; try done; lia|].
  destruct died; [|split_and!; try done; lia].
  destruct (Hdied _ _ eq_refl) as (i & m & Hi & Hm & Hc & Hlt).
  pose proof (Hnext env2 ho1) as Hn2; destruct (attempt op env2 ho1) as [[r2 d2] ho2] eqn:E2; cbn [fst snd] in *.
  split_and!; [intros [?|?]; done| |lia].
  intros _ _; split; [|done]. exists i, m; split_and!; [done..|].
  unfold attempt in E2. destruct (ensure_mux env2 ho1) as [[j|e2] ho3] eqn:Ee.
  - unfold ensure_mux in Ee; rewrite Hi, Hm, Hc in Ee; cbn in Ee.
    destruct (he_connect env2); simplify_eq; lia.
  - by simplify_eq.
Qed.

(** ** Witnesses *)

Module ClientFallbackWitness.

Definition fresh : MuxInner := {|
  mx_cmd := []; mx_cmd_open := true; mx_sessions := ∅; mx_udp := ∅; mx_pending_open := ∅; mx_pending_udp := ∅;
  mx_next_sid := 5; mx_closed := false; mx_tcp := ∅; mx_dgram := ∅; mx_replies := ∅ |}.
Definition refusal : Frame :=
  {| f_ftype := FOpenErr; f_flags := 0; f_sid := 5; f_counter := 0; f_aad := []; f_payload := [OPEN_ERR_DENIED] |}.
Definition refused : HttpEnv := {| he_connect := Ok fresh; he_reads := [Ok (Some refusal)]; he_ch := 1; he_wt := 2 |}.
Definition dying : HttpEnv := {| he_connect := Ok fresh; he_reads := [Ok None]; he_ch := 1; he_wt := 2 |}.
Definition none : HttpOutbound := {| ho_mux := None; ho_heap := ∅; ho_next := 0 |}.
Definition rd : Readings := {| r_try := 0; r_record := 0; r_wall := 0 |}.

(** The same refusal over the two transports: 0x01 against 0x02. *)
Lemma fallback_loses_refusal_witness : exists e,
  (ob_open_tcp rd (OHttp (P := PoolWorld) {| hx_out := none; hx_env := [refused] |}) (str "10.0.0.1") 80 0).1.1 = Err e /\
  socks5_reply_code e = 1 /\ socks5_reply_code (ETarget Denied) = 2.
Proof.
  destruct (ob_open_tcp rd (OHttp (P := PoolWorld) {| hx_out := none; hx_env := [refused] |}) (str "10.0.0.1") 80 0)
    as [[[s|e] ob'] last'] eqn:E.
  - exfalso. apply (f_equal (fun x => is_ok x.1.1)) in E. vm_compute in E. discriminate.
  - exists e. split; [reflexivity|]. split; [|reflexivity].
    apply (fallback_loses_refusal _ rd (str "10.0.0.1") 80 0 e ob' last' (or_introl E)).
Defined.

Lemma fallback_retry_once_witness :
  ho_mux (with_retry (fun env m => mux_open env m (str "h") 80) dying refused none).2 = Some 1%nat /\
  (ho_next (with_retry (fun env m => mux_open env m (str "h") 80) dying refused none).2 <= 2)%nat.
Proof.
  split; [vm_compute; reflexivity|].
  pose proof (fallback_retry_once (fun env m => mux_open env m (str "h") 80) dying refused none) as H.
  assert (Hwf : ho_wf none) by (intros i m Hm; vm_compute in Hm; discriminate).
  specialize (H Hwf). destruct (attempt _ dying none) as [[r1 d] h1].
  destruct (with_retry _ dying refused none) as [r ho']. destruct H as (_ & _ & H). exact H.
Defined.

End ClientFallbackWitness.
