(* ===== verification/ClientTasks.v ===== *)
(** * The tasks behind a client connection: [proto/mux.rs], [client/wt.rs]

    What runs next to the callers: the multiplexer of a fallback channel from
    its start over any history of calls, frames and ends; and the four tasks of
    a WebTransport connection (control reader, datagram reader, heartbeat,
    death watcher), with how a connection ends. *)

From S2P Require Import Prelude Bytes Crypto Frame Addr Net Ip Limit State Egress Mux Outbound ClientWt.

(** ** The multiplexer of a fallback channel *)

(** [rand_sid_base] and [next_rand_u32], of a random [u32]. *)
Definition rand_sid_base (r : Z) : Z := Z.max (wrap 32 r) 1.

(** [start_with_reader]: what it shares with its tasks. The writer task is
    [writer_task], the reader [run_client_reader]. *)
Definition start_with_reader (r : Z) : MuxInner := {|
  mx_cmd := []; mx_cmd_open := true; mx_sessions := ∅; mx_udp := ∅; mx_pending_open := ∅; mx_pending_udp := ∅;
  mx_next_sid := rand_sid_base r; mx_closed := false; mx_tcp := ∅; mx_dgram := ∅; mx_replies := ∅ |}.

(** What happens to it. The two halves of a call are apart, with anything in
    between; a channel's receiver is dropped by the task that owns it. *)
Inductive MuxOp :=
| MOpen (host : bytes) (port : Z)
| MOpenEnd (sid : Z) (reply : option (result OpenError unit))
| MUdp
| MUdpEnd (sid : Z) (reply : option (result OpenError unit))
| MFrame (f : Frame)
| MSend (f : OutFrame)
| MGone (c : nat)
| MWriterGone
| MReaderEnd.

(** The channels and oneshots made so far are numbered below [mt_next]. *)
Record MuxTasks := { mt_mux : MuxInner; mt_next : nat }.

Definition mux_start (r : Z) : MuxTasks := {| mt_mux := start_with_reader r; mt_next := 0 |}.

Definition receiver_gone (m : MuxInner) (c : nat) : MuxInner :=
  mx_set_chans m (alter (fun ch => {| ch_alive := false; ch_sent := ch_sent ch |}) c (mx_tcp m)) (mx_dgram m).
Definition writer_gone (m : MuxInner) : MuxInner := {|
  mx_cmd := mx_cmd m; mx_cmd_open := false; mx_sessions := mx_sessions m; mx_udp := mx_udp m;
  mx_pending_open := mx_pending_open m; mx_pending_udp := mx_pending_udp m; mx_next_sid := mx_next_sid m;
  mx_closed := mx_closed m; mx_tcp := mx_tcp m; mx_dgram := mx_dgram m; mx_replies := mx_replies m |}.

Definition mux_op (s : MuxTasks) (o : MuxOp) : MuxTasks :=
  let m := mt_mux s in let n := mt_next s in
  match o with
  | MOpen host port => {| mt_mux := (open_tcp_start m host port n n).2; mt_next := S n |}
  | MOpenEnd sid reply => {| mt_mux := (open_tcp_finish m sid reply).2; mt_next := n |}
  | MUdp => {| mt_mux := (udp_associate_start m n n).2; mt_next := S n |}
  | MUdpEnd sid reply => {| mt_mux := (udp_associate_finish m sid reply).2; mt_next := n |}
  | MFrame f => {| mt_mux := handle_client_frame m f; mt_next := n |}
  | MSend f => {| mt_mux := (cmd_send m f).2; mt_next := n |}
  | MGone c => {| mt_mux := receiver_gone m c; mt_next := n |}
  | MWriterGone => {| mt_mux := writer_gone m; mt_next := n |}
  | MReaderEnd => {| mt_mux := teardown_all m; mt_next := n |}
  end.

Definition mux_run (s : MuxTasks) (os : list MuxOp) : MuxTasks := fold_left mux_op os s.

(** The routes are sound: each session has a channel of its own, and no sid is
    zero or used twice. *)
Definition routes_ok (next : nat) (S U : gmap Z nat) (T : gmap nat (Chan bytes)) : Prop :=
  (forall sid c, S !! sid = Some c -> sid <> 0 /\ U !! sid = None /\ is_Some (T !! c) /\ (c < next)%nat)
  /\ (forall s1 s2 c, S !! s1 = Some c -> S !! s2 = Some c -> s1 = s2)
  /\ (forall sid c, U !! sid = Some c -> sid <> 0).
Definition mux_ok (s : MuxTasks) : Prop :=
  routes_ok (mt_next s) (mx_sessions (mt_mux s)) (mx_udp (mt_mux s)) (mx_tcp (mt_mux s)).

Lemma routes_mono next next' S U T S' U' T' : routes_ok next S U T -> (next <= next')%nat -> S' ⊆ S -> U' ⊆ U -> (dom T ⊆ dom T') ->
  routes_ok next' S' U' T'.
Proof.
  intros (H1 & H2 & H3) Hn HS HU HT. split_and!.
  - intros sid c Hc. destruct (H1 sid c) as (? & Hu & Ht & ?); [by eapply lookup_weaken|]. split_and!; [done| | |lia].
    + destruct (U' !! sid) eqn:E; [|done]. eapply lookup_weaken in E; [|exact HU]. congruence.
    + apply elem_of_dom, HT, elem_of_dom, Ht.
  - intros s1 s2 c E1 E2. eapply H2; by eapply lookup_weaken.
  - intros sid c Hc. eapply H3, lookup_weaken; eauto.
Qed.

Lemma alloc_sid_spec m sid m' : alloc_sid m = Some (sid, m') -> sid <> 0 /\ mx_sessions m !! sid = None /\ mx_udp m !! sid = None
  /\ mx_sessions m' = mx_sessions m /\ mx_udp m' = mx_udp m /\ mx_tcp m' = mx_tcp m.
Proof.
  unfold alloc_sid. intros H. destruct (alloc_loop _ _ _) as [[v next]|] eqn:E; [|done]. injection H as <- <-.
  assert (Hv : v <> 0 /\ sid_taken m v = false).
  { revert E. generalize (mx_next_sid m). induction (alloc_fuel m) as [|n IH]; intros x; cbn; [done|].
    destruct (negb (x =? 0) && negb (sid_taken m x)) eqn:Ex; [|apply IH]. intros [= <- _]. bsimpl. split; [lia|done]. }
  destruct Hv as [Hz Ht]. unfold sid_taken in Ht; bsimpl. split_and!; try done; by apply eq_None_not_Some.
Qed.

(** A frame only takes routes away. *)
Lemma frame_routes m f : mx_sessions (handle_client_frame m f) ⊆ mx_sessions m /\ mx_udp (handle_client_frame m f) ⊆ mx_udp m
  /\ dom (mx_tcp m) ⊆ dom (mx_tcp (handle_client_frame m f)).
Proof.
  assert (Hr : forall sid r, mx_sessions (resolve_either m sid r) = mx_sessions m /\ mx_udp (resolve_either m sid r) = mx_udp m
    /\ mx_tcp (resolve_either m sid r) = mx_tcp m).
  { intros sid r. unfold resolve_either, resolve_open, resolve_udp.
    destruct (mx_pending_open m !! sid); [done|]. by destruct (mx_pending_udp m !! sid). }
  unfold handle_client_frame. destruct (f_ftype f); try done.
  - unfold resolve_open. by destruct (mx_pending_open m !! f_sid f).
  - by destruct (Hr (f_sid f) (Err (code_to_open_error (f_payload f)))) as (-> & -> & ->).
  - assert (Hd : mx_sessions (route_data m (f_sid f) (f_payload f)) ⊆ mx_sessions m /\ mx_udp (route_data m (f_sid f) (f_payload f)) = mx_udp m
      /\ dom (mx_tcp m) ⊆ dom (mx_tcp (route_data m (f_sid f) (f_payload f)))).
    { unfold route_data. destruct (mx_sessions m !! f_sid f) as [c|]; [|done]. destruct (mx_tcp m !! c) as [ch|]; [|done].
      destruct (ch_send ch (f_payload f)) as [[] ch']; cbn; split_and!; try done; [set_solver|apply delete_subseteq]. }
    destruct Hd as (H1 & H2 & H3). destruct (has_flag _ _); cbn; rewrite H2; split_and!; try done.
    etransitivity; [apply delete_subseteq|done].
  - cbn. split_and!; [apply delete_subseteq..|done].
  - unfold cmd_send. by destruct (mx_cmd_open m).
  - unfold resolve_udp. by destruct (mx_pending_udp m !! f_sid f).
  - destruct (ua_decode _) as [[src r]|]; [|done]. unfold route_datagram.
    destruct (mx_udp m !! f_sid f) as [c|]; [|done]. by destruct (mx_dgram m !! c).
  - destruct (Hr (f_sid f) (Err (code_to_open_error (f_payload f)))) as (H1 & H2 & H3). cbn. rewrite H1, H2, H3.
    split_and!; [apply delete_subseteq|done..].
Qed.

Lemma mux_op_ok s o : mux_ok s -> mux_ok (mux_op s o).
Proof.
  intros Hok. destruct s as [m n]. unfold mux_ok, mux_op in *; cbn [mt_mux mt_next] in *. destruct o; cbn [mt_mux mt_next].
  - unfold open_tcp_start. destruct (_ || _); cbn [snd]; [eapply routes_mono; eauto; lia|].
    destruct (alloc_sid m) as [[sid m']|] eqn:E; cbn [snd]; [|eapply routes_mono; eauto; lia].
    apply alloc_sid_spec in E as (Hz & Hs & Hu & Es & Eu & Et). unfold cmd_send; cbn [mx_cmd_open mx_set_pending mx_set_routes mx_set_chans].
    destruct Hok as (H1 & H2 & H3).
    assert (Hnew : routes_ok (S n) (<[sid := n]> (mx_sessions m')) (mx_udp m') (<[n := {| ch_alive := true; ch_sent := [] |}]> (mx_tcp m'))).
    { rewrite Es, Eu, Et. split_and!; [|intros s1 s2 c|done].
      - intros s c [[<- <-]|[Hne Hc]]%lookup_insert_Some; [by rewrite lookup_insert_eq; eauto with lia|].
        destruct (H1 s c Hc) as (? & ? & ? & ?). split_and!; [done..| |lia]. rewrite lookup_insert_ne by lia. done.
      - intros [[<- <-]|[? Hc1]]%lookup_insert_Some [[<- E2]|[? Hc2]]%lookup_insert_Some; [done| | |by eapply H2].
        + destruct (H1 _ _ Hc2) as (_ & _ & _ & ?); lia.
        + subst. destruct (H1 _ _ Hc1) as (_ & _ & _ & ?); lia. }
    destruct (mx_cmd_open m'); cbn; [exact Hnew|]. eapply routes_mono; [exact Hnew|lia|apply delete_subseteq|done|done].
  - unfold open_tcp_finish. destruct reply as [[u|e]|]; cbn; [done|eapply routes_mono; eauto; apply delete_subseteq..].
  - unfold udp_associate_start. destruct (alloc_sid m) as [[sid m']|] eqn:E; cbn [snd]; [|eapply routes_mono; eauto; lia].
    apply alloc_sid_spec in E as (Hz & Hs & Hu & Es & Eu & Et). unfold cmd_send; cbn [mx_cmd_open mx_set_pending mx_set_routes mx_set_chans].
    destruct Hok as (H1 & H2 & H3).
    assert (Hnew : routes_ok (S n) (mx_sessions m') (<[sid := n]> (mx_udp m')) (mx_tcp m')).
    { rewrite Es, Eu, Et. split_and!; [|done|].
      - intros s c Hc. destruct (H1 s c Hc) as (? & ? & ? & ?). split_and!; [done| |done|lia]. rewrite lookup_insert_ne; [done|congruence].
      - intros s c [[<- <-]|[Hne Hc]]%lookup_insert_Some; [done|by eapply H3]. }
    destruct (mx_cmd_open m'); cbn; [exact Hnew|]. eapply routes_mono; [exact Hnew|lia|done|apply delete_subseteq|done].
  - unfold udp_associate_finish. destruct reply as [[u|e]|]; cbn; [done|eapply routes_mono; eauto; apply delete_subseteq..].
  - destruct (frame_routes m f) as (? & ? & ?). by eapply routes_mono.
  - unfold cmd_send. by destruct (mx_cmd_open m).
  - cbn. eapply routes_mono; eauto. by rewrite dom_alter.
  - done.
  - cbn. eapply routes_mono; eauto; apply map_empty_subseteq.
Qed.

Lemma mux_run_ok os : forall s, mux_ok s -> mux_ok (mux_run s os).
Proof. induction os as [|o os IH]; intros s Hs; [done|]. by apply IH, mux_op_ok. Qed.

(** C16: the sessions of a fallback channel are isolated from one another, from
    the channel's start to its end. After any history of opens and associations
    (overlapping as they may), answers and timeouts, frames of any kind, pumps
    that end and a writer that dies: no two sessions share a channel or a sid,
    none has sid 0 or the sid of an association; and whatever frames arrive
    next, a session's reader is given exactly the payloads of its own Data
    frames, in order, up to the one that ends it. *)
Theorem mux_sessions_isolated r os fs sid c q : let m := mt_mux (mux_run (mux_start r) os) in
  mx_sessions m !! sid = Some c -> mx_tcp m !! c = Some {| ch_alive := true; ch_sent := q |} ->
  sid <> 0 /\ mx_udp m !! sid = None /\ (forall sid', mx_sessions m !! sid' = Some c -> sid' = sid)
  /\ mx_tcp (fold_left handle_client_frame fs m) !! c = Some {| ch_alive := true; ch_sent := q ++ tcp_view sid fs |}.
Proof.
  intros m Hs Hc. assert (Hok : mux_ok (mux_run (mux_start r) os)) by (apply mux_run_ok; split_and!; intros *; cbn; rewrite lookup_empty; done).
  destruct Hok as (H1 & H2 & _). destruct (H1 sid c Hs) as (Hz & Hu & _ & _).
  assert (Hown : forall sid', mx_sessions m !! sid' = Some c -> sid' = sid) by (intros; by eapply H2).
  split_and!; try done. by apply demux.
Qed.

(** ** The tasks of a WebTransport connection *)

Section conn.
Context {P : Prims}.

(** The connection with its tasks: the datagram reader's decoder, which tasks
    still run, and whether the QUIC connection is open on this side. *)
Record ConnTasks := {
  ck_conn : WtConn; ck_dec : FrameDecoder;
  ck_ctrl : bool; ck_dgram : bool; ck_beat : bool; ck_watch : bool; ck_quic : bool }.

Definition ck_set (s : ConnTasks) (c : WtConn) : ConnTasks :=
  {| ck_conn := c; ck_dec := ck_dec s; ck_ctrl := ck_ctrl s; ck_dgram := ck_dgram s; ck_beat := ck_beat s;
     ck_watch := ck_watch s; ck_quic := ck_quic s |}.

(** [connect]'s four spawns. *)
Definition conn_start (next_sid : Z) (dec : FrameDecoder) : ConnTasks :=
  {| ck_conn := wc_new next_sid; ck_dec := dec; ck_ctrl := true; ck_dgram := true; ck_beat := true; ck_watch := true; ck_quic := true |}.

(** [spawn_control_reader]: the next read. *)
Definition control_read (s : ConnTasks) (r : result msg (option Frame)) : ConnTasks :=
  match r with
  | Ok (Some f) => ck_set s (dispatch (ck_conn s) f)
  | _ => {| ck_conn := expire (ck_conn s); ck_dec := ck_dec s; ck_ctrl := false; ck_dgram := ck_dgram s; ck_beat := ck_beat s;
            ck_watch := ck_watch s; ck_quic := ck_quic s |}
  end.

(** [spawn_datagram_reader]: the next datagram, [None] when the channel closed. *)
Definition datagram_read (s : ConnTasks) (d : option bytes) : ConnTasks :=
  match d with
  | Some data =>
    match on_datagram (ck_dec s) data with
    | Some (fs, dec) =>
      {| ck_conn := fold_left dispatch fs (ck_conn s); ck_dec := dec; ck_ctrl := ck_ctrl s; ck_dgram := ck_dgram s;
         ck_beat := ck_beat s; ck_watch := ck_watch s; ck_quic := ck_quic s |}
    | None => s
    end
  | None => {| ck_conn := expire (ck_conn s); ck_dec := ck_dec s; ck_ctrl := ck_ctrl s; ck_dgram := false; ck_beat := ck_beat s;
               ck_watch := ck_watch s; ck_quic := ck_quic s |}
  end.

(** The heartbeat's turn: its interval, or the [close] token. *)
Definition beat_turn (s : ConnTasks) (woken : bool) : ConnTasks :=
  let '(run, c) := if woken then (false, ck_conn s) else heartbeat_tick (ck_conn s) in
  {| ck_conn := c; ck_dec := ck_dec s; ck_ctrl := ck_ctrl s; ck_dgram := ck_dgram s; ck_beat := run;
     ck_watch := ck_watch s; ck_quic := ck_quic s |}.

(** The death watcher: QUIC closed, or the [close] token, upon which it closes
    the QUIC connection itself. *)
Definition watch_turn (s : ConnTasks) (quic_closed : bool) : ConnTasks :=
  {| ck_conn := expire (ck_conn s); ck_dec := ck_dec s; ck_ctrl := ck_ctrl s; ck_dgram := ck_dgram s; ck_beat := ck_beat s;
     ck_watch := false; ck_quic := false |}.

(** The steps: a task's, when it runs and has something to do, or a caller's. *)
Inductive conn_task : ConnTasks -> ConnTasks -> Prop :=
| ct_ctrl s r : ck_ctrl s = true -> conn_task s (control_read s r)
| ct_dgram s d : ck_dgram s = true -> conn_task s (datagram_read s d)
| ct_beat s : ck_beat s = true -> conn_task s (beat_turn s false)
| ct_beat_woken s : ck_beat s = true -> wc_closed (ck_conn s) = true -> conn_task s (beat_turn s true)
| ct_quic_closed s : ck_watch s = true -> conn_task s (watch_turn s true)
| ct_watch_woken s : ck_watch s = true -> wc_closed (ck_conn s) = true -> conn_task s (watch_turn s false)
| ct_retired s : conn_task s (ck_set s (wc_kill (ck_conn s)))
| ct_open s : conn_task s (ck_set s (wt_open_start (ck_conn s)).2)
| ct_open_end s sid r : conn_task s (ck_set s (wt_open_finish (ck_conn s) sid r).2)
| ct_session_end s : conn_task s (ck_set s (wt_session_end (ck_conn s)))
| ct_udp s w : conn_task s (ck_set s (wt_udp_start (ck_conn s) w).2)
| ct_udp_end s sid q r : conn_task s (ck_set s (wt_udp_finish (ck_conn s) sid q r).2)
| ct_udp_gone s sid : conn_task s (ck_set s (wt_udp_end (ck_conn s) sid)).

(** A dead connection is closed, and a task ends only on a dead one (the
    heartbeat also when the control writer is gone). *)
Definition conn_inv (s : ConnTasks) : Prop :=
  wc_closed (ck_conn s) = negb (wc_alive (ck_conn s))
  /\ (wc_alive (ck_conn s) = true -> ck_ctrl s = true /\ ck_dgram s = true /\ ck_watch s = true
        /\ (wc_ctrl_open (ck_conn s) = true -> ck_beat s = true))
  /\ (ck_watch s = false -> wc_pending_udp (ck_conn s) = ∅).

Definition same_life (c c' : WtConn) : Prop :=
  wc_alive c' = wc_alive c /\ wc_closed c' = wc_closed c /\ wc_ctrl_open c' = wc_ctrl_open c.

(** What leaves the life of a connection alone; the waiters of a dead one only
    go. *)
Definition quiet (c c' : WtConn) : Prop :=
  same_life c c' /\ (wc_alive c = false -> wc_pending_udp c = ∅ -> wc_pending_udp c' = ∅).

Lemma dispatch_quiet c f : quiet c (dispatch c f).
Proof.
  unfold quiet, same_life, dispatch, wc_reply_udp. destruct (f_ftype f); try done.
  1, 2, 4: destruct (wc_pending_udp c !! f_sid f) as [w|] eqn:E; [|done]; cbn; split; [done|]; intros _ Hp; rewrite Hp in E; by rewrite lookup_empty in E.
  destruct (ua_decode _) as [[src r]|]; [|done]. destruct (wc_udp c !! f_sid f) as [q|]; [|done]. by destruct (wc_dgram c !! q).
Qed.

Lemma quiet_trans c c' c'' : quiet c c' -> quiet c' c'' -> quiet c c''.
Proof. unfold quiet, same_life. intros [(-> & -> & ->) H1] [(E1 & E2 & E3) H2]. rewrite E1, E2, E3. split; [done|auto]. Qed.

Lemma dispatch_all_quiet fs : forall c, quiet c (fold_left dispatch fs c).
Proof. induction fs as [|f fs IH]; intros c; cbn; [done|]. eapply quiet_trans; [apply dispatch_quiet|apply IH]. Qed.

Lemma inv_quiet s c : conn_inv s -> quiet (ck_conn s) c -> conn_inv (ck_set s c).
Proof.
  intros (H1 & H2 & H3) [(E1 & E2 & E3) Hq]. unfold conn_inv, ck_set; cbn. rewrite E1, E2, E3. split_and!; [done|done|].
  intros Hw. apply Hq; [|by apply H3]. destruct (wc_alive (ck_conn s)) eqn:Ea; [|done]. destruct (H2 eq_refl) as (_ & _ & Hw' & _). congruence.
Qed.

Lemma tick_quiet c run c' : heartbeat_tick c = (run, c') ->
  (run = true /\ quiet c c') \/ (run = false /\ ((wc_ctrl_open c = false /\ quiet c c') \/ (wc_alive c' = false /\ wc_closed c' = true /\ wc_pending_udp c' = ∅))).
Proof.
  unfold heartbeat_tick, ctrl_send, quiet, same_life. destruct (wc_pong_seen c); cbn.
  - destruct (wc_ctrl_open c) eqn:E; intros [= <- <-]; cbn; rewrite ?E; auto 10.
  - destruct (PONG_MISS_LIMIT <=? _); [intros [= <- <-]; cbn; auto 10|]. cbn.
    destruct (wc_ctrl_open c) eqn:E; intros [= <- <-]; cbn; rewrite ?E; auto 10.
Qed.

Lemma alloc_quiet c sid c' : wt_alloc_sid c = Some (sid, c') -> same_life c c' /\ wc_pending_udp c' = wc_pending_udp c.
Proof. unfold wt_alloc_sid. destruct (alloc_loop _ _ _) as [[v n]|]; [|done]. by intros [= <- <-]. Qed.

Lemma open_start_quiet c : quiet c (wt_open_start c).2.
Proof.
  unfold wt_open_start. destruct (wc_alive c); cbn [negb snd]; [|done]. destruct (_ <=? _); [done|].
  destruct (wt_alloc_sid _) as [[sid c']|] eqn:E; [|done]. apply alloc_quiet in E as [Hl Hp]. split; [exact Hl|]. cbn. by rewrite Hp.
Qed.

(** No waiter is registered on a dead connection. *)
Lemma udp_start_quiet c w : quiet c (wt_udp_start c w).2.
Proof.
  unfold wt_udp_start. destruct (wc_alive c) eqn:Ea; cbn [negb snd]; [|done].
  destruct (wt_alloc_sid c) as [[sid c']|] eqn:E; [|done]. apply alloc_quiet in E as [(E1 & E2 & E3) Hp].
  unfold ctrl_send, quiet, same_life. cbn. rewrite E3. destruct (wc_ctrl_open c) eqn:Eo; cbn; (split; [split_and!; congruence|congruence]).
Qed.

Lemma conn_task_inv s s' : conn_inv s -> conn_task s s' -> conn_inv s' /\ (wc_alive (ck_conn s) = false -> wc_alive (ck_conn s') = false).
Proof.
  intros Hi Hst. pose proof Hi as (H1 & H2 & H3).
  assert (Hq : forall c, quiet (ck_conn s) c -> conn_inv (ck_set s c) /\ (wc_alive (ck_conn s) = false -> wc_alive (ck_conn (ck_set s c)) = false)).
  { intros c Hc. split; [by apply inv_quiet|]. destruct Hc as [(E & _) _]. cbn. congruence. }
  inversion Hst; subst; clear Hst.
  - destruct r as [[f|]|e]; cbn [control_read]; [apply Hq, dispatch_quiet| |]; split; try done; (split_and!; [done|done|done]).
  - destruct d as [data|]; cbn [datagram_read]; [|split; [|done]; split_and!; done].
    destruct (on_datagram _ _) as [[fs dec]|]; [|by split].
    destruct (Hq _ (dispatch_all_quiet fs (ck_conn s))) as [(Q1 & Q2 & Q3) Q4]. split; [|exact Q4]. split_and!; [exact Q1|exact Q2|exact Q3].
  - unfold beat_turn. destruct (heartbeat_tick (ck_conn s)) as [run c] eqn:E. apply tick_quiet in E as [[-> Hc]|[-> [[Ho Hc]|(Ha & Hcl & Hp)]]].
    + destruct (Hq _ Hc) as [(Q1 & Q2 & Q3) Q4]. split; [|exact Q4]. split_and!; [exact Q1| |exact Q3].
      cbn in *. intros Ha. destruct (Q2 Ha) as (? & ? & ? & ?). by split_and!.
    + destruct (Hq _ Hc) as [(Q1 & Q2 & Q3) Q4]. split; [|exact Q4]. split_and!; [exact Q1| |exact Q3].
      cbn in *. intros Ha. destruct (Q2 Ha) as (? & ? & ? & ?). split_and!; try done. destruct Hc as [(_ & _ & Eo) _]. congruence.
    + split; [|done]. split_and!; cbn; [by rewrite Ha, Hcl|congruence|done].
  - split; [|done]. split_and!; cbn; [done| |done]. intros Ha. rewrite Ha in H1. cbn in H1. congruence.
  - split; [|done]. split_and!; done.
  - split; [|done]. split_and!; done.
  - split; [|done]. split_and!; cbn; [done|done|]. done.
  - apply Hq, open_start_quiet.
  - apply Hq. unfold wt_open_finish, quiet, same_life, after_error. destr.
  - apply Hq. done.
  - apply Hq, udp_start_quiet.
  - apply Hq. unfold wt_udp_finish, quiet, same_life. destruct r as [[u|e]|]; cbn; (split; [done|]); try done.
    intros _ Hp. by rewrite Hp, delete_empty.
  - apply Hq. done.
Qed.

Lemma conn_tasks_inv s s' : conn_inv s -> star conn_task s s' -> conn_inv s' /\ (wc_alive (ck_conn s) = false -> wc_alive (ck_conn s') = false).
Proof.
  intros Hi H. induction H as [s|s s1 s2 H1 H2 IH]; [by split|]. destruct (conn_task_inv _ _ Hi H1) as [Hi1 Hd].
  destruct (IH Hi1) as [Hi2 Hd2]. split; [done|auto].
Qed.

Lemma conn_start_inv sid dec : conn_inv (conn_start sid dec).
Proof. split_and!; done. Qed.

(** A step that ends what is left of a dead connection, or none when it ended. *)
Lemma star_one {A} (R : A -> A -> Prop) (b : bool) x y : (b = true -> R x y) -> (b = false -> x = y) -> star R x y.
Proof. destruct b; intros H1 H2; [eapply star_step; [by apply H1|apply star_refl]|rewrite (H2 eq_refl); apply star_refl]. Qed.

Lemma dead_ends s : conn_inv s -> wc_alive (ck_conn s) = false ->
  exists s', star conn_task s s' /\ ck_ctrl s' = false /\ ck_dgram s' = false /\ ck_beat s' = false /\ ck_watch s' = false.
Proof.
  intros (Hc & _) Ha. rewrite Ha in Hc; cbn in Hc.
  set (s1 := if ck_watch s then watch_turn s false else s).
  assert (R1 : star conn_task s s1) by (apply (star_one _ (ck_watch s)); unfold s1; destruct (ck_watch s) eqn:E; try done; intros _; by apply ct_watch_woken).
  assert (ck_watch s1 = false /\ wc_closed (ck_conn s1) = true) as [W1 W1'] by (unfold s1; destruct (ck_watch s) eqn:E; done).
  set (s2 := if ck_beat s1 then beat_turn s1 true else s1).
  assert (R2 : star conn_task s1 s2) by (apply (star_one _ (ck_beat s1)); unfold s2; destruct (ck_beat s1) eqn:E; try done; intros _; by apply ct_beat_woken).
  assert (W2 : ck_watch s2 = false /\ ck_beat s2 = false) by (unfold s2; destruct (ck_beat s1) eqn:E; [cbn|]; tauto).
  set (s3 := if ck_ctrl s2 then control_read s2 (Ok None) else s2).
  assert (R3 : star conn_task s2 s3) by (apply (star_one _ (ck_ctrl s2)); unfold s3; destruct (ck_ctrl s2) eqn:E; try done; intros _; by apply ct_ctrl).
  assert (W3 : ck_watch s3 = false /\ ck_beat s3 = false /\ ck_ctrl s3 = false) by (unfold s3; destruct (ck_ctrl s2) eqn:E; [cbn|]; tauto).
  set (s4 := if ck_dgram s3 then datagram_read s3 None else s3).
  assert (R4 : star conn_task s3 s4) by (apply (star_one _ (ck_dgram s3)); unfold s4; destruct (ck_dgram s3) eqn:E; try done; intros _; by apply ct_dgram).
  exists s4. split; [eapply star_trans; [exact R1|eapply star_trans; [exact R2|eapply star_trans; [exact R3|exact R4]]]|].
  unfold s4; destruct (ck_dgram s3) eqn:E; [cbn|]; tauto.
Qed.

(** The life of a WebTransport connection of the client. Whatever its tasks
    read, in whatever order they and its callers run: it is in service exactly
    while its token is not cancelled, and then its readers and its watcher all
    run (and the heartbeat, while the control writer does); once it is out of
    service, by an error on either channel, two silent heartbeats, the end of
    QUIC or the pool's decision, it stays so, every task can end, and when the
    watcher has, no association waits on it. *)
Theorem client_conn_lifecycle sid dec s : star conn_task (conn_start sid dec) s ->
  wc_closed (ck_conn s) = negb (wc_alive (ck_conn s))
  /\ (wc_alive (ck_conn s) = true -> ck_ctrl s = true /\ ck_dgram s = true /\ ck_watch s = true
        /\ (wc_ctrl_open (ck_conn s) = true -> ck_beat s = true))
  /\ (ck_watch s = false -> wc_alive (ck_conn s) = false /\ wc_pending_udp (ck_conn s) = ∅)
  /\ (wc_alive (ck_conn s) = false ->
      (forall s', star conn_task s s' -> wc_alive (ck_conn s') = false)
      /\ exists s', star conn_task s s' /\ ck_ctrl s' = false /\ ck_dgram s' = false /\ ck_beat s' = false /\ ck_watch s' = false).
Proof.
  intros H. destruct (conn_tasks_inv _ _ (conn_start_inv sid dec) H) as [Hi _]. pose proof Hi as (H1 & H2 & H3). split_and!; [done|done| |].
  - intros Hw. split; [|by apply H3]. destruct (wc_alive (ck_conn s)); [|done]. destruct (H2 eq_refl) as (_ & _ & ? & _). congruence.
  - intros Ha. split; [|by apply dead_ends]. intros s' Hs'. by apply (conn_tasks_inv _ _ Hi Hs').
Qed.

End conn.

(** ** Witnesses *)

Module ClientTasksWitness.
Import CryptoWitness.

Definition fr (t : FrameType) (sid flags : Z) (p : bytes) : Frame :=
  {| f_ftype := t; f_flags := flags; f_sid := sid; f_counter := 0; f_aad := []; f_payload := p |}.
(** Two sessions and an association, opened before any answer. *)
Definition history : list MuxOp :=
  [MOpen (str "a") 80; MUdp; MOpen (str "b") 80; MFrame (fr FOpenOk 6 0 []); MFrame (fr FUdpOk 7 0 []);
   MFrame (fr FData 6 0 [1]); MOpenEnd 8 None; MUdpEnd 7 (Some (Ok tt))].

Lemma mux_sessions_isolated_witness :
  mx_tcp (fold_left handle_client_frame [fr FData 8 0 [9]; fr FData 6 0 [2]; fr FClose 6 0 []; fr FData 6 0 [3]]
            (mt_mux (mux_run (mux_start 6) history))) !! 0%nat = Some {| ch_alive := true; ch_sent := [[1]; [2]] |}.
Proof.
  refine (proj2 (proj2 (proj2 (mux_sessions_isolated 6 history _ 6 0%nat [[1]] _ _)))); vm_compute; reflexivity.
Defined.

Definition dec : FrameDecoder := fd_with_limit (Some (cipher_new (replicate 32 7))) (Some rw_new) 16384.

Lemma client_conn_lifecycle_witness : exists s, star conn_task (conn_start 5 dec) s /\ wc_alive (ck_conn s) = false
  /\ exists s', star conn_task s s' /\ ck_ctrl s' = false /\ ck_watch s' = false.
Proof.
  set (s := control_read (conn_start 5 dec) (Err "closed")).
  assert (H : star conn_task (conn_start 5 dec) s) by (eapply star_step; [by apply ct_ctrl|apply star_refl]).
  exists s. split; [exact H|]. split; [reflexivity|].
  destruct (client_conn_lifecycle 5 dec s H) as (_ & _ & _ & Hd). destruct (Hd eq_refl) as (_ & s' & Hs & ? & _ & _ & ?). by exists s'.
Defined.

End ClientTasksWitness.
