(* ===== verification/Tunnel.v ===== *)
(** * End to end: a session's bytes from one side of the tunnel to the other

    The pumps of [Pumps], the frames of [Frame], the routing of [Mux] and the
    client's session tasks ([client/wt.rs], [proto/mux.rs]) put together, for
    both transports and both directions. *)

From S2P Require Import Prelude Bytes Crypto Frame Addr Net Ip Limit State Egress Mux Hub Pumps Outbound ClientWt.

(** ** The client's pumps of a fallback session: [MuxClient::open_tcp] *)

(** user to frames, over the results of its reads: the multiplexer, and whether
    the task ended. *)
Fixpoint user_to_frames (m : MuxInner) (sid : Z) (reads : list (result msg bytes)) : MuxInner * bool :=
  match reads with
  | [] => (m, false)
  | Ok [] :: _ | Err _ :: _ => ((cmd_send m (out FClose FLAG_FIN sid [])).2, true)
  | Ok chunk :: t =>
    match cmd_send m (out FData 0 sid chunk) with
    | (true, m) => user_to_frames m sid t
    | (false, m) => ((cmd_send m (out FClose FLAG_FIN sid [])).2, true)
    end
  end.

(** frames to user: what it writes of the route's entries. *)
Fixpoint frames_to_user (entries : list bytes) (ok : bytes -> bool) : list bytes :=
  match entries with
  | [] => []
  | b :: t => if ok b then b :: frames_to_user t ok else []
  end.

(** The frames a user's reads become. *)
Definition user_frames (sid : Z) (chunks : list bytes) : list OutFrame :=
  map (out FData 0 sid) chunks ++ [out FClose FLAG_FIN sid []].

Lemma user_to_frames_queue chunks last sid : forall m, mx_cmd_open m = true -> Forall (fun b => b <> []) chunks ->
  (last = Ok [] \/ is_ok last = false) ->
  exists m', user_to_frames m sid (map Ok chunks ++ [last]) = (m', true) /\
    mx_cmd m' = mx_cmd m ++ user_frames sid chunks.
Proof.
  induction chunks as [|[|x b] chunks IH]; intros m Ho Hne Hl.
  - assert (user_to_frames m sid [last] = ((cmd_send m (out FClose FLAG_FIN sid [])).2, true)) as E.
    { destruct last as [[|]|]; [done| |done]. by destruct Hl. }
    cbn [map app]; rewrite E; unfold cmd_send; rewrite Ho. eauto.
  - by inv Hne.
  - inv Hne. cbn [map app user_to_frames]. unfold cmd_send at 1; rewrite Ho.
    destruct (IH (mx_set_misc m (mx_cmd m ++ [out FData 0 sid (x :: b)]) (mx_next_sid m) (mx_closed m)))
      as (m' & -> & E); [done..|]. exists m'; split; [done|]. by rewrite E; cbn; rewrite <- app_assoc.
Qed.

(** ** The frames of a stream whose counter is shared *)

(** What a frame carries, its counter apart. *)
Definition carried (f : Frame) : OutFrame := out (f_ftype f) (f_flags f) (f_sid f) (f_payload f).

Section streams.
Context {P : Prims} {L : PrimsLaws P}.

(** A write that reaches the stream: within the limit, accepted whole. *)
Definition stream_good (limit : Z) (x : (nat * result msg unit) * OutFrame) : Prop :=
  out_wf x.2 /\ len (of_payload x.2) <= limit /\ x.1.2 = Ok tt.

Definition fw_clear (w : FrameWriter) : FrameWriter := {| fw_out := []; fw_enc := fw_enc w |}.

Lemma cg_skip_wf n w : cg_wf (fe_counters (fw_enc w)) -> cg_wf (fe_counters (fw_enc (fw_skip n w))).
Proof. unfold cg_wf; cbn; intros [? ?]. split; [done|]. by apply wrap_bound. Qed.

Lemma stream_send limit x w : cg_wf (fe_counters (fw_enc w)) -> fe_limit (fw_enc w) = limit ->
  limit <= MAX_PLAINTEXT_CAP -> stream_good limit x ->
  exists b w' c, (frame_send x.1 w (of_ftype x.2) (of_flags x.2) (of_sid x.2) (of_payload x.2)) = (Ok tt, w') /\
    fw_out w' = fw_out w ++ b /\ wire_for (fe_cipher (fw_enc w)) x.2 c b /\ is_u64 c /\
    cg_wf (fe_counters (fw_enc w')) /\ fe_limit (fw_enc w') = limit /\ fe_cipher (fw_enc w') = fe_cipher (fw_enc w).
Proof.
  destruct x as [[n io] m]; intros Hg Hl Hcap (Hm & Hlen & Hio); cbn in *; subst io.
  destruct (encode_wire (fw_enc (fw_skip n w)) m) as (b & E & Hw); [cbn; lia..|].
  destruct (cg_take_wf _ (cg_skip_wf n w Hg)) as [Hg' Hu].
  unfold frame_send, stream_out, fw_write, encode in *; cbn in *; rewrite E.
  eexists b, _, _; split_and!; [reflexivity|done|exact Hw|exact Hu|exact Hg'|done|done].
Qed.

Lemma stream_grows limit l : forall w, cg_wf (fe_counters (fw_enc w)) -> fe_limit (fw_enc w) = limit ->
  limit <= MAX_PLAINTEXT_CAP -> Forall (stream_good limit) l ->
  exists r, fw_out (fold_left send_frame l w) = fw_out w ++ r.
Proof.
  induction l as [|x l IH]; intros w Hg Hl Hcap Hq; [exists []; by rewrite app_nil_r|]; apply Forall_cons in Hq as [Hx Hq].
  destruct (stream_send limit x w) as (b & w' & c & Es & Eo & _ & _ & Hg' & Hl' & _); [done..|].
  cbn [fold_left]. assert (send_frame w x = w') as -> by (unfold send_frame; by rewrite Es).
  destruct (IH w') as [r ->]; [done..|]. exists (b ++ r). by rewrite Eo, <- app_assoc.
Qed.

(** Reading everything a writer put on a stream, from any chunking of it. *)
Lemma shared_reassemble limit l : forall w d cs, cg_wf (fe_counters (fw_enc w)) -> fe_limit (fw_enc w) = limit ->
  paired d (fe_cipher (fw_enc w)) limit -> Forall (stream_good limit) l -> Forall (fun b => b <> []) cs ->
  fw_out (fold_left send_frame l w) = fw_out w ++ fd_buf d ++ concat cs ->
  exists fs, map carried fs = map snd l /\
    fr_read_n (S (length l)) (map Ok cs) d = map (fun f => Ok (Some f)) fs ++ [Ok None].
Proof.
  induction l as [|x l IH]; intros w d cs Hg Hl Hp Hq Hne E; cbn [fold_left] in E.
  - rewrite <- (app_nil_r (fw_out w)) in E at 1. apply app_inv_head in E; symmetry in E. apply app_nil in E as [Eb Ec].
    destruct cs as [|y cs]; [|by inv Hne; cbn in Ec; apply app_nil in Ec as [? _]].
    exists []; split; [done|]. cbn [length map fr_read_n fr_read app]. rewrite next_frame_short by (rewrite Eb; done).
    unfold fd_is_empty; by rewrite bool_decide_true by done.
  - apply Forall_cons in Hq as [Hx Hq]. pose proof Hp as (_ & _ & _ & _ & Hcap).
    destruct (stream_send limit x w) as (b & w' & c & Es & Eo & Hw & Hu & Hg' & Hl' & Ec'); [done..|].
    assert (send_frame w x = w') as Esw by (unfold send_frame; by rewrite Es). rewrite Esw in E.
    destruct (stream_grows limit l w') as [r Er]; [done..|].
    rewrite Er, Eo, <- app_assoc in E. apply app_inv_head in E.
    destruct Hx as (Hm & Hlen & _).
    destruct (fr_read_frame (fe_cipher (fw_enc w)) limit x.2 c b cs d r)
      as (cs' & d' & Hr & Hp' & Hne' & E'); [done..|].
    destruct (IH w' d' cs') as (fs & Hfs & Hrd); [done|done|by rewrite Ec'|done|done|by rewrite Er, E'|].
    exists (frame_of x.2 c :: fs). split.
    + cbn; rewrite Hfs; f_equal. by destruct x.2.
    + cbn [length]. remember (S (length l)) as n. cbn [fr_read_n]. rewrite Hr, Hrd. done.
Qed.

End streams.

(** ** What each end makes of a sequence of frames *)

(** The data of a sequence of frames, up to the one that ends it. *)
Fixpoint view_until (stop : FrameType -> bool) (ms : list OutFrame) : list bytes :=
  match ms with
  | [] => []
  | m :: t =>
    match of_ftype m with
    | FData => of_payload m :: (if has_flag (of_flags m) FLAG_FIN then [] else view_until stop t)
    | ty => if stop ty then [] else view_until stop t
    end
  end.

Definition stop_wt (t : FrameType) : bool := match t with FClose => true | _ => false end.
Definition stop_mux (t : FrameType) : bool := match t with FClose | FError => true | _ => false end.
Definition of_session (sid : Z) (m : OutFrame) : bool := of_sid m =? sid.

Lemma session_reader_view fs : wt_session_reader (map (fun f => Ok (Some f)) fs ++ [Ok None]) (fun _ => true)
  = view_until stop_wt (map carried fs).
Proof.
  induction fs as [|f fs IH]; [done|]; cbn [map app wt_session_reader view_until carried out of_ftype of_payload of_flags].
  destruct (f_ftype f); cbn [stop_wt negb]; try done. rewrite IH. by destruct (has_flag _ _).
Qed.

Lemma tcp_view_carried sid fs : tcp_view sid fs = view_until stop_mux (List.filter (of_session sid) (map carried fs)).
Proof.
  induction fs as [|f fs IH]; [done|]; cbn [map List.filter tcp_view]. unfold of_session at 1; cbn [carried out of_sid].
  destruct (f_sid f =? sid); [|done]. unfold delivers, ends_route; cbn [view_until carried out of_ftype of_flags of_payload].
  destruct (f_ftype f); cbn [stop_mux]; by rewrite ?IH.
Qed.

(** What an upload's frame puts on the server's route. *)
Definition feeds_out (m : OutFrame) : list (bytes * bool) :=
  match of_ftype m with
  | FData => [(of_payload m, has_flag (of_flags m) FLAG_FIN)]
  | FClose => [([], true)]
  | _ => []
  end.

Lemma route_view_carried sid fs :
  route_view sid fs = concat (map feeds_out (List.filter (of_session sid) (map carried fs))).
Proof.
  induction fs as [|f fs IH]; [done|]; rewrite route_view_cons, IH; cbn [map List.filter].
  unfold of_session at 2; cbn [carried out of_sid]. by destruct (f_sid f =? sid).
Qed.

(** A channel's reader gets the queue entries within the limit. *)
Lemma delivered_carried limit q : forall g, map carried (delivered g limit q) = List.filter (fun m => len (of_payload m) <=? limit) q.
Proof.
  induction q as [|m q IH]; intros g; [done|]; cbn [delivered List.filter].
  destruct (len (of_payload m) <=? limit); [|done]. destruct (cg_take g) as [c g2]; cbn [map]; rewrite IH; by destruct m.
Qed.

Lemma filter_fitting {A} (p q : A -> bool) l : Forall (fun x => p x = true) (List.filter q l) ->
  List.filter q (List.filter p l) = List.filter q l.
Proof.
  induction l as [|x l IH]; [done|]; cbn [List.filter]. destruct (q x) eqn:Eq.
  - intros [Hx Hl]%Forall_cons. rewrite Hx; cbn [List.filter]; by rewrite Eq, IH.
  - intros Hl; destruct (p x); cbn [List.filter]; rewrite ?Eq; by apply IH.
Qed.

(** ** The bytes of a download *)

(** What the target sent before the pump stopped reading it. *)
Fixpoint target_bytes {Env} (evs : list (OutEvent Env)) : bytes :=
  match evs with
  | ORead (Ok (x :: b)) _ :: t => (x :: b) ++ target_bytes t
  | _ => []
  end.

Definition read_fits {Env} (ev : OutEvent Env) : Prop :=
  match ev with ORead (Ok b) _ => len b <= READ_BUF | _ => True end.
Definition io_ok (ev : OutEvent (nat * result msg unit)) : Prop :=
  match ev with ORead _ e => e.2 = Ok tt | OCancelled => True end.

Lemma pump_view {Env} stop sid (evs : list (OutEvent Env)) : stop FClose = true ->
  concat (view_until stop (map snd (pump_frames sid evs))) = target_bytes evs.
Proof.
  intros Hs; induction evs as [|[|[[|x b]|e] v] evs IH]; cbn [pump_frames map snd target_bytes]; try done.
  - cbn [view_until out of_ftype of_flags of_payload concat]. change (has_flag 0 FLAG_FIN) with false.
    cbn [concat]; by rewrite IH.
  - cbn; by rewrite Hs.
Qed.

Lemma pump_frames_fit {Env} sid (evs : list (OutEvent Env)) : 0 <= sid < 2 ^ 32 -> Forall read_fits evs ->
  Forall (fun x => out_wf x.2 /\ of_session sid x.2 = true /\ len (of_payload x.2) <= READ_BUF) (pump_frames sid evs).
Proof.
  intros Hs; assert (Hx : forall (e : Env) t fl b, 0 <= fl < 2 ^ 16 -> len b <= READ_BUF ->
    out_wf (e, out t fl sid b).2 /\ of_session sid (e, out t fl sid b).2 = true /\ len (of_payload (e, out t fl sid b).2) <= READ_BUF).
  { intros; unfold out_wf, of_session; cbn. rewrite Z.eqb_refl. done. }
  induction evs as [|[|[[|x b]|e] v] evs IH]; intros Hf; cbn [pump_frames]; try done; apply Forall_cons in Hf as [Hb Hf].
  - repeat constructor; try done; by apply Hx.
  - constructor; [by apply Hx|by apply IH].
  - repeat constructor; try done; by apply Hx.
Qed.

(** ** WebTransport *)

Section webtransport.
Context {P : Prims} {L : PrimsLaws P}.

Lemma pump_stream_good limit sid evs : READ_BUF <= limit -> 0 <= sid < 2 ^ 32 ->
  Forall read_fits evs -> Forall io_ok evs -> Forall (stream_good limit) (pump_frames sid evs).
Proof.
  intros Hl Hs Hf Hio. pose proof (pump_frames_fit sid evs Hs Hf) as Hp.
  assert (Hi : Forall (fun x => x.1.2 = Ok tt) (pump_frames sid evs)).
  { clear -Hio. induction evs as [|[|[[|x b]|e] v] evs IH]; cbn [pump_frames]; try done;
      apply Forall_cons in Hio as [Hb Hio]; repeat constructor; auto. }
  rewrite Forall_forall in *; intros x Hx. destruct (Hp x Hx) as (? & _ & ?). split_and!; [done|lia|by apply Hi].
Qed.

Lemma pump_stream_sends limit cid sid evs w wr : READ_BUF <= limit <= MAX_PLAINTEXT_CAP -> 0 <= sid < 2 ^ 32 ->
  cg_wf (fe_counters (fw_enc wr)) -> fe_limit (fw_enc wr) = limit -> Forall read_fits evs -> Forall io_ok evs ->
  (pump_out cid sid w wr evs).1.2 = fold_left send_frame (pump_frames sid evs) wr.
Proof.
  intros [Hl Hcap] Hs Hg He Hf Hio.
  apply (pump_out_sends cid sid (fun wr => cg_wf (fe_counters (fw_enc wr)) /\ fe_limit (fw_enc wr) = limit)
           (stream_good limit)); [|by apply pump_stream_good|done].
  intros s e m [Hg' He'] Hgood. destruct (stream_send limit (e, m) s) as (b & w' & c & Es & _ & _ & _ & Hg2 & Hl2 & _); [done..|].
  unfold send_frame; cbn in *; rewrite Es; done.
Qed.

(** A download over WebTransport arrives intact. Whatever the target sends,
    in whatever portions, until it closes, fails or the session is cancelled;
    however many frames the connection's other streams seal under the shared
    counter in between; and however QUIC cuts the stream: the client's session
    task writes to the user exactly the bytes the server's pump read from the
    target, in order. *)
Theorem wt_download_exact cid sid w wr evs d cs limit :
  cg_wf (fe_counters (fw_enc wr)) -> fe_limit (fw_enc wr) = limit -> READ_BUF <= limit ->
  paired d (fe_cipher (fw_enc wr)) limit -> fd_buf d = [] -> 0 <= sid < 2 ^ 32 ->
  Forall read_fits evs -> Forall io_ok evs -> Forall (fun b => b <> []) cs ->
  fw_out (pump_out cid sid w wr evs).1.2 = fw_out wr ++ concat cs ->
  concat (wt_session_reader (fr_read_n (S (length (pump_frames sid evs))) (map Ok cs) d) (fun _ => true))
  = target_bytes evs.
Proof.
  intros Hg Hl Hb Hp Hd Hs Hf Hio Hne E. pose proof Hp as (_ & _ & _ & _ & Hcap).
  rewrite (pump_stream_sends limit) in E by done.
  destruct (shared_reassemble limit (pump_frames sid evs) wr d cs) as (fs & Hfs & ->); try done.
  - by apply pump_stream_good.
  - by rewrite Hd.
  - by rewrite session_reader_view, Hfs, pump_view.
Qed.

(** The registered sids of a connection. *)
Definition sids_of (w : HubWorld) (i : Z) : option (gset Z) := dom <$> sessions_of w i.

Lemma hub_touch_sids cid sid w i : sids_of (hub_touch cid sid w) i = sids_of w i.
Proof.
  unfold sids_of, sessions_of, hub_touch; cbn. destruct (decide (i = cid)) as [->|Hne]; [|by rewrite lookup_alter_ne].
  rewrite lookup_alter_eq. destruct (ss_heap (hw_st w) !! cid) as [c|]; [|done]; cbn; f_equal.
  unfold cs_touch; cbn. destruct (cs_sessions c !! sid) eqn:E; [|done]; cbn.
  rewrite dom_insert_L. apply (elem_of_dom_2 (D := gset Z)) in E. set_solver.
Qed.

Lemma hub_touch_active cid sid w : ss_active_sessions (hw_st (hub_touch cid sid w)) = ss_active_sessions (hw_st w).
Proof. done. Qed.

(** The server's loop over the frames of an upload. *)
Lemma client_loop_upload cid sid chunks fs rest : forall w t, map carried fs = user_frames sid chunks ->
  exists w', wt_client_loop cid sid w t (map (fun r => WRead r true) (map (fun f => Ok (Some f)) fs ++ rest))
    = (w', {| ts_out := ts_out t ++ concat chunks; ts_shut := true |}, PHalfClosed) /\
    (forall i, sids_of w' i = sids_of w i) /\ ss_active_sessions (hw_st w') = ss_active_sessions (hw_st w).
Proof.
  revert fs; induction chunks as [|b chunks IH]; intros [|f fs] w t E; try done; unfold user_frames in E;
    cbn [map app] in E; unfold carried, out in E; injection E as Et Efl Es Eb E;
    cbn [map app wt_client_loop]; rewrite Et, ?Efl, ?Eb.
  - change (has_flag FLAG_FIN FLAG_FIN) with true. exists w; split; [|done]. by rewrite app_nil_r.
  - change (has_flag 0 FLAG_FIN) with false; cbn [negb].
    destruct (IH fs (hub_touch cid sid w) (ts_write t b) E) as (w' & -> & Hs & Ha).
    exists w'; split; [cbn [ts_out ts_write concat]; by rewrite <- app_assoc|]. split; [|done].
    intros i; by rewrite Hs, hub_touch_sids.
Qed.

Lemma user_frames_good limit sid chunks ns : MAX_PLAINTEXT <= limit -> 0 <= sid < 2 ^ 32 ->
  Forall (fun b => len b <= MAX_PLAINTEXT) chunks ->
  Forall (stream_good limit) (map (fun p => ((p.1, Ok tt), p.2)) (zip ns (user_frames sid chunks))).
Proof.
  intros Hl Hs Hc; apply Forall_forall; intros x Hx. apply list_elem_of_In, in_map_iff in Hx as ([n m] & <- & Hin).
  apply in_combine_r in Hin. unfold stream_good, out_wf; cbn. unfold user_frames in Hin.
  apply in_app_iff in Hin as [(b & <- & Hb)%in_map_iff|[<-|[]]]; cbn;
    (split; [split; [unfold FLAG_FIN; lia|done]|]); (split; [|done]).
  - rewrite Forall_forall in Hc. specialize (Hc b ltac:(by apply list_elem_of_In)); lia.
  - unfold MAX_PLAINTEXT, len in *; cbn; lia.
Qed.

(** C19: an upload over WebTransport arrives intact and is a half-close.
    Whatever the user sends before closing its side, under whatever shared
    counter and cut in whatever portions, the target's socket takes exactly
    those bytes, in order, and is then shut down for writing, while the session
    stays registered with its quota unit, so that the answer can still come. *)
Theorem wt_upload_exact cid sid w t wr ns chunks d cs limit :
  cg_wf (fe_counters (fw_enc wr)) -> fe_limit (fw_enc wr) = limit -> MAX_PLAINTEXT <= limit ->
  paired d (fe_cipher (fw_enc wr)) limit -> fd_buf d = [] -> 0 <= sid < 2 ^ 32 ->
  Forall (fun b => len b <= MAX_PLAINTEXT) chunks -> length ns = S (length chunks) -> Forall (fun b => b <> []) cs ->
  let sends := map (fun p => ((p.1, Ok tt), p.2)) (zip ns (wt_session_writer sid chunks)) in
  fw_out (fold_left send_frame sends wr) = fw_out wr ++ concat cs ->
  let reads := fr_read_n (S (S (length chunks))) (map Ok cs) d in
  exists w', wt_client_to_target cid sid w t (map (fun r => WRead r true) reads)
    = (w', {| ts_out := ts_out t ++ concat chunks; ts_shut := true |}, PHalfClosed) /\
    (forall i, sids_of w' i = sids_of w i) /\ ss_active_sessions (hw_st w') = ss_active_sessions (hw_st w).
Proof.
  intros Hg Hl Hb Hp Hd Hs Hc Hns Hne sends E reads.
  assert (Hlen : length (user_frames sid chunks) = length ns) by (unfold user_frames; rewrite length_app, length_map, Hns; cbn; lia).
  assert (Hsnd : map snd sends = user_frames sid chunks).
  { unfold sends; rewrite map_map; cbn. change (map _ (zip ns (wt_session_writer sid chunks))) with ((zip ns (user_frames sid chunks)).*2).
    apply snd_zip; lia. }
  destruct (shared_reassemble limit sends wr d cs) as (fs & Hfs & Hr); try done.
  - by apply user_frames_good.
  - by rewrite Hd.
  - assert (length sends = S (length chunks)) as El
      by (rewrite <- (length_map snd), Hsnd; unfold user_frames; rewrite length_app, length_map; cbn; lia).
    rewrite El in Hr. unfold reads; rewrite Hr, Hsnd in *.
    destruct (client_loop_upload cid sid chunks fs [Ok None] w t Hfs) as (w' & E' & Hsid & Ha).
    exists w'. unfold wt_client_to_target; by rewrite E'.
Qed.

End webtransport.

(** ** The fallback *)

Section fallback.
Context {P : Prims} {L : PrimsLaws P}.

(** Reading a channel: the frames its reader gets are, their counters apart,
    the queue's entries within the limit. *)
Lemma channel_frames q e d cs : cg_wf (fe_counters e) -> paired d (fe_cipher e) (fe_limit e) -> fd_buf d = [] ->
  Forall out_wf q -> Forall (fun b => b <> []) cs -> concat cs = concat (fst (writer_task e q)) ->
  exists fs, fr_read_n (S (length fs)) (map Ok cs) d = map (fun f => Ok (Some f)) fs ++ [Ok None] /\
    length fs = length (delivered (fe_counters e) (fe_limit e) q) /\
    map carried fs = List.filter (fun m => len (of_payload m) <=? fe_limit e) q.
Proof.
  intros Hg Hp Hd Hq Hne E. exists (delivered (fe_counters e) (fe_limit e) q).
  rewrite (reassemble q e d cs) by (try done; by rewrite Hd). by rewrite delivered_carried.
Qed.

(** A session's frames survive the limit when each of them does. *)
Lemma channel_session sid limit q ms : List.filter (of_session sid) q = ms ->
  Forall (fun m => len (of_payload m) <= limit) ms ->
  List.filter (of_session sid) (List.filter (fun m => len (of_payload m) <=? limit) q) = ms.
Proof.
  intros <- Hf. apply filter_fitting. eapply Forall_impl; [exact Hf|]; cbn; intros m Hm. by apply Z.leb_le.
Qed.

Lemma run_reader_chans m fs : mx_tcp (run_client_reader m (map (fun f => Ok (Some f)) fs ++ [Ok None]))
  = mx_tcp (fold_left handle_client_frame fs m).
Proof. revert m; induction fs as [|f fs IH]; intros m; [done|]. apply IH. Qed.

(** A download over the fallback arrives intact. However the frames of the
    session's pump interleave on the channel's queue with those of any other
    session, and however the response body is cut: when the client's reader has
    run to the end of the channel, the session's route was given exactly the
    bytes the server's pump read from the target, in order, and nothing of any
    other session. *)
Theorem mux_download_exact {Env} m c sid (evs : list (OutEvent Env)) q e d cs :
  cg_wf (fe_counters e) -> paired d (fe_cipher e) (fe_limit e) -> fd_buf d = [] -> READ_BUF <= fe_limit e ->
  0 <= sid < 2 ^ 32 -> Forall read_fits evs -> Forall out_wf q -> Forall (fun b => b <> []) cs ->
  List.filter (of_session sid) q = map snd (pump_frames sid evs) ->
  concat cs = concat (fst (writer_task e q)) -> owns m sid c [] ->
  exists n ch, mx_tcp (run_client_reader m (fr_read_n n (map Ok cs) d)) !! c = Some ch /\
    concat (frames_to_user (ch_sent ch) (fun _ => true)) = target_bytes evs.
Proof.
  intros Hg Hp Hd Hb Hs Hf Hq Hne Hsess E Ho.
  destruct (channel_frames q e d cs) as (fs & Hr & _ & Hfs); [done..|].
  exists (S (length fs)). eexists; split; [rewrite Hr, run_reader_chans; by apply demux|]. cbn [app ch_sent].
  assert (Hall : forall l : list bytes, frames_to_user l (fun _ => true) = l) by (induction l as [|b l IH]; cbn; congruence).
  rewrite Hall, tcp_view_carried, Hfs, (channel_session sid (fe_limit e) q _ Hsess); [by apply pump_view|].
  apply Forall_map. eapply Forall_impl; [by apply pump_frames_fit|]; cbn; intros x (_ & _ & ?); lia.
Qed.

(** The pump's input after an upload. *)
Lemma mux_pump_upload chunks : forall t,
  mux_client_to_target t (map (fun x => IRecv (Some x) true) (map (fun b => (b, false)) chunks ++ [([], true)]))
  = ({| ts_out := ts_out t ++ concat chunks; ts_shut := true |}, true).
Proof.
  induction chunks as [|b chunks IH]; intros t; cbn [map app mux_client_to_target negb concat].
  - unfold ts_shutdown, ts_write; cbn. done.
  - rewrite IH; cbn. by rewrite <- app_assoc.
Qed.

Lemma user_frames_feed sid chunks : concat (map feeds_out (user_frames sid chunks))
  = map (fun b => (b, false)) chunks ++ [([], true)].
Proof. unfold user_frames; induction chunks as [|b chunks IH]; [done|]; cbn in *. by rewrite IH. Qed.

(** The server's half of an upload: the frames that arrive for a session it
    serves, in whatever order the workers run. *)
Lemma trace_upload lh conn budget bind cid sid chunks arr hnd l l' t :
  let H := Hooks lh conn budget bind cid in
  serves cid sid (ml_world l) [] -> workers_ok l -> List.filter (of_session sid) (map carried arr) = user_frames sid chunks ->
  mux_trace l arr hnd l' -> exists route, serves cid sid (ml_world l') route /\
    mux_client_to_target t (map (fun x => IRecv (Some x) true) route) = ({| ts_out := ts_out t ++ concat chunks; ts_shut := true |}, true).
Proof.
  intros H Hsv Hws Hfit Ht. exists (route_view sid arr); split.
  - apply (mux_trace_serves lh conn budget bind cid sid l arr hnd l' []); [done..|].
    apply Forall_forall; intros f Hin Hs. assert (Hin' : In (carried f) (user_frames sid chunks)).
    { rewrite <- Hfit; apply filter_In; split; [apply in_map; by apply list_elem_of_In|]. unfold of_session; cbn; by apply Z.eqb_eq. }
    unfold user_frames in Hin'. unfold ends_session.
    apply in_app_iff in Hin' as [(b & Eb & _)%in_map_iff|[Eb|[]]]; unfold carried, out in Eb;
      injection Eb as Et Efl _ _; by rewrite <- Et, <- Efl.
  - rewrite route_view_carried, Hfit, user_frames_feed. apply mux_pump_upload.
Qed.

Lemma user_frames_fit limit sid chunks : MAX_PLAINTEXT <= limit -> Forall (fun b => len b <= MAX_PLAINTEXT) chunks ->
  Forall (fun m => len (of_payload m) <= limit) (user_frames sid chunks).
Proof.
  intros Hb Hc. unfold user_frames. apply Forall_app; split; [apply Forall_map; eapply Forall_impl; [exact Hc|]; cbn; lia|].
  repeat constructor; cbn. unfold MAX_PLAINTEXT, len in *; cbn; lia.
Qed.


End fallback.

(** ** Witnesses *)

Module TunnelWitness.
Import CryptoWitness HubWitness HubPropertyWitness.

Definition key : FrameCipher := cipher_new (replicate 32 7).
Definition enc : FrameEncoder := {| fe_cipher := key; fe_counters := cg_stream_server; fe_limit := 16384 |}.
Definition writer : FrameWriter := {| fw_out := []; fw_enc := enc |}.
Definition dec : FrameDecoder := fd_with_limit (Some key) None 16384.

(** The server's world with session 7 open. *)
Definition serving : HubWorld := Eval vm_compute in
  (hub_open_tcp (fun _ _ => None) (fun _ => Some 3) 4%nat 1 7 (str "8.8.8.8") 53 world).2.

Definition evs : list (OutEvent (nat * result msg unit)) :=
  [ORead (Ok (str "HTTP")) (0%nat, Ok tt); ORead (Ok (str "/1.1")) (3%nat, Ok tt); ORead (Ok []) (1%nat, Ok tt)].
Definition down_wire : bytes := Eval vm_compute in fw_out (pump_out 1 7 serving writer evs).1.2.

Lemma enc_paired : cg_wf (fe_counters enc) /\ paired dec (fe_cipher enc) (fe_limit enc).
Proof. vm_compute; intuition (discriminate || reflexivity). Qed.

Lemma evs_ok : Forall read_fits evs /\ Forall io_ok evs.
Proof. split; repeat constructor; vm_compute; discriminate. Qed.

Lemma wt_download_exact_witness :
  concat (wt_session_reader (fr_read_n 4 (map Ok [take 5 down_wire; drop 5 down_wire]) dec) (fun _ => true))
  = str "HTTP/1.1".
Proof.
  apply (wt_download_exact 1 7 serving writer evs dec [take 5 down_wire; drop 5 down_wire] 16384).
  - exact (proj1 enc_paired).
  - reflexivity.
  - unfold READ_BUF; lia.
  - exact (proj2 enc_paired).
  - reflexivity.
  - lia.
  - exact (proj1 evs_ok).
  - exact (proj2 evs_ok).
  - repeat constructor; vm_compute; discriminate.
  - vm_compute; reflexivity.
Defined.

Definition chunks : list bytes := [str "GET "; str "/"].
Definition up_wire : bytes := Eval vm_compute in
  fw_out (fold_left send_frame (map (fun p => ((p.1, Ok tt), p.2)) (zip [0; 4; 1]%nat (wt_session_writer 7 chunks))) writer).

Lemma wt_upload_exact_witness : exists w', wt_client_to_target 1 7 serving {| ts_out := []; ts_shut := false |}
    (map (fun r => WRead r true) (fr_read_n 4 (map Ok [take 30 up_wire; drop 30 up_wire]) dec))
  = (w', {| ts_out := str "GET /"; ts_shut := true |}, PHalfClosed) /\
  (forall i, sids_of w' i = sids_of serving i) /\ ss_active_sessions (hw_st w') = ss_active_sessions (hw_st serving).
Proof.
  apply (wt_upload_exact 1 7 serving {| ts_out := []; ts_shut := false |} writer [0; 4; 1]%nat chunks dec
           [take 30 up_wire; drop 30 up_wire] 16384).
  - exact (proj1 enc_paired).
  - reflexivity.
  - unfold MAX_PLAINTEXT; lia.
  - exact (proj2 enc_paired).
  - reflexivity.
  - lia.
  - repeat constructor; vm_compute; discriminate.
  - reflexivity.
  - repeat constructor; vm_compute; discriminate.
  - vm_compute; reflexivity.
Defined.

(** A channel that carries two sessions. *)
Definition down_queue : list OutFrame :=
  [out FData 0 7 (str "HTTP"); out FData 0 9 (str "other"); out FData 0 7 (str "/1.1");
   out FClose FLAG_RST 9 []; out FData FLAG_FIN 7 []].
Definition mux_evs : list (OutEvent unit) := [ORead (Ok (str "HTTP")) tt; ORead (Ok (str "/1.1")) tt; ORead (Ok []) tt].
Definition channel : bytes := Eval vm_compute in concat (fst (writer_task enc down_queue)).
Definition client_mux : MuxInner := {|
  mx_cmd := []; mx_cmd_open := true; mx_sessions := {[7 := 1%nat]}; mx_udp := ∅; mx_pending_open := ∅;
  mx_pending_udp := ∅; mx_next_sid := 8; mx_closed := false;
  mx_tcp := {[1%nat := {| ch_alive := true; ch_sent := [] |}]}; mx_dgram := ∅; mx_replies := ∅ |}.

Lemma down_queue_wf : Forall out_wf down_queue.
Proof. repeat (apply Forall_cons; split); try apply Forall_nil; try done; unfold out_wf; cbn; unfold FLAG_FIN, FLAG_RST; lia. Qed.

Lemma mux_download_exact_witness : exists n ch,
  mx_tcp (run_client_reader client_mux (fr_read_n n (map Ok [take 11 channel; drop 11 channel]) dec)) !! 1%nat = Some ch /\
  concat (frames_to_user (ch_sent ch) (fun _ => true)) = str "HTTP/1.1".
Proof.
  apply (mux_download_exact client_mux 1%nat 7 mux_evs down_queue enc dec [take 11 channel; drop 11 channel]).
  - exact (proj1 enc_paired).
  - exact (proj2 enc_paired).
  - reflexivity.
  - unfold READ_BUF; cbn; lia.
  - lia.
  - repeat constructor; vm_compute; discriminate.
  - exact down_queue_wf.
  - repeat constructor; vm_compute; discriminate.
  - reflexivity.
  - vm_compute; reflexivity.
  - split_and!; [reflexivity|reflexivity|]. intros s Hs; change (({[7 := 1%nat]} : gmap Z nat) !! s = Some 1%nat) in Hs; apply lookup_singleton_Some in Hs as [? _]; done.
Defined.

Definition up_queue : list OutFrame :=
  [out FData 0 7 (str "GET "); out FOpen 0 9 (encode_open (str "9.9.9.9") 80); out FData 0 7 (str "/");
   out FClose FLAG_FIN 7 []].
Definition up_channel : bytes := Eval vm_compute in concat (fst (writer_task enc up_queue)).

Lemma up_queue_wf : Forall out_wf up_queue.
Proof. repeat (apply Forall_cons; split); try apply Forall_nil; try done; unfold out_wf; cbn; unfold FLAG_FIN; lia. Qed.


End TunnelWitness.
