(* ===== verification/Shared.v ===== *)
(** * The objects a connection shares: [proto/frame.rs], [proto/crypto.rs]

    [FrameLimit] and [CounterGen] are handles: every encoder, decoder, reader
    and writer of a connection holds clones of one limit, and those of one
    direction clones of one counter, so publishing the negotiated limit or
    taking a counter through one of them is seen through all. Here the handles
    are numbers in a heap. The other files follow one object at a time, with the
    values its handles have ([en_view], [de_view]) and a number of counters that
    others took in between; the theorems below justify that. *)

From S2P Require Import Prelude Bytes Crypto Frame Addr Net Ip Limit State Config ServerAuth Handshake Egress Mux Hub Pumps Tunnel.

(** ** The heap *)

(** The values of the [AtomicUsize]s and of the [AtomicU64]s. *)
Record Heap := { h_limits : gmap nat Z; h_nexts : gmap nat Z; h_fresh : nat }.

(** [FrameLimit]; cloning copies the handle. *)
Definition FrameLimit : Type := nat.

Definition limit_new (max_plaintext : Z) (h : Heap) : FrameLimit * Heap :=
  (h_fresh h, {| h_limits := <[h_fresh h := max_plaintext]> (h_limits h); h_nexts := h_nexts h; h_fresh := S (h_fresh h) |}).
Definition limit_get (h : Heap) (l : FrameLimit) : Z := default 0 (h_limits h !! l).
Definition limit_set (l : FrameLimit) (max_plaintext : Z) (h : Heap) : Heap :=
  {| h_limits := <[l := max_plaintext]> (h_limits h); h_nexts := h_nexts h; h_fresh := h_fresh h |}.
Definition limit_default (h : Heap) : FrameLimit * Heap := limit_new MAX_PLAINTEXT h.

(** [CounterGen]: the base and the handle of the shared counter. *)
Record Counters := { ct_base : Z; ct_next : nat }.

(** [stream], [stream_server], [datagram] and [datagram_server]: [g] is the
    generator's base and first value. *)
Definition counters_new (g : CounterGen) (h : Heap) : Counters * Heap :=
  ({| ct_base := cg_base g; ct_next := h_fresh h |},
   {| h_limits := h_limits h; h_nexts := <[h_fresh h := cg_next g]> (h_nexts h); h_fresh := S (h_fresh h) |}).
Definition counters_get (h : Heap) (c : Counters) : CounterGen :=
  {| cg_base := ct_base c; cg_next := default 0 (h_nexts h !! ct_next c) |}.
Definition counters_put (c : Counters) (g : CounterGen) (h : Heap) : Heap :=
  {| h_limits := h_limits h; h_nexts := <[ct_next c := cg_next g]> (h_nexts h); h_fresh := h_fresh h |}.

(** ** Encoders and decoders *)

Record Encoder := { en_cipher : FrameCipher; en_counters : Counters; en_limit : FrameLimit }.

Definition encoder_with_limit (cipher : FrameCipher) (counters : Counters) (limit : FrameLimit) : Encoder :=
  {| en_cipher := cipher; en_counters := counters; en_limit := limit |}.
Definition encoder_new (cipher : FrameCipher) (counters : Counters) (h : Heap) : Encoder * Heap :=
  let '(limit, h) := limit_default h in (encoder_with_limit cipher counters limit, h).
Definition encoder_limit (e : Encoder) : FrameLimit := en_limit e.

(** What an encoder sees through its handles. *)
Definition en_view (h : Heap) (e : Encoder) : FrameEncoder :=
  {| fe_cipher := en_cipher e; fe_counters := counters_get h (en_counters e); fe_limit := limit_get h (en_limit e) |}.

Record Decoder := {
  de_cipher : option FrameCipher; de_window : option ReplayWindow; de_limit : FrameLimit; de_buf : bytes; de_raw : bool }.

Definition decoder_with_limit (cipher : option FrameCipher) (window : option ReplayWindow) (limit : FrameLimit) : Decoder :=
  {| de_cipher := cipher; de_window := window; de_limit := limit; de_buf := []; de_raw := false |}.
Definition decoder_new (cipher : option FrameCipher) (window : option ReplayWindow) (h : Heap) : Decoder * Heap :=
  let '(limit, h) := limit_default h in (decoder_with_limit cipher window limit, h).
Definition decoder_limit (d : Decoder) : FrameLimit := de_limit d.
Definition decoder_set_cipher (d : Decoder) (c : FrameCipher) : Decoder :=
  {| de_cipher := Some c; de_window := de_window d; de_limit := de_limit d; de_buf := de_buf d; de_raw := false |}.

Definition de_view (h : Heap) (d : Decoder) : FrameDecoder :=
  {| fd_cipher := de_cipher d; fd_window := de_window d; fd_limit := limit_get h (de_limit d);
     fd_buf := de_buf d; fd_raw := de_raw d |}.
(** A decoder after an operation, its limit still the handle. *)
Definition de_put (d : Decoder) (v : FrameDecoder) : Decoder :=
  {| de_cipher := fd_cipher v; de_window := fd_window v; de_limit := de_limit d; de_buf := fd_buf v; de_raw := fd_raw v |}.

(** ** Readers and writers *)

Record Reader := { rd_src : list (result msg bytes); rd_dec : Decoder }.

Definition reader_with_limit (r : list (result msg bytes)) (cipher : option FrameCipher) (window : option ReplayWindow)
  (limit : FrameLimit) : Reader := {| rd_src := r; rd_dec := decoder_with_limit cipher window limit |}.
Definition reader_new (r : list (result msg bytes)) (cipher : option FrameCipher) (window : option ReplayWindow) (h : Heap)
  : Reader * Heap :=
  let '(limit, h) := limit_default h in (reader_with_limit r cipher window limit, h).
Definition reader_limit (r : Reader) : FrameLimit := decoder_limit (rd_dec r).
(** [decoder_mut]: the decoder, replaced by what [f] makes of it. *)
Definition decoder_mut (f : Decoder -> Decoder) (r : Reader) : Reader := {| rd_src := rd_src r; rd_dec := f (rd_dec r) |}.
Definition reader_set_cipher (r : Reader) (c : FrameCipher) : Reader := decoder_mut (fun d => decoder_set_cipher d c) r.

Record Writer := { wt_out : bytes; wt_enc : Encoder; wt_shut : bool }.

Definition writer_with_limit (cipher : FrameCipher) (counters : Counters) (limit : FrameLimit) : Writer :=
  {| wt_out := []; wt_enc := encoder_with_limit cipher counters limit; wt_shut := false |}.
Definition writer_new (cipher : FrameCipher) (counters : Counters) (h : Heap) : Writer * Heap :=
  let '(limit, h) := limit_default h in (writer_with_limit cipher counters limit, h).
Definition writer_limit (w : Writer) : FrameLimit := encoder_limit (wt_enc w).
Definition writer_set_cipher (w : Writer) (c : FrameCipher) : Writer :=
  {| wt_out := wt_out w; wt_enc := encoder_with_limit c (en_counters (wt_enc w)) (encoder_limit (wt_enc w)); wt_shut := wt_shut w |}.
(** [shutdown], with the outcome of the stream's own. *)
Definition writer_shutdown (io : result msg unit) (w : Writer) : result msg unit * Writer :=
  (io, {| wt_out := wt_out w; wt_enc := wt_enc w; wt_shut := if is_ok io then true else wt_shut w |}).

Definition wt_view (h : Heap) (w : Writer) : FrameWriter := {| fw_out := wt_out w; fw_enc := en_view h (wt_enc w) |}.

Section shared.
Context {P : Prims}.

(** The operations: what they do to the values their handles have. *)
Definition reader_read (h : Heap) (r : Reader) : result msg (option Frame) * Reader :=
  let '(res, src, d) := fr_read (rd_src r) (de_view h (rd_dec r)) in
  (res, {| rd_src := src; rd_dec := de_put (rd_dec r) d |}).

Definition encoder_encode_into (h : Heap) (e : Encoder) (ftype : FrameType) (flags sid : Z) (payload out : bytes)
  : result msg bytes * Heap :=
  let '(r, e') := encode_into (en_view h e) ftype flags sid payload out in
  (r, counters_put (en_counters e) (fe_counters e') h).

Definition writer_write (io : result msg unit) (h : Heap) (w : Writer) (ftype : FrameType) (flags sid : Z) (payload : bytes)
  : result msg unit * Writer * Heap :=
  match encoder_encode_into h (wt_enc w) ftype flags sid payload [] with
  | (Err e, h) => (Err e, w, h)
  | (Ok buf, h) =>
    match io with
    | Ok _ => (Ok tt, {| wt_out := wt_out w ++ buf; wt_enc := wt_enc w; wt_shut := wt_shut w |}, h)
    | Err e => (Err e, w, h)
    end
  end.

(** ** The streams of one direction, writing in any order *)

Record Write := { wr_who : nat; wr_io : result msg unit; wr_frame : OutFrame }.

Definition write_one (s : Heap * list Writer) (x : Write) : Heap * list Writer :=
  match s.2 !! wr_who x with
  | Some w =>
    let m := wr_frame x in
    let '(_, w, h) := writer_write (wr_io x) s.1 w (of_ftype m) (of_flags m) (of_sid m) (of_payload m) in
    (h, <[wr_who x := w]> s.2)
  | None => s
  end.
Definition write_all (s : Heap * list Writer) (run : list Write) : Heap * list Writer := fold_left write_one run s.

(** A write within the limit takes a counter. *)
Definition takes (limit : Z) (x : Write) : bool := len (of_payload (wr_frame x)) <=? limit.

(** The writes of stream [i], each with the number of counters the others took
    since its last one; [k] were taken already. *)
Fixpoint own (limit : Z) (i k : nat) (run : list Write) : list ((nat * result msg unit) * OutFrame) :=
  match run with
  | [] => []
  | x :: t =>
    if Nat.eqb (wr_who x) i then ((k, wr_io x), wr_frame x) :: own limit i 0 t
    else own limit i (if takes limit x then S k else k) t
  end.

(** The counters that seal the frames of a run, in order. *)
Fixpoint taken (s : Heap * list Writer) (run : list Write) : list Z :=
  match run with
  | [] => []
  | x :: t =>
    match s.2 !! wr_who x with
    | Some w => if takes (limit_get s.1 (en_limit (wt_enc w))) x
                then [(cg_take (counters_get s.1 (en_counters (wt_enc w)))).1] else []
    | None => []
    end ++ taken (write_one s x) t
  end.

(** ** The views *)

Lemma limit_set_views l v h : limit_get (limit_set l v h) l = v /\ (forall l', l' <> l -> limit_get (limit_set l v h) l' = limit_get h l')
  /\ forall c, counters_get (limit_set l v h) c = counters_get h c.
Proof.
  unfold limit_get, limit_set, counters_get; cbn. split_and!; [by rewrite lookup_insert_eq| |done].
  intros l' Hl. by rewrite lookup_insert_ne.
Qed.

Lemma counters_put_views c g h : counters_get (counters_put c g h) c = {| cg_base := ct_base c; cg_next := cg_next g |}
  /\ forall l, limit_get (counters_put c g h) l = limit_get h l.
Proof. unfold counters_get, counters_put, limit_get; cbn. by rewrite lookup_insert_eq. Qed.

Lemma fw_skip_add j k w : fw_skip j (fw_skip k w) = fw_skip (k + j) w.
Proof.
  unfold fw_skip; cbn. do 3 f_equal. unfold wrap. rewrite Zplus_mod_idemp_l. f_equal. lia.
Qed.

Lemma encode_into_counters e t fl sid p out : let '(_, e') := encode_into e t fl sid p out in
  fe_cipher e' = fe_cipher e /\ fe_limit e' = fe_limit e
  /\ fe_counters e' = if len p <=? fe_limit e then (cg_take (fe_counters e)).2 else fe_counters e.
Proof. unfold encode_into. destruct (_ <=? _); cbn [negb]; [|done]. destruct (cg_take _); done. Qed.

(** A write on the heap is the write of the value seen. *)
Lemma writer_write_view io h w t fl sid p : let '(r, w', h') := writer_write io h w t fl sid p in
  (r, wt_view h' w') = fw_write io (wt_view h w) t fl sid p /\ wt_enc w' = wt_enc w
  /\ h_fresh h' = h_fresh h /\ (forall l, limit_get h' l = limit_get h l)
  /\ counters_get h' (en_counters (wt_enc w)) = (if len p <=? limit_get h (en_limit (wt_enc w))
        then (cg_take (counters_get h (en_counters (wt_enc w)))).2 else counters_get h (en_counters (wt_enc w)))
  /\ (forall c, ct_next c <> ct_next (en_counters (wt_enc w)) -> counters_get h' c = counters_get h c).
Proof.
  unfold writer_write, encoder_encode_into, fw_write, wt_view at 2; cbn [fw_enc fw_out].
  pose proof (encode_into_counters (en_view h (wt_enc w)) t fl sid p []) as H.
  destruct (encode_into _ _ _ _ _ _) as [r e'] eqn:E. destruct H as (Hc & Hl & Hg).
  destruct (counters_put_views (en_counters (wt_enc w)) (fe_counters e') h) as [H1 H2].
  assert (H3 : forall c, ct_next c <> ct_next (en_counters (wt_enc w)) -> counters_get (counters_put (en_counters (wt_enc w)) (fe_counters e') h) c = counters_get h c)
    by (intros c Hne; unfold counters_get, counters_put; cbn; by rewrite lookup_insert_ne).
  assert (Hb : {| cg_base := ct_base (en_counters (wt_enc w)); cg_next := cg_next (fe_counters e') |} = fe_counters e').
  { rewrite Hg. cbn [en_view fe_limit fe_counters]. by destruct (_ <=? _). }
  assert (Hv : en_view (counters_put (en_counters (wt_enc w)) (fe_counters e') h) (wt_enc w) = e').
  { unfold en_view. rewrite H1, H2, Hb. destruct e'; cbn in *. by rewrite <- Hc, <- Hl. }
  rewrite Hb in H1. apply (fun E => eq_trans E Hg) in H1. cbn [en_view fe_limit fe_counters] in H1.
  destruct r as [buf|m]; [destruct io as [[]|m]|]; unfold wt_view; cbn [wt_out wt_enc]; rewrite ?Hv; split_and!; try done.
Qed.

(** ** Streams that share *)

(** Writers of one direction of a connection. *)
Definition sharing (c : Counters) (l : FrameLimit) (ws : list Writer) : Prop :=
  Forall (fun w => en_counters (wt_enc w) = c /\ en_limit (wt_enc w) = l) ws.

Lemma write_one_spec c l h ws x : sharing c l ws -> let '(h', ws') := write_one (h, ws) x in
  sharing c l ws' /\ limit_get h' l = limit_get h l
  /\ (is_Some (ws !! wr_who x) ->
      counters_get h' c = if takes (limit_get h l) x then (cg_take (counters_get h c)).2 else counters_get h c)
  /\ (forall w, ws !! wr_who x = Some w -> exists w', ws' !! wr_who x = Some w' /\ en_cipher (wt_enc w') = en_cipher (wt_enc w)
       /\ wt_view h' w' = (fw_write (wr_io x) (wt_view h w) (of_ftype (wr_frame x)) (of_flags (wr_frame x)) (of_sid (wr_frame x)) (of_payload (wr_frame x))).2)
  /\ (forall i, i <> wr_who x -> ws' !! i = ws !! i).
Proof.
  intros Hs. unfold write_one; cbn [fst snd]. destruct (ws !! wr_who x) as [w|] eqn:E.
  2:{ split_and!; try done; by intros [? ?]. }
  pose proof (writer_write_view (wr_io x) h w (of_ftype (wr_frame x)) (of_flags (wr_frame x)) (of_sid (wr_frame x)) (of_payload (wr_frame x))) as H.
  destruct (writer_write _ _ _ _ _ _ _) as [[r w'] h']. destruct H as (Hv & He & _ & Hl & Hg & _).
  destruct (proj1 (Forall_lookup _ _) Hs _ _ E) as [Hc Hlim]. rewrite Hc, Hlim in Hg.
  pose proof (lookup_lt_Some _ _ _ E). split_and!; [| | | |].
  - apply Forall_insert; [done|]. by rewrite He.
  - apply Hl.
  - intros _. exact Hg.
  - intros ? [= <-]. exists w'. rewrite list_lookup_insert_eq by done. split_and!; [done|by rewrite He|by rewrite <- Hv].
  - intros i Hi. by rewrite list_lookup_insert_ne.
Qed.

(** A stream that does not write sees the counter move. *)
Lemma wt_view_skip c l h h' w g : en_counters (wt_enc w) = c -> en_limit (wt_enc w) = l -> limit_get h' l = limit_get h l ->
  counters_get h' c = g -> wt_view h' w = {| fw_out := wt_out w; fw_enc := {| fe_cipher := en_cipher (wt_enc w); fe_counters := g; fe_limit := limit_get h l |} |}.
Proof. intros <- <- Hl <-. unfold wt_view, en_view. by rewrite Hl. Qed.

Definition skipped (w : FrameWriter) : Prop := fw_skip 0 w = w.

Lemma fw_skip_skipped k w : skipped (fw_skip k w).
Proof. unfold skipped. rewrite fw_skip_add. by rewrite Nat.add_0_r. Qed.

Lemma fw_write_skipped io w t fl sid p : skipped w -> skipped (fw_write io w t fl sid p).2.
Proof.
  intros Hw. unfold fw_write. pose proof (encode_into_counters (fw_enc w) t fl sid p []) as H.
  destruct (encode_into _ _ _ _ _ _) as [r e']. destruct H as (Hc & Hl & Hg).
  assert (He : forall o, skipped {| fw_out := o; fw_enc := e' |}).
  { intros o. unfold skipped, fw_skip in *; cbn in *. f_equal. destruct e' as [k g lim]; cbn in *. f_equal.
    assert (Hn : cg_next (fe_counters (fw_enc w)) = wrap 64 (cg_next (fe_counters (fw_enc w)) + 0)) by (destruct w as [? [? [? n] ?]]; injection Hw as Hn; exact (eq_sym Hn)).
    subst g. destruct (_ <=? _).
    - cbn. f_equal. unfold wrap. by rewrite Z.add_0_r, Zmod_mod.
    - destruct (fe_counters (fw_enc w)); cbn in *. by f_equal. }
  destruct r; [destruct io|]; apply He.
Qed.

Lemma write_all_own c l i run : forall h ws k w s, sharing c l ws -> Forall (fun x => is_Some (ws !! wr_who x)) run ->
  ws !! i = Some w -> wt_view h w = fw_skip k s ->
  exists w' k', (write_all (h, ws) run).2 !! i = Some w'
    /\ wt_view (write_all (h, ws) run).1 w' = fw_skip k' (fold_left send_frame (own (limit_get h l) i k run) s).
Proof.
  induction run as [|x run IH]; intros h ws k w s Hs Hin Hw Hv; [by exists w, k|].
  apply Forall_cons in Hin as [Hx Hin]. pose proof (write_one_spec c l h ws x Hs) as H.
  change (write_all (h, ws) (x :: run)) with (write_all (write_one (h, ws) x) run).
  destruct (write_one (h, ws) x) as [h' ws']. destruct H as (Hs' & Hl & Hg & Hown & Hoth). specialize (Hg Hx).
  assert (Hin' : Forall (fun y => is_Some (ws' !! wr_who y)) run).
  { eapply Forall_impl; [exact Hin|]. intros y Hy. destruct (decide (wr_who y = wr_who x)) as [->|Hne]; [|by rewrite Hoth].
    destruct Hx as [w0 Hw0]. destruct (Hown _ Hw0) as (w1 & -> & _). by eexists. }
  cbn [own]. rewrite <- Hl. destruct (Nat.eqb_spec (wr_who x) i) as [<-|Hne].
  - destruct (Hown _ Hw) as (w' & Hw' & _ & Hv'). rewrite Hv in Hv'.
    destruct (IH h' ws' 0%nat w' (send_frame s ((k, wr_io x), wr_frame x)) Hs' Hin' Hw') as (w2 & k2 & H2 & V2).
    { rewrite Hv'. unfold send_frame, frame_send, stream_out; cbn [fst snd]. symmetry. apply fw_write_skipped, fw_skip_skipped. }
    exists w2, k2. by split.
  - destruct (proj1 (Forall_lookup _ _) Hs _ _ Hw) as [Hc Hlim].
    destruct (IH h' ws' (if takes (limit_get h' l) x then S k else k) w s Hs' Hin') as (w2 & k2 & H2 & V2); [by rewrite Hoth| |].
    { rewrite (wt_view_skip c l h h' w _ Hc Hlim Hl Hg), Hl. pose proof (wt_view_skip c l h h w _ Hc Hlim eq_refl eq_refl) as Hv0.
      rewrite Hv in Hv0. destruct (takes _ _); [|by rewrite <- Hv0].
      replace (S k) with (k + 1)%nat by lia. rewrite <- fw_skip_add, Hv0. unfold fw_skip; cbn. done. }
    exists w2, k2. by split.
Qed.

(** The counters of the run are the generator's own sequence. *)
Lemma taken_cg_run c l run : forall h ws, sharing c l ws -> Forall (fun x => is_Some (ws !! wr_who x)) run ->
  exists n, taken (h, ws) run = cg_run (counters_get h c) n /\ (n <= length run)%nat.
Proof.
  induction run as [|x run IH]; intros h ws Hs Hin; [by exists 0%nat|]. apply Forall_cons in Hin as [Hx Hin].
  pose proof (write_one_spec c l h ws x Hs) as H. cbn [taken fst snd]. destruct Hx as [w Hw]. rewrite Hw.
  destruct (proj1 (Forall_lookup _ _) Hs _ _ Hw) as [-> ->].
  destruct (write_one (h, ws) x) as [h' ws']. destruct H as (Hs' & Hl & Hg & Hown & Hoth). specialize (Hg ltac:(by eexists)).
  destruct (IH h' ws' Hs') as (n & En & Hn).
  { eapply Forall_impl; [exact Hin|]. intros y Hy. destruct (decide (wr_who y = wr_who x)) as [->|Hne]; [|by rewrite Hoth].
    destruct (Hown _ Hw) as (w1 & -> & _). by eexists. }
  rewrite En, Hg. destruct (takes _ _).
  - exists (S n). split; [|cbn; lia]. cbn [cg_run app]. by destruct (cg_take _).
  - exists n. split; [done|cbn; lia].
Qed.

Context {L : PrimsLaws P}.

(** A read of everything, on the objects of the other end. *)
Fixpoint reader_read_n (n : nat) (h : Heap) (r : Reader) : list (result msg (option Frame)) :=
  match n with
  | O => []
  | S n => let '(res, r) := reader_read h r in res :: reader_read_n n h r
  end.

Lemma reader_read_n_view n h : forall r, reader_read_n n h r = fr_read_n n (rd_src r) (de_view h (rd_dec r)).
Proof.
  induction n as [|n IH]; intros r; [done|]. cbn [reader_read_n fr_read_n]. unfold reader_read.
  pose proof (fr_read_setup (rd_src r) (de_view h (rd_dec r))) as Hl.
  destruct (fr_read _ _) as [[res src] d]; destruct Hl as (_ & Hl & _). rewrite IH; cbn [rd_src rd_dec]. do 2 f_equal.
  cbn in Hl. unfold de_view, de_put; cbn. rewrite <- Hl. by destruct d.
Qed.

Lemma own_frames limit i run : forall k, map snd (own limit i k run) = map wr_frame (List.filter (fun x => Nat.eqb (wr_who x) i) run).
Proof. induction run as [|x run IH]; intros k; [done|]. cbn. destruct (Nat.eqb _ _); cbn; by rewrite ?IH. Qed.

Lemma own_good limit i run : Forall (fun x => out_wf (wr_frame x) /\ len (of_payload (wr_frame x)) <= limit /\ wr_io x = Ok tt) run ->
  forall k, Forall (stream_good limit) (own limit i k run).
Proof.
  induction 1 as [|x run Hx _ IH]; intros k; [constructor|]. cbn [own]. destruct (Nat.eqb _ _); [|apply IH].
  constructor; [by destruct Hx as (? & ? & ?)|apply IH].
Qed.

(** C12: the streams of one direction of a connection do not disturb each other.
    In whatever order any number of tasks write frames through writers that
    share the connection's counter and negotiated limit, each stream's reader at
    the other end, built on a limit handle of its own that holds the same limit,
    receives exactly the frames written to that stream, in order, however its
    bytes are cut; and no two frames of the whole connection are sealed under
    one nonce while the counter has room. *)
Theorem shared_streams_exact c l h ws run h' l' : let limit := limit_get h l in
  sharing c l ws -> limit_get h' l' = limit -> limit <= MAX_PLAINTEXT_CAP -> is_u64 (cg_next (counters_get h c)) -> 0 <= ct_base c ->
  ct_base c + cg_next (counters_get h c) + len run < 2 ^ 64 ->
  Forall (fun x => is_Some (ws !! wr_who x) /\ out_wf (wr_frame x) /\ len (of_payload (wr_frame x)) <= limit /\ wr_io x = Ok tt) run ->
  (forall i w, ws !! i = Some w -> exists w', (write_all (h, ws) run).2 !! i = Some w' /\
    forall cs, Forall (fun b => b <> []) cs -> wt_out w' = wt_out w ++ concat cs ->
    let mine := List.filter (fun x => Nat.eqb (wr_who x) i) run in
    exists fs, map carried fs = map wr_frame mine /\
      reader_read_n (S (length mine)) h' (reader_with_limit (map Ok cs) (Some (en_cipher (wt_enc w))) None l')
      = map (fun f => Ok (Some f)) fs ++ [Ok None])
  /\ NoDup (map nonce_for (taken (h, ws) run)).
Proof.
  intros limit Hs Hl' Hcap Hu Hb Hroom Hrun.
  assert (Hin : Forall (fun x => is_Some (ws !! wr_who x)) run) by (eapply Forall_impl; [exact Hrun|by intros ? []]).
  assert (Hgood : Forall (fun x => out_wf (wr_frame x) /\ len (of_payload (wr_frame x)) <= limit /\ wr_io x = Ok tt) run)
    by (eapply Forall_impl; [exact Hrun|by intros ? []]).
  split.
  - intros i w Hw. destruct (proj1 (Forall_lookup _ _) Hs _ _ Hw) as [Hc Hl].
    assert (Hv : wt_view h w = fw_skip 0 (wt_view h w)).
    { unfold fw_skip, wt_view, en_view, counters_get; cbn. rewrite Hc. do 3 f_equal. unfold counters_get, is_u64 in Hu; cbn in Hu. rewrite wrap_small; lia. }
    destruct (write_all_own c l i run h ws 0%nat w (wt_view h w) Hs Hin Hw Hv) as (w' & k' & Hw' & Hv').
    exists w'. split; [done|]. intros cs Hne Eout mine.
    assert (Eo : fw_out (fold_left send_frame (own limit i 0 run) (wt_view h w)) = wt_out w').
    { apply (f_equal fw_out) in Hv'. exact (eq_sym Hv'). }
    assert (Hlen : length mine = length (own limit i 0 run)) by (unfold mine; rewrite <- (length_map snd), own_frames; by rewrite length_map).
    rewrite reader_read_n_view, Hlen. unfold mine. rewrite <- (own_frames limit i run 0).
    apply (shared_reassemble limit (own limit i 0 run) (wt_view h w)); cbn.
    + unfold cg_wf; cbn. rewrite Hc. unfold is_u64, counters_get in Hu; cbn in Hu. lia.
    + by rewrite Hl.
    + unfold de_view; cbn. rewrite Hl'. by split_and!.
    + by apply own_good.
    + done.
    + by rewrite Eo, Eout.
  - destruct (taken_cg_run c l run h ws Hs Hin) as (n & -> & Hn).
    unfold counters_get, is_u64 in *; cbn [cg_base cg_next] in *. unfold len in Hroom.
    rewrite cg_run_seqZ by (cbn [cg_base cg_next]; lia). cbn [cg_base cg_next]. apply NoDup_nonces; [apply NoDup_seqZ|].
    apply Forall_forall; intros x. rewrite elem_of_seqZ. unfold is_u64. lia.
Qed.

(** ** The objects of a connection *)

Record ConnObjects := {
  co_writer : Writer; co_reader : Reader; co_dgram : Encoder; co_counters : Counters; co_limit : FrameLimit; co_cipher : FrameCipher }.

(** [WtConn::connect] from its limit to its datagram encoder: one limit handle
    in the control writer and reader, set once the reply is there, and in
    everything made from [co_limit] later. [network] is what comes back for the
    AUTH frame. *)
Definition connect_objects (io : result msg unit) (cfg : PoolCfg) (salt nonce : bytes) (ts : Z) (pad : bytes)
  (network : bytes -> list (result msg bytes)) (h : Heap) : result msg ConnObjects * Heap :=
  let cipher := session_cipher (pc_static_key cfg) salt in
  let '(limit, h) := limit_new (pc_max_plaintext cfg) h in
  let '(counters, h) := counters_new cg_stream h in
  let writer := writer_with_limit (cipher_new (pc_static_key cfg)) counters limit in
  match writer_write io h writer FAuth 0 0 (ap_encode (auth_payload cfg salt nonce ts) ++ pad) with
  | (Err e, _, h) => (Err e, h)
  | (Ok _, writer, h) =>
    let writer := writer_set_cipher writer cipher in
    let reader := reader_with_limit (network (wt_out writer)) (Some cipher) None limit in
    match reader_read h reader with
    | (Err e, _) => (Err e, h)
    | (Ok (Some f), reader) =>
      if bool_decide (f_ftype f = FAuthOk) then
        match adopt_limit (pc_max_plaintext cfg) (f_payload f) with
        | Err e => (Err e, h)
        | Ok n =>
          let h := limit_set limit n h in
          let '(dgram_counters, h) := counters_new cg_datagram h in
          (Ok {| co_writer := writer; co_reader := reader; co_dgram := encoder_with_limit cipher dgram_counters limit;
                 co_counters := counters; co_limit := limit; co_cipher := cipher |}, h)
        end
      else (Err "server rejected authentication", h)
    | (Ok None, _) => (Err "server rejected authentication", h)
    end
  end.

(** [handle_wt_conn] from the verified AUTH frame to the datagram sink: the
    reader was made with a limit of its own, which is set too. *)
Definition accept_objects (io : result msg unit) (own_max : Z) (static_key : bytes) (ap : AuthPayload) (reader : Reader) (h : Heap)
  : result msg ConnObjects * Heap :=
  let cipher := cipher_new (derive_session_key static_key (ap_salt ap)) in
  let negotiated := negotiate (ap_max_plaintext ap) (wrap 32 own_max) in
  let '(limit, h) := limit_new negotiated h in
  let reader := reader_set_cipher reader cipher in
  let h := limit_set (reader_limit reader) negotiated h in
  let '(stream_counters, h) := counters_new cg_stream_server h in
  let '(dgram_counters, h) := counters_new cg_datagram_server h in
  let writer := writer_with_limit cipher stream_counters limit in
  match writer_write io h writer FAuthOk 0 0 (le_bytes 4 (wrap 32 negotiated)) with
  | (Err e, _, h) => (Err e, h)
  | (Ok _, writer, h) =>
    (Ok {| co_writer := writer; co_reader := reader; co_dgram := encoder_with_limit cipher dgram_counters limit;
           co_counters := stream_counters; co_limit := limit; co_cipher := cipher |}, h)
  end.

(** The stream halves made from a connection: [do_open_tcp], [handle_wt_stream];
    and its datagram decoder. *)
Definition stream_writer (co : ConnObjects) : Writer := writer_with_limit (co_cipher co) (co_counters co) (co_limit co).
Definition stream_reader (co : ConnObjects) (src : list (result msg bytes)) : Reader :=
  reader_with_limit src (Some (co_cipher co)) None (co_limit co).
Definition dgram_decoder (co : ConnObjects) : Decoder := decoder_with_limit (Some (co_cipher co)) (Some rw_new) (co_limit co).

(** Everything a connection has, or makes later, sees one limit; its control
    stream and its streams see one counter, its datagrams another. *)
Definition one_limit (h : Heap) (co : ConnObjects) (limit : Z) (w : FrameWriter) (d : FrameDecoder) (dgram : CounterGen) : Prop :=
  wt_view h (co_writer co)
    = {| fw_out := fw_out w; fw_enc := {| fe_cipher := co_cipher co; fe_counters := fe_counters (fw_enc w); fe_limit := limit |} |}
  /\ de_view h (rd_dec (co_reader co)) = d
  /\ en_view h (co_dgram co) = {| fe_cipher := co_cipher co; fe_counters := dgram; fe_limit := limit |}
  /\ wt_view h (stream_writer co)
    = {| fw_out := []; fw_enc := {| fe_cipher := co_cipher co; fe_counters := fe_counters (fw_enc w); fe_limit := limit |} |}
  /\ (forall src, de_view h (rd_dec (stream_reader co src)) = fd_with_limit (Some (co_cipher co)) None limit)
  /\ de_view h (dgram_decoder co) = fd_with_limit (Some (co_cipher co)) (Some rw_new) limit
  /\ sharing (co_counters co) (co_limit co) [co_writer co; stream_writer co].

Lemma one_limit_views h co limit w d dc dg : limit_get h (co_limit co) = limit ->
  counters_get h (co_counters co) = fe_counters (fw_enc w) -> counters_get h dc = dg ->
  co_dgram co = encoder_with_limit (co_cipher co) dc (co_limit co) ->
  wt_out (co_writer co) = fw_out w -> wt_enc (co_writer co) = encoder_with_limit (co_cipher co) (co_counters co) (co_limit co) ->
  de_view h (rd_dec (co_reader co)) = d -> one_limit h co limit w d dg.
Proof.
  intros Hl Hc Hd Ed Eo Ee Hr. unfold one_limit, wt_view, en_view, de_view, stream_writer, stream_reader, dgram_decoder, sharing.
  rewrite Ed, Ee, Eo; cbn. rewrite Hl, Hc, Hd. split_and!; try done. repeat constructor; cbn; by rewrite ?Ee.
Qed.

(** Publishing a limit, and a fresh counter, leave the other handles alone. *)
Lemma publish_views l n c g h : ct_next c <> h_fresh h -> let '(dc, h') := counters_new g (limit_set l n h) in
  limit_get h' l = n /\ (forall l', l' <> l -> limit_get h' l' = limit_get h l')
  /\ counters_get h' c = counters_get h c /\ counters_get h' dc = g.
Proof.
  intros Hne. unfold counters_new, limit_set, limit_get, counters_get; cbn. split_and!.
  - by rewrite lookup_insert_eq.
  - intros l' Hl. by rewrite lookup_insert_ne.
  - by rewrite lookup_insert_ne.
  - rewrite lookup_insert_eq. by destruct g.
Qed.

(** The client's connection is the one the other files follow by values:
    the writer after [send_auth], the decoder and the limit of [recv_reply],
    or the error of the one or the other. *)
Theorem connect_objects_refine io cfg salt nonce ts pad network h :
  match connect_objects io cfg salt nonce ts pad network h with
  | (Ok co, h') => exists w limit d, send_auth io cfg salt nonce ts pad = Ok w
      /\ recv_reply cfg salt (network (fw_out w)) = Ok (limit, d) /\ one_limit h' co limit w d cg_datagram
  | (Err e, _) => send_auth io cfg salt nonce ts pad = Err e
      \/ exists w, send_auth io cfg salt nonce ts pad = Ok w /\ recv_reply cfg salt (network (fw_out w)) = Err e
  end.
Proof.
  unfold connect_objects, send_auth, limit_new; cbn zeta. set (h0 := Build_Heap _ _ _). set (l := h_fresh h).
  destruct (counters_new cg_stream h0) as [c h1] eqn:Ec. set (k := cipher_new (pc_static_key cfg)).
  assert (Hc : c = {| ct_base := 1; ct_next := S l |} /\ counters_get h1 c = cg_stream /\ limit_get h1 l = pc_max_plaintext cfg /\ h_fresh h1 = S (S l)).
  { injection Ec as <- <-. unfold counters_get, limit_get; cbn. by rewrite !lookup_insert_eq. }
  destruct Hc as (Hc & Hg0 & Hl0 & Hf0).
  pose proof (writer_write_view io h1 (writer_with_limit k c l) FAuth 0 0 (ap_encode (auth_payload cfg salt nonce ts) ++ pad)) as H.
  assert (Hv0 : wt_view h1 (writer_with_limit k c l) = auth_writer cfg) by (unfold wt_view, en_view; cbn; by rewrite Hg0, Hl0).
  rewrite Hv0 in H. destruct (writer_write _ _ _ _ _ _ _) as [[r w] h2]. destruct H as (Hv & He & Hf & Hl & _). rewrite <- Hv.
  destruct r as [u|e]; [|by left].
  set (session := session_cipher (pc_static_key cfg) salt). unfold reader_read; cbn [rd_src rd_dec reader_with_limit wt_out writer_set_cipher].
  assert (Hd : de_view h2 (decoder_with_limit (Some session) None l) = fd_with_limit (Some session) None (pc_max_plaintext cfg))
    by (unfold de_view, fd_with_limit; cbn; by rewrite Hl, Hl0).
  rewrite Hd. unfold recv_reply. fold session. cbn [fw_out fw_set_cipher wt_view].
  pose proof (fr_read_setup (network (wt_out w)) (fd_with_limit (Some session) None (pc_max_plaintext cfg))) as Hset.
  destruct (fr_read (network (wt_out w)) _) as [[res src] d] eqn:Er. destruct Hset as (_ & Hset & _).
  destruct res as [[f|]|e]; cbn [rbind]; [|right; eexists; split; [done|]; cbn; by rewrite Er..].
  destruct (bool_decide _) eqn:Et; [|right; eexists; split; [done|]; cbn; rewrite Er; cbn; by rewrite Et].
  destruct (adopt_limit _ _) as [n|e] eqn:Ea; cbn [rbind]; [|right; eexists; split; [done|]; cbn; rewrite Er; cbn; by rewrite Et, Ea].
  assert (Hne : ct_next c <> h_fresh h2) by (rewrite Hf, Hf0, Hc; cbn; lia).
  pose proof (publish_views l n c cg_datagram h2 Hne) as Hp. destruct (counters_new cg_datagram (limit_set l n h2)) as [dc h3].
  destruct Hp as (Hpl & _ & Hpc & Hpd).
  eexists _, n, _. split; [done|]. split; [cbn; rewrite Er; cbn; rewrite Et, Ea; done|].
  apply (one_limit_views _ _ _ _ _ dc); try done; cbn [co_limit co_counters co_writer co_reader co_cipher rd_dec reader_with_limit writer_set_cipher wt_enc].
  - rewrite Hpc. unfold wt_view, en_view; cbn. by rewrite He.
  - by rewrite He.
  - unfold de_view, de_put, fd_set_limit; cbn. by rewrite Hpl.
Qed.

(** The server's is the one [accept_auth] follows. *)
Theorem accept_objects_refine now io st uid static_key ap reader h :
  (reader_limit reader < h_fresh h)%nat ->
  match accept_objects io (ss_max_plaintext st) static_key ap reader h,
        accept_auth now io st uid static_key ap (de_view h (rd_dec reader)) with
  | (Ok co, h'), (Some e, _) => one_limit h' co (es_negotiated e) (es_writer e) (es_decoder e) cg_datagram_server
      /\ fe_limit (fw_enc (es_writer e)) = es_negotiated e
  | (Err _, _), (None, _) => True
  | _, _ => False
  end.
Proof.
  intros Hr. unfold accept_objects, accept_auth, limit_new; cbn zeta. set (h0 := Build_Heap _ _ _). set (l := h_fresh h).
  set (n := negotiate _ _). set (k := cipher_new _).
  set (h1 := limit_set _ n h0). destruct (counters_new cg_stream_server h1) as [c h2] eqn:Ec.
  assert (Hc : c = {| ct_base := Z.shiftl 1 62; ct_next := S l |} /\ counters_get h2 c = cg_stream_server /\ limit_get h2 l = n
    /\ limit_get h2 (reader_limit reader) = n /\ h_fresh h2 = S (S l)).
  { injection Ec as <- <-. unfold counters_get, limit_get; cbn. rewrite !lookup_insert_eq. split_and!; try done.
    unfold reader_limit, decoder_limit in Hr. rewrite lookup_insert_ne by (unfold l; lia). by rewrite lookup_insert_eq. }
  destruct Hc as (Hc & Hg & Hl & Hlr & Hf).
  destruct (counters_new cg_datagram_server h2) as [dc h3] eqn:Ed.
  assert (Hd : counters_get h3 c = cg_stream_server /\ counters_get h3 dc = cg_datagram_server /\ (forall x, limit_get h3 x = limit_get h2 x)
    /\ ct_next dc <> ct_next c).
  { injection Ed as <- <-. unfold counters_get, limit_get in *; cbn. rewrite Hf, lookup_insert_ne by (rewrite Hc; cbn; lia).
    rewrite lookup_insert_eq, Hc in *. cbn in *. split_and!; try done. }
  destruct Hd as (Hg3 & Hd3 & Hl3 & Hne).
  pose proof (writer_write_view io h3 (writer_with_limit k c l) FAuthOk 0 0 (le_bytes 4 (wrap 32 n))) as H.
  assert (Hv0 : wt_view h3 (writer_with_limit k c l) = {| fw_out := []; fw_enc := {| fe_cipher := k; fe_counters := cg_stream_server; fe_limit := n |} |})
    by (unfold wt_view, en_view; cbn; by rewrite Hg3, Hl3, Hl).
  rewrite Hv0 in H. destruct (writer_write _ _ _ _ _ _ _) as [[r w] h4]. destruct H as (Hv & He & _ & Hl4 & Hg4 & Hg5).
  rewrite <- Hv. destruct r as [u|e]; [|done].
  destruct (new_conn now st uid k n) as [id st']. split.
  - apply (one_limit_views _ _ _ _ _ dc); try done; cbn [co_limit co_counters co_writer co_reader co_cipher es_decoder es_writer es_negotiated].
    + by rewrite Hl4, Hl3, Hl.
    + unfold wt_view, en_view; cbn. by rewrite He.
    + by rewrite Hg5.
    + unfold de_view, fd_set_limit, fd_set_cipher; cbn. rewrite Hl4, Hl3. fold (decoder_limit (rd_dec reader)). fold (reader_limit reader). by rewrite Hlr.
  - cbn. unfold wt_view, en_view; cbn. rewrite He; cbn. by rewrite Hl4, Hl3.
Qed.

End shared.

(** ** Witnesses *)

Module SharedWitness.
Import CryptoWitness.

Definition key : FrameCipher := cipher_new (replicate 32 7).
(** A heap with a limit and a server's stream counter, and another end's limit. *)
Definition start : Heap := {| h_limits := {[0%nat := 16384]}; h_nexts := {[1%nat := 5]}; h_fresh := 2 |}.
Definition there : Heap := {| h_limits := {[3%nat := 16384]}; h_nexts := ∅; h_fresh := 4 |}.
Definition ctr : Counters := {| ct_base := Z.shiftl 1 62; ct_next := 1 |}.
Definition two : list Writer := [writer_with_limit key ctr 0%nat; writer_with_limit key ctr 0%nat].
Definition says (i : nat) (t : FrameType) (p : bytes) : Write :=
  {| wr_who := i; wr_io := Ok tt; wr_frame := out t 0 (Z.of_nat i) p |}.
Definition run : list Write := [says 0 FOpenOk []; says 1 FData (str "a"); says 0 FData (str "b"); says 1 FClose []].
Definition first_out : bytes := Eval vm_compute in match (write_all (start, two) run).2 !! 0%nat with Some w => wt_out w | None => [] end.

Lemma shared_streams_exact_witness :
  (exists fs, map carried fs = [out FOpenOk 0 0 []; out FData 0 0 (str "b")] /\
    reader_read_n 3 there (reader_with_limit (map Ok [take 7 first_out; drop 7 first_out]) (Some key) None 3%nat)
    = map (fun f => Ok (Some f)) fs ++ [Ok None])
  /\ NoDup (map nonce_for (taken (start, two) run)).
Proof.
  destruct (shared_streams_exact ctr 0%nat start two run there 3%nat) as [H Hn].
  - repeat constructor.
  - reflexivity.
  - vm_compute; discriminate.
  - split; vm_compute; [discriminate|reflexivity].
  - vm_compute; discriminate.
  - vm_compute; reflexivity.
  - repeat constructor; try (eexists; reflexivity); vm_compute; intuition discriminate.
  - split; [|exact Hn].
    destruct (H 0%nat (writer_with_limit key ctr 0%nat) eq_refl) as (w' & Hw' & Hr).
    destruct (Hr [take 7 first_out; drop 7 first_out]) as (fs & Hfs & E).
    + repeat constructor; vm_compute; discriminate.
    + apply (f_equal (fun o => match o with Some w => wt_out w | None => [] end)) in Hw'. rewrite <- Hw'. vm_compute; reflexivity.
    + exists fs. split; [rewrite Hfs; reflexivity|exact E].
Defined.

End SharedWitness.
