(* ===== verification/Datagrams.v ===== *)
(** * UDP associations: [spawn_udp_recv] of [server/hub.rs], the UDP tasks of
    [client/wt.rs] and [proto/mux.rs]

    The loop that carries the answers of a relay's socket to the client, the
    client's loops that carry its datagrams to the server, any number of them
    interleaved on the sink they share, and what the other end makes of them
    over a network that loses, repeats and reorders QUIC datagrams. *)

From S2P Require Import Prelude Bytes Crypto Frame Addr Net Ip Limit State Egress Mux Hub Pumps ServerWt Outbound ClientWt Tunnel.

(** ** The relay's receive loop *)

(** [UdpAddr::V4(a)], [UdpAddr::V6(a)]. *)
Definition ua_of (a : SocketAddr) : UdpAddr :=
  match sa_ip a with IpV4 o => UV4 o (sa_port a) | IpV6 o => UV6 o (sa_port a) 0 0 end.

Definition reply_payload (src : SocketAddr) (data : bytes) : bytes := ua_encode (ua_of src) [] ++ data.

(** A turn of the [select!]: one of the two tokens was cancelled, a datagram
    came (with the connection's datagram size and the outcome of a datagram
    send), or the socket failed. *)
Inductive RecvEvent := RvCancelled | RvGot (src : SocketAddr) (data : bytes) (max : option Z) (dg_ok : bool) | RvFailed.

Section relay.
Context {P : Prims}.

Fixpoint udp_recv (cid sid : Z) (w : HubWorld) (sink : FrameSink) (s : SinkState) (evs : list RecvEvent)
  : HubWorld * FrameSink * SinkState * bool :=
  match evs with
  | [] => (w, sink, s, false)
  | RvGot src data max dg_ok :: t =>
    let w := hub_touch cid sid w in
    let '(_, sink, s) := try_send_lossy max dg_ok sink s FUdpData 0 sid (reply_payload src data) in
    udp_recv cid sid w sink s t
  | _ :: _ => (w, sink, s, true)
  end.

(** The receive loops of a connection, each with its session, share its sink. *)
Record Relays := { ry_world : HubWorld; ry_sink : FrameSink; ry_state : SinkState; ry_live : gmap nat Z }.

(** Their turns in any order; a loop that ended has no more. *)
Fixpoint relays (cid : Z) (y : Relays) (evs : list (nat * RecvEvent)) : Relays :=
  match evs with
  | [] => y
  | (t, ev) :: evs =>
    match ry_live y !! t with
    | None => relays cid y evs
    | Some sid =>
      let '(w, sink, s, ended) := udp_recv cid sid (ry_world y) (ry_sink y) (ry_state y) [ev] in
      relays cid {| ry_world := w; ry_sink := sink; ry_state := s;
                    ry_live := if ended then delete t (ry_live y) else ry_live y |} evs
    end
  end.

(** What the live loops received: session, source and content. *)
Fixpoint received (live : gmap nat Z) (evs : list (nat * RecvEvent)) : list (Z * UdpAddr * bytes) :=
  match evs with
  | [] => []
  | (t, ev) :: evs =>
    match live !! t, ev with
    | Some sid, RvGot src data _ _ => (sid, ua_of src, data) :: received live evs
    | Some _, _ => received (delete t live) evs
    | None, _ => received live evs
    end
  end.

(** ** The client's send loop over WebTransport *)

(** The user sent a datagram, or dropped its side of the pipe. *)
Inductive PipeEvent := PipeData (dst : UdpAddr) (data : bytes) (max : option Z) (dg_ok : bool) | PipeClosed.

(** [udp_associate]'s task: the datagrams it puts on the connection. *)
Fixpoint wt_udp_pump (enc : FrameEncoder) (c : WtConn) (sid : Z) (evs : list PipeEvent)
  : list bytes * FrameEncoder * WtConn * bool :=
  match evs with
  | [] => ([], enc, c, false)
  | PipeClosed :: _ => ([], enc, wt_udp_end c sid, true)
  | PipeData dst data max dg_ok :: t =>
    let '(go, wire, enc, c) := wt_udp_send max dg_ok enc c sid dst data in
    if go then let '(ws, enc, c, ended) := wt_udp_pump enc c sid t in (option_list wire ++ ws, enc, c, ended)
    else (option_list wire, enc, wt_udp_end c sid, true)
  end.

(** The loops of a connection's associations, in any order. *)
Record Uplinks := { up_sent : list bytes; up_enc : FrameEncoder; up_conn : WtConn; up_live : gset Z }.

Fixpoint uplinks (u : Uplinks) (evs : list (Z * PipeEvent)) : Uplinks :=
  match evs with
  | [] => u
  | (sid, ev) :: evs =>
    if decide (sid ∈ up_live u) then
      let '(ws, enc, c, ended) := wt_udp_pump (up_enc u) (up_conn u) sid [ev] in
      uplinks {| up_sent := up_sent u ++ ws; up_enc := enc; up_conn := c;
                 up_live := if ended then up_live u ∖ {[sid]} else up_live u |} evs
    else uplinks u evs
  end.

End relay.

(** What the users of the open pipes sent: session, destination and content. *)
Fixpoint offered (live : gset Z) (evs : list (Z * PipeEvent)) : list (Z * UdpAddr * bytes) :=
  match evs with
  | [] => []
  | (sid, ev) :: evs =>
    if decide (sid ∈ live) then
      match ev with
      | PipeData dst data _ _ => (sid, dst, data) :: offered live evs
      | PipeClosed => offered (live ∖ {[sid]}) evs
      end
    else offered live evs
  end.

(** ** The client's send loop over the fallback *)

(** [MuxClient::udp_associate]'s task; [None] is the user's side dropped. *)
Fixpoint mux_udp_pump (m : MuxInner) (sid : Z) (evs : list (option (UdpAddr * bytes))) : MuxInner * bool :=
  let ended m := mx_set_routes m (mx_sessions m) (delete sid (mx_udp m)) in
  match evs with
  | [] => (m, false)
  | None :: _ => (ended m, true)
  | Some (dst, data) :: t =>
    match cmd_send m (out FUdpData 0 sid (ua_encode dst [] ++ data)) with
    | (true, m) => mux_udp_pump m sid t
    | (false, m) => (ended m, true)
    end
  end.

(** ** What a frame says *)

(** The session, address and content of a UDP frame. *)
Definition dgram_of (m : OutFrame) : option (Z * UdpAddr * bytes) :=
  match of_ftype m with
  | FUdpData =>
    match ua_decode (rd_new (of_payload m)) with
    | Ok (a, r) => Some (of_sid m, a, fst (rest r))
    | Err _ => None
    end
  | _ => None
  end.

Definition is_udp (m : OutFrame) : bool := match of_ftype m with FUdpData => true | _ => false end.

(** The part of one session. *)
Definition of_assoc (sid : Z) (xs : list (Z * UdpAddr * bytes)) : list (UdpAddr * bytes) :=
  omap (fun '(s, a, b) => if s =? sid then Some (a, b) else None) xs.

(** The frame of a datagram, and what arrives of it. *)
Definition frame_for (x : Z * UdpAddr * bytes) : OutFrame :=
  let '(sid, a, data) := x in out FUdpData 0 sid (ua_encode a [] ++ data).
Definition seen_as (x : Z * UdpAddr * bytes) : Z * UdpAddr * bytes := let '(sid, a, data) := x in (sid, on_wire a, data).

Definition dgram_wf (x : Z * UdpAddr * bytes) : Prop :=
  let '(sid, a, _) := x in 0 <= sid < 2 ^ 32 /\ ua_wf a /\ domain_fits a.

#[global] Instance dgram_wf_dec x : Decision (dgram_wf x).
Proof. destruct x as [[sid []] data]; cbn -[Z.pow]; apply _. Defined.

Lemma dgram_of_frame x : dgram_wf x -> dgram_of (frame_for x) = Some (seen_as x).
Proof.
  destruct x as [[sid a] data]; intros (_ & Ha & Hf); unfold dgram_of; cbn.
  destruct (decode_encode a false (rd_new (ua_encode a [] ++ data)) data) as (r & Er & [_ Hr]); [done..|apply rd_new_has|].
  unfold ua_decode; rewrite Er; cbn; by rewrite Hr.
Qed.

Lemma dgrams_of_frames xs : Forall dgram_wf xs -> omap dgram_of (map frame_for xs) = map seen_as xs.
Proof. induction 1 as [|x xs Hx _ IH]; [done|]; cbn [map omap list_omap]. by rewrite dgram_of_frame, <- IH. Qed.

Lemma frame_for_wf x : dgram_wf x -> out_wf (frame_for x).
Proof. destruct x as [[sid a] data]; intros (? & _); split; cbn; lia. Qed.

(** ** Sub-multisets *)

Lemma omap_submseteq {A B} (f : A -> option B) l k : l ⊆+ k -> omap f l ⊆+ omap f k.
Proof.
  induction 1 as [|x l k _ IH|x y l|x l k _ IH|l k k' _ IH1 _ IH2]; cbn; [done|..].
  - destruct (f x); [by apply submseteq_skip|done].
  - destruct (f x), (f y); try done. apply submseteq_swap.
  - destruct (f x); [by apply submseteq_cons|done].
  - by etrans.
Qed.

Lemma omap_filter_none {A B} (f : A -> option B) (p : A -> bool) l : (forall x, p x = false -> f x = None) ->
  omap f (List.filter p l) = omap f l.
Proof.
  intros Hp; induction l as [|x l IH]; [done|]; cbn. destruct (p x) eqn:E; cbn; rewrite IH; [done|]. by rewrite (Hp x E).
Qed.

Lemma dgrams_udp ms : omap dgram_of (List.filter is_udp ms) = omap dgram_of ms.
Proof. apply omap_filter_none; intros m; unfold is_udp, dgram_of; by destruct (of_ftype m). Qed.

(** ** What becomes of a frame: dropped, on a datagram, or on the control stream *)

Inductive Fate := Lost | Wired (c : Z) (w : bytes) | Queued.

Definition wires (l : list (OutFrame * Fate)) : list bytes :=
  omap (fun x => match x.2 with Wired _ w => Some w | _ => None end) l.
Definition queued_of (l : list (OutFrame * Fate)) : list OutFrame :=
  omap (fun x => match x.2 with Queued => Some x.1 | _ => None end) l.
Definition wired_frames (l : list (OutFrame * Fate)) : list Frame :=
  omap (fun x => match x.2 with Wired c _ => Some (frame_of x.1 c) | _ => None end) l.
Definition kept (x : OutFrame * Fate) : Prop := x.2 <> Lost.

Section traffic.
Context {P : Prims} {L : PrimsLaws P}.
Context (k : FrameCipher) (limit : Z).

(** The frames a sender's encoder handled from counter state [g] on. *)
Fixpoint traffic (g : CounterGen) (l : list (OutFrame * Fate)) : Prop :=
  match l with
  | [] => True
  | (m, f) :: l =>
    out_wf m /\
    match f with
    | Lost => traffic g l \/ traffic (snd (cg_take g)) l
    | Queued => len (of_payload m) <= limit /\ traffic (snd (cg_take g)) l
    | Wired c w => c = fst (cg_take g) /\ wire_for k m c w /\ len (of_payload m) <= limit /\ traffic (snd (cg_take g)) l
    end
  end.

(** One send of a lossy frame. *)
Lemma encode_fate e m : limit <= MAX_PLAINTEXT_CAP -> fe_cipher e = k -> fe_limit e = limit -> cg_wf (fe_counters e) ->
  (len (of_payload m) <= limit /\ exists w, encode e (of_ftype m) (of_flags m) (of_sid m) (of_payload m)
     = (Ok w, {| fe_cipher := k; fe_counters := snd (cg_take (fe_counters e)); fe_limit := limit |})
     /\ wire_for k m (fst (cg_take (fe_counters e))) w)
  \/ (limit < len (of_payload m) /\ exists x, encode e (of_ftype m) (of_flags m) (of_sid m) (of_payload m) = (Err x, e)).
Proof.
  intros Hcap <- <- Hg. destruct (Z.le_gt_cases (len (of_payload m)) (fe_limit e)) as [Hl|Hl].
  - left; split; [done|]. by apply encode_wire.
  - right; split; [done|]. rewrite encode_too_large by done. eauto.
Qed.

Definition wired_ok (x : OutFrame * Fate) : Prop :=
  match x.2 with
  | Wired c w => out_wf x.1 /\ is_u64 c /\ wire_for k x.1 c w /\ len (of_payload x.1) <= limit
  | _ => True
  end.

Lemma traffic_wired l : forall g, cg_wf g -> traffic g l -> Forall wired_ok l.
Proof.
  induction l as [|[m f] l IH]; intros g Hg Ht; cbn [traffic] in Ht; [constructor|].
  destruct Ht as [Hm Hf]; destruct (cg_take_wf g Hg) as [Hg' Hu].
  destruct f as [|c w|]; constructor; try done.
  - destruct Hf as [Hf|Hf]; [apply (IH g)|apply (IH (snd (cg_take g)))]; done.
  - by destruct Hf as (-> & ? & ? & _).
  - destruct Hf as (_ & _ & _ & Hf); by apply (IH (snd (cg_take g))).
  - destruct Hf as (_ & Hf); by apply (IH (snd (cg_take g))).
Qed.

(** ** The receiving decoder *)

(** A datagram reader between two datagrams. *)
Definition reader (rw : ReplayWindow) : FrameDecoder :=
  {| fd_buf := []; fd_cipher := Some k; fd_window := Some rw; fd_raw := false; fd_limit := limit |}.

Lemma on_wired m c w rw : limit <= MAX_PLAINTEXT_CAP -> out_wf m -> is_u64 c -> len (of_payload m) <= limit ->
  wire_for k m c w ->
  on_datagram (reader rw) w = Some (if fst (rw_check rw c) then [frame_of m c] else [], reader (snd (rw_check rw c))).
Proof.
  intros Hcap Hm Hc Hl Hw; unfold on_datagram. cbn [drain].
  rewrite (next_frame_reach _ k limit m c w []) by (try done; by rewrite app_nil_r).
  cbn [fd_window fd_feed fd_set_buf reader]. destruct (rw_check rw c) as [[] rw']; cbn [fst snd]; [|done].
  assert (length w <> 0)%nat as Hlw.
  { apply len_wire in Hw. pose proof (len_nonneg (of_payload m)). unfold HEADER_LEN, TAG_LEN, len in *. lia. }
  cbn [fd_buf fd_feed fd_set_buf reader app]. destruct (length w) as [|n]; [done|]. cbn [drain].
  rewrite next_frame_short by done. done.
Qed.

(** Whatever the network makes of the wires (losses, repeats, any order), the
    frames dispatched are among those sent, each at most once. *)
Lemma wired_at_most_once l ds : limit <= MAX_PLAINTEXT_CAP -> Forall wired_ok l -> Forall (fun d => d ∈ wires l) ds ->
  forall rw seen, rw_rel rw seen -> exists fs, on_datagrams (reader rw) ds = Some fs
    /\ NoDup (map f_counter fs) /\ Forall (fun f => f_counter f ∉ seen) fs /\ Forall (fun f => f ∈ wired_frames l) fs.
Proof.
  intros Hcap Hl. induction ds as [|d ds IH]; intros Hd rw seen Hr; cbn [on_datagrams].
  - exists []; split_and!; [done|constructor..].
  - apply Forall_cons in Hd as [Hd Hds]. apply list_elem_of_omap in Hd as ([m []] & Hin & E); cbn in E; simplify_eq.
    assert (Hok : wired_ok (m, Wired c d)) by (rewrite Forall_forall in Hl; by apply Hl).
    destruct Hok as (Hm & Hc & Hw & Hlen); cbn in Hm, Hc, Hw, Hlen. rewrite (on_wired m c d rw) by done.
    destruct (rw_check_refines rw seen c Hr) as [Hv Hr']; [unfold is_u64 in Hc; lia|]. unfold accept_spec in *.
    destruct (IH Hds _ _ Hr') as (fs & -> & Hnd & Hfr & Hall).
    destruct (rw_check rw c) as [ok rw']; cbn [fst snd] in *.
    destruct (fresh seen c) eqn:Ef; cbn [fst snd] in *; subst ok; [|by exists fs].
    exists (frame_of m c :: fs); split; [done|]. split_and!.
    + cbn [map]; constructor; [|done]. change (f_counter (frame_of m c)) with c.
      intros Hc'; apply list_elem_of_In, in_map_iff in Hc' as (f & Hf & Hin'%list_elem_of_In).
      rewrite Forall_forall in Hfr. apply (Hfr f Hin'). rewrite Hf; by left.
    + constructor; [unfold fresh in Ef; by bsimpl|]. eapply Forall_impl; [exact Hfr|]. intros f Hf Hin'; apply Hf; by right.
    + constructor; [|done]. apply list_elem_of_omap. by exists (m, Wired c d).
Qed.

(** Each wire arriving once, in order, is dispatched. *)
Lemma wired_in_order l : forall g rw seen, limit <= MAX_PLAINTEXT_CAP -> 0 < cg_base g -> 0 <= cg_next g ->
  cg_base g + cg_next g + len l <= 2 ^ 64 -> cg_next g + len l <= 2 ^ 63 ->
  traffic g l -> rw_rel rw seen -> newest seen < cg_base g + cg_next g ->
  on_datagrams (reader rw) (wires l) = Some (wired_frames l).
Proof.
  induction l as [|[m f] l IH]; intros g rw seen Hcap Hb Hn Hmax Hmax' Ht Hr Hs; [done|].
  rewrite len_cons in Hmax, Hmax'; pose proof (len_nonneg l) as Hl0. destruct Ht as [Hm Ht].
  assert (Hw : wrap 64 (cg_base g + cg_next g) = cg_base g + cg_next g) by (apply wrap_small; lia).
  assert (Hw' : wrap 64 (cg_next g + 1) = cg_next g + 1) by (apply wrap_small; lia).
  unfold cg_take in Ht; rewrite Hw, Hw' in Ht; cbn [fst snd] in Ht.
  assert (Hskip : traffic {| cg_base := cg_base g; cg_next := cg_next g + 1 |} l ->
    on_datagrams (reader rw) (wires l) = Some (wired_frames l)).
  { intros Ht'. apply (IH {| cg_base := cg_base g; cg_next := cg_next g + 1 |} rw seen); cbn; try done; lia. }
  destruct f as [|c w|]; cbn [wires wired_frames omap list_omap snd]; [|destruct Ht as (-> & Hwf & Hlen & Ht)|].
  - destruct Ht as [Ht|Ht]; [|by apply Hskip]. apply (IH g rw seen); try done; lia.
  - set (c := cg_base g + cg_next g) in *. fold (wires l) (wired_frames l).
    assert (Hc : is_u64 c) by (unfold is_u64, c; lia).
    cbn [on_datagrams]. rewrite (on_wired m c w rw) by done.
    destruct (rw_check_refines rw seen c Hr) as [Hv Hr']; [unfold is_u64 in Hc; lia|]. unfold accept_spec in *.
    assert (Hnew : 0 <= newest seen) by (clear; unfold newest; induction seen; cbn; lia).
    rewrite (fresh_ahead seen c) in Hv, Hr' by lia. cbn [fst snd] in Hv, Hr'. rewrite Hv.
    rewrite (IH {| cg_base := cg_base g; cg_next := cg_next g + 1 |} (snd (rw_check rw c)) (c :: seen)); cbn; try done; try lia.
    fold (newest seen); unfold c; lia.
  - destruct Ht as [_ Ht]. by apply Hskip.
Qed.

End traffic.

(** ** The senders *)

Section senders.
Context {P : Prims} {L : PrimsLaws P}.
Context (k : FrameCipher) (limit : Z) (Hcap : limit <= MAX_PLAINTEXT_CAP).

Definition enc_ok (e : FrameEncoder) : Prop := fe_cipher e = k /\ fe_limit e = limit /\ cg_wf (fe_counters e).

(** The datagram fits a frame of the connection. *)
Definition fits (x : Z * UdpAddr * bytes) : Prop := len (of_payload (frame_for x)) <= limit.
#[global] Instance fits_dec x : Decision (fits x) := Z_le_dec _ _.

Lemma lossy_fate max dg_ok enc s x : enc_ok enc -> dgram_wf x ->
  exists f b enc' s', try_send_lossy max dg_ok (SDatagram enc) s FUdpData 0 (of_sid (frame_for x)) (of_payload (frame_for x))
      = (b, SDatagram enc', s') /\ enc_ok enc'
    /\ (forall l, traffic k limit (fe_counters enc') l -> traffic k limit (fe_counters enc) ((frame_for x, f) :: l))
    /\ sq_sent s' = sq_sent s ++ wires [(frame_for x, f)] /\ sq_queue s' = sq_queue s ++ queued_of [(frame_for x, f)]
    /\ sq_open s' = sq_open s /\ sq_cap s' = sq_cap s
    /\ (sq_open s = true -> len (sq_queue s) < sq_cap s -> fits x -> f <> Lost).
Proof.
  intros (Hk & Hl & Hg) Hx. pose proof (frame_for_wf x Hx) as Hm. unfold try_send_lossy.
  assert (Hsk : forall l, traffic k limit (fe_counters enc) l -> traffic k limit (fe_counters enc) ((frame_for x, Lost) :: l))
    by (intros l Ht; split; [done|by left]).
  assert (Et : of_ftype (frame_for x) = FUdpData /\ of_flags (frame_for x) = 0) by (by destruct x as [[? ?] ?]).
  assert (Ef : out FUdpData 0 (of_sid (frame_for x)) (of_payload (frame_for x)) = frame_for x) by (by destruct x as [[? ?] ?]).
  rewrite Ef. destruct Et as [Et Efl].
  destruct (Z.ltb_spec MAX_PLAINTEXT_CAP (len (of_payload (frame_for x)))) as [Hbig|_].
  { exists Lost, false, enc, s; cbn; rewrite !app_nil_r. split_and!; try done. intros _ _ Hf; unfold fits in Hf; lia. }
  destruct (encode_fate k limit enc (frame_for x)) as [(Hfit & w & E & Hw)|(Hbig & e & E)]; try done;
    rewrite Et, Efl in E; rewrite E.
  2:{ exists Lost, false, enc, s; cbn; rewrite !app_nil_r. split_and!; try done. intros _ _ Hf; unfold fits in Hf; lia. }
  set (enc' := {| fe_cipher := k |}). assert (Henc : enc_ok enc') by (split_and!; [done..|by apply cg_take_wf]).
  destruct (_ && _).
  { exists (Wired (fst (cg_take (fe_counters enc))) w), true, enc', (sq_datagram s w).
    cbn; rewrite app_nil_r. split_and!; try done. }
  unfold chan_try_send. destruct (sq_open s && (len (sq_queue s) <? sq_cap s)) eqn:Eo.
  - exists Queued, true, enc', (sq_push s (frame_for x)). cbn; rewrite app_nil_r. split_and!; done.
  - exists Lost, false, enc', s. cbn; rewrite !app_nil_r. split_and!; try done; [intros l Ht; split; [done|by right]|].
    intros Ho Hr _. rewrite Ho in Eo. cbn in Eo. apply Z.ltb_nlt in Eo. done.
Qed.

(** The relays of a connection. *)
Lemma relays_traffic cid evs : forall y enc, ry_sink y = SDatagram enc -> enc_ok enc ->
  Forall dgram_wf (received (ry_live y) evs) ->
  exists l, map fst l = map frame_for (received (ry_live y) evs) /\ traffic k limit (fe_counters enc) l
    /\ sq_sent (ry_state (relays cid y evs)) = sq_sent (ry_state y) ++ wires l
    /\ sq_queue (ry_state (relays cid y evs)) = sq_queue (ry_state y) ++ queued_of l
    /\ (sq_open (ry_state y) = true -> len (sq_queue (ry_state y)) + len (received (ry_live y) evs) <= sq_cap (ry_state y) ->
        Forall fits (received (ry_live y) evs) -> Forall kept l).
Proof.
  assert (Hnil : forall y enc, ry_sink y = SDatagram enc -> exists l, map fst l = map frame_for [] /\ traffic k limit (fe_counters enc) l
    /\ sq_sent (ry_state y) = sq_sent (ry_state y) ++ wires l /\ sq_queue (ry_state y) = sq_queue (ry_state y) ++ queued_of l
    /\ Forall kept l) by (intros; exists []; cbn; rewrite !app_nil_r; done).
  induction evs as [|[t ev] evs IH]; intros y enc Hs He Hwf; cbn [relays received] in *.
  { destruct (Hnil y enc Hs) as (l & ? & ? & ? & ? & ?). exists l; split_and!; done. }
  destruct (ry_live y !! t) as [sid|]; [|by apply IH].
  pose proof (IH {| ry_world := ry_world y; ry_sink := ry_sink y; ry_state := ry_state y; ry_live := delete t (ry_live y) |}
    enc Hs He) as Hend.
  destruct ev as [|src data max dg_ok|]; cbn [udp_recv]; [by apply Hend| |by apply Hend].
  apply Forall_cons in Hwf as [Hx Hwf]. set (x := (sid, ua_of src, data)) in *.
  destruct (lossy_fate max dg_ok enc (ry_state y) x He Hx) as (f & b & enc' & s' & E & He' & Ht & Hse & Hqu & Ho & Hc & Hkept).
  change (of_sid (frame_for x)) with sid in E. change (of_payload (frame_for x)) with (reply_payload src data) in E.
  rewrite Hs, E.
  set (y' := {| ry_world := _ |}). destruct (IH y' enc' eq_refl He' Hwf) as (l & Hl & Htr & Hse' & Hqu' & Hk).
  exists ((frame_for x, f) :: l). split_and!.
  - cbn; by rewrite Hl.
  - by apply Ht.
  - rewrite Hse'; cbn [ry_state y']; rewrite Hse, <- app_assoc. unfold wires; cbn; by destruct f.
  - rewrite Hqu'; cbn [ry_state y']; rewrite Hqu, <- app_assoc. unfold queued_of; cbn; by destruct f.
  - intros Hop Hroom Hfit. rewrite len_cons in Hroom. inv Hfit. pose proof (len_nonneg (received (ry_live y) evs)).
    constructor; [unfold kept; cbn; apply Hkept; [done|lia|done]|]. apply Hk; cbn [ry_state ry_live y']; [congruence| |done].
    rewrite Hqu, Hc, len_app. enough (len (queued_of [(frame_for x, f)]) <= 1) by lia. destruct f; cbn; unfold len; cbn; lia.
Qed.

(** One send of the client's loop. *)
Lemma pump_fate max dg_ok enc c x : enc_ok enc -> dgram_wf x ->
  exists f go wire enc' c', wt_udp_send max dg_ok enc c x.1.1 x.1.2 x.2 = (go, wire, enc', c') /\ enc_ok enc'
    /\ (forall l, traffic k limit (fe_counters enc') l -> traffic k limit (fe_counters enc) ((frame_for x, f) :: l))
    /\ option_list wire = wires [(frame_for x, f)] /\ wc_ctrl c' = wc_ctrl c ++ queued_of [(frame_for x, f)]
    /\ wc_ctrl_open c' = wc_ctrl_open c /\ (wc_ctrl_open c = true -> go = true /\ (fits x -> f <> Lost)).
Proof.
  intros (Hk & Hl & Hg) Hx. pose proof (frame_for_wf x Hx) as Hm. unfold wt_udp_send.
  destruct x as [[sid dst] data]; cbn [fst snd]. set (x := (sid, dst, data)) in *.
  destruct (encode_fate k limit enc (frame_for x)) as [(Hfit & w & E & Hw)|(Hbig & e & E)]; try done;
    cbn in E; rewrite E.
  2:{ exists Lost, true, None, enc, c; cbn; rewrite app_nil_r. split_and!; try done; [intros l Ht; split; [done|by left]|].
      intros _; split; [done|]. intros Hf; unfold fits in Hf; lia. }
  set (enc' := {| fe_cipher := k |}). assert (Henc : enc_ok enc') by (split_and!; [done..|by apply cg_take_wf]).
  destruct (_ && _).
  { exists (Wired (fst (cg_take (fe_counters enc))) w), true, (Some w), enc', c. cbn; rewrite app_nil_r. by split_and!. }
  unfold ctrl_send. destruct (wc_ctrl_open c) eqn:Eo.
  - eexists Queued, true, None, enc', _. split_and!; try done.
  - exists Lost, false, None, enc', c. cbn; rewrite app_nil_r. split_and!; try done. intros l Ht; split; [done|by right].
Qed.

(** What a run of the loops makes of what the users offer. *)
Definition uplink_run (u : Uplinks) (offers : list (Z * UdpAddr * bytes)) (u' : Uplinks) (good : Prop) : Prop :=
  exists l, map fst l = map frame_for offers /\ traffic k limit (fe_counters (up_enc u)) l
    /\ up_sent u' = up_sent u ++ wires l /\ wc_ctrl (up_conn u') = wc_ctrl (up_conn u) ++ queued_of l
    /\ (wc_ctrl_open (up_conn u) = true -> good -> Forall fits offers -> Forall kept l).

(** A pipe whose loop is gone: what its user still sends is lost. *)
Lemma uplink_gone u x offers u' (good good' : Prop) : dgram_wf x -> ~ good' -> uplink_run u offers u' good ->
  uplink_run u (x :: offers) u' good'.
Proof.
  intros Hx Hn (l & Hl & Ht & Hs & Hq & _). exists ((frame_for x, Lost) :: l). split_and!; try done; [cbn; by rewrite Hl|].
  split; [by apply frame_for_wf|by left].
Qed.

Lemma uplinks_traffic evs : forall u live, enc_ok (up_enc u) -> Forall dgram_wf (offered live evs) -> up_live u ⊆ live ->
  uplink_run u (offered live evs) (uplinks u evs) (live = up_live u).
Proof.
  induction evs as [|[sid ev] evs IH]; intros u live He Hwf Hsub; cbn [uplinks offered] in *.
  { exists []; cbn; rewrite !app_nil_r; done. }
  destruct (decide (sid ∈ up_live u)) as [Hup|Hup].
  2:{ destruct (decide (sid ∈ live)) as [Hin|]; [|by apply IH]. destruct ev as [dst data max dg_ok|].
      - apply Forall_cons in Hwf as [Hx Hwf]. eapply uplink_gone; [done|set_solver|by apply IH].
      - destruct (IH u (live ∖ {[sid]}) He Hwf) as (l & ? & ? & ? & ? & _); [set_solver|].
        exists l; split_and!; try done; set_solver. }
  rewrite decide_True in * by set_solver. destruct ev as [dst data max dg_ok|]; cbn [wt_udp_pump].
  - apply Forall_cons in Hwf as [Hx Hwf]. set (x := (sid, dst, data)) in *.
    destruct (pump_fate max dg_ok (up_enc u) (up_conn u) x He Hx)
      as (f & go & wire & enc' & c' & E & He' & Ht & Hw & Hq & Ho & Hgo); cbn [fst snd x] in E; rewrite E.
    assert (Hcons : forall c'' lv, wc_ctrl c'' = wc_ctrl c' -> wc_ctrl_open c'' = wc_ctrl_open c' -> lv ⊆ live ->
      (go = true -> lv = up_live u) ->
      uplink_run u (x :: offered live evs)
        (uplinks {| up_sent := up_sent u ++ option_list wire; up_enc := enc'; up_conn := c''; up_live := lv |} evs)
        (live = up_live u)).
    { intros c'' lv Hc Hop Hlv Hgl. destruct (IH {| up_sent := up_sent u ++ option_list wire; up_enc := enc'; up_conn := c'';
        up_live := lv |} live He' Hwf Hlv) as (l & Hl & Ht' & Hs' & Hq' & Hk); cbn in *.
      exists ((frame_for x, f) :: l). split_and!; [cbn; by rewrite Hl|by apply Ht|..].
      - rewrite Hs', Hw, <- app_assoc; unfold wires; cbn; by destruct f.
      - rewrite Hq', Hc, Hq, <- app_assoc; unfold queued_of; cbn; by destruct f.
      - intros Hop' Hlive Hfit. inv Hfit. destruct (Hgo Hop') as [Hg Hf].
        constructor; [by apply Hf|]. apply Hk; [congruence| |done]. by rewrite Hgl. }
    destruct go; [rewrite app_nil_r; by apply Hcons|apply Hcons; [done..|set_solver|done]].
  - destruct (IH {| up_sent := up_sent u ++ []; up_enc := up_enc u; up_conn := wt_udp_end (up_conn u) sid;
      up_live := up_live u ∖ {[sid]} |} (live ∖ {[sid]}) He Hwf) as (l & Hl & Ht & Hs & Hq & Hk); cbn in *; [set_solver|].
    rewrite !app_nil_r in *. exists l. split_and!; try done. intros Ho Hlv Hf. apply Hk; [done|by rewrite Hlv|done].
Qed.

End senders.

(** ** The receivers *)

(** The client's association [sid] holds the route to the queue [q], alone, and
    the queue has [l]. *)
Definition listens (c : WtConn) (sid : Z) (q : nat) (l : list (UdpAddr * bytes)) : Prop :=
  wc_udp c !! sid = Some q /\ wc_dgram c !! q = Some {| ch_alive := true; ch_sent := l |}
  /\ (forall s, wc_udp c !! s = Some q -> s = sid).

Lemma of_assoc_app sid xs ys : of_assoc sid (xs ++ ys) = of_assoc sid xs ++ of_assoc sid ys.
Proof. apply omap_app. Qed.

Lemma dispatch_listens c f sid q l : listens c sid q l ->
  listens (dispatch c f) sid q (l ++ of_assoc sid (option_list (dgram_of (carried f)))).
Proof.
  intros (Hu & Hd & Hq); unfold dispatch, dgram_of; cbn [of_ftype of_payload of_sid carried out].
  destruct (f_ftype f); cbn [option_list of_assoc omap list_omap]; rewrite ?app_nil_r; try done;
    try (unfold wc_reply_udp; by destruct (wc_pending_udp c !! f_sid f)).
  destruct (ua_decode _) as [[src r]|]; cbn [option_list of_assoc omap list_omap]; [|by rewrite app_nil_r].
  destruct (Z.eqb_spec (f_sid f) sid) as [->|Hne].
  - rewrite Hu, Hd. split_and!; [done| |done]. cbn [wc_dgram wc_set_udp].
    rewrite lookup_insert_eq; cbn. by rewrite Z.eqb_refl.
  - cbn; rewrite (proj2 (Z.eqb_neq _ _) Hne), app_nil_r. destruct (wc_udp c !! f_sid f) as [q'|] eqn:E; [|done].
    destruct (wc_dgram c !! q') as [ch|]; [|done]. split_and!; [done| |done].
    cbn [wc_dgram wc_set_udp]. rewrite lookup_insert_ne; [done|]. intros ->. by apply Hq in E.
Qed.

Lemma dispatch_all fs : forall c sid q l, listens c sid q l ->
  listens (fold_left dispatch fs c) sid q (l ++ of_assoc sid (omap dgram_of (map carried fs))).
Proof.
  induction fs as [|f fs IH]; intros c sid q l Hl; cbn [fold_left map]; [by rewrite app_nil_r|].
  pose proof (IH _ _ _ _ (dispatch_listens c f sid q l Hl)) as H. rewrite <- app_assoc, <- of_assoc_app in H.
  cbn [omap list_omap]. by destruct (dgram_of (carried f)).
Qed.

Section server.
Context (lookup_host : bytes -> Z -> option (list SocketAddr)) (connect : SocketAddr -> option Z) (budget : nat)
        (bind : bool -> option Z) (cid : Z).
#[local] Instance server_hooks : ServerHooks HubWorld := Hooks lookup_host connect budget bind cid.

(** A frame the server's control reader ([true]) or datagram reader handles. *)
Definition handle_either (w : HubWorld) (x : bool * Frame) : HubWorld :=
  if x.1 then (handle_ctrl_frame lookup_host connect budget bind cid w x.2).2
  else handle_dgram_frame lookup_host connect budget bind cid w x.2.

(** Datagrams given to their relays, in order. *)
Definition feed_all (w : HubWorld) (xs : list (Z * UdpAddr * bytes)) : HubWorld :=
  fold_left (fun w '(sid, dst, data) => udp_feed sid dst data (hook_touch sid w)) xs w.

Lemma handle_all xs : Forall (fun x => x.1 = true -> is_udp (carried x.2) = true) xs ->
  forall w, fold_left handle_either xs w = feed_all w (omap dgram_of (map carried (map snd xs))).
Proof.
  induction 1 as [|[ctl f] xs Hf _ IH]; intros w; [done|]; cbn [fold_left map]. rewrite IH; clear IH.
  assert (E : handle_either w (ctl, f) = feed_all w (option_list (dgram_of (carried f)))).
  { unfold handle_either, handle_ctrl_frame, handle_dgram_frame, feed_datagram, is_udp, dgram_of in *; cbn in *.
    destruct ctl; [specialize (Hf eq_refl)|]; destruct (f_ftype f); try done; by destruct (ua_decode _) as [[]|]. }
  rewrite E; cbn [omap list_omap snd]. by destruct (dgram_of (carried f)).
Qed.

End server.

(** ** Arrival *)

Lemma fates_split l : map carried (wired_frames l) ++ queued_of l ⊆+ map fst l
  /\ (Forall kept l -> map carried (wired_frames l) ++ queued_of l ≡ₚ map fst l).
Proof.
  assert (Hc : forall m c, carried (frame_of m c) = m) by (by intros []).
  induction l as [|[m f] l [IH1 IH2]]; [done|]. unfold wired_frames, queued_of in *; cbn [map fst].
  destruct f as [|c w|]; cbn [omap list_omap fst snd map app].
  - split; [by apply submseteq_cons|]. intros Hk; inv Hk. by destruct H1.
  - rewrite Hc. split; [by apply submseteq_skip|]. intros Hk; inv Hk. constructor; by apply IH2.
  - split; [rewrite <- Permutation_middle; by apply submseteq_skip|]. intros Hk; inv Hk. rewrite <- Permutation_middle.
    constructor; by apply IH2.
Qed.

Section arrival.
Context {P : Prims} {L : PrimsLaws P}.
Context (k : FrameCipher) (limit : Z) (Hcap : limit <= MAX_PLAINTEXT_CAP).

Lemma arrive_at_most_once g l xs ds cfs : cg_wf g -> traffic k limit g l -> map fst l = map frame_for xs ->
  Forall dgram_wf xs -> Forall (fun d => d ∈ wires l) ds -> List.filter is_udp (map carried cfs) `sublist_of` queued_of l ->
  exists dfs, on_datagrams (fd_with_limit (Some k) (Some rw_new) limit) ds = Some dfs /\
    forall fs, fs ≡ₚ dfs ++ cfs -> omap dgram_of (map carried fs) ⊆+ map seen_as xs.
Proof.
  intros Hg Ht Hl Hwf Hd Hc.
  destruct (wired_at_most_once k limit l ds Hcap) with (rw := rw_new) (seen := @nil Z) as (dfs & E & Hnd & _ & Hin);
    [by eapply traffic_wired|done|apply rw_rel_new|]. exists dfs; split; [exact E|]. intros fs ->.
  assert (Hds : dfs ⊆+ wired_frames l).
  { apply NoDup_submseteq; [by eapply NoDup_fmap_1|]. intros f Hf. rewrite Forall_forall in Hin. by apply Hin. }
  rewrite map_app, omap_app, <- (dgrams_udp (map carried cfs)), <- dgrams_of_frames, <- Hl by done.
  etrans; [|apply omap_submseteq, fates_split]. rewrite omap_app. apply submseteq_app; apply omap_submseteq.
  - by apply (fmap_submseteq carried).
  - by apply sublist_submseteq.
Qed.

Lemma arrive_all g l xs cfs : 0 < cg_base g -> 0 <= cg_next g -> cg_base g + cg_next g + len l <= 2 ^ 64 ->
  cg_next g + len l <= 2 ^ 63 -> traffic k limit g l -> Forall kept l -> map fst l = map frame_for xs ->
  Forall dgram_wf xs -> List.filter is_udp (map carried cfs) = queued_of l ->
  exists dfs, on_datagrams (fd_with_limit (Some k) (Some rw_new) limit) (wires l) = Some dfs /\
    forall fs, fs ≡ₚ dfs ++ cfs -> omap dgram_of (map carried fs) ≡ₚ map seen_as xs.
Proof.
  intros Hb Hn Hmax Hmax' Ht Hk Hl Hwf Hc. exists (wired_frames l). split.
  { apply (wired_in_order k limit l g rw_new []); try done; [apply rw_rel_new|cbn; lia]. }
  intros fs ->. rewrite map_app, omap_app, <- (dgrams_udp (map carried cfs)), <- dgrams_of_frames, <- Hl, Hc by done.
  rewrite <- omap_app. f_equiv. by apply fates_split.
Qed.

End arrival.

(** ** Properties: WebTransport *)

Section webtransport.
Context {P : Prims} {L : PrimsLaws P}.

Lemma received_wire live evs : map seen_as (received live evs) = received live evs.
Proof.
  revert live; induction evs as [|[t ev] evs IH]; intros live; [done|]; cbn [received].
  destruct (live !! t) as [sid|]; [|done]. destruct ev as [|src data max ok|]; [done| |done].
  cbn [map]; rewrite IH. f_equal. unfold seen_as, ua_of. by destruct (sa_ip src).
Qed.

(** C21: a UDP answer reaches its own association, whole, and at most once.
    Whatever the sockets of a connection's relays receive, in whatever order
    they use the connection's sink; whether an answer fits a QUIC datagram or
    goes to the control stream; whatever datagrams the network then loses,
    repeats and reorders, and however the client's two readers interleave:
    the datagrams a client's association is given are, with their sources and
    contents, answers its own relay received, none of them more often than
    received. *)
Theorem udp_replies_at_most_once cid y evs enc ds cfs c sid q :
  ry_sink y = SDatagram enc -> cg_wf (fe_counters enc) -> fe_limit enc <= MAX_PLAINTEXT_CAP ->
  sq_sent (ry_state y) = [] -> sq_queue (ry_state y) = [] -> Forall dgram_wf (received (ry_live y) evs) ->
  let s' := ry_state (relays cid y evs) in
  Forall (fun d => d ∈ sq_sent s') ds -> List.filter is_udp (map carried cfs) `sublist_of` sq_queue s' ->
  listens c sid q [] ->
  exists dfs, on_datagrams (fd_with_limit (Some (fe_cipher enc)) (Some rw_new) (fe_limit enc)) ds = Some dfs /\
    forall fs, fs ≡ₚ dfs ++ cfs -> exists got, listens (fold_left dispatch fs c) sid q got
      /\ got ⊆+ of_assoc sid (received (ry_live y) evs).
Proof.
  intros Hs Hg Hcap Hse Hqu Hwf s' Hd Hc Hli.
  destruct (relays_traffic (fe_cipher enc) (fe_limit enc) Hcap cid evs y enc Hs) as (l & Hl & Ht & Es & Eq & _); [done..|].
  unfold s' in *. rewrite Es, Hse in Hd; rewrite Eq, Hqu in Hc.
  destruct (arrive_at_most_once (fe_cipher enc) (fe_limit enc) Hcap (fe_counters enc) l _ ds cfs Hg Ht Hl Hwf Hd Hc)
    as (dfs & E & Hall).
  exists dfs; split; [exact E|]. intros fs Hfs. eexists; split; [by apply dispatch_all|].
  apply omap_submseteq. rewrite <- received_wire. by apply Hall.
Qed.


(** C22: a datagram of a client's user is relayed under its own association,
    whole, and at most once: whatever the network and the two paths do with
    the frames of a connection's associations, what the server gives its
    relays are datagrams the users sent, for the destinations they named, none
    of them more often than sent. *)
Theorem udp_uploads_at_most_once lh conn budget bind cid u evs ds cfs w :
  let enc := up_enc u in
  cg_wf (fe_counters enc) -> fe_limit enc <= MAX_PLAINTEXT_CAP -> up_sent u = [] -> wc_ctrl (up_conn u) = [] ->
  Forall dgram_wf (offered (up_live u) evs) ->
  let u' := uplinks u evs in
  Forall (fun d => d ∈ up_sent u') ds -> Forall (fun f => is_udp (carried f) = true) cfs ->
  map carried cfs `sublist_of` wc_ctrl (up_conn u') ->
  exists dfs, on_datagrams (fd_with_limit (Some (fe_cipher enc)) (Some rw_new) (fe_limit enc)) ds = Some dfs /\
    forall xs, xs ≡ₚ map (pair false) dfs ++ map (pair true) cfs ->
      exists fed, fold_left (handle_either lh conn budget bind cid) xs w = feed_all lh conn budget bind cid w fed
        /\ fed ⊆+ map seen_as (offered (up_live u) evs).
Proof.
  intros enc Hg Hcap Hse Hqu Hwf u' Hd Hudp Hc.
  destruct (uplinks_traffic (fe_cipher enc) (fe_limit enc) Hcap evs u (up_live u)) as (l & Hl & Ht & Es & Eq & _); [done..|].
  unfold u' in *. rewrite Es, Hse in Hd; rewrite Eq, Hqu in Hc; cbn [app] in *.
  assert (Hc' : List.filter is_udp (map carried cfs) `sublist_of` queued_of l).
  { enough (List.filter is_udp (map carried cfs) = map carried cfs) as -> by done.
    clear -Hudp; induction Hudp as [|f fs Hf _ IH]; [done|]; cbn [map List.filter]. by rewrite Hf, IH. }
  destruct (arrive_at_most_once (fe_cipher enc) (fe_limit enc) Hcap (fe_counters enc) l _ ds cfs Hg Ht Hl Hwf Hd Hc')
    as (dfs & E & Hall).
  exists dfs; split; [exact E|]. intros xs Hxs. eexists; split.
  - apply handle_all. rewrite Hxs. apply Forall_app; split; apply Forall_map; [by apply Forall_true|].
    eapply Forall_impl; [exact Hudp|]. done.
  - apply Hall. rewrite Hxs, map_app, !map_map; cbn. by rewrite !map_id.
Qed.

End webtransport.

(** ** Properties: the fallback *)

Section fallback.
Context {P : Prims} {L : PrimsLaws P}.

(** A channel sink with room queues every answer. *)
Lemma relays_chan cid evs : forall y, ry_sink y = SChan -> sq_open (ry_state y) = true ->
  len (sq_queue (ry_state y)) + len (received (ry_live y) evs) <= sq_cap (ry_state y) ->
  Forall (fits MAX_PLAINTEXT_CAP) (received (ry_live y) evs) ->
  sq_queue (ry_state (relays cid y evs)) = sq_queue (ry_state y) ++ map frame_for (received (ry_live y) evs).
Proof.
  induction evs as [|[t ev] evs IH]; intros y Hs Ho Hr Hf; cbn [relays received] in *; [by rewrite app_nil_r|].
  destruct (ry_live y !! t) as [sid|]; [|by apply IH].
  pose proof (IH {| ry_world := ry_world y; ry_sink := ry_sink y; ry_state := ry_state y; ry_live := delete t (ry_live y) |}
    Hs Ho) as Hend.
  destruct ev as [|src data max dg_ok|]; cbn [udp_recv]; [by apply Hend| |by apply Hend].
  rewrite len_cons in Hr. apply Forall_cons in Hf as [Hx Hf]. set (x := (sid, ua_of src, data)) in *.
  pose proof (len_nonneg (received (ry_live y) evs)).
  unfold try_send_lossy. change (reply_payload src data) with (of_payload (frame_for x)).
  unfold fits in Hx. rewrite (proj2 (Z.ltb_ge _ _)) by done. rewrite Hs. unfold chan_try_send. rewrite Ho.
  rewrite (proj2 (Z.ltb_lt _ _)) by lia. cbn [andb].
  change (out FUdpData 0 sid (of_payload (frame_for x))) with (frame_for x).
  rewrite IH; cbn [ry_sink ry_state ry_live sq_open sq_push sq_queue sq_cap]; try done.
  - by rewrite <- app_assoc.
  - rewrite len_app, len_cons, len_nil; lia.
Qed.

(** The client's association [sid] of a mux holds its route, alone. *)
Definition hears (m : MuxInner) (sid : Z) (c : nat) (l : list (UdpAddr * bytes)) : Prop :=
  mx_udp m !! sid = Some c /\ mx_dgram m !! c = Some {| ch_alive := true; ch_sent := l |}
  /\ (forall s, mx_udp m !! s = Some c -> s = sid).

Definition ends_assoc (sid : Z) (m : OutFrame) : bool :=
  match of_ftype m with FClose => of_sid m =? sid | _ => false end.

Lemma resolve_either_udp m sid r : mx_udp (resolve_either m sid r) = mx_udp m /\ mx_dgram (resolve_either m sid r) = mx_dgram m.
Proof.
  unfold resolve_either, resolve_open, resolve_udp. destruct (mx_pending_open m !! sid); [done|].
  by destruct (mx_pending_udp m !! sid).
Qed.

Lemma client_frame_hears m f sid c l : hears m sid c l -> ends_assoc sid (carried f) = false ->
  hears (handle_client_frame m f) sid c (l ++ of_assoc sid (option_list (dgram_of (carried f)))).
Proof.
  intros (Hu & Hd & Hq) He; unfold handle_client_frame, dgram_of, ends_assoc in *; cbn [of_ftype of_payload of_sid carried out] in *.
  destruct (f_ftype f); cbn [option_list of_assoc omap list_omap]; rewrite ?app_nil_r; try done.
  - unfold resolve_open; by destruct (mx_pending_open m !! f_sid f).
  - unfold hears; by rewrite !(proj1 (resolve_either_udp _ _ _)), !(proj2 (resolve_either_udp _ _ _)).
  - assert (H : hears (route_data m (f_sid f) (f_payload f)) sid c l).
    { unfold route_data. destruct (mx_sessions m !! f_sid f); [|done]. destruct (mx_tcp m !! n) as [ch|]; [|done].
      by destruct (ch_send ch _) as [[] ch']. }
    destruct (has_flag _ _); [|done]. by destruct H as (? & ? & ?).
  - apply Z.eqb_neq in He. split_and!; cbn.
    + by rewrite lookup_delete_ne.
    + done.
    + intros s Hs. apply lookup_delete_Some in Hs as [_ Hs]. by apply Hq.
  - unfold cmd_send; by destruct (mx_cmd_open m).
  - unfold resolve_udp; by destruct (mx_pending_udp m !! f_sid f).
  - destruct (ua_decode _) as [[src r]|]; cbn [option_list of_assoc omap list_omap]; [|by rewrite app_nil_r].
    unfold route_datagram. destruct (Z.eqb_spec (f_sid f) sid) as [->|Hne].
    + rewrite Hu, Hd. split_and!; [done| |done]. cbn [mx_dgram mx_set_chans].
      rewrite lookup_insert_eq; cbn. by rewrite Z.eqb_refl.
    + cbn; rewrite (proj2 (Z.eqb_neq _ _) Hne), app_nil_r. destruct (mx_udp m !! f_sid f) as [c'|] eqn:E; [|done].
      destruct (mx_dgram m !! c') as [ch|]; [|done]. split_and!; [done| |done].
      cbn [mx_dgram mx_set_chans]. rewrite lookup_insert_ne; [done|]. intros ->. by apply Hq in E.
  - unfold hears, drop_tcp_route; cbn. by rewrite !(proj1 (resolve_either_udp _ _ _)), !(proj2 (resolve_either_udp _ _ _)).
Qed.

Lemma client_frames_hear fs : forall m sid c l, hears m sid c l -> Forall (fun f => ends_assoc sid (carried f) = false) fs ->
  hears (fold_left handle_client_frame fs m) sid c (l ++ of_assoc sid (omap dgram_of (map carried fs))).
Proof.
  induction fs as [|f fs IH]; intros m sid c l Hl Hf; cbn [fold_left map]; [by rewrite app_nil_r|]. inv Hf.
  pose proof (IH _ _ _ _ (client_frame_hears m f sid c l Hl ltac:(done)) ltac:(done)) as H.
  rewrite <- app_assoc, <- of_assoc_app in H. cbn [omap list_omap]. by destruct (dgram_of (carried f)).
Qed.

(** UDP answers over the fallback arrive whole, in order. When the
    channel's queue has room and the answers fit the negotiated limit, then
    however the connection's relays take turns, whatever other frames share
    the channel and however the response body is cut, the client's association
    is given exactly the answers its relay received, in order, and nothing of
    any other association. *)
Theorem mux_udp_replies_exact cid y evs q e d cs m c sid :
  let rs := received (ry_live y) evs in
  ry_sink y = SChan -> sq_open (ry_state y) = true -> sq_queue (ry_state y) = [] -> len rs <= sq_cap (ry_state y) ->
  Forall (fits (fe_limit e)) rs -> Forall dgram_wf rs ->
  List.filter is_udp q = sq_queue (ry_state (relays cid y evs)) -> Forall (fun x => ends_assoc sid x = false) q ->
  cg_wf (fe_counters e) -> paired d (fe_cipher e) (fe_limit e) -> fd_buf d = [] -> Forall out_wf q ->
  Forall (fun b => b <> []) cs -> concat cs = concat (fst (writer_task e q)) -> hears m sid c [] ->
  exists fs, fr_read_n (S (length fs)) (map Ok cs) d = map (fun f => Ok (Some f)) fs ++ [Ok None]
    /\ hears (fold_left handle_client_frame fs m) sid c (of_assoc sid rs).
Proof.
  intros rs Hs Ho Hqu Hr Hfit Hwf Hq Hend Hg Hp Hd Hqw Hne E Hh. pose proof Hp as (_ & _ & _ & _ & Hcap).
  destruct (channel_frames q e d cs) as (fs & Hrd & _ & Hfs); [done..|]. exists fs; split; [exact Hrd|].
  rewrite relays_chan, Hqu in Hq; try done; cbn [app] in Hq.
  2:{ rewrite Hqu, len_nil. done. }
  2:{ eapply Forall_impl; [exact Hfit|]. unfold fits; intros; lia. }
  assert (Hkeep : List.filter is_udp (List.filter (fun x => len (of_payload x) <=? fe_limit e) q) = map frame_for rs).
  { rewrite filter_fitting; [done|]. rewrite Hq. apply Forall_map. eapply Forall_impl; [exact Hfit|]. unfold fits; cbn; intros; by apply Z.leb_le. }
  assert (Hl : Forall (fun f => ends_assoc sid (carried f) = false) fs).
  { enough (Forall (fun x => ends_assoc sid x = false) (map carried fs)) as H by (by apply Forall_map in H).
    rewrite Hfs, Forall_forall in *. intros x Hx. apply Hend.
    by apply list_elem_of_In, filter_In in Hx as [Hx%list_elem_of_In _]. }
  pose proof (client_frames_hear fs m sid c [] Hh Hl) as H. cbn [app] in H.
  rewrite Hfs, <- dgrams_udp, Hkeep, dgrams_of_frames in H by done. unfold rs in H; by rewrite received_wire in H.
Qed.

(** The client's loop queues its user's datagrams, and ends with its route. *)
Lemma mux_udp_pump_queue sid ds : forall m, mx_cmd_open m = true ->
  exists m', mux_udp_pump m sid (map Some ds ++ [None]) = (m', true)
    /\ mx_cmd m' = mx_cmd m ++ map frame_for (map (fun '(dst, data) => (sid, dst, data)) ds)
    /\ mx_udp m' = delete sid (mx_udp m).
Proof.
  induction ds as [|[dst data] ds IH]; intros m Ho; cbn [map app mux_udp_pump].
  - eexists; split_and!; [done|by rewrite app_nil_r|done].
  - unfold cmd_send; rewrite Ho.
    destruct (IH (mx_set_misc m (mx_cmd m ++ [frame_for (sid, dst, data)]) (mx_next_sid m) (mx_closed m)))
      as (m' & E & Hq & Hu); [done|]. exists m'; split_and!; [exact E| |exact Hu]. rewrite Hq; cbn. by rewrite <- app_assoc.
Qed.

(** Workers lose no frame. *)
Lemma mux_trace_perm {W} {H : ServerHooks W} l arr hnd l' : mux_trace l arr hnd l' -> hnd ++ ml_workers l' ≡ₚ ml_workers l ++ arr.
Proof.
  induction 1 as [l|l f arr hnd l' _ _ _ IH|l f fs w arr hnd l' _ _ _ IH|l f ws1 ws2 fs w arr hnd l' Hws _ _ IH]; cbn in *.
  - by rewrite app_nil_r.
  - rewrite IH. apply Permutation_middle.
  - rewrite IH. apply Permutation_middle.
  - rewrite IH, Hws, <- !app_assoc; cbn. apply Permutation_middle.
Qed.

(** The UDP frames of one session. *)
Definition of_pipe (sid : Z) (m : OutFrame) : bool := is_udp m && of_session sid m.

Lemma assoc_of_pipe sid ms : of_assoc sid (omap dgram_of (List.filter (of_pipe sid) ms)) = of_assoc sid (omap dgram_of ms).
Proof.
  induction ms as [|m ms IH]; [done|]. cbn [List.filter]. unfold of_pipe at 1, is_udp, of_session.
  destruct (of_ftype m) eqn:Et; cbn [andb]; cbn [omap list_omap]; unfold dgram_of at 2; rewrite ?Et; try done.
  destruct (Z.eqb_spec (of_sid m) sid) as [Es|Es].
  - cbn [omap list_omap]. unfold dgram_of at 1; rewrite Et. destruct (ua_decode _) as [[a r]|]; [|done].
    cbn; destruct (Z.eqb_spec (of_sid m) sid); [|done]. f_equal; exact IH.
  - destruct (ua_decode _) as [[a r]|]; [|done]. cbn; destruct (Z.eqb_spec (of_sid m) sid); [done|]. exact IH.
Qed.

(** A user's datagrams over the fallback are relayed, each exactly once.
    However they share the channel with other frames, however the request body
    is cut, and in whatever order the server's workers handle what arrives:
    once no worker is left, the datagrams of the association handed to the
    server's relays are exactly those its user sent. *)
Theorem mux_udp_uploads_exact lh conn budget bind cid m sid ds q e d cs (l : MuxLoop) :
  let H := Hooks lh conn budget bind cid in
  let offers := map (fun '(dst, data) => (sid, dst, data)) ds in
  mx_cmd m = [] -> mx_cmd_open m = true -> Forall dgram_wf offers -> Forall (fits (fe_limit e)) offers ->
  List.filter (of_pipe sid) q = mx_cmd (mux_udp_pump m sid (map Some ds ++ [None])).1 ->
  cg_wf (fe_counters e) -> paired d (fe_cipher e) (fe_limit e) -> fd_buf d = [] -> Forall out_wf q ->
  Forall (fun b => b <> []) cs -> concat cs = concat (fst (writer_task e q)) -> ml_workers l = [] ->
  exists arr, fr_read_n (S (length arr)) (map Ok cs) d = map (fun f => Ok (Some f)) arr ++ [Ok None] /\
    forall hnd l', mux_trace l arr hnd l' -> ml_workers l' = [] ->
      of_assoc sid (omap dgram_of (map carried hnd)) ≡ₚ map (fun '(dst, data) => (on_wire dst, data)) ds
      /\ ml_world l' = fold_left (fun w f => (handle_server_frame w f).2) hnd (ml_world l)
      /\ forall w f, is_udp (carried f) = true ->
           (handle_server_frame w f).2 = feed_all lh conn budget bind cid w (option_list (dgram_of (carried f))).
Proof.
  intros H offers Hm Ho Hwf Hfit Hq Hg Hp Hd Hqw Hne E Hl.
  destruct (mux_udp_pump_queue sid ds m Ho) as (m' & Em & Hm' & _).
  rewrite Em in Hq; cbn [fst] in Hq; rewrite Hm', Hm in Hq; cbn [app] in Hq. fold offers in Hq.
  destruct (channel_frames q e d cs) as (arr & Hrd & _ & Hc); [done..|]. exists arr; split; [exact Hrd|].
  intros hnd l' Ht Hl'. pose proof (mux_trace_perm _ _ _ _ Ht) as Hperm. rewrite Hl, Hl', app_nil_r in Hperm; cbn [app] in Hperm.
  split_and!.
  - unfold of_assoc at 1; rewrite Hperm. fold (of_assoc sid (omap dgram_of (map carried arr))).
    rewrite Hc, <- assoc_of_pipe, filter_fitting, Hq, dgrams_of_frames; [|done|].
    + clear. subst offers. induction ds as [|[dst data] ds IH]; [done|]. cbn. rewrite Z.eqb_refl. by rewrite <- IH.
    + rewrite Hq. apply Forall_map. eapply Forall_impl; [exact Hfit|]. unfold fits; cbn; intros; by apply Z.leb_le.
  - apply (mux_trace_inline _ _ _ _ Ht). unfold workers_ok; by rewrite Hl.
  - intros w f Hf. unfold is_udp, dgram_of, handle_server_frame in *; cbn in *. destruct (f_ftype f); try done.
    by destruct (ua_decode _) as [[]|].
Qed.

End fallback.

(** ** Witnesses *)

Module DatagramsWitness.
Import CryptoWitness HubWitness HubPropertyWitness.

Definition key : FrameCipher := cipher_new (replicate 32 7).
Definition dns : SocketAddr := {| sa_ip := IpV4 [8; 8; 8; 8]; sa_port := 53 |}.
Definition quad : SocketAddr := {| sa_ip := IpV4 [9; 9; 9; 9]; sa_port := 53 |}.

(** Two relays answer, one of them then fails; the last answer of the first
    does not fit a datagram. *)
Definition answers : list (nat * RecvEvent) :=
  [(1%nat, RvGot dns (str "a") (Some 1200) true); (2%nat, RvGot quad (str "b") (Some 1200) true); (2%nat, RvFailed);
   (2%nat, RvGot quad (str "x") (Some 1200) true); (1%nat, RvGot dns (str "cc") None true)].
Definition queue0 : SinkState := {| sq_queue := []; sq_cap := 16; sq_open := true; sq_sent := [] |}.
Definition dgram_enc : FrameEncoder := {| fe_cipher := key; fe_counters := cg_datagram_server; fe_limit := 16384 |}.
Definition over (sink : FrameSink) : Relays :=
  {| ry_world := world; ry_sink := sink; ry_state := queue0; ry_live := {[1%nat := 7; 2%nat := 9]} |}.

Definition sent : list bytes := sq_sent (ry_state (relays 1 (over (SDatagram dgram_enc)) answers)).
(** The network repeats and reorders the two datagrams. *)
Definition arriving : list bytes := Eval vm_compute in reverse sent ++ sent.
Definition ctrl : list Frame := [frame_of (frame_for (7, ua_of dns, str "cc")) 5].
Definition client : WtConn :=
  wc_set_udp (wc_new 1) 1 {[7 := 1%nat; 9 := 2%nat]} ∅ []
    {[1%nat := {| ch_alive := true; ch_sent := [] |}; 2%nat := {| ch_alive := true; ch_sent := [] |}]} ∅.

Definition replies : list (Z * UdpAddr * bytes) :=
  [(7, ua_of dns, str "a"); (9, ua_of quad, str "b"); (7, ua_of dns, str "cc")].

Lemma answers_received : received {[1%nat := 7; 2%nat := 9]} answers = replies.
Proof. reflexivity. Qed.

Lemma replies_wf : Forall dgram_wf replies /\ Forall (fits 16384) replies.
Proof. split; apply (bool_decide_unpack _); vm_compute; exact I. Qed.

Lemma client_listens : listens client 7 1%nat [].
Proof.
  split_and!; [reflexivity|reflexivity|]. intros s Hs.
  change (({[7 := 1%nat; 9 := 2%nat]} : gmap Z nat) !! s = Some 1%nat) in Hs.
  apply lookup_insert_Some in Hs as [[? _]|[_ Hs]]; [done|]. apply lookup_singleton_Some in Hs as [_ Hs]; discriminate.
Qed.

Lemma udp_replies_at_most_once_witness :
  exists dfs, on_datagrams (fd_with_limit (Some key) (Some rw_new) 16384) arriving = Some dfs /\
    forall fs, fs ≡ₚ dfs ++ ctrl -> exists got, listens (fold_left dispatch fs client) 7 1%nat got
      /\ got ⊆+ [(ua_of dns, str "a"); (ua_of dns, str "cc")].
Proof.
  apply (udp_replies_at_most_once 1 (over (SDatagram dgram_enc)) answers dgram_enc arriving ctrl client 7 1%nat).
  - reflexivity.
  - vm_compute; split; discriminate.
  - vm_compute; discriminate.
  - reflexivity.
  - reflexivity.
  - exact (proj1 replies_wf).
  - apply (bool_decide_unpack _); vm_compute; exact I.
  - change (sq_queue (ry_state (relays 1 (over (SDatagram dgram_enc)) answers))) with [frame_for (7, ua_of dns, str "cc")].
    apply sublist_skip, sublist_nil.
  - exact client_listens.
Defined.


(** Two users; the second datagram of the first goes to the control stream. *)
Definition uploads : list (Z * PipeEvent) :=
  [(7, PipeData (ua_of dns) (str "q") (Some 1200) true); (9, PipeData (UDomain (str "a.b") 9) (str "r") (Some 1200) true);
   (7, PipeData (ua_of dns) (str "s") (Some 10) true); (9, PipeClosed)].
Definition ups : Uplinks :=
  {| up_sent := []; up_enc := {| fe_cipher := key; fe_counters := cg_datagram; fe_limit := 16384 |};
     up_conn := client; up_live := {[7; 9]} |}.
Definition up_wires : list bytes := Eval vm_compute in up_sent (uplinks ups uploads).
Definition up_ctrl : list Frame := [frame_of (frame_for (7, ua_of dns, str "s")) 5].

Lemma udp_uploads_at_most_once_witness :
  exists dfs, on_datagrams (fd_with_limit (Some key) (Some rw_new) 16384) (reverse up_wires ++ up_wires) = Some dfs /\
    forall xs, xs ≡ₚ map (pair false) dfs ++ map (pair true) up_ctrl ->
      exists fed, fold_left (handle_either (fun _ _ => None) (fun _ => None) 4%nat (fun _ => Some 5) 1) xs world
          = feed_all (fun _ _ => None) (fun _ => None) 4%nat (fun _ => Some 5) 1 world fed
        /\ fed ⊆+ [(7, ua_of dns, str "q"); (9, UDomain (str "a.b") 9, str "r"); (7, ua_of dns, str "s")].
Proof.
  apply (udp_uploads_at_most_once (fun _ _ => None) (fun _ => None) 4%nat (fun _ => Some 5) 1 ups uploads
           (reverse up_wires ++ up_wires) up_ctrl world).
  - vm_compute; split; discriminate.
  - vm_compute; discriminate.
  - reflexivity.
  - reflexivity.
  - apply (bool_decide_unpack _); vm_compute; exact I.
  - apply (bool_decide_unpack _); vm_compute; exact I.
  - repeat constructor.
  - change (wc_ctrl (up_conn (uplinks ups uploads))) with [frame_for (7, ua_of dns, str "s")]. apply sublist_skip, sublist_nil.
Defined.

(** A fallback channel that carries the answers among other frames. *)
Definition stream_enc : FrameEncoder := {| fe_cipher := key; fe_counters := cg_stream_server; fe_limit := 16384 |}.
Definition stream_dec : FrameDecoder := fd_with_limit (Some key) None 16384.
Definition shared : list OutFrame :=
  [out FUdpOk 0 7 []; frame_for (7, ua_of dns, str "a"); out FData 0 5 (str "tcp"); frame_for (9, ua_of quad, str "b");
   out FClose 0 9 []; frame_for (7, ua_of dns, str "cc")].
Definition shared_wire : bytes := Eval vm_compute in concat (fst (writer_task stream_enc shared)).
Definition client_mux : MuxInner := {|
  mx_cmd := []; mx_cmd_open := true; mx_sessions := ∅; mx_udp := {[7 := 1%nat]}; mx_pending_open := ∅;
  mx_pending_udp := ∅; mx_next_sid := 8; mx_closed := false; mx_tcp := ∅;
  mx_dgram := {[1%nat := {| ch_alive := true; ch_sent := [] |}]}; mx_replies := ∅ |}.

Lemma shared_wf : Forall out_wf shared.
Proof. repeat (apply Forall_cons; split); try apply Forall_nil; try done; unfold out_wf; cbn; lia. Qed.

Lemma mux_udp_replies_exact_witness :
  exists fs, fr_read_n (S (length fs)) (map Ok [take 30 shared_wire; drop 30 shared_wire]) stream_dec
      = map (fun f => Ok (Some f)) fs ++ [Ok None]
    /\ hears (fold_left handle_client_frame fs client_mux) 7 1%nat [(ua_of dns, str "a"); (ua_of dns, str "cc")].
Proof.
  apply (mux_udp_replies_exact 1 (over SChan) answers shared stream_enc stream_dec
           [take 30 shared_wire; drop 30 shared_wire] client_mux 1%nat 7).
  - reflexivity.
  - reflexivity.
  - reflexivity.
  - vm_compute; discriminate.
  - exact (proj2 replies_wf).
  - exact (proj1 replies_wf).
  - vm_compute; reflexivity.
  - repeat constructor.
  - vm_compute; split; discriminate.
  - vm_compute; intuition (discriminate || reflexivity).
  - reflexivity.
  - exact shared_wf.
  - repeat constructor; vm_compute; discriminate.
  - vm_compute; reflexivity.
  - split_and!; [reflexivity|reflexivity|]. intros s Hs; change (({[7 := 1%nat]} : gmap Z nat) !! s = Some 1%nat) in Hs.
    apply lookup_singleton_Some in Hs as [? _]; done.
Defined.

Definition questions : list (UdpAddr * bytes) := [(ua_of dns, str "q"); (UDomain (str "a.b") 9, str "r")].
Definition asked : list OutFrame :=
  [out FUdpAssociate 0 7 []; frame_for (7, ua_of dns, str "q"); out FOpen 0 5 (encode_open (str "9.9.9.9") 80);
   frame_for (7, UDomain (str "a.b") 9, str "r")].
Definition asked_wire : bytes := Eval vm_compute in concat (fst (writer_task stream_enc asked)).

Lemma asked_wf : Forall out_wf asked.
Proof. repeat (apply Forall_cons; split); try apply Forall_nil; try done; unfold out_wf; cbn; lia. Qed.

Lemma mux_udp_uploads_exact_witness :
  let H := Hooks (fun _ _ => None) (fun _ => None) 4%nat (fun _ => Some 5) 1 in
  exists arr, fr_read_n (S (length arr)) (map Ok [take 30 asked_wire; drop 30 asked_wire]) stream_dec
      = map (fun f => Ok (Some f)) arr ++ [Ok None] /\
    forall hnd l', mux_trace {| ml_world := world; ml_workers := []; ml_sent := [] |} arr hnd l' -> ml_workers l' = [] ->
      of_assoc 7 (omap dgram_of (map carried hnd)) ≡ₚ questions
      /\ ml_world l' = fold_left (fun w f => (handle_server_frame w f).2) hnd world
      /\ forall w f, is_udp (carried f) = true -> (handle_server_frame w f).2
           = feed_all (fun _ _ => None) (fun _ => None) 4%nat (fun _ => Some 5) 1 w (option_list (dgram_of (carried f))).
Proof.
  apply (mux_udp_uploads_exact (fun _ _ => None) (fun _ => None) 4%nat (fun _ => Some 5) 1 client_mux 7 questions asked
           stream_enc stream_dec [take 30 asked_wire; drop 30 asked_wire]
           {| ml_world := world; ml_workers := []; ml_sent := [] |}).
  - reflexivity.
  - reflexivity.
  - apply (bool_decide_unpack _); vm_compute; exact I.
  - apply (bool_decide_unpack _); vm_compute; exact I.
  - vm_compute; reflexivity.
  - vm_compute; split; discriminate.
  - vm_compute; intuition (discriminate || reflexivity).
  - reflexivity.
  - exact asked_wf.
  - repeat constructor; vm_compute; discriminate.
  - vm_compute; reflexivity.
  - reflexivity.
Defined.

End DatagramsWitness.
