(* ===== verification/FallbackLink.v ===== *)
(** * The fallback channel from end to end: [client/fallback.rs], [server/fallback.rs]

    The adapters between the mux and HTTP bodies or WebSocket messages, the
    client's request and its reading of the response, and the agreement of the
    two ends over a POST or a WebSocket. The HTTP client and server between them are a
    function from the request to the response. *)

From S2P Require Import Prelude Bytes Crypto Frame Net Limit State Config ServerAuth Handshake Web.

(** ** Bodies *)

(** The request body: the receiver of the wire frames, while it is open, and
    the entries taken from it. *)
Record RequestBody := { rb_rx : bool; rb_pending : list bytes }.

(** What the receiver answers, and what the body answers. *)
Inductive RecvPoll := QPending | QItem (b : bytes) | QClosed.
Inductive BodyPoll := BPending | BData (b : bytes) | BEnd.

(** [poll_frame]. *)
Definition rb_poll_frame (s : RequestBody) (polls : list RecvPoll) : BodyPoll * RequestBody * list RecvPoll :=
  match rb_pending s with
  | b :: t => (BData b, {| rb_rx := rb_rx s; rb_pending := t |}, polls)
  | [] =>
    if negb (rb_rx s) then (BEnd, s, polls)
    else match polls with
         | [] => (BPending, s, [])
         | QPending :: t => (BPending, s, t)
         | QItem b :: t => (BData b, {| rb_rx := rb_rx s; rb_pending := [] |}, t)
         | QClosed :: t => (BEnd, {| rb_rx := false; rb_pending := [] |}, t)
         end
  end.

(** The data frames of [n] polls. *)
Fixpoint rb_data (n : nat) (s : RequestBody) (polls : list RecvPoll) : list bytes :=
  match n with
  | O => []
  | S n => let '(r, s, polls) := rb_poll_frame s polls in
           match r with BData b => [b] | _ => [] end ++ rb_data n s polls
  end.

(** A response body's answers: a frame may be trailers. *)
Inductive BodyFrame := FrPending | FrData (b : bytes) | FrTrailers | FrError (m : msg) | FrEnd.

Record BodyAsRead := { ba_buf : bytes; ba_done : bool }.
Definition ba_new : BodyAsRead := {| ba_buf := []; ba_done := false |}.

(** [poll_read] into [room] bytes; the frames not consumed are returned. *)
Fixpoint ba_poll_read (s : BodyAsRead) (polls : list BodyFrame) (room : nat) : ReadPoll * BodyAsRead * list BodyFrame :=
  if negb (bool_decide (ba_buf s = [])) then
    let n := Nat.min (length (ba_buf s)) room in
    (RReady (take n (ba_buf s)), {| ba_buf := drop n (ba_buf s); ba_done := ba_done s |}, polls)
  else if ba_done s then (RReady [], s, polls)
  else match polls with
       | [] => (RPending, s, [])
       | FrPending :: t => (RPending, s, t)
       | FrData d :: t =>
         ba_poll_read {| ba_buf := if bool_decide (d = []) then ba_buf s else ba_buf s ++ d; ba_done := false |} t room
       | FrTrailers :: t => ba_poll_read s t room
       | FrError m :: t => (RError m, s, t)
       | FrEnd :: t => (RReady [], {| ba_buf := ba_buf s; ba_done := true |}, t)
       end.

(** The adapter is the stream adapter over the frames' data. *)
Definition as_poll (f : BodyFrame) : StreamPoll :=
  match f with
  | FrPending => SPending | FrData b => SItem b | FrTrailers => SItem [] | FrError m => SError m | FrEnd => SEnd
  end.

Lemma ba_is_stream polls : forall s room,
  let '(r, s', rest) := ba_poll_read s polls room in
  sr_poll_read {| sr_buf := ba_buf s; sr_done := ba_done s |} (map as_poll polls) room
  = (r, {| sr_buf := ba_buf s'; sr_done := ba_done s' |}, map as_poll rest).
Proof.
  induction polls as [|p t IH]; intros s room; cbn [ba_poll_read map sr_poll_read]; cbn [sr_buf sr_done];
    destruct (bool_decide_reflect (ba_buf s = [])) as [E|E]; cbn [negb]; try done;
    destruct (ba_done s) eqn:Ed; cbn [sr_buf sr_done]; rewrite ?Ed; try done.
  destruct p as [|d| |m|]; cbn [as_poll]; rewrite ?Ed; try done.
  - specialize (IH {| ba_buf := if bool_decide (d = []) then ba_buf s else ba_buf s ++ d; ba_done := false |} room).
    cbn [ba_buf ba_done] in IH. rewrite E in *. assert ((if bool_decide (d = []) then [] else [] ++ d) = [] ++ d) as Ed'
      by (destruct (bool_decide_reflect (d = [])) as [->|]; done).
    rewrite Ed' in IH. rewrite Ed'. exact IH.
  - specialize (IH s room). rewrite Ed, E in *. exact IH.
Qed.

(** ** WebSocket messages *)

Inductive WsMessage := WsBinary (b : bytes) | WsClose | WsOther.

(** The incoming task of either end: what it hands to the byte reader, over the
    messages that arrive; an error or the end of the stream is [None]. *)
Fixpoint ws_incoming (msgs : list (option WsMessage)) : list bytes :=
  match msgs with
  | Some (WsBinary b) :: t => b :: ws_incoming t
  | Some WsOther :: t => ws_incoming t
  | _ => []
  end.

(** The client's outgoing task: the turns of its [select!], each with the
    outcome of its send. *)
Inductive WsTurn := TPing (ok : bool) | TWire (b : bytes) (ok : bool) | TClosed.

Fixpoint ws_outgoing (turns : list WsTurn) : list WsMessage :=
  match turns with
  | TPing ok :: t => WsOther :: if ok then ws_outgoing t else [WsClose]
  | TWire b ok :: t => WsBinary b :: if ok then ws_outgoing t else [WsClose]
  | TClosed :: _ => [WsClose]
  | [] => []
  end.

(** The server's: the encoded frames, then a close. *)
Definition ws_outgoing_server (wires : list bytes) : list WsMessage := map WsBinary wires ++ [WsClose].

Definition turn_wires (turns : list WsTurn) : list bytes :=
  flat_map (fun x => match x with TWire b _ => [b] | _ => [] end) turns.
Definition turn_ok (x : WsTurn) : bool := match x with TPing ok | TWire _ ok => ok | TClosed => false end.

Lemma ws_carries turns : Forall (fun x => turn_ok x = true) turns ->
  ws_incoming (map Some (ws_outgoing (turns ++ [TClosed]))) = turn_wires turns.
Proof.
  induction turns as [|[[]|b []|] turns IH]; intros Ho; try done; inv Ho; try done; cbn in *; by rewrite IH.
Qed.

Lemma ws_carries_server wires : ws_incoming (map Some (ws_outgoing_server wires)) = wires.
Proof. unfold ws_outgoing_server; induction wires as [|w wires IH]; [done|]; cbn in *. by rewrite IH. Qed.

(** ** The request and the response *)

Record Response := { rs_status : Z; rs_type : option bytes; rs_body : list (result msg bytes) }.

(** [StatusCode::is_success]. *)
Definition is_success (status : Z) : bool := (200 <=? status) && (status <=? 299).

(** The client's reading of the response head. *)
Definition check_response (r : Response) : result msg unit :=
  let ct := lower (default [] (rs_type r)) in
  ensure (is_success (rs_status r) && negb (starts_with (str "text/html") ct)) "fallback rejected".

Section link.
Context {P : Prims}.

(** A connected channel: the negotiated limit, the decoder of the response and
    the encoder of the request body. *)
Record ClientChannel := { cc_limit : Z; cc_decoder : FrameDecoder; cc_encoder : FrameEncoder }.

(** [connect] with [connect_post]: [request] is the HTTP client, given the
    [Authorization] header and the first bytes of the body. *)
Definition connect_post (cfg : PoolCfg) (salt nonce : bytes) (ts : Z) (pad : bytes) (bts : Z) (bnonce : bytes)
  (request : bytes -> bytes -> result msg Response) : result msg ClientChannel :=
  let? wire := fallback_auth_wire cfg salt nonce ts pad in
  let? resp := request (str "Bearer " ++ make_bearer (pc_static_key cfg) (pc_uid cfg) bts bnonce) wire in
  let? _ := check_response resp in
  let? (limit, d) := handshake_mux cfg salt (rs_body resp) in
  Ok {| cc_limit := limit; cc_decoder := d;
        cc_encoder := {| fe_cipher := session_cipher (pc_static_key cfg) salt; fe_counters := cg_stream; fe_limit := limit |} |}.

(** The response each answer of the server's handler builds; [page] is the
    landing page, [cut] how the network cuts the body. *)
Definition fb_response (page : bytes) (cut : bytes -> list bytes) (r : FbResponse) : Response :=
  match r with
  | FbChannelOpen c => {| rs_status := 200; rs_type := Some (str "application/octet-stream");
                          rs_body := map Ok (cut (concat (fb_writer (fb_encoder c) (fb_queue c)))) |}
  | _ => {| rs_status := 200; rs_type := Some (str "text/html; charset=utf-8"); rs_body := map Ok (cut page) |}
  end.

(** The network between the two: it delivers the body, however cut. *)
Definition network (tm : FbTimes) (st : ServerState) (page : bytes) (cut_up cut_down : bytes -> list bytes)
  (header body : bytes) : result msg Response :=
  Ok (fb_response page cut_down (api_handler tm st (Some header) (map Ok (cut_up body))).1).

(** A cut loses nothing and delivers no empty portion. *)
Definition cuts (cut : bytes -> list bytes) : Prop := forall b, concat (cut b) = b /\ Forall (fun x => x <> []) (cut b).

(** [connect] with [connect_ws]: [upgrade] is the WebSocket client, given the
    header and the first messages; it answers with the messages that arrive. *)
Definition connect_ws (cfg : PoolCfg) (salt nonce : bytes) (ts : Z) (pad : bytes) (bts : Z) (bnonce : bytes)
  (upgrade : bytes -> list WsMessage -> result msg (list (option WsMessage))) : result msg ClientChannel :=
  let? wire := fallback_auth_wire cfg salt nonce ts pad in
  let? msgs := upgrade (str "Bearer " ++ make_bearer (pc_static_key cfg) (pc_uid cfg) bts bnonce)
                       (ws_outgoing [TWire wire true]) in
  let? (limit, d) := handshake_mux cfg salt (map Ok (ws_incoming msgs)) in
  Ok {| cc_limit := limit; cc_decoder := d;
        cc_encoder := {| fe_cipher := session_cipher (pc_static_key cfg) salt; fe_counters := cg_stream; fe_limit := limit |} |}.

(** A page instead of the upgrade fails the WebSocket client; a channel closed
    after the upgrade has no message. *)
Definition network_ws (tm : FbTimes) (st : ServerState) (header : bytes) (msgs : list WsMessage)
  : result msg (list (option WsMessage)) :=
  match (ws_handler tm st (Some header) true (map Ok (ws_incoming (map Some msgs)))).1 with
  | FbChannelOpen c => Ok (map Some (map WsBinary (fb_writer (fb_encoder c) (fb_queue c))))
  | FbUpgradedClosed => Ok []
  | FbDisguise => Err "ws connect failed"
  end.

End link.

(** ** Agreement *)

Section agreement.
Context {P : Prims} {L : PrimsLaws P}.

Lemma nonce_key_inj uid n1 n2 t1 t2 : wf_bytes n1 -> wf_bytes n2 -> length n1 = length n2 ->
  nonce_key uid n1 t1 = nonce_key uid n2 t2 -> n1 = n2.
Proof.
  intros H1 H2 Hl E. unfold nonce_key in E. apply app_inv_head in E. cbn [app] in E. injection E as E.
  assert (Hd : forall t, c_pipe ∉ dec t) by (intros t Hd%dec_digit; done).
  apply (f_equal (split_once c_pipe)) in E. rewrite !split_once_char in E by done. injection E as _ E.
  apply (f_equal (unhex_exact (len n1))) in E.
  rewrite unhex_exact_hex in E by done. unfold len in E. rewrite Hl in E.
  fold (len n2) in E. rewrite unhex_exact_hex in E by done. congruence.
Qed.

(** The clocks, the caches and the token of a client the server lets in. *)
Definition welcome (cfg : PoolCfg) (nonce : bytes) (ts bts : Z) (bnonce : bytes) (tm : FbTimes) (st : ServerState) : Prop :=
  ss_static_keys st !! pc_uid cfg = Some (pc_static_key cfg)
  /\ keys_separate st (pc_uid cfg) (pc_static_key cfg)
  /\ MAX_PLAINTEXT <= ss_max_plaintext st <= MAX_PLAINTEXT_CAP
  /\ Z.abs (ft_auth1 tm - ts) <= AUTH_WINDOW /\ Z.abs (ft_bearer1 tm - bts) <= AUTH_WINDOW
  /\ ss_seen_nonces st !! nonce_key (pc_uid cfg) nonce ts = None
  /\ ss_seen_nonces st !! nonce_key (pc_uid cfg) bnonce bts = None
  /\ Z.of_nat (size (ss_seen_nonces st)) + 1 < NONCE_CAP
  /\ ug_global (ss_unauth st) < ug_max_global (ss_unauth st)
  /\ pc_uid cfg <> [] /\ c_dot ∉ pc_uid cfg
  /\ is_u64 bts /\ wf_bytes bnonce /\ length bnonce = 16%nat /\ wf_bytes nonce /\ nonce <> bnonce.

(** The bearer check lets the client in, and leaves the AUTH nonce unseen. *)
Lemma bearer_accepts cfg nonce ts bts bnonce tm st g : length nonce = 16%nat -> welcome cfg nonce ts bts bnonce tm st ->
  exists st1, bearer_ok (ft_bearer1 tm) (ft_bearer2 tm) (set_unauth st g)
    (Some (str "Bearer " ++ make_bearer (pc_static_key cfg) (pc_uid cfg) bts bnonce)) = (true, st1)
  /\ same_but_nonces (set_unauth st g) st1
  /\ ss_seen_nonces st1 !! nonce_key (pc_uid cfg) nonce ts = None
  /\ Z.of_nat (size (ss_seen_nonces st1)) < NONCE_CAP.
Proof.
  intros Hn (Hk & _ & _ & _ & Hw & Hu1 & Hu2 & Hsz & _ & Hne & Hdot & Hb & Hwf & Hbl & Hwn & Hd).
  unfold bearer_ok, bearer_user, bearer_token. rewrite strip_prefix_app.
  replace (bearer_uid _) with (Some (pc_uid cfg)).
  2:{ unfold bearer_uid, make_bearer. change (str ".") with [c_dot]; cbn [app].
      rewrite split_on_char, bool_decide_false by done. done. }
  change (ss_static_keys (set_unauth st g)) with (ss_static_keys st). rewrite Hk.
  rewrite bearer_roundtrip; [|done..|unfold len, SALT_LEN; lia|done].
  unfold check_and_remember_nonce. change (ss_seen_nonces (set_unauth st g)) with (ss_seen_nonces st). rewrite Hu2.
  set (m := filter _ _). assert (Hm : m ⊆ ss_seen_nonces st) by apply map_filter_subseteq.
  pose proof (map_subseteq_size _ _ Hm).
  destruct (Z.leb_spec NONCE_CAP (Z.of_nat (size m))); [lia|].
  eexists; split; [reflexivity|]. split; [by eexists|]. cbn [ss_seen_nonces set_nonces ss_with_caches]. split.
  - rewrite lookup_insert_ne.
    + eapply lookup_weaken_None; [exact Hu1|exact Hm].
    + intros E. apply nonce_key_inj in E; [by subst|done..|lia].
  - rewrite map_size_insert. destruct (m !! _); cbn; lia.
Qed.

(** The AUTH wire of the fallback, as [wire_for] has it. *)
Lemma fallback_wire cfg salt nonce ts pad : hello_ok cfg salt nonce ts pad ->
  exists w, fallback_auth_wire cfg salt nonce ts pad = Ok w
  /\ wire_for (cipher_new (pc_static_key cfg)) (auth_frame cfg salt nonce ts pad) 1 w.
Proof.
  intros (Hs & Hn & _ & _ & Hu & Hp & _). pose proof (len_auth_payload cfg salt nonce ts pad Hs Hn Hu Hp) as Hl.
  unfold fallback_auth_wire. set (e := {| fe_cipher := _ |}).
  destruct (encode_wire e (auth_frame cfg salt nonce ts pad)) as (w & E & Hw);
    [exact Hl|cbn; unfold MAX_PLAINTEXT, MAX_PLAINTEXT_CAP; lia|].
  exists w; split; [|exact Hw]. cbn [of_ftype of_flags of_sid of_payload auth_frame] in E. by rewrite E.
Qed.

Lemma wire_nonempty k m c w : wire_for k m c w -> w <> [].
Proof. intros (body & -> & _) E; apply app_nil in E as [E _]. apply (f_equal length) in E. by rewrite length_build_header in E. Qed.

(** What the two ends hold once connected: one limit, and codecs that fit, with
    nothing buffered. *)
Definition linked (cfg : PoolCfg) (st : ServerState) (ch : ClientChannel) (c : FbChannel) : Prop :=
  cc_limit ch = Z.min (pc_max_plaintext cfg) (ss_max_plaintext st)
  /\ fe_limit (cc_encoder ch) = cc_limit ch /\ fe_limit (fb_encoder c) = cc_limit ch
  /\ paired (cc_decoder ch) (fe_cipher (fb_encoder c)) (cc_limit ch) /\ fd_buf (cc_decoder ch) = []
  /\ paired (fb_decoder c) (fe_cipher (cc_encoder ch)) (cc_limit ch) /\ fd_buf (fb_decoder c) = []
  /\ fe_counters (cc_encoder ch) = cg_stream /\ fe_counters (fb_encoder c) = cg_stream_server.

(** The in-band half, common to the two transports: the server opens the
    channel on the AUTH frame in any portions, its writer emits one frame, and
    the client that reads it in any portions is linked. *)
Lemma in_band_agrees cfg salt nonce ts pad bts bnonce tm st st1 g wire up fail : hello_ok cfg salt nonce ts pad ->
  welcome cfg nonce ts bts bnonce tm st -> same_but_nonces (set_unauth st g) st1 ->
  ss_seen_nonces st1 !! nonce_key (pc_uid cfg) nonce ts = None ->
  Z.of_nat (size (ss_seen_nonces st1)) < NONCE_CAP ->
  wire_for (cipher_new (pc_static_key cfg)) (auth_frame cfg salt nonce ts pad) 1 wire ->
  Forall (fun b => b <> []) up -> concat up = wire ->
  exists c st' reply, fb_in_band tm st1 (map Ok up) fail = (FbChannelOpen c, st')
  /\ fb_writer (fb_encoder c) (fb_queue c) = [reply] /\ reply <> []
  /\ forall down, Forall (fun b => b <> []) down -> concat down = reply ->
     exists limit d, handshake_mux cfg salt (map Ok down) = Ok (limit, d)
     /\ linked cfg st {| cc_limit := limit; cc_decoder := d;
          cc_encoder := {| fe_cipher := session_cipher (pc_static_key cfg) salt; fe_counters := cg_stream; fe_limit := limit |} |} c.
Proof.
  intros Hh (Hk & Hsep & Hmax & Hw & _) [m ->] Hun Hsz Hwire Hup Eup.
  destruct (check_nonce_accepts (ft_auth2 tm) _ (pc_uid cfg) nonce ts Hun Hsz) as (st2 & Ec & Emp).
  destruct (read_auth_accepts cfg salt nonce ts pad wire (set_nonces (set_unauth st g) m) (ft_auth1 tm) (ft_auth2 tm) st2 up [] Hh Hk Hsep Hw Ec Hwire Hup)
    as (cs' & b' & Er & _ & Eb); [by rewrite app_nil_r|].
  apply app_nil in Eb as [-> _]. unfold fb_in_band; rewrite Er, Emp.
  pose proof Hh as (_ & _ & _ & _ & _ & _ & Hm).
  cbn [ap_max_plaintext auth_payload ss_max_plaintext set_nonces set_unauth ss_with_caches].
  rewrite !wrap_limit, negotiate_min by done.
  set (neg := Z.min _ _). assert (Hr : in_limit neg) by (unfold neg, in_limit in *; lia).
  assert (Hle : neg <= pc_max_plaintext cfg) by (unfold neg; lia).
  unfold spawn_mode_a_channel; cbn [ap_salt auth_payload].
  destruct (new_conn _ _ _ _ _) as [id st3]. set (enc := {| fe_cipher := _ |}).
  destruct (encode_wire enc (auth_reply neg)) as (rw & Erw & Hrw);
    [unfold auth_reply, enc; cbn [of_payload fe_limit]; rewrite ?len_le_bytes; unfold in_limit, MAX_PLAINTEXT in Hr; lia..|].
  eexists _, st3, rw; split; [reflexivity|]. cbn [fb_encoder fb_queue fb_decoder fb_writer].
  fold (auth_reply neg). rewrite Erw. split; [reflexivity|]. split; [by eapply wire_nonempty|]. intros down Hdn Edn.
  destruct (read_reply cfg salt neg (cg_take cg_stream_server).1 rw down _ Hm
              ltac:(vm_compute; split; [discriminate|reflexivity]) eq_refl Hrw Hdn Edn)
    as (d' & Hf & (Hp1 & Hp2 & Hp3 & _ & _) & Hb).
  unfold handshake_mux; rewrite Hf; cbn [rbind ok_or frame_of f_ftype f_payload auth_reply of_ftype].
  rewrite bool_decide_true by done; cbn [ensure rbind fd_limit fd_with_limit].
  rewrite (adopt_reply (pc_max_plaintext cfg) neg) by done. cbn [rbind].
  eexists _, _; split; [reflexivity|]. unfold linked, paired; cbn. split_and!; (done || apply Hr).
Qed.

(** C23: a fallback channel connects. For a client of a registered user, with its
    clock in the server's window for the token and for the AUTH frame, fresh
    nonces and a free slot at the gate, the POST succeeds however the network
    cuts the request and response bodies: the handler opens a channel and the
    client, reading the response, obtains the same limit (the smaller of the
    two advertised) and codecs paired with the server's in both directions,
    with nothing left over in either buffer. *)
Theorem fallback_connect_agrees cfg salt nonce ts pad bts bnonce tm st page up down :
  hello_ok cfg salt nonce ts pad -> welcome cfg nonce ts bts bnonce tm st -> cuts up -> cuts down ->
  exists wire c st' ch, fallback_auth_wire cfg salt nonce ts pad = Ok wire
  /\ api_handler tm st (Some (str "Bearer " ++ make_bearer (pc_static_key cfg) (pc_uid cfg) bts bnonce)) (map Ok (up wire))
     = (FbChannelOpen c, st')
  /\ connect_post cfg salt nonce ts pad bts bnonce (network tm st page up down) = Ok ch
  /\ linked cfg st ch c.
Proof.
  intros Hh Hwel Hup Hdown. destruct (fallback_wire cfg salt nonce ts pad Hh) as (wire & Ew & Hw).
  pose proof Hh as (_ & Hn & _). pose proof Hwel as (_ & _ & _ & _ & _ & _ & _ & _ & Hg & _).
  destruct (bearer_accepts cfg nonce ts bts bnonce tm st (ug_set_global (ss_unauth st) (ug_global (ss_unauth st) + 1)) Hn Hwel)
    as (st1 & Eb & Hs & Hun & Hsz). destruct (Hup wire) as [Eu Hune].
  destruct (in_band_agrees cfg salt nonce ts pad bts bnonce tm st st1 _ wire (up wire) FbDisguise Hh Hwel Hs Hun Hsz Hw Hune Eu)
    as (c & st' & reply & Ei & Ewr & _ & Hd). destruct (Hdown reply) as [Ed Hdne].
  destruct (Hd (down reply) Hdne Ed) as (limit & d & Em & Hl).
  assert (Ea : api_handler tm st (Some (str "Bearer " ++ make_bearer (pc_static_key cfg) (pc_uid cfg) bts bnonce))
                 (map Ok (up wire)) = (FbChannelOpen c, st')).
  { unfold api_handler, try_admit, bump_global. zbool. cbn [Z.leb]. rewrite Eb. exact Ei. }
  eexists wire, c, st', _; split; [exact Ew|]. split; [exact Ea|]. split; [|exact Hl].
  unfold connect_post; rewrite Ew; cbn [rbind]. unfold network. rewrite Ea; cbn [fst fb_response rbind].
  change (check_response _) with (@Ok msg unit tt). cbn [rbind rs_body]. rewrite Ewr; cbn [concat].
  rewrite app_nil_r, Em. reflexivity.
Qed.

(** The WebSocket transport connects under the same conditions. *)
Theorem fallback_ws_agrees cfg salt nonce ts pad bts bnonce tm st :
  hello_ok cfg salt nonce ts pad -> welcome cfg nonce ts bts bnonce tm st ->
  exists wire c st' ch, fallback_auth_wire cfg salt nonce ts pad = Ok wire
  /\ ws_handler tm st (Some (str "Bearer " ++ make_bearer (pc_static_key cfg) (pc_uid cfg) bts bnonce)) true [Ok wire]
     = (FbChannelOpen c, st')
  /\ connect_ws cfg salt nonce ts pad bts bnonce (network_ws tm st) = Ok ch
  /\ linked cfg st ch c.
Proof.
  intros Hh Hwel. destruct (fallback_wire cfg salt nonce ts pad Hh) as (wire & Ew & Hw).
  pose proof Hh as (_ & Hn & _). pose proof Hwel as (_ & _ & _ & _ & _ & _ & _ & _ & Hg & _).
  destruct (bearer_accepts cfg nonce ts bts bnonce tm st (ss_unauth st) Hn Hwel) as (st1 & Eb & [m Hs] & Hun & Hsz).
  set (g := ug_set_global (ss_unauth st) (ug_global (ss_unauth st) + 1)).
  destruct (in_band_agrees cfg salt nonce ts pad bts bnonce tm st (set_unauth st1 g) g wire [wire] FbUpgradedClosed Hh Hwel)
    as (c & st' & reply & Ei & Ewr & Hne & Hd); try done.
  { exists m. by rewrite Hs. }
  { constructor; [by eapply wire_nonempty|done]. }
  { apply app_nil_r. }
  destruct (Hd [reply]) as (limit & d & Em & Hl); [by constructor|apply app_nil_r|].
  assert (Ea : ws_handler tm st (Some (str "Bearer " ++ make_bearer (pc_static_key cfg) (pc_uid cfg) bts bnonce)) true [Ok wire]
                 = (FbChannelOpen c, st')).
  { unfold ws_handler. replace (set_unauth st (ss_unauth st)) with st in Eb by (by destruct st). rewrite Eb; cbn [negb].
    assert (Eun : ss_unauth st1 = ss_unauth st) by (by rewrite Hs).
    unfold try_admit, bump_global. rewrite Eun. zbool. exact Ei. }
  eexists wire, c, st', _; split; [exact Ew|]. split; [exact Ea|]. split; [|exact Hl].
  unfold connect_ws; rewrite Ew; cbn [rbind]. unfold network_ws. cbn [ws_outgoing map ws_incoming].
  rewrite Ea; cbn [fst rbind]. rewrite Ewr; cbn [map ws_incoming]. cbn [map] in Em. rewrite Em. reflexivity.
Qed.

(** A client never takes the disguise for a channel: over any network, whatever
    the page and whatever made the server refuse, the client of a refused
    request ends with an error; so a connected client has a channel on the
    server. *)
Theorem fallback_disguise_detected cfg salt nonce ts pad bts bnonce tm st page up down :
  (forall ch, connect_post cfg salt nonce ts pad bts bnonce (network tm st page up down) = Ok ch ->
     exists wire c st', fallback_auth_wire cfg salt nonce ts pad = Ok wire
     /\ api_handler tm st (Some (str "Bearer " ++ make_bearer (pc_static_key cfg) (pc_uid cfg) bts bnonce)) (map Ok (up wire))
        = (FbChannelOpen c, st'))
  /\ (forall ch, connect_ws cfg salt nonce ts pad bts bnonce (network_ws tm st) = Ok ch ->
     exists wire c st', fallback_auth_wire cfg salt nonce ts pad = Ok wire
     /\ ws_handler tm st (Some (str "Bearer " ++ make_bearer (pc_static_key cfg) (pc_uid cfg) bts bnonce)) true [Ok wire]
        = (FbChannelOpen c, st')).
Proof.
  split; intros ch H.
  - unfold connect_post in H. destruct (fallback_auth_wire _ _ _ _ _) as [wire|]; [|done]. cbn [rbind] in H.
    unfold network in H. destruct (api_handler _ _ _ _) as [[|c|] st'] eqn:Ea; cbn [fst fb_response rbind] in H; [done| |done].
    eexists wire, c, st'; split; [done|exact Ea].
  - unfold connect_ws in H. destruct (fallback_auth_wire _ _ _ _ _) as [wire|]; [|done]. cbn [rbind] in H.
    unfold network_ws in H; cbn [ws_outgoing map ws_incoming] in H.
    destruct (ws_handler _ _ _ _ _) as [[|c|] st'] eqn:Ea; cbn [fst rbind] in H; [done| |done].
    eexists wire, c, st'; split; [done|exact Ea].
Qed.

End agreement.

(** ** Bodies are byte streams *)

(** The entries the receiver still holds. *)
Fixpoint queued (polls : list RecvPoll) : list bytes :=
  match polls with
  | [] | QClosed :: _ => []
  | QPending :: t => queued t
  | QItem b :: t => b :: queued t
  end.

Definition rb_left (s : RequestBody) (polls : list RecvPoll) : list bytes :=
  rb_pending s ++ if rb_rx s then queued polls else [].

Lemma rb_poll_left s polls : let '(r, s', polls') := rb_poll_frame s polls in
  (match r with BData b => [b] | _ => [] end) ++ rb_left s' polls' = rb_left s polls.
Proof.
  unfold rb_poll_frame, rb_left; destruct s as [rx [|b t]]; [|done]; destruct rx; [|done].
  destruct polls as [|[|b|] t]; done.
Qed.

Lemma rb_data_left n : forall s polls, exists later, rb_data n s polls ++ later = rb_left s polls.
Proof.
  induction n as [|n IH]; intros s polls; cbn [rb_data]; [by eexists|].
  pose proof (rb_poll_left s polls) as Hp. destruct (rb_poll_frame s polls) as [[r s'] polls'].
  destruct (IH s' polls') as [l E]. exists l. by rewrite <- app_assoc, E.
Qed.

Lemma rb_data_all n : forall s polls, (length (rb_pending s) + length polls <= n)%nat -> rb_data n s polls = rb_left s polls.
Proof.
  assert (Hend : forall n polls, rb_data n {| rb_rx := false; rb_pending := [] |} polls = []).
  { intros n0 polls0; induction n0 as [|n0 IH0]; [done|exact IH0]. }
  induction n as [|n IH]; intros [rx [|b t]] polls Hn; cbn in Hn; try lia; cbn [rb_data rb_poll_frame rb_pending rb_rx].
  - destruct polls as [|p t]; [|cbn in Hn; lia]. by destruct rx.
  - destruct rx; cbn [negb].
    + destruct polls as [|[|b|] t]; cbn in Hn; cbn [app]; rewrite IH by (cbn; lia); done.
    + by rewrite Hend.
  - by rewrite IH by (cbn; lia).
Qed.

(** The request body sends the channel's frames. Polled often enough, whatever
    the interleaving of the polls with the writer, it yields exactly the wire
    frames put into the channel before it closed, one data frame each, in
    order; polled fewer times it yields a prefix of them. *)
Theorem request_body_exact n polls :
  (exists later, rb_data n {| rb_rx := true; rb_pending := [] |} polls ++ later = queued polls) /\
  ((length polls <= n)%nat -> rb_data n {| rb_rx := true; rb_pending := [] |} polls = queued polls).
Proof. split; [apply (rb_data_left n)|intros H; by apply rb_data_all]. Qed.

(** Successive reads of a response body. *)
Fixpoint ba_reads (s : BodyAsRead) (polls : list BodyFrame) (rooms : list nat) : bytes * BodyAsRead * list BodyFrame :=
  match rooms with
  | [] => ([], s, polls)
  | room :: t =>
    match ba_poll_read s polls room with
    | (RReady b, s', polls') => let '(bs, s'', p) := ba_reads s' polls' t in (b ++ bs, s'', p)
    | (_, s', polls') => ba_reads s' polls' t
    end
  end.

Definition as_stream (s : BodyAsRead) : StreamAsRead := {| sr_buf := ba_buf s; sr_done := ba_done s |}.

Lemma ba_reads_stream rooms : forall s polls, let '(b, s', rest) := ba_reads s polls rooms in
  sr_reads (as_stream s) (map as_poll polls) rooms = (b, as_stream s', map as_poll rest).
Proof.
  induction rooms as [|room t IH]; intros s polls; cbn [ba_reads sr_reads]; [done|].
  pose proof (ba_is_stream polls s room) as H. unfold as_stream at 1.
  destruct (ba_poll_read s polls room) as [[r s1] p1]; rewrite H.
  specialize (IH s1 p1). destruct r as [|b|m]; destruct (ba_reads s1 p1 t) as [[bs s2] p2]; fold (as_stream s1);
    rewrite IH; done.
Qed.

(** The data a response body carries before its end. *)
Fixpoint body_bytes (polls : list BodyFrame) : bytes :=
  match polls with
  | [] | FrEnd :: _ => []
  | FrData b :: t => b ++ body_bytes t
  | _ :: t => body_bytes t
  end.

Lemma body_bytes_stream polls : stream_bytes (map as_poll polls) = body_bytes polls.
Proof. induction polls as [|[] t IH]; cbn; rewrite ?IH; done. Qed.

(** The response reader delivers the byte stream of the body. For any sequence
    of body frames (empty ones, trailers and pending polls included) and of
    read sizes, what is read, followed by what is buffered or still to come, is
    the concatenation of the data frames. *)
Theorem body_boundaries_irrelevant polls rooms : let '(b, s, rest) := ba_reads ba_new polls rooms in
  b ++ ba_buf s ++ (if ba_done s then [] else body_bytes rest) = body_bytes polls.
Proof.
  pose proof (ba_reads_stream rooms ba_new polls) as H.
  pose proof (sr_reads_left rooms (as_stream ba_new) (map as_poll polls)) as Hl.
  destruct (ba_reads ba_new polls rooms) as [[b s] rest]. rewrite H in Hl.
  unfold sr_left in Hl; cbn [as_stream sr_buf sr_done ba_new ba_buf ba_done app] in Hl.
  rewrite !body_bytes_stream in Hl. exact Hl.
Qed.

(** ** Witnesses *)

Module FallbackLinkWitness.

Definition times : FbTimes := WebWitness.times.
Definition pieces (b : bytes) : list bytes := List.filter (fun x => negb (bool_decide (x = []))) [take 7 b; drop 7 b].

Lemma pieces_cut : cuts pieces.
Proof.
  intros b; unfold pieces. rewrite <- (take_drop 7 b) at 3. generalize (take 7 b) (drop 7 b); intros x y.
  destruct x, y; cbn; rewrite ?app_nil_r; cbn [app]; (split; [done|repeat constructor; done]).
Qed.

Lemma welcomed : welcome HandshakeWitness.cfg HandshakeWitness.nonce HandshakeWitness.ts 1700000000 (replicate 16 5)
  times HandshakeWitness.server.
Proof.
  unfold welcome; split_and!.
  - vm_compute; reflexivity.
  - exact HandshakeWitness.server_separate.
  - vm_compute; discriminate.
  - vm_compute; discriminate.
  - vm_compute; discriminate.
  - vm_compute; discriminate.
  - vm_compute; reflexivity.
  - vm_compute; reflexivity.
  - vm_compute; reflexivity.
  - vm_compute; reflexivity.
  - vm_compute; discriminate.
  - by apply split_once_none.
  - unfold is_u64; lia.
  - apply Forall_replicate; unfold is_byte; lia.
  - reflexivity.
  - apply Forall_replicate; unfold is_byte; lia.
  - vm_compute; discriminate.
Defined.

Lemma fallback_connect_agrees_witness : exists ch,
  connect_post HandshakeWitness.cfg HandshakeWitness.salt HandshakeWitness.nonce HandshakeWitness.ts HandshakeWitness.pad
    1700000000 (replicate 16 5) (network times HandshakeWitness.server (str "<html>") pieces pieces) = Ok ch
  /\ cc_limit ch = 32768.
Proof.
  destruct (fallback_connect_agrees HandshakeWitness.cfg HandshakeWitness.salt HandshakeWitness.nonce HandshakeWitness.ts
    HandshakeWitness.pad 1700000000 (replicate 16 5) times HandshakeWitness.server (str "<html>") pieces pieces
    HandshakeWitness.hello welcomed pieces_cut pieces_cut) as (w & c & st' & ch & _ & _ & E & Hl & _).
  exists ch. split; [exact E|]. rewrite Hl. vm_compute; reflexivity.
Defined.

Lemma fallback_ws_agrees_witness : exists ch,
  connect_ws HandshakeWitness.cfg HandshakeWitness.salt HandshakeWitness.nonce HandshakeWitness.ts HandshakeWitness.pad
    1700000000 (replicate 16 5) (network_ws times HandshakeWitness.server) = Ok ch
  /\ cc_limit ch = 32768.
Proof.
  destruct (fallback_ws_agrees HandshakeWitness.cfg HandshakeWitness.salt HandshakeWitness.nonce HandshakeWitness.ts
    HandshakeWitness.pad 1700000000 (replicate 16 5) times HandshakeWitness.server
    HandshakeWitness.hello welcomed) as (w & c & st' & ch & _ & _ & E & Hl & _).
  exists ch. split; [exact E|]. rewrite Hl. vm_compute; reflexivity.
Defined.

End FallbackLinkWitness.
