(* ===== verification/Journey.v ===== *)
(** * A TCP session from the inbound to the target, over WebTransport

    [WtConn::do_open_tcp] ([client/wt.rs]) with its stream, [handle_wt_stream]
    ([server/hub.rs]) at the other end, the pool and the inbounds in front of
    them and the pumps behind: what a SOCKS5 or HTTP client asks for is what the
    server dials, the answer it gets is the server's, and the bytes that follow
    are carried both ways. *)

From S2P Require Import Prelude Bytes Crypto Frame Addr Net Ip Limit State Egress Mux Hub Pumps Outbound Socks5 HttpProxy ClientWt Tunnel FallbackLink.

Section journey.
Context {P : Prims}.

(** ** The client's half of an open *)

(** A stream of a connection: its writer, the results its reads still have, and
    its decoder. *)
Record Stream := { sm_writer : FrameWriter; sm_src : list (result msg bytes); sm_dec : FrameDecoder }.

(** [FrameWriter::with_limit] and [FrameReader::with_limit] on a new stream of a
    connection whose cipher, counters and limit are those of [e]. *)
Definition new_stream (e : FrameEncoder) (src : list (result msg bytes)) : Stream :=
  {| sm_writer := {| fw_out := []; fw_enc := e |}; sm_src := src;
     sm_dec := fd_with_limit (Some (fe_cipher e)) None (fe_limit e) |}.

Definition sm_read (s : Stream) : result msg (option Frame) * Stream :=
  let '(r, src, d) := fr_read (sm_src s) (sm_dec s) in
  (r, {| sm_writer := sm_writer s; sm_src := src; sm_dec := d |}).

(** [do_open_tcp] up to the classification of the reply: [opened] is the outcome
    of opening the stream, [env] that of the write, [network] what the stream's
    reads give once the server has these bytes (a timeout is its error). *)
Definition do_open_tcp (opened : result msg unit) (env : nat * result msg unit) (e : FrameEncoder) (sid : Z)
  (host : bytes) (port : Z) (pad : bytes) (network : bytes -> result msg (list (result msg bytes)))
  : OpenReply * option Stream :=
  match opened with
  | Err m => (RFailed m, None)
  | Ok _ =>
    let s := new_stream e [] in
    match frame_send env (sm_writer s) FOpen 0 sid (encode_open host port ++ pad) with
    | (Err m, _) => (RFailed m, None)
    | (Ok _, w) =>
      match network (fw_out w) with
      | Err m => (RFailed m, None)
      | Ok src =>
        match sm_read {| sm_writer := w; sm_src := src; sm_dec := sm_dec s |} with
        | (Err m, _) => (RFailed m, None)
        | (Ok f, s) => (RFrame f, Some s)
        end
      end
    end
  end.

(** ** The server's half *)

Context (lookup_host : bytes -> Z -> option (list SocketAddr)) (connect : SocketAddr -> option Z) (budget : nat) (cid : Z).

(** [handle_wt_stream] on an accepted stream. *)
Definition serve_stream (env : nat * result msg unit) (e : FrameEncoder) (w : HubWorld) (src : list (result msg bytes))
  : StreamOutcome * HubWorld * Stream :=
  let '(r, s) := sm_read (new_stream e src) in
  let first := match r with Ok (Some f) => Some f | _ => None end in
  let '(o, w, wr) := handle_wt_stream lookup_host connect budget cid w (sm_writer s) first env in
  (o, w, {| sm_writer := wr; sm_src := sm_src s; sm_dec := sm_dec s |}).

(** What the server answers to an open it is asked for: the specification the
    two halves implement together. *)
Definition server_answer (w : HubWorld) (c : ConnState) (host : bytes) (port : Z) : result OpenError Z :=
  if (cs_max_per_conn c <=? session_count c) || (ss_max_sessions (hw_st w) <=? ss_active_sessions (hw_st w)) then Err OLimit
  else (dial_target lookup_host connect budget host port (ss_allow_private_targets (hw_st w))).1.

(** A network that delivers, in some portions, everything one end wrote. *)
Definition wire_to (cut : bytes -> list bytes) (b : bytes) : list (result msg bytes) := map Ok (cut b).

(** ** A session that runs *)

(** The bytes a user sends, in whatever chunks and portions, reach the target. *)
Definition carries_up (sid : Z) (w : HubWorld) (client server : Stream) : Prop :=
  forall ns chunks cs t, Forall (fun b => len b <= MAX_PLAINTEXT) chunks -> length ns = S (length chunks) ->
  Forall (fun b => b <> []) cs ->
  let sends := map (fun p => ((p.1, Ok tt), p.2)) (zip ns (wt_session_writer sid chunks)) in
  fw_out (fold_left send_frame sends (sm_writer client)) = fw_out (sm_writer client) ++ concat cs ->
  let reads := fr_read_n (S (S (length chunks))) (sm_src server ++ map Ok cs) (sm_dec server) in
  exists w', wt_client_to_target cid sid w t (map (fun r => WRead r true) reads)
    = (w', {| ts_out := ts_out t ++ concat chunks; ts_shut := true |}, PHalfClosed).

(** The bytes of the target reach the user. *)
Definition carries_down (sid : Z) (w : HubWorld) (client server : Stream) : Prop :=
  forall evs cs, Forall read_fits evs -> Forall io_ok evs -> Forall (fun b => b <> []) cs ->
  fw_out (pump_out cid sid w (sm_writer server) evs).1.2 = fw_out (sm_writer server) ++ concat cs ->
  concat (wt_session_reader (fr_read_n (S (length (pump_frames sid evs))) (sm_src client ++ map Ok cs) (sm_dec client)) (fun _ => true))
  = target_bytes evs.

(** A stream with its writer sound and nothing left to read. *)
Definition stream_ready (k : FrameCipher) (limit : Z) (s : Stream) : Prop :=
  fe_cipher (fw_enc (sm_writer s)) = k /\ fe_limit (fw_enc (sm_writer s)) = limit /\ cg_wf (fe_counters (fw_enc (sm_writer s)))
  /\ sm_src s = [] /\ paired (sm_dec s) k limit /\ fd_buf (sm_dec s) = [].

Context {L : PrimsLaws P}.

Lemma ready_up k limit sid w client server : MAX_PLAINTEXT <= limit -> 0 <= sid < 2 ^ 32 ->
  stream_ready k limit client -> stream_ready k limit server -> carries_up sid w client server.
Proof.
  intros Hl Hs (Hk & He & Hg & _) (_ & _ & _ & Hsrc & Hp & Hb) ns chunks cs t Hc Hns Hne sends E. cbv zeta. rewrite Hsrc.
  assert (Hlen : length (user_frames sid chunks) = length ns) by (unfold user_frames; rewrite length_app, length_map, Hns; cbn; lia).
  assert (Hsnd : map snd sends = user_frames sid chunks).
  { unfold sends; rewrite map_map; cbn. change (map _ (zip ns (wt_session_writer sid chunks))) with ((zip ns (user_frames sid chunks)).*2).
    apply snd_zip; lia. }
  destruct (shared_reassemble limit sends (sm_writer client) (sm_dec server) cs) as (fs & Hfs & Hr); try done.
  - by rewrite Hk.
  - by apply user_frames_good.
  - by rewrite Hb.
  - assert (length sends = S (length chunks)) as El
      by (rewrite <- (length_map snd), Hsnd; unfold user_frames; rewrite length_app, length_map; cbn; lia).
    rewrite El in Hr. cbn [app]; rewrite Hr, Hsnd in *.
    destruct (client_loop_upload cid sid chunks fs [Ok None] w t Hfs) as (w' & E' & _).
    exists w'. unfold wt_client_to_target; by rewrite E'.
Qed.

Lemma ready_down k limit sid w client server : READ_BUF <= limit -> 0 <= sid < 2 ^ 32 ->
  stream_ready k limit client -> stream_ready k limit server -> carries_down sid w client server.
Proof.
  intros Hl Hs (_ & _ & _ & Hsrc & Hp & Hb) (Hk & He & Hg & _) evs cs Hf Hio Hne E. pose proof Hp as (_ & _ & _ & _ & Hcap).
  rewrite (pump_stream_sends limit) in E by done. rewrite Hsrc; cbn [app].
  destruct (shared_reassemble limit (pump_frames sid evs) (sm_writer server) (sm_dec client) cs) as (fs & Hfs & ->); try done.
  - by rewrite Hk.
  - by apply pump_stream_good.
  - by rewrite Hb.
  - by rewrite session_reader_view, Hfs, pump_view.
Qed.

(** One frame written on a stream, and read at its other end. *)
Lemma stream_frame k limit e env m cut : fe_cipher e = k -> fe_limit e = limit -> cg_wf (fe_counters e) ->
  limit <= MAX_PLAINTEXT_CAP -> out_wf m -> len (of_payload m) <= limit -> env.2 = Ok tt -> cuts cut ->
  exists w c, frame_send env (sm_writer (new_stream e [])) (of_ftype m) (of_flags m) (of_sid m) (of_payload m) = (Ok tt, w)
  /\ fe_cipher (fw_enc w) = k /\ fe_limit (fw_enc w) = limit /\ cg_wf (fe_counters (fw_enc w))
  /\ forall wr, exists d, sm_read {| sm_writer := wr; sm_src := wire_to cut (fw_out w); sm_dec := fd_with_limit (Some k) None limit |}
       = (Ok (Some (frame_of m c)), {| sm_writer := wr; sm_src := []; sm_dec := d |}) /\ paired d k limit /\ fd_buf d = [].
Proof.
  intros Hk Hl Hg Hcap Hm Hlen Hio Hcut.
  destruct (stream_send limit (env, m) (sm_writer (new_stream e []))) as (b & w & c & Es & Eo & Hw & Hu & Hg' & Hl' & Hk'); [done..|].
  cbn [fst snd new_stream sm_writer fw_enc fw_out app] in *. exists w, c.
  split; [exact Es|]. split; [congruence|]. split; [done|]. split; [done|]. intros wr.
  destruct (Hcut (fw_out w)) as [Ec Hne].
  destruct (fr_read_frame k limit m c b (cut (fw_out w)) (fd_with_limit (Some k) None limit) []) as (cs & d & Er & Hp & Hne' & E);
    try done; [congruence|rewrite Ec, Eo; cbn; by rewrite app_nil_r|].
  apply app_nil in E as [Eb Ecs]. destruct cs as [|x cs]; [|inv Hne'; cbn in Ecs; by apply app_nil in Ecs as [? _]].
  exists d. unfold sm_read, wire_to; cbn [sm_src sm_dec sm_writer]. by rewrite Er.
Qed.

(** What an Open payload says, whatever its padding. *)
Lemma decode_open_encoded host port pad : len host < 2 ^ 16 -> utf8_valid host = true -> 0 <= port < 2 ^ 16 ->
  decode_open (encode_open host port ++ pad)
  = if bool_decide (host = []) || (255 <? len host) then Err "open host invalid"%string else Ok (host, port).
Proof.
  intros Hh Hu Hp. destruct (bool_decide_reflect (host = [])) as [->|Hne]; cbn [orb].
  - unfold decode_open, encode_open; rewrite <- !app_assoc. pose proof (len_nonneg pad).
    rewrite !len_app, !len_le_bytes, (slice_head 2) by done. change (len (@nil Z)) with 0. change (le_val (le_bytes 2 (wrap 16 0))) with 0. unfold ensure. zbool. cbn [rbind]. zbool. by rewrite andb_false_r.
  - pose proof (len_nonneg host). assert (len host <> 0) by (intros ?; by apply Hne, len_zero_inv).
    destruct (Z.ltb_spec 255 (len host)); [|apply open_roundtrip; [lia|done..]].
    unfold decode_open, encode_open; rewrite wrap_small, <- !app_assoc by lia. pose proof (len_nonneg pad).
    rewrite !len_app, !len_le_bytes, (slice_head 2), le_val_small by (rewrite ?length_le_bytes; done || (cbn; lia)).
    unfold ensure; zbool. cbn [rbind andb]. by rewrite ?andb_false_r.
Qed.

(** The server's handler on an Open frame under a free sid gives its answer. *)
Lemma handle_open_answer w c wr env f host port : hub_ok w -> ss_heap (hw_st w) !! cid = Some c ->
  cs_sessions c !! f_sid f = None -> f_ftype f = FOpen ->
  decode_open (f_payload f) = (if bool_decide (host = []) || (255 <? len host) then Err "open host invalid"%string else Ok (host, port)) ->
  (forall t p, len p <= 1 -> (frame_send env wr t 0 (f_sid f) p).1 = Ok tt) ->
  let '(o, w', wr') := handle_wt_stream lookup_host connect budget cid w wr (Some f) env in
  (forall i, i <> cid -> sessions_of w' i = sessions_of w i) /\
  match server_answer w c host port with
  | Ok sock => o = SRunning (f_sid f) sock /\ wr' = (frame_send env wr FOpenOk 0 (f_sid f) []).2
      /\ (exists h, sessions_of w' cid = Some (<[f_sid f := h]> (cs_sessions c)))
      /\ ss_active_sessions (hw_st w') = ss_active_sessions (hw_st w) + 1
  | Err e => o = SRefused e /\ wr' = (frame_send env wr FOpenErr 0 (f_sid f) [to_code e]).2
      /\ sessions_of w' cid = Some (cs_sessions c) /\ ss_active_sessions (hw_st w') = ss_active_sessions (hw_st w)
  end.
Proof.
  intros Hw Hc Hs Hf Hd Hok. unfold handle_wt_stream, server_answer. rewrite Hc, Hf, Hs.
  rewrite bool_decide_false by (intros H; by apply H). rewrite bool_decide_false by (intros [? ?]; done).
  assert (H0 : sessions_of w cid = Some (cs_sessions c)) by (unfold sessions_of; by rewrite Hc).
  pose proof (stream_admit_spec cid w c (f_sid f) Hw Hc Hs) as Ha.
  assert (Hq : forall u w1, stream_admit cid w c (f_sid f) = (Ok u, w1) -> ss_active_sessions (hw_st w) < ss_max_sessions (hw_st w)).
  { unfold stream_admit, try_acquire_session. intros u w1 E. destruct (_ <=? session_count c); [done|].
    destruct (Z.leb_spec (ss_max_sessions (hw_st w)) (ss_active_sessions (hw_st w))); [done|lia]. }
  destruct (stream_admit cid w c (f_sid f)) as [[u|e] w1].
  2:{ destruct Ha as (-> & -> & Hor). assert ((cs_max_per_conn c <=? session_count c) || (ss_max_sessions (hw_st w) <=? ss_active_sessions (hw_st w)) = true) as ->; [|done].
      apply orb_true_iff. destruct Hor; [left|right]; by apply Z.leb_le. }
  specialize (Hq u w1 eq_refl). destruct Ha as (Hw1 & Hcap & Hact & [h Hh] & Hoth & Hpriv). zbool; cbn [orb].
  destruct (drop_registered cid w1 (f_sid f) _ h Hw1 Hh (lookup_insert_eq _ _ _)) as (Hd1 & Hd2 & Hd3 & Hd4).
  rewrite delete_insert_id in Hd3 by done. rewrite Hd, Hpriv. unfold dial_target.
  destruct (bool_decide (host = []) || (255 <? len host)) eqn:Eh; [split; [intros; by rewrite Hd4, Hoth|]; split_and!; done || lia|].
  fold (dial_target lookup_host connect budget host port (ss_allow_private_targets (hw_st w))).
  assert (Edial : forall a, dial_target lookup_host connect budget host port a =
     match resolve_target lookup_host host port a with
     | Err e => (Err e, [])
     | Ok addrs => let '(r, tried) := connect_loop connect budget addrs in (ok_or r DialFailed, tried) end)
    by (intros; unfold dial_target; by rewrite Eh).
  rewrite <- !Edial.
  destruct (dial_target lookup_host connect budget host port (ss_allow_private_targets (hw_st w))).1 as [sock|e].
  - specialize (Hok FOpenOk [] ltac:(by vm_compute)). destruct (frame_send env wr FOpenOk 0 (f_sid f) []) as [r wr1]; cbn [fst] in Hok; subst r.
    split; [done|]. split_and!; eauto.
  - split; [intros; by rewrite Hd4, Hoth|]. split_and!; done || lia.
Qed.

(** The two ends of a connection after its handshake. *)
Definition link_ok (k : FrameCipher) (limit : Z) (up down : FrameEncoder) : Prop :=
  fe_cipher up = k /\ fe_limit up = limit /\ cg_wf (fe_counters up)
  /\ fe_cipher down = k /\ fe_limit down = limit /\ cg_wf (fe_counters down)
  /\ MAX_PLAINTEXT <= limit <= MAX_PLAINTEXT_CAP.

(** A target whose Open frame is within the limit. *)
Definition target_fits (limit : Z) (host : bytes) (port : Z) (pad : bytes) : Prop :=
  utf8_valid host = true /\ 0 <= port < 2 ^ 16 /\ len host < 2 ^ 16 /\ 4 + len host + len pad <= limit.

(** The connection is there, and the sid is free on it. *)
Definition sid_free (w : HubWorld) (c : ConnState) (sid : Z) : Prop :=
  hub_ok w /\ ss_heap (hw_st w) !! cid = Some c /\ 0 <= sid < 2 ^ 32 /\ cs_sessions c !! sid = None.

(** What an open left on the server. *)
Definition opened_on (w w' : HubWorld) (c : ConnState) (sid : Z) (o : StreamOutcome) (a : result OpenError Z) : Prop :=
  (forall i, i <> cid -> sessions_of w' i = sessions_of w i) /\
  match a with
  | Ok sock => o = SRunning sid sock /\ (exists h, sessions_of w' cid = Some (<[sid := h]> (cs_sessions c)))
      /\ ss_active_sessions (hw_st w') = ss_active_sessions (hw_st w) + 1
  | Err e => o = SRefused e /\ sessions_of w' cid = Some (cs_sessions c)
      /\ ss_active_sessions (hw_st w') = ss_active_sessions (hw_st w)
  end.

(** The stream of an open, both ends: the server behind the network, cut in any
    way, with writes that succeed after any number of other streams' frames. *)
Definition exchange (nu nd : nat) (cutu cutd : bytes -> list bytes) (up down : FrameEncoder) (w : HubWorld)
  (sid : Z) (host : bytes) (port : Z) (pad : bytes) : OpenReply * option Stream :=
  do_open_tcp (Ok tt) (nu, Ok tt) up sid host port pad
    (fun b => Ok (wire_to cutd (fw_out (sm_writer (serve_stream (nd, Ok tt) down w (wire_to cutu b)).2)))).

(** The Open frame at the server: its handler runs on it. *)
Lemma open_arrives k limit up down nu nd cutu sid host port pad :
  link_ok k limit up down -> cuts cutu -> target_fits limit host port pad -> 0 <= sid < 2 ^ 32 ->
  exists wu cu ds, frame_send (nu, Ok tt) (sm_writer (new_stream up [])) FOpen 0 sid (encode_open host port ++ pad) = (Ok tt, wu)
  /\ (fe_cipher (fw_enc wu) = k /\ fe_limit (fw_enc wu) = limit /\ cg_wf (fe_counters (fw_enc wu)))
  /\ (paired ds k limit /\ fd_buf ds = [])
  /\ forall w, serve_stream (nd, Ok tt) down w (wire_to cutu (fw_out wu))
    = let '(o, w, wr) := handle_wt_stream lookup_host connect budget cid w (sm_writer (new_stream down []))
          (Some (frame_of (out FOpen 0 sid (encode_open host port ++ pad)) cu)) (nd, Ok tt) in
      (o, w, {| sm_writer := wr; sm_src := []; sm_dec := ds |}).
Proof.
  intros (Hku & Hlu & Hgu & Hkd & Hld & _ & _ & Hcap) Hcu (_ & _ & _ & Hfit) Hs.
  assert (Hlen : len (encode_open host port ++ pad) = 4 + len host + len pad).
  { unfold encode_open. rewrite !len_app, !len_le_bytes. lia. }
  destruct (stream_frame k limit up (nu, Ok tt) (out FOpen 0 sid (encode_open host port ++ pad)) cutu)
    as (wu & cu & Ewu & ? & ? & ? & Hru); try done; [cbn [of_payload out]; lia|].
  destruct (Hru (sm_writer (new_stream down []))) as (ds & Ers & ? & ?).
  exists wu, cu, ds. split; [exact Ewu|]. split; [done|]. split; [done|]. intros w.
  unfold serve_stream, new_stream. rewrite Hkd, Hld. change {| fw_out := []; fw_enc := down |} with (sm_writer (new_stream down [])).
  by rewrite Ers.
Qed.

Lemma open_exchange k limit up down nu nd cutu cutd sid host port pad w c :
  link_ok k limit up down -> cuts cutu -> cuts cutd -> target_fits limit host port pad -> sid_free w c sid ->
  exists reply client o w' server, exchange nu nd cutu cutd up down w sid host port pad = (reply, Some client)
  /\ serve_stream (nd, Ok tt) down w (wire_to cutu (fw_out (sm_writer client))) = (o, w', server)
  /\ opened_on w w' c sid o (server_answer w c host port)
  /\ open_reply sid reply = match server_answer w c host port with Ok _ => Ok tt | Err e => Err (ETarget e) end
  /\ stream_ready k limit client /\ stream_ready k limit server.
Proof.
  intros Hlink Hcu Hcd Hfits (Hw & Hc & Hs & Hfree). pose proof Hfits as (Hutf & Hp & Hh & _).
  destruct (open_arrives k limit up down nu nd cutu sid host port pad Hlink Hcu Hfits Hs)
    as (wu & cu & ds & Ewu & (Hkwu & Hlwu & Hgwu) & (Hpds & Hbds) & Eserve).
  destruct Hlink as (Hku & Hlu & _ & Hkd & Hld & Hgd & Hmin & Hcap). specialize (Eserve w).
  assert (Hans : forall t p, len p <= 1 -> exists wd cd,
     frame_send (nd, Ok tt) (sm_writer (new_stream down [])) t 0 sid p = (Ok tt, wd)
     /\ fe_cipher (fw_enc wd) = k /\ fe_limit (fw_enc wd) = limit /\ cg_wf (fe_counters (fw_enc wd))
     /\ forall wr, exists d, sm_read {| sm_writer := wr; sm_src := wire_to cutd (fw_out wd); sm_dec := fd_with_limit (Some k) None limit |}
          = (Ok (Some (frame_of (out t 0 sid p) cd)), {| sm_writer := wr; sm_src := []; sm_dec := d |}) /\ paired d k limit /\ fd_buf d = []).
  { intros t p Hlp. apply (stream_frame k limit down (nd, Ok tt) (out t 0 sid p) cutd); try done.
    cbn [of_payload out]; unfold MAX_PLAINTEXT in *; lia. }
  pose proof (handle_open_answer w c (sm_writer (new_stream down [])) (nd, Ok tt) (frame_of (out FOpen 0 sid (encode_open host port ++ pad)) cu)
    host port Hw Hc Hfree eq_refl (decode_open_encoded host port pad Hh Hutf Hp)) as Hsrv.
  specialize (Hsrv ltac:(intros t p Hlp; destruct (Hans t p Hlp) as (wd & cd & E & _); cbn [f_sid frame_of out of_sid]; by rewrite E)).
  destruct (handle_wt_stream _ _ _ _ _ _ _ _) as [[o w'] wr]. destruct Hsrv as [Hoth Hsrv].
  cbn [f_sid frame_of out of_sid] in Hsrv.
  assert (Hgo : forall t p a, len p <= 1 -> wr = (frame_send (nd, Ok tt) (sm_writer (new_stream down [])) t 0 sid p).2 ->
    (forall cd, open_reply sid (RFrame (Some (frame_of (out t 0 sid p) cd))) = a) -> exists reply client,
      exchange nu nd cutu cutd up down w sid host port pad = (reply, Some client)
      /\ serve_stream (nd, Ok tt) down w (wire_to cutu (fw_out (sm_writer client))) = (o, w', {| sm_writer := wr; sm_src := []; sm_dec := ds |})
      /\ open_reply sid reply = a /\ stream_ready k limit client /\ stream_ready k limit {| sm_writer := wr; sm_src := []; sm_dec := ds |}).
  { intros t p a Hlp Ewr Ha. destruct (Hans t p Hlp) as (wd & cd & Ewd & Hkd' & Hld' & Hgd' & Hrd). rewrite Ewd in Ewr; cbn in Ewr; subst wr.
    destruct (Hrd wu) as (dc & Erd & Hpdc & Hbdc). eexists _, {| sm_writer := wu; sm_src := []; sm_dec := dc |}.
    split; [|split; [exact Eserve|split; [apply (Ha cd)|]]].
    - unfold exchange, do_open_tcp. cbn [of_ftype of_flags of_sid of_payload out] in Ewu. rewrite Ewu, Eserve.
      cbn [snd sm_writer new_stream sm_dec]. rewrite Hku, Hlu, Erd. reflexivity.
    - by split. }
  unfold opened_on.
  destruct (server_answer w c host port) as [sock|e].
  - destruct Hsrv as (-> & Ewr & Hsess & Hact).
    destruct (Hgo FOpenOk [] (Ok tt) ltac:(by vm_compute) Ewr) as (reply & client & E1 & E2 & E3 & E4 & E5).
    { intros cd. cbn. by rewrite Z.eqb_refl. }
    eexists reply, client, _, w', _. split; [exact E1|]. split; [exact E2|]. by split_and!.
  - destruct Hsrv as (-> & Ewr & Hsess & Hact).
    destruct (Hgo FOpenErr [to_code e] (Err (ETarget e)) ltac:(by vm_compute) Ewr) as (reply & client & E1 & E2 & E3 & E4 & E5).
    { intros cd. cbn. unfold code_to_open_error; cbn [head from_option id]. by rewrite from_to_code. }
    eexists reply, client, _, w', _. split; [exact E1|]. split; [exact E2|]. by split_and!.
Qed.

(** ** The inbounds in front *)

(** The pool's answer to an open whose stream got this reply. *)
Definition env_with (dial : result msg Z) (reply : OpenReply) : OpenEnv :=
  {| oe_dial := dial; oe_reply := reply; oe_udp_reply := None; oe_waiter := 0; oe_queue := 0 |}.

Context {H : Type} {TH : Transport H}.

(** The connection an open through the pool uses, and the sid it takes. *)
Definition uses (p : WtPool) (dial : result msg Z) (i : nat) (sid : Z) : Prop :=
  exists p1 c c1, acquire p dial = (Ok i, p1) /\ wp_heap p1 !! i = Some c /\ wt_open_start c = (Ok sid, c1).

Lemma ob_open_reply rd p dial i sid reply host port last : uses p dial i sid ->
  exists ob, ob_open_tcp rd (OWt (H := H) {| pw_pool := p; pw_env := [env_with dial reply] |}) host port last
  = (match open_reply sid reply with Ok _ => Ok i | Err e => Err e end, ob, last).
Proof.
  intros (p1 & c & c1 & Ea & Ec & Es). unfold ob_open_tcp, t_open_tcp, pool_transport, pw_run, pool_open_tcp.
  cbn [head pw_env pw_pool default from_option id env_with oe_dial oe_reply]. rewrite Ea, Ec. unfold wt_open_tcp; rewrite Es.
  unfold wt_open_finish. destruct (open_reply sid reply); by eexists.
Qed.

(** What an open through the pool ends in: the inbound gets the server's answer,
    and what the open left behind at either end carries the session. *)
Definition journey (k : FrameCipher) (limit : Z) (up down : FrameEncoder) (nu nd : nat) (cutu cutd : bytes -> list bytes)
  (pad : bytes) (w : HubWorld) (c : ConnState) (sid : Z) (host : bytes) (port : Z) (reply : OpenReply) : Prop :=
  exists client o w' server, exchange nu nd cutu cutd up down w sid host port pad = (reply, Some client)
  /\ serve_stream (nd, Ok tt) down w (wire_to cutu (fw_out (sm_writer client))) = (o, w', server)
  /\ opened_on w w' c sid o (server_answer w c host port)
  /\ (is_ok (server_answer w c host port) = true -> carries_up sid w' client server /\ carries_down sid w' client server).

Lemma journey_exists rd p dial i sid k limit up down nu nd cutu cutd host port pad w c last :
  uses p dial i sid -> link_ok k limit up down -> cuts cutu -> cuts cutd -> target_fits limit host port pad -> sid_free w c sid ->
  exists reply ob, journey k limit up down nu nd cutu cutd pad w c sid host port reply
  /\ ob_open_tcp rd (OWt (H := H) {| pw_pool := p; pw_env := [env_with dial reply] |}) host port last
     = (match server_answer w c host port with Ok _ => Ok i | Err e => Err (ETarget e) end, ob, last).
Proof.
  intros Hu Hl Hcu Hcd Hf Hs. pose proof Hl as (_ & _ & _ & _ & _ & _ & Hmin & _). pose proof Hs as (_ & _ & Hsid & _).
  destruct (open_exchange k limit up down nu nd cutu cutd sid host port pad w c Hl Hcu Hcd Hf Hs)
    as (reply & client & o & w' & server & E1 & E2 & Ho & Er & Hc & Hsv).
  destruct (ob_open_reply rd p dial i sid reply host port last Hu) as (ob & Eo). exists reply, ob. split.
  - exists client, o, w', server. split_and!; [done..|]. intros _. split.
    + by apply (ready_up k limit).
    + by apply (ready_down k limit).
  - rewrite Eo, Er. by destruct (server_answer w c host port).
Qed.

(** C6: a SOCKS5 client gets what it asked for, from the first byte it sends to
    the last it receives. Whatever bytes the handshake of [socks5.rs] accepts as
    a CONNECT, the Open frame the pool's stream carries reaches the hub, however
    the network cuts it and however many frames other streams send meanwhile;
    the hub applies the connection's and the user's limits, the egress policy
    and the dial to exactly the target requested ([server_answer]); the client
    is told success when, and only when, the server holds a session to that
    target, and otherwise the reply code of the server's own refusal, which
    leaves no session and no reserved slot behind; and after a success every
    byte the client sends reaches the target and every byte of the target
    reaches the client, in order, both ends of the stream going on from where
    the exchange left them. *)
Theorem socks5_connect_end_to_end auth s ws target r rd p dial i sid k limit up down nu nd cutu cutd pad w c last :
  wf_bytes s -> handle_request auth s = (ws, Ok (RConnect target, r)) ->
  uses p dial i sid -> link_ok k limit up down -> cuts cutu -> cuts cutd -> len pad <= PAD_MAX -> sid_free w c sid ->
  exists answer ob, journey k limit up down nu nd cutu cutd pad w c sid target.1 target.2 answer
  /\ connect_cmd (P := PoolWorld) (H := H) rd (OWt {| pw_pool := p; pw_env := [env_with dial answer] |}) target last
     = match server_answer w c target.1 target.2 with
       | Ok _ => ([Socks5.reply 0], Ok i, ob, last)
       | Err e => ([Socks5.reply (match e with Denied => 2 | DialFailed => 5 | _ => 1 end)], Err (ETarget e), ob, last)
       end.
Proof.
  intros Hw Hq Hu Hl Hcu Hcd Hpad Hs. pose proof Hl as (_ & _ & _ & _ & _ & _ & Hmin & _).
  destruct (handle_request_target auth s ws _ r Hw Hq) as (Hutf & Hlen & Hport).
  destruct (journey_exists rd p dial i sid k limit up down nu nd cutu cutd target.1 target.2 pad w c last) as (answer & ob & Hj & Eo); try done.
  { unfold target_fits, PAD_MAX, MAX_PLAINTEXT in *. split_and!; done || lia. }
  exists answer, ob. split; [done|]. unfold connect_cmd. rewrite Eo.
  by destruct (server_answer w c target.1 target.2) as [sock|[]].
Qed.

(** So does an HTTP client. For a CONNECT or an absolute-form request whose
    host fits an Open frame, the browser is answered "200" (or, for a forwarded
    request, nothing before the target's own answer, the rewritten head being
    what goes first into the tunnel) when and only when the server holds a
    session to that target, and otherwise gets the error page that names the
    server's refusal; the session then carries both ways. *)
Theorem http_connect_end_to_end q rd p dial i sid k limit up down nu nd cutu cutd pad w c last :
  let host := (request_target q).1 in let port := (request_target q).2 in
  uses p dial i sid -> link_ok k limit up down -> cuts cutu -> cuts cutd -> target_fits limit host port pad -> sid_free w c sid ->
  exists answer ob, journey k limit up down nu nd cutu cutd pad w c sid host port answer
  /\ open_request (P := PoolWorld) (H := H) rd (OWt {| pw_pool := p; pw_env := [env_with dial answer] |}) q last
     = match server_answer w c host port, q with
       | Ok _, HConnect _ _ _ => ([response_200], [], Ok i, ob, last)
       | Ok _, HForward _ _ head => ([], [head], Ok i, ob, last)
       | Err e, _ => ([error_response (tag e)], [], Err (ETarget e), ob, last)
       end.
Proof.
  intros host port Hu Hl Hcu Hcd Hf Hs.
  destruct (journey_exists rd p dial i sid k limit up down nu nd cutu cutd host port pad w c last) as (answer & ob & Hj & Eo); try done.
  exists answer, ob. split; [done|]. unfold open_request. fold host port. rewrite Eo.
  by destruct (server_answer w c host port), q.
Qed.

End journey.

(** ** Witnesses *)

Module JourneyWitness.
Import CryptoWitness HubWitness HubPropertyWitness.

#[local] Instance no_http : Transport unit :=
  {| t_open_tcp := fun t _ _ => (Err (ETransport "unused"), t); t_udp_associate := fun t => (Err (ETransport "unused"), t) |}.

Definition key : FrameCipher := cipher_new (replicate 32 7).
Definition up : FrameEncoder := {| fe_cipher := key; fe_counters := cg_stream; fe_limit := 16384 |}.
Definition down : FrameEncoder := {| fe_cipher := key; fe_counters := cg_stream_server; fe_limit := 16384 |}.
Definition cut : bytes -> list bytes := FallbackLinkWitness.pieces.
Definition pad : bytes := replicate 16 0.
Definition rd : Readings := {| r_try := 0; r_record := 0; r_wall := 0 |}.
Definition no_dns : bytes -> Z -> option (list SocketAddr) := fun _ _ => None.
Definition dials : SocketAddr -> option Z := fun _ => Some 3.

(** What a SOCKS5 client sends for 8.8.8.8:53, and for a private address. *)
Definition public : bytes := Eval vm_compute in client_hello [0] ++ client_request 1 0 (DV4 [8; 8; 8; 8] 53).
Definition private : bytes := Eval vm_compute in client_hello [0] ++ client_request 1 0 (DV4 [10; 0; 0; 1] 80).

Lemma linked : link_ok key 16384 up down.
Proof. unfold link_ok; vm_compute; intuition discriminate. Qed.

Lemma pool_uses : uses ClientWtWitness.pool (Err "unused") 1 1.
Proof. exists ClientWtWitness.pool, (ClientWtWitness.used 0), (wt_open_start (ClientWtWitness.used 0)).2. by split_and!. Qed.

Lemma free_sid : sid_free 1 world (conn 64) 1.
Proof. split; [exact world_ok|]. split; [reflexivity|]. split; [lia|reflexivity]. Qed.

Lemma socks5_connect_end_to_end_witness :
  (exists answer ob, connect_cmd (H := unit) rd (OWt {| pw_pool := ClientWtWitness.pool; pw_env := [env_with (Err "unused") answer] |})
     (str "8.8.8.8", 53) 0 = ([Socks5.reply 0], Ok 1%nat, ob, 0))
  /\ exists answer ob, connect_cmd (H := unit) rd (OWt {| pw_pool := ClientWtWitness.pool; pw_env := [env_with (Err "unused") answer] |})
     (str "10.0.0.1", 80) 0 = ([Socks5.reply 2], Err (ETarget Denied), ob, 0).
Proof.
  assert (Hw : wf_bytes public /\ wf_bytes private) by (split; repeat (apply wf_bytes_cons; split; [unfold is_byte; lia|]); constructor).
  split.
  - edestruct (socks5_connect_end_to_end no_dns dials 4 1 (H := unit) None public) with (nu := 2%nat) (nd := 1%nat) (rd := rd) (last := 0) as (answer & ob & _ & E); [exact (proj1 Hw)|vm_compute; reflexivity
      |exact pool_uses|exact linked|exact FallbackLinkWitness.pieces_cut|exact FallbackLinkWitness.pieces_cut| |exact free_sid|].
    { instantiate (1 := pad). vm_compute. discriminate. }
    exists answer, ob. refine (eq_trans E _). vm_compute. reflexivity.
  - edestruct (socks5_connect_end_to_end no_dns dials 4 1 (H := unit) None private) with (nu := 2%nat) (nd := 1%nat) (rd := rd) (last := 0) as (answer & ob & _ & E); [exact (proj2 Hw)|vm_compute; reflexivity
      |exact pool_uses|exact linked|exact FallbackLinkWitness.pieces_cut|exact FallbackLinkWitness.pieces_cut| |exact free_sid|].
    { instantiate (1 := pad). vm_compute. discriminate. }
    exists answer, ob. refine (eq_trans E _). vm_compute. reflexivity.
Defined.

Lemma http_connect_end_to_end_witness :
  exists answer ob, open_request (H := unit) rd (OWt {| pw_pool := ClientWtWitness.pool; pw_env := [env_with (Err "unused") answer] |})
     (HConnect (str "10.0.0.1") 80 []) 0 = ([error_response (str "private-target-denied")], [], Err (ETarget Denied), ob, 0).
Proof.
  edestruct (http_connect_end_to_end no_dns dials 4 1 (H := unit) (HConnect (str "10.0.0.1") 80 [])) with (nu := 2%nat) (nd := 1%nat) (rd := rd) (last := 0) as (answer & ob & _ & E);
    [exact pool_uses|exact linked|exact FallbackLinkWitness.pieces_cut|exact FallbackLinkWitness.pieces_cut| |exact free_sid|].
  { instantiate (1 := pad). unfold target_fits; vm_compute; intuition discriminate. }
  exists answer, ob. refine (eq_trans E _). vm_compute. reflexivity.
Defined.

End JourneyWitness.
