(* ===== verification/MuxJourney.v ===== *)
(** * A TCP session from the inbound to the target, over the fallback

    [MuxClient::open_tcp] and its reader ([proto/mux.rs]), the fallback outbound
    ([client/fallback.rs]) and the inbounds in front of them; [run_server_mux]
    with the hooks of [server/hub.rs] at the other end of the channel, and the
    pumps behind. All sessions share the channel, so what others send is in
    between at every point. *)

From S2P Require Import Prelude Bytes Crypto Frame Addr Net Ip Limit State Egress Mux Hub Pumps Outbound Socks5 HttpProxy ClientWt ClientFallback ClientTasks Tunnel Datagrams Journey.

(** ** The waiters of a channel *)

(** The oneshot [wt] belongs to the open of [sid]; and then it has its answer. *)
Definition waits (m : MuxInner) (sid : Z) (wt : nat) : Prop :=
  mx_pending_open m !! sid = Some wt /\ (forall s, mx_pending_open m !! s = Some wt -> s = sid)
  /\ forall s, mx_pending_udp m !! s <> Some wt.
Definition answered (m : MuxInner) (wt : nat) (r : result OpenError unit) : Prop :=
  mx_replies m !! wt = Some r /\ (forall s, mx_pending_open m !! s <> Some wt) /\ forall s, mx_pending_udp m !! s <> Some wt.

(** A frame answers at most one waiter, that of its sid, and closes nothing. *)
Lemma frame_pending m f : let m' := handle_client_frame m f in
  mx_closed m' = mx_closed m /\
  ((mx_pending_open m' = mx_pending_open m /\ mx_pending_udp m' = mx_pending_udp m /\ mx_replies m' = mx_replies m)
   \/ (exists w r, mx_pending_open m !! f_sid f = Some w /\ mx_pending_open m' = delete (f_sid f) (mx_pending_open m)
        /\ mx_pending_udp m' = mx_pending_udp m /\ mx_replies m' = <[w := r]> (mx_replies m))
   \/ (exists w r, mx_pending_udp m !! f_sid f = Some w /\ mx_pending_open m' = mx_pending_open m
        /\ mx_pending_udp m' = delete (f_sid f) (mx_pending_udp m) /\ mx_replies m' = <[w := r]> (mx_replies m))).
Proof.
  cbv zeta. unfold handle_client_frame. destruct (f_ftype f); try (split; [done|]; by left).
  - unfold resolve_open. destruct (mx_pending_open m !! f_sid f) as [w|] eqn:E; (split; [done|]); [right; left; by exists w, (Ok tt)|by left].
  - unfold resolve_either, resolve_open, resolve_udp.
    destruct (mx_pending_open m !! f_sid f) as [w|] eqn:E; [split; [done|]; right; left; by eexists w, _|].
    destruct (mx_pending_udp m !! f_sid f) as [w|] eqn:E'; (split; [done|]); [right; right; by eexists w, _|by left].
  - assert (H : forall x, mx_closed (route_data m (f_sid f) x) = mx_closed m /\ mx_pending_open (route_data m (f_sid f) x) = mx_pending_open m
      /\ mx_pending_udp (route_data m (f_sid f) x) = mx_pending_udp m /\ mx_replies (route_data m (f_sid f) x) = mx_replies m).
    { intros x. unfold route_data. destruct (mx_sessions m !! f_sid f) as [c|]; [|done]. destruct (mx_tcp m !! c) as [ch|]; [|done].
      by destruct (ch_send ch x) as [[] ?]. }
    destruct (H (f_payload f)) as (H1 & H2 & H3 & H4). destruct (has_flag _ _); (split; [done|]); by left.
  - unfold cmd_send. destruct (mx_cmd_open m); (split; [done|]); by left.
  - unfold resolve_udp. destruct (mx_pending_udp m !! f_sid f) as [w|] eqn:E; (split; [done|]); [right; right; by exists w, (Ok tt)|by left].
  - destruct (ua_decode _) as [[src r]|]; [|split; [done|]; by left]. unfold route_datagram.
    destruct (mx_udp m !! f_sid f) as [c|]; [|split; [done|]; by left]. destruct (mx_dgram m !! c); (split; [done|]); by left.
  - unfold resolve_either, resolve_open, resolve_udp.
    destruct (mx_pending_open m !! f_sid f) as [w|] eqn:E; [split; [done|]; right; left; by eexists w, _|].
    destruct (mx_pending_udp m !! f_sid f) as [w|] eqn:E'; (split; [done|]); [right; right; by eexists w, _|by left].
Qed.

Lemma answered_frame m f wt r : answered m wt r -> answered (handle_client_frame m f) wt r.
Proof.
  intros (Hr & Ho & Hu). unfold answered. destruct (frame_pending m f) as [_ [(-> & -> & ->)|[(w & r' & Hw & -> & -> & ->)|(w & r' & Hw & -> & -> & ->)]]];
    [by split_and!|..].
  - split_and!; [|intros s [_ Hs]%lookup_delete_Some; by apply (Ho s)|done].
    rewrite lookup_insert_ne; [done|]. intros ->. by apply (Ho (f_sid f)).
  - split_and!; [|done|intros s [_ Hs]%lookup_delete_Some; by apply (Hu s)].
    rewrite lookup_insert_ne; [done|]. intros ->. by apply (Hu (f_sid f)).
Qed.

Lemma waits_other m f sid wt : waits m sid wt -> f_sid f <> sid -> waits (handle_client_frame m f) sid wt.
Proof.
  intros (Hs & Ho & Hu) Hne. unfold waits. destruct (frame_pending m f) as [_ [(-> & -> & _)|[(w & r' & Hw & -> & -> & _)|(w & r' & Hw & -> & -> & _)]]];
    [by split_and!|..].
  - split_and!; [by rewrite lookup_delete_ne| |done]. intros s [_ ?]%lookup_delete_Some. by apply Ho.
  - split_and!; [done|done|]. intros s [_ ?]%lookup_delete_Some. by eapply Hu.
Qed.

(** The frames of a download answer nobody. *)
Definition is_download (m : OutFrame) : bool := match of_ftype m with FData | FClose => true | _ => false end.

Lemma waits_download m f sid wt : is_download (carried f) = true -> waits m sid wt -> waits (handle_client_frame m f) sid wt.
Proof.
  unfold is_download, carried, handle_client_frame; cbn. destruct (f_ftype f); try done; intros _ Hw.
  assert (H : waits (route_data m (f_sid f) (f_payload f)) sid wt).
  { unfold route_data. destruct (mx_sessions m !! f_sid f) as [c|]; [|done]. destruct (mx_tcp m !! c) as [ch|]; [|done].
    by destruct (ch_send ch (f_payload f)) as [[] ?]. }
  by destruct (has_flag _ _).
Qed.

(** The frame that answers an open. *)
Definition answer_frame (sid : Z) (r : result OpenError unit) : OutFrame :=
  match r with Ok _ => out FOpenOk 0 sid [] | Err e => out FOpenErr 0 sid [to_code e] end.

Lemma waits_answered m f sid wt r : waits m sid wt -> carried f = answer_frame sid r -> answered (handle_client_frame m f) wt r.
Proof.
  intros (Hs & Ho & Hu) E. assert (Hd : forall s, delete sid (mx_pending_open m) !! s <> Some wt).
  { intros s [Hne Hp]%lookup_delete_Some. by apply Hne; symmetry; apply Ho. }
  unfold carried, answer_frame, out in E. destruct r as [[]|e]; injection E as Et _ Ei Ep; unfold handle_client_frame; rewrite Et, Ei.
  - unfold resolve_open; rewrite Hs. split_and!; [by cbn; rewrite lookup_insert_eq|exact Hd|exact Hu].
  - unfold resolve_either, resolve_open; rewrite Hs, Ep. split_and!; [|exact Hd|exact Hu].
    cbn. unfold code_to_open_error; cbn. by rewrite lookup_insert_eq, from_to_code.
Qed.

(** Whatever else arrives, the answer reaches the waiter of its sid. *)
Lemma answer_arrives sid wt r d1 d2 fs : forall m, waits m sid wt ->
  List.filter (of_session sid) (map carried fs) = d1 ++ answer_frame sid r :: d2 -> Forall (fun x => is_download x = true) d1 ->
  answered (fold_left handle_client_frame fs m) wt r.
Proof.
  assert (Ha : forall fs m, answered m wt r -> answered (fold_left handle_client_frame fs m) wt r).
  { clear. induction fs as [|f fs IH]; intros m H; [done|]. by apply IH, answered_frame. }
  revert d1; induction fs as [|f fs IH]; intros d1 m Hw E Hd; cbn [map List.filter fold_left] in *; [by destruct d1|].
  unfold of_session at 1 in E; cbn [carried out of_sid] in E. destruct (Z.eqb_spec (f_sid f) sid) as [Ef|Ef].
  - destruct d1 as [|x d1]; injection E as E1 E2.
    + by eapply Ha, waits_answered.
    + apply Forall_cons in Hd as [Hx Hd]. eapply IH; [|exact E2|exact Hd]. apply waits_download; [|done]. by rewrite E1.
  - eapply IH; [by apply waits_other|exact E|exact Hd].
Qed.

Lemma frames_keep_closed fs : forall m, mx_closed (fold_left handle_client_frame fs m) = mx_closed m.
Proof. induction fs as [|f fs IH]; intros m; [done|]. cbn. rewrite IH. apply frame_pending. Qed.

Lemma reader_folds fs : forall m, run_client_reader m (map (fun f => Ok (Some f)) fs) = fold_left handle_client_frame fs m.
Proof. induction fs as [|f fs IH]; intros m; [done|]. apply IH. Qed.

(** The oneshots made so far are numbered below [n]. *)
Definition waiters_below (n : nat) (po pu : gmap Z nat) : Prop :=
  (forall sid w, po !! sid = Some w -> (w < n)%nat) /\ forall sid w, pu !! sid = Some w -> (w < n)%nat.
Definition waiters_ok (s : MuxTasks) : Prop :=
  waiters_below (mt_next s) (mx_pending_open (mt_mux s)) (mx_pending_udp (mt_mux s)).

Lemma waiters_mono n n' po pu po' pu' : waiters_below n po pu -> (n <= n')%nat -> po' ⊆ po -> pu' ⊆ pu -> waiters_below n' po' pu'.
Proof. intros [H1 H2] Hn Ho Hu. split; intros sid w Hw; eapply lookup_weaken in Hw; eauto; [apply H1 in Hw|apply H2 in Hw]; lia. Qed.

Lemma waiters_insert n po pu sid : waiters_below n po pu -> waiters_below (S n) (<[sid := n]> po) pu /\ waiters_below (S n) po (<[sid := n]> pu).
Proof.
  intros [H1 H2]. split; (split; intros s w Hw; [try (apply lookup_insert_Some in Hw as [[_ <-]|[_ Hw]]; [lia|]); apply H1 in Hw; lia
    |try (apply lookup_insert_Some in Hw as [[_ <-]|[_ Hw]]; [lia|]); apply H2 in Hw; lia]).
Qed.

Lemma alloc_pending m sid m' : alloc_sid m = Some (sid, m') ->
  mx_pending_open m' = mx_pending_open m /\ mx_pending_udp m' = mx_pending_udp m /\ mx_cmd_open m' = mx_cmd_open m /\ mx_cmd m' = mx_cmd m
  /\ mx_closed m' = mx_closed m.
Proof. unfold alloc_sid. destruct (alloc_loop _ _ _) as [[v n]|]; [|done]. by intros [= <- <-]. Qed.

Lemma mux_op_waiters s o : waiters_ok s -> waiters_ok (mux_op s o).
Proof.
  unfold waiters_ok, mux_op. destruct s as [m n]; cbn [mt_mux mt_next]. intros Hw. pose proof Hw as [H1 H2].
  destruct o; cbn [mt_mux mt_next]; try done.
  - unfold open_tcp_start. destruct (_ || _); [eapply waiters_mono; eauto; lia|].
    destruct (alloc_sid m) as [[sid m']|] eqn:E; [|eapply waiters_mono; eauto; lia]. apply alloc_pending in E as (Po & Pu & _). rewrite <- Po, <- Pu in Hw.
    unfold cmd_send; cbn. destruct (mx_cmd_open m'); cbn; [by apply waiters_insert|].
    eapply waiters_mono; [apply (proj1 (waiters_insert _ _ _ sid Hw))|lia|apply delete_subseteq|done].
  - unfold open_tcp_finish. destruct reply as [[]|]; cbn; [done..|]. eapply waiters_mono; eauto. apply delete_subseteq.
  - unfold udp_associate_start. destruct (alloc_sid m) as [[sid m']|] eqn:E; [|eapply waiters_mono; eauto; lia].
    apply alloc_pending in E as (Po & Pu & _). rewrite <- Po, <- Pu in Hw. unfold cmd_send; cbn. destruct (mx_cmd_open m'); cbn; [by apply waiters_insert|].
    eapply waiters_mono; [apply (proj2 (waiters_insert _ _ _ sid Hw))|lia|done|apply delete_subseteq].
  - unfold udp_associate_finish. destruct reply as [[]|]; cbn; [done..|]. eapply waiters_mono; eauto. apply delete_subseteq.
  - destruct (frame_pending m f) as [_ [(-> & -> & _)|[(w & r & _ & -> & -> & _)|(w & r & _ & -> & -> & _)]]]; [done|..];
      (eapply waiters_mono; [exact Hw|done|apply delete_subseteq || done..]).
  - unfold cmd_send. by destruct (mx_cmd_open m).
Qed.

(** After any history, an open that was sent waits, and owns its channel. *)
Lemma open_started r os host port sid m1 : let s := mux_run (mux_start r) os in
  open_tcp_start (mt_mux s) host port (mt_next s) (mt_next s) = (Ok sid, m1) ->
  sid <> 0 /\ 1 <= len host <= 255 /\ owns m1 sid (mt_next s) [] /\ waits m1 sid (mt_next s) /\ mx_closed m1 = mx_closed (mt_mux s)
  /\ mx_cmd m1 = mx_cmd (mt_mux s) ++ [out FOpen 0 sid (encode_open host port)].
Proof.
  intros s. assert (Hok : mux_ok s) by (apply mux_run_ok; split_and!; intros *; cbn; rewrite lookup_empty; done).
  assert (Hw : waiters_ok s).
  { unfold s. assert (H0 : waiters_ok (mux_start r)) by (split; intros *; cbn; by rewrite lookup_empty).
    clear Hok s. revert H0. unfold mux_run. generalize (mux_start r). induction os as [|o os IH]; intros s Hs; [done|]. by apply IH, mux_op_waiters. }
  destruct s as [m n]; unfold mux_ok, waiters_ok in *; cbn [mt_mux mt_next] in *. destruct Hok as (H1 & H2 & _). destruct Hw as [W1 W2].
  unfold open_tcp_start. destruct (bool_decide_reflect (host = [])) as [|Hne]; [done|]. destruct (Z.ltb_spec 255 (len host)); [done|]; cbn [orb].
  destruct (alloc_sid m) as [[v m']|] eqn:E; [|done]. pose proof E as Ep.
  apply alloc_sid_spec in E as (Hz & Hs & Hu & Es & Eu & Et). apply alloc_pending in Ep as (Po & Pu & Pc & Pq & Pd).
  unfold cmd_send; cbn. destruct (mx_cmd_open m'); [|done]. intros [= <- <-].
  assert (len host <> 0) by (intros ?; by apply Hne, len_zero_inv). pose proof (len_nonneg host).
  split; [done|]. split; [lia|]. split; [|split; [|split; [done|by cbn; rewrite Pq]]]; unfold owns, waits; cbn.
  - rewrite !lookup_insert_eq. split_and!; [done..|]. intros s [[? _]|[_ Hc]]%lookup_insert_Some; [done|].
    rewrite Es in Hc. destruct (H1 _ _ Hc) as (_ & _ & _ & ?). lia.
  - rewrite lookup_insert_eq. split_and!; [done|..].
    + intros s [[? _]|[_ Hc]]%lookup_insert_Some; [done|]. rewrite Po in Hc. apply W1 in Hc. lia.
    + intros s Hc. rewrite Pu in Hc. apply W2 in Hc. lia.
Qed.

(** ** The server's loop, as a fold *)

Section server.
Context {W : Type} {H : ServerHooks W}.

(** The handlers in the order they ran: what they sent, and the world. *)
Fixpoint server_run (w : W) (hnd : list Frame) : list OutFrame * W :=
  match hnd with
  | [] => ([], w)
  | f :: t => let '(o, w) := handle_server_frame w f in let '(os, w) := server_run w t in (o ++ os, w)
  end.

Lemma server_run_app h1 h2 : forall w, server_run w (h1 ++ h2)
  = let '(o1, w) := server_run w h1 in let '(o2, w) := server_run w h2 in (o1 ++ o2, w).
Proof.
  induction h1 as [|f h1 IH]; intros w; cbn [app server_run]; [by destruct (server_run w h2)|].
  destruct (handle_server_frame w f) as [o w1]. rewrite IH. destruct (server_run w1 h1) as [o1 w2]. destruct (server_run w2 h2).
  by rewrite app_assoc.
Qed.

Lemma mux_trace_run l arr hnd l' : mux_trace l arr hnd l' ->
  exists o, server_run (ml_world l) hnd = (o, ml_world l') /\ ml_sent l' = ml_sent l ++ o.
Proof.
  induction 1 as [l|l f arr hnd l' _ _ _ (o & E & Es)|l f fs w arr hnd l' _ Ef _ (o & E & Es)|l f ws1 ws2 fs w arr hnd l' _ Ef _ (o & E & Es)].
  - exists []. by rewrite app_nil_r.
  - by exists o.
  - exists (fs ++ o). cbn in *. by rewrite Ef, E, Es, app_assoc.
  - exists (fs ++ o). cbn in *. by rewrite Ef, E, Es, app_assoc.
Qed.

(** A frame is answered under its own sid. *)
Lemma server_frame_sids w f : Forall (fun m => of_sid m = f_sid f \/ of_sid m = 0) (handle_server_frame w f).1.
Proof.
  unfold handle_server_frame. destruct (f_ftype f); cbn; try by constructor.
  - destruct (decode_open _) as [[host port]|]; [destruct (open_tcp _ _ _ _) as [[] ?]|]; repeat constructor.
  - destruct (_ && _); constructor.
  - constructor; [by right|constructor].
  - destruct (udp_associate _ _) as [[] ?]; repeat constructor.
  - destruct (ua_decode _) as [[]|]; constructor.
Qed.

Lemma server_run_sids sid hnd : sid <> 0 -> Forall (fun f => f_sid f <> sid) hnd ->
  forall w, List.filter (of_session sid) (server_run w hnd).1 = [].
Proof.
  intros Hz; induction 1 as [|f hnd Hf _ IH]; intros w; [done|]. cbn [server_run].
  pose proof (server_frame_sids w f) as Hs. destruct (handle_server_frame w f) as [o w1]. specialize (IH w1).
  destruct (server_run w1 hnd) as [os w2]; cbn [fst] in *. rewrite List.filter_app, IH, app_nil_r.
  induction Hs as [|m o Hm _ IHo]; [done|]. cbn. unfold of_session at 1. destruct (Z.eqb_spec (of_sid m) sid); [|done].
  exfalso. destruct Hm; congruence.
Qed.

Lemma server_run_keeps (I : W -> Prop) {K : HooksKeep H I} hnd : forall w, I w -> I (server_run w hnd).2.
Proof.
  induction hnd as [|f hnd IH]; intros w Hw; [done|]. cbn [server_run].
  pose proof (handle_server_frame_keeps I w f Hw) as Hf. destruct (handle_server_frame w f) as [o w1].
  specialize (IH w1 Hf). by destruct (server_run w1 hnd).
Qed.

(** The one frame of a session that arrives is handled once, with only others'
    frames before and after, when no worker has it any more. *)
Lemma handled_once sid l arr hnd l' f : mux_trace l arr hnd l' ->
  Forall (fun g => f_sid g <> sid) (ml_workers l) -> Forall (fun g => f_sid g <> sid) (ml_workers l') ->
  List.filter (fun g => f_sid g =? sid) arr = [f] ->
  exists h1 h2, hnd = h1 ++ f :: h2 /\ Forall (fun g => f_sid g <> sid) h1 /\ Forall (fun g => f_sid g <> sid) h2.
Proof.
  intros Ht Hl Hl' Ha. pose proof (Datagrams.mux_trace_perm _ _ _ _ Ht) as Hp.
  assert (Hnil : forall gs : list Frame, Forall (fun g => f_sid g <> sid) gs -> List.filter (fun g => f_sid g =? sid) gs = []).
  { induction 1 as [|g gs Hg _ IH]; [done|]. cbn. by destruct (Z.eqb_spec (f_sid g) sid). }
  assert (Hf : List.filter (fun g => f_sid g =? sid) hnd = [f]).
  { apply Permutation_singleton_r. rewrite <- Ha.
    assert (Hfp : forall a b : list Frame, a ≡ₚ b -> List.filter (fun g => f_sid g =? sid) a ≡ₚ List.filter (fun g => f_sid g =? sid) b).
    { induction 1 as [|x a b _ IH|x y a|]; cbn; [done|by destruct (_ =? _); rewrite IH|repeat destruct (_ =? _); done || constructor|by etransitivity]. }
    apply Hfp in Hp. by rewrite !List.filter_app, (Hnil _ Hl), (Hnil _ Hl'), app_nil_r in Hp. }
  clear -Hf Hnil. induction hnd as [|g hnd IH]; [done|]. cbn in Hf. destruct (Z.eqb_spec (f_sid g) sid) as [Eg|Eg].
  - injection Hf as -> Hf. exists [], hnd. split_and!; [done|constructor|]. apply Forall_forall; intros x Hx Ex.
    assert (Hin : In x (List.filter (fun g => f_sid g =? sid) hnd)) by (apply filter_In; split; [by apply list_elem_of_In|by apply Z.eqb_eq]).
    by rewrite Hf in Hin.
  - destruct (IH Hf) as (h1 & h2 & -> & H1 & H2). exists (g :: h1), h2. split_and!; [done|by constructor|done].
Qed.

End server.

(** ** The hub, seen by one session *)

Section hub.
Context (lookup_host : bytes -> Z -> option (list SocketAddr)) (connect : SocketAddr -> option Z) (budget : nat)
        (bind : bool -> option Z) (cid sid : Z).

#[local] Instance journey_hooks : ServerHooks HubWorld := Hooks lookup_host connect budget bind cid.

(** The session's entry, if the connection is there. *)
Definition session_at (s : ServerState) : option (option SessionHandle) := (fun c => cs_sessions c !! sid) <$> ss_heap s !! cid.

Lemma session_at_heap s s' : ss_heap s' = ss_heap s -> session_at s' = session_at s.
Proof. unfold session_at. by intros ->. Qed.

Lemma session_at_insert s s' c c' : ss_heap s !! cid = Some c -> ss_heap s' = <[cid := c']> (ss_heap s) ->
  cs_sessions c' !! sid = cs_sessions c !! sid -> session_at s' = session_at s.
Proof. unfold session_at. intros Hc -> E. rewrite lookup_insert_eq, Hc; cbn. by rewrite E. Qed.

Lemma session_at_conn w f : (forall c, cs_sessions (f c) !! sid = cs_sessions c !! sid) -> session_at (hw_st (hw_conn cid w f)) = session_at (hw_st w).
Proof. intros Hf. unfold session_at; cbn. rewrite lookup_alter_eq. destruct (ss_heap (hw_st w) !! cid); cbn; by rewrite ?Hf. Qed.

Lemma session_at_touch x w : x <> sid -> session_at (hw_st (hub_touch cid x w)) = session_at (hw_st w).
Proof.
  intros Hx. apply session_at_conn. intros c. unfold cs_touch; cbn. destruct (cs_sessions c !! x); [|done]. cbn. by rewrite lookup_insert_ne.
Qed.

Lemma session_at_drop x s : x <> sid -> session_at (drop_and_release s cid x) = session_at s.
Proof.
  intros Hx. unfold drop_and_release, drop_session. destruct (ss_heap s !! cid) as [c|] eqn:Hc; [|done]. cbn.
  destruct (cs_sessions c !! x); (eapply session_at_insert; [exact Hc|reflexivity|cbn; by rewrite ?lookup_delete_ne]).
Qed.

Lemma session_at_admit now x s : x <> sid -> session_at (hooks_admit now s cid x).2 = session_at s.
Proof.
  intros Hx. unfold hooks_admit. destruct (ss_heap s !! cid) as [c|] eqn:Hc; [|done]. destruct (bool_decide _); [done|].
  destruct (_ <=? _); [done|]. destruct (try_acquire_session s) as [[] s1] eqn:Ea; apply try_acquire_heap in Ea as [Eh _];
    [|by apply session_at_heap].
  unfold child_token, try_register_with. cbn. destruct (cs_sessions c !! x); cbn [snd];
    (eapply (session_at_insert s); [exact Hc|cbn; by rewrite Eh|cbn; by rewrite ?lookup_insert_ne]).
Qed.

(** Others' frames leave it alone. *)
Lemma session_at_frame w f : f_sid f <> sid -> session_at (hw_st (handle_server_frame w f).2) = session_at (hw_st w).
Proof.
  intros Hf. assert (Hfeed : forall data fin rst v, session_at (hw_st (hub_feed_tcp cid (f_sid f) data fin rst v)) = session_at (hw_st v)).
  { intros data fin rst v. unfold hub_feed_tcp. destruct rst; [by apply session_at_drop|]. rewrite <- (session_at_touch (f_sid f) v Hf).
    set (v1 := hub_touch cid (f_sid f) v). destruct (ss_heap (hw_st v1) !! cid) as [c|]; [|done]. destruct (cs_tcp_routes c !! f_sid f); [|done].
    destruct (bool_decide _); [by apply session_at_drop|by apply session_at_conn]. }
  unfold handle_server_frame. destruct (f_ftype f); cbn [snd]; try done.
  - destruct (decode_open _) as [[host port]|]; [|done]. unfold open_tcp; cbn. unfold hub_open_tcp.
    pose proof (session_at_admit (hw_now w) (f_sid f) (hw_st w) Hf) as Ha.
    destruct (hooks_admit _ _ _ _) as [[tok|e] st]; cbn [snd] in Ha; [|exact Ha].
    destruct (dial_target _ _ _ _ _ _).1; cbn [snd].
    + etransitivity; [apply (session_at_conn (hw_set w st)); done|exact Ha].
    + cbn. by rewrite session_at_drop.
  - etransitivity; [apply Hfeed|]. by apply session_at_touch.
  - destruct (_ && _); cbn [snd]; [apply Hfeed|by apply session_at_drop].
  - unfold udp_associate; cbn. unfold hub_udp_associate, udp_admit. destruct (ss_heap (hw_st w) !! cid) as [c|]; [|done].
    destruct (bool_decide _); [done|]. pose proof (session_at_admit (hw_now w) (f_sid f) (hw_st w) Hf) as Ha.
    destruct (hooks_admit _ _ _ _) as [[tok|e] st]; cbn [snd] in Ha; [|exact Ha]. cbn [snd].
    destruct (token_new _) as [tk t]. cbn [snd]. etransitivity; [by apply session_at_conn|exact Ha].
  - destruct (ua_decode _) as [[dst r]|]; [|done]. cbn [snd]. unfold udp_feed; cbn.
    rewrite <- (session_at_touch (f_sid f) w Hf). set (v := hub_touch cid (f_sid f) w). unfold hub_udp_feed.
    destruct (ss_heap (hw_st v) !! cid) as [c|]; [|done]. destruct (cs_udp_routes c !! f_sid f) as [relay|]; [|done].
    rewrite <- (session_at_touch (f_sid f) v Hf). set (v1 := hub_touch cid (f_sid f) v).
    pose proof (resolve_udp_heap lookup_host dst (ss_allow_private_targets (hw_st v1)) (hw_st v1) (hw_instant v1)) as Eh.
    destruct (resolve_udp_target _ _ _ _ _) as [[a|e] st]; cbn [snd] in Eh; [|by apply session_at_heap].
    destruct (get_or_bind _ _ _) as [[sock relay']|]; [|by apply session_at_heap].
    etransitivity; [by apply (session_at_conn (hw_set v1 st))|by apply session_at_heap].
  - by apply session_at_drop.
Qed.

Lemma session_at_run hnd : Forall (fun f => f_sid f <> sid) hnd -> forall w, session_at (hw_st (server_run w hnd).2) = session_at (hw_st w).
Proof.
  induction 1 as [|f hnd Hf _ IH]; intros w; [done|]. cbn [server_run]. pose proof (session_at_frame w f Hf) as E.
  destruct (handle_server_frame w f) as [o w1]. specialize (IH w1). destruct (server_run w1 hnd); cbn [snd] in *. congruence.
Qed.

Lemma serves_run hnd : Forall (fun f => f_sid f <> sid) hnd -> forall w q, serves cid sid w q -> serves cid sid (server_run w hnd).2 q.
Proof.
  induction 1 as [|f hnd Hf _ IH]; intros w q Hw; [done|]. cbn [server_run].
  pose proof (serves_frame lookup_host connect budget bind cid sid w f q Hw ltac:(done)) as E.
  rewrite (proj2 (Z.eqb_neq _ _) Hf), app_nil_r in E. unfold demux_hooks in E; fold journey_hooks in E.
  destruct (handle_server_frame w f) as [o w1]. specialize (IH w1 q E). by destruct (server_run w1 hnd).
Qed.

(** What an open does at the hub: the answer is [server_answer], and the session
    is there with an empty route and the dialled socket, or not at all. *)
Definition opened_at (w w' : HubWorld) (a : result OpenError Z) : Prop :=
  match a with
  | Ok sock => serves cid sid w' [] /\ hw_pumps w' = hw_pumps w ++ [(sid, sock)]
      /\ ss_active_sessions (hw_st w') = ss_active_sessions (hw_st w) + 1
  | Err _ => session_at (hw_st w') = Some None /\ hw_pumps w' = hw_pumps w
      /\ ss_active_sessions (hw_st w') = ss_active_sessions (hw_st w)
  end.

Lemma admitted_heap now st tok st' : hooks_admit now st cid sid = (Ok tok, st') ->
  ss_allow_private_targets st' = ss_allow_private_targets st /\ exists c h, ss_heap st' !! cid = Some c /\ cs_sessions c !! sid = Some h.
Proof.
  unfold hooks_admit. destruct (ss_heap st !! cid) as [c|]; [|done]. destruct (bool_decide _); [done|]. destruct (_ <=? _); [done|].
  unfold try_acquire_session. destruct (_ <=? _); [done|]. unfold try_register_with; cbn.
  destruct (cs_sessions c !! sid); [done|]. intros [= <- <-]. cbn. rewrite lookup_insert_eq. split; [done|]. eexists _, _. split; [done|].
  cbn. by rewrite lookup_insert_eq.
Qed.

Lemma hub_open_answer w c host port : hub_ok w -> ss_heap (hw_st w) !! cid = Some c -> cs_sessions c !! sid = None ->
  let a := server_answer lookup_host connect budget w c host port in
  let '(r, w') := hub_open_tcp lookup_host connect budget cid sid host port w in
  r = match a with Ok _ => Ok tt | Err e => Err e end /\ opened_at w w' a.
Proof.
  intros Hw Hc Hs. cbv zeta. unfold hub_open_tcp, server_answer. pose proof (admit_spec (hw_now w) (hw_st w) cid sid c Hw Hc) as Ha.
  pose proof (admit_quota (hw_now w) (hw_st w) cid sid Hw) as Hq. pose proof (admitted_heap (hw_now w) (hw_st w)) as Hh.
  destruct (hooks_admit (hw_now w) (hw_st w) cid sid) as [[tok|e] st] eqn:E; cbn [snd] in *.
  2:{ destruct Ha as (-> & Ho). assert (Hn : session_at (hw_st w) = Some None) by (unfold session_at; rewrite Hc; cbn; by rewrite Hs).
      destruct Ho as [[_ [h Hh']]|[-> Hor]]; [congruence|].
      assert ((cs_max_per_conn c <=? session_count c) || (ss_max_sessions (hw_st w) <=? ss_active_sessions (hw_st w)) = true) as ->
        by (apply orb_true_iff; destruct Hor; [left|right]; by apply Z.leb_le). by split. }
  destruct Ha as (_ & Hcap & Hact & _). destruct (Hh tok st eq_refl) as (Hp & c1 & h & Hc1 & Hs1). rewrite Hp.
  assert (ss_active_sessions st <= ss_max_sessions (hw_st w)) as Hmax.
  { clear -E Hact. unfold hooks_admit in E. destruct (ss_heap (hw_st w) !! cid); [|done]. destruct (bool_decide _); [done|]. destruct (_ <=? _); [done|].
    unfold try_acquire_session in E. destruct (Z.leb_spec (ss_max_sessions (hw_st w)) (ss_active_sessions (hw_st w))); [done|lia]. }
  zbool; cbn [orb]. destruct (dial_target lookup_host connect budget host port (ss_allow_private_targets (hw_st w))).1 as [sock|e].
  - split; [done|]. unfold opened_at, spawn_tcp_pumps, serves, on_route; cbn. split_and!; [|set_solver|done|lia].
    eexists; rewrite lookup_alter_eq, Hc1; cbn. split; [done|]. split; [by eexists|]. cbn. by rewrite lookup_insert_eq.
  - split; [done|]. destruct (drop_registered cid (hw_set w st) sid (cs_sessions c1) h) as (_ & Hd & Hm & _).
    + exact Hq.
    + unfold sessions_of; cbn. by rewrite Hc1.
    + done.
    + cbn [hw_st hw_set] in *. unfold opened_at; cbn [hw_pumps hw_st hw_set]. split; [|split; [done|rewrite Hd, Hact; lia]]. unfold session_at, sessions_of in *. cbn in Hm |- *.
      destruct (ss_heap (drop_and_release st cid sid) !! cid) as [c2|]; [|done]. cbn in *. injection Hm as ->. by rewrite lookup_delete_eq.
Qed.

(** From the arrival of an open to its answer, whatever the loop does meanwhile. *)
Lemma hub_journey l arr hnd l' f host port : hub_ok (ml_world l) -> session_at (hw_st (ml_world l)) = Some None -> sid <> 0 ->
  f_ftype f = FOpen -> f_sid f = sid -> decode_open (f_payload f) = Ok (host, port) ->
  mux_trace l arr hnd l' -> Forall (fun g => f_sid g <> sid) (ml_workers l) -> Forall (fun g => f_sid g <> sid) (ml_workers l') ->
  List.filter (fun g => f_sid g =? sid) arr = [f] ->
  exists h1 h2 c o, hnd = h1 ++ f :: h2 /\
  let w := (server_run (ml_world l) h1).2 in
  let a := server_answer lookup_host connect budget w c host port in
  hub_ok w /\ ss_heap (hw_st w) !! cid = Some c /\
  opened_at w (handle_server_frame w f).2 a /\ ml_sent l' = ml_sent l ++ o
  /\ List.filter (of_session sid) o = [answer_frame sid (match a with Ok _ => Ok tt | Err e => Err e end)]
  /\ match a with Ok _ => serves cid sid (ml_world l') [] | Err _ => session_at (hw_st (ml_world l')) = Some None end.
Proof.
  intros Hok Hs Hz Hf Hsid Hd Ht Hl Hl' Ha. destruct (handled_once sid l arr hnd l' f Ht Hl Hl' Ha) as (h1 & h2 & -> & H1 & H2).
  destruct (mux_trace_run _ _ _ _ Ht) as (o & E & Es).
  rewrite server_run_app in E. pose proof (session_at_run h1 H1 (ml_world l)) as Hs1. rewrite Hs in Hs1.
  pose proof (server_run_keeps hub_ok h1 (ml_world l) Hok) as Hok1. pose proof (server_run_sids sid h1 Hz H1 (ml_world l)) as Ho1.
  destruct (server_run (ml_world l) h1) as [o1 w] eqn:Erun; cbn [fst snd] in *. cbn [server_run] in E.
  unfold session_at in Hs1. apply fmap_Some in Hs1 as (c & Hc & Hsc). symmetry in Hsc.
  unfold handle_server_frame in E. rewrite Hf, Hd, Hsid in E. unfold open_tcp in E; cbn [journey_hooks Hooks] in E.
  pose proof (hub_open_answer w c host port Hok1 Hc Hsc) as Hans. cbv zeta in Hans.
  assert (Ef : (handle_server_frame w f).2 = (hub_open_tcp lookup_host connect budget cid sid host port w).2).
  { unfold handle_server_frame. rewrite Hf, Hd, Hsid. unfold open_tcp; cbn [journey_hooks Hooks]. by destruct (hub_open_tcp _ _ _ _ _ _ _ w) as [[] ?]. }
  destruct (hub_open_tcp _ _ _ _ _ _ _ w) as [r w']; cbn [snd] in Ef. destruct Hans as [Er Hopen].
  pose proof (server_run_sids sid h2 Hz H2 w') as Ho2. pose proof (session_at_run h2 H2 w') as Hs2. pose proof (serves_run h2 H2 w' []) as Hsv.
  exists h1, h2, c, o. split; [done|]. rewrite Erun; cbn [snd]. cbv zeta. split; [done|]. split; [done|].
  split; [rewrite Ef; exact Hopen|]. split; [exact Es|]. rewrite Er in E.
  destruct (server_answer lookup_host connect budget w c host port) as [sock|e]; cbn in E; destruct (server_run w' h2) as [o2 w2]; cbn [fst snd] in *;
    injection E as <- <-; rewrite List.filter_app, Ho1; cbn [app List.filter];
    unfold of_session at 1; cbn [of_sid out]; rewrite Z.eqb_refl, Ho2.
  - split; [done|]. apply Hsv, Hopen.
  - split; [done|]. rewrite Hs2. apply Hopen.
Qed.

End hub.

(** ** Both ends *)

(** One direction of the channel: the frames queued at one end, and portions
    that make up what its writer task sent. *)
Definition carries_frames {P : Prims} (e : FrameEncoder) (d : FrameDecoder) (q : list OutFrame) (cs : list bytes) : Prop :=
  cg_wf (fe_counters e) /\ paired d (fe_cipher e) (fe_limit e) /\ fd_buf d = [] /\ MAX_PLAINTEXT <= fe_limit e
  /\ Forall out_wf q /\ Forall (fun b => b <> []) cs /\ concat cs = concat (fst (writer_task e q)).

(** The reads of a channel so far, [n] frames. *)
Definition channel_reads {P : Prims} (n : nat) (d : FrameDecoder) (cs : list bytes) : list (result msg (option Frame)) :=
  fr_read_n n (map Ok cs) d.

Lemma fr_read_n_take {P : Prims} n : forall k src d, fr_read_n n src d = take n (fr_read_n (n + k) src d).
Proof.
  induction n as [|n IH]; intros k src d; [done|]. cbn [Nat.add fr_read_n take]. destruct (fr_read src d) as [[r src'] d'].
  cbn. by rewrite (IH k).
Qed.

Lemma carries_reads {P : Prims} {L : PrimsLaws P} e d q cs : carries_frames e d q cs -> exists fs,
  channel_reads (length fs) d cs = map (fun f => Ok (Some f)) fs /\ map carried fs = List.filter (fun m => len (of_payload m) <=? fe_limit e) q.
Proof.
  intros (Hg & Hp & Hb & _ & Hq & Hne & E). destruct (channel_frames q e d cs) as (fs & Hr & _ & Hc); [done..|].
  exists fs. split; [|done]. unfold channel_reads. rewrite (fr_read_n_take _ 1), Nat.add_1_r, Hr. apply take_app_length'. by rewrite length_map.
Qed.

Lemma pump_frames_download {Env} sid (evs : list (OutEvent Env)) : Forall (fun x => is_download x = true) (map snd (pump_frames sid evs)).
Proof. induction evs as [|[|[[|x b]|e] v] evs IH]; cbn [pump_frames map snd]; repeat constructor; done. Qed.

Lemma view_until_skip stop x d1 d2 : of_ftype x <> FData -> stop (of_ftype x) = false -> view_until stop (d1 ++ x :: d2) = view_until stop (d1 ++ d2).
Proof.
  intros Hx Hs. induction d1 as [|y d1 IH]; cbn [app view_until].
  - by destruct (of_ftype x); rewrite ?Hs.
  - rewrite IH. done.
Qed.

Lemma trace_workers {W} {H : ServerHooks W} l arr hnd l' : mux_trace l arr hnd l' -> workers_ok l -> workers_ok l'.
Proof.
  unfold workers_ok. induction 1 as [|l f arr hnd l' Hf _ _ IH|l f fs w arr hnd l' _ _ _ IH|l f ws1 ws2 fs w arr hnd l' Hws _ _ IH]; intros Hl; [done|..].
  - apply IH. by constructor.
  - by apply IH.
  - apply IH. rewrite Hws in Hl. apply Forall_app in Hl as [? [_ ?]%Forall_cons]. by apply Forall_app.
Qed.

Section journey.
Context {P : Prims} {L : PrimsLaws P}.
Context (lookup_host : bytes -> Z -> option (list SocketAddr)) (connect : SocketAddr -> option Z) (budget : nat)
        (bind : bool -> option Z) (cid sid : Z).

#[local] Instance channel_hooks : ServerHooks HubWorld := Hooks lookup_host connect budget bind cid.

(** The client's answer to an inbound: the outcome of the open, over a channel
    that may lose its reason. *)
Definition told (a : result OpenError Z) (ch : nat) : result AnyError nat :=
  match a with Ok _ => Ok ch | Err _ => Err (ETransport "open_tcp") end.
Definition unit_of (a : result OpenError Z) : result OpenError unit := match a with Ok _ => Ok tt | Err e => Err e end.

(** Down the channel: once the server's answer is among the frames it queued for
    the session (with what its pump read from the target before and after, if
    it was a success), the client's open ends with that answer and the session's
    channel holds what the target sent. [ended] is what the open, with these
    reads, ends in. *)
Definition reaches_client (ed : FrameEncoder) (dd : FrameDecoder) (n : nat) (a : result OpenError Z)
  (ended : HttpEnv -> MuxInner -> Prop) : Prop :=
  forall qd cd d1 d2 (evs : list (OutEvent unit)), carries_frames ed dd qd cd ->
  List.filter (of_session sid) qd = d1 ++ answer_frame sid (unit_of a) :: d2 ->
  d1 ++ d2 = (if is_ok a then map snd (pump_frames sid evs) else []) -> Forall read_fits evs ->
  exists k m2, ended {| he_connect := Err "in use"; he_reads := channel_reads k dd cd; he_ch := n; he_wt := n |} m2
    /\ (is_ok a = true -> exists ch, mx_tcp m2 !! n = Some ch /\ concat (frames_to_user (ch_sent ch) (fun _ => true)) = target_bytes evs).

(** Up the channel: what the user sends next. *)
Definition reaches_target (l : MuxLoop) (arr : list Frame) (qu : list OutFrame) : Prop :=
  forall chunks hnd l' t, Forall (fun b => len b <= MAX_PLAINTEXT) chunks -> List.filter (of_session sid) qu = user_frames sid chunks ->
  mux_trace l arr hnd l' -> exists route, serves cid sid (ml_world l') route /\
    mux_client_to_target t (map (fun x => IRecv (Some x) true) route) = ({| ts_out := ts_out t ++ concat chunks; ts_shut := true |}, true).

Lemma client_told r os host port m1 ho i ed dd a : let s := mux_run (mux_start r) os in
  ho_mux ho = Some i -> ho_heap ho !! i = Some (mt_mux s) -> mx_closed (mt_mux s) = false -> 0 <= sid < 2 ^ 32 ->
  open_tcp_start (mt_mux s) host port (mt_next s) (mt_next s) = (Ok sid, m1) ->
  reaches_client ed dd (mt_next s) a (fun env m2 => http_open_tcp env http_no_answer ho host port = (told a (mt_next s), ho_update ho i m2)).
Proof.
  intros s Hi Hm Hcl Hsid Es qd cd d1 d2 evs Hc Hq Hd Hev. pose proof Hc as (_ & _ & _ & Hlim & _).
  destruct (open_started r os host port sid m1 Es) as (_ & _ & Hown & Hwait & Hcl1 & _).
  destruct (carries_reads _ _ _ _ Hc) as (fs & Hr & Hfs). exists (length fs).
  pose proof (pump_frames_download sid evs) as Hdl.
  assert (Hfit : List.filter (of_session sid) (map carried fs) = d1 ++ answer_frame sid (unit_of a) :: d2).
  { rewrite Hfs. apply channel_session; [done|]. assert (Hds : Forall (fun m => len (of_payload m) <= fe_limit ed) (d1 ++ d2)).
    { rewrite Hd. destruct (is_ok a); [|constructor]. apply Forall_map. eapply Forall_impl; [by apply pump_frames_fit|].
      cbn; intros x (_ & _ & ?). unfold READ_BUF, MAX_PLAINTEXT in *; lia. }
    apply Forall_app in Hds as [? ?]. apply Forall_app; split; [done|]. constructor; [|done].
    destruct (unit_of a); cbn; unfold MAX_PLAINTEXT, len in *; cbn; lia. }
  pose proof (answer_arrives sid (mt_next s) (unit_of a) d1 d2 fs m1 Hwait Hfit) as (Hrep & _).
  { destruct (is_ok a); [rewrite <- Hd in Hdl; by apply Forall_app in Hdl as [? _]|]. by apply app_nil in Hd as [-> _]. }
  pose proof (demux fs m1 sid (mt_next s) [] Hown) as Hch. pose proof (frames_keep_closed fs m1) as Hclf.
  set (mf := fold_left handle_client_frame fs m1) in *.
  exists (open_tcp_finish mf sid (Some (unit_of a))).2. cbv zeta.
  unfold http_open_tcp, with_retry, attempt, ensure_mux. rewrite Hi, Hm. unfold is_closed at 1. rewrite Hcl; cbn [negb].
  rewrite Hm. unfold mux_open; cbn [he_ch he_wt he_reads]. rewrite Es, Hr, reader_folds. fold mf. rewrite Hrep.
  unfold is_closed. split.
  - unfold told, unit_of, open_tcp_finish. destruct a; cbn; [done|]. by rewrite (eq_trans Hclf (eq_trans Hcl1 Hcl)).
  - intros Ha. destruct a as [sock|]; [|done]. cbn [is_ok unit_of open_tcp_finish snd] in *. eexists; split; [exact Hch|]. cbn [ch_sent app].
    assert (Hall : forall b : list bytes, frames_to_user b (fun _ => true) = b) by (induction b as [|x b IH]; cbn; congruence).
    rewrite Hall, tcp_view_carried, Hfit, view_until_skip, Hd by done. by apply pump_view.
Qed.

Lemma reaches_client_mono ed dd n a (Q Q' : HttpEnv -> MuxInner -> Prop) : (forall env m, Q env m -> Q' env m) ->
  reaches_client ed dd n a Q -> reaches_client ed dd n a Q'.
Proof. intros Hq H qd cd d1 d2 evs H1 H2 H3 H4. destruct (H qd cd d1 d2 evs H1 H2 H3 H4) as (k & m2 & ? & ?). exists k, m2. auto. Qed.

Lemma filter_carried arr : List.filter (of_session sid) (map carried arr) = map carried (List.filter (fun g => f_sid g =? sid) arr).
Proof. induction arr as [|f arr IH]; [done|]. cbn. rewrite IH. unfold of_session at 1; cbn. by destruct (f_sid f =? sid). Qed.

(** The server's side of an open that goes up the channel. *)
Lemma server_told host port eu du qu qu2 cu (l : MuxLoop) : carries_frames eu du (qu ++ qu2) cu -> sid <> 0 ->
  1 <= len host <= 255 -> utf8_valid host = true -> 0 <= port < 2 ^ 16 ->
  List.filter (of_session sid) qu = [out FOpen 0 sid (encode_open host port)] ->
  hub_ok (ml_world l) -> session_at cid sid (hw_st (ml_world l)) = Some None -> workers_ok l ->
  Forall (fun g => f_sid g <> sid) (ml_workers l) ->
  exists arr arr2, channel_reads (length (arr ++ arr2)) du cu = map (fun f => Ok (Some f)) (arr ++ arr2) /\
  map carried arr = List.filter (fun m => len (of_payload m) <=? fe_limit eu) qu /\
  forall hnd l1, mux_trace l arr hnd l1 -> Forall (fun g => f_sid g <> sid) (ml_workers l1) ->
  exists h1 f h2 c o, hnd = h1 ++ f :: h2 /\ carried f = out FOpen 0 sid (encode_open host port) /\
  let w := (server_run (ml_world l) h1).2 in
  let a := server_answer lookup_host connect budget w c host port in
  ss_heap (hw_st w) !! cid = Some c /\ opened_at cid sid w (handle_server_frame w f).2 a
  /\ ml_sent l1 = ml_sent l ++ o /\ List.filter (of_session sid) o = [answer_frame sid (unit_of a)]
  /\ (if is_ok a then reaches_target l1 arr2 qu2 else session_at cid sid (hw_st (ml_world l1)) = Some None).
Proof.
  intros Hc Hz Hh Hu Hp Hq Hok Hs Hwk Hws. pose proof Hc as (_ & _ & _ & Hlim & _).
  destruct (carries_reads _ _ _ _ Hc) as (fs & Hr & Hfs). rewrite List.filter_app in Hfs.
  apply map_eq_app in Hfs as (arr & arr2 & -> & Ha & Ha2). exists arr, arr2. split; [exact Hr|]. split; [exact Ha|].
  intros hnd l1 Ht Hw1.
  assert (Hlen : len (encode_open host port) <= fe_limit eu)
    by (unfold encode_open; rewrite !len_app, !len_le_bytes; unfold MAX_PLAINTEXT in *; lia).
  assert (Hone : exists f, List.filter (fun g => f_sid g =? sid) arr = [f] /\ carried f = out FOpen 0 sid (encode_open host port)).
  { assert (E : map carried (List.filter (fun g => f_sid g =? sid) arr) = [out FOpen 0 sid (encode_open host port)]).
    { rewrite <- filter_carried, Ha. apply channel_session; [done|]. by repeat constructor. }
    destruct (List.filter _ arr) as [|f [|]]; try done. exists f. split; [done|]. exact (f_equal (List.hd (carried f)) E). }
  destruct Hone as (f & Hone & Ef). pose proof Ef as Ef'. unfold carried, out in Ef'. injection Ef' as Et _ Esid Ep.
  destruct (hub_journey lookup_host connect budget bind cid sid l arr hnd l1 f host port) as (h1 & h2 & c & o & Eh & H0 & H1 & H2 & H3 & H4 & H5); try done.
  { rewrite Ep, <- (app_nil_r (encode_open host port)). by apply open_roundtrip. }
  exists h1, f, h2, c, o. split; [done|]. split; [done|]. cbv zeta in *. split; [done|]. split; [done|]. split; [done|]. split; [exact H4|].
  destruct (server_answer _ _ _ _ _ _ _) as [sock|e]; cbn [is_ok]; [|exact H5].
  intros chunks hnd2 l2 t Hck Hq2 Ht2. apply (trace_upload lookup_host connect budget bind cid sid chunks arr2 hnd2 l1 l2 t); [done|by eapply trace_workers| |done].
  rewrite Ha2. apply channel_session; [done|by apply user_frames_fit].
Qed.

(** A channel in use: the outbound's, alive, after any history [os]. *)
Definition in_use (ho : HttpOutbound) (i : nat) (cl : MuxTasks) : Prop :=
  ho_mux ho = Some i /\ ho_heap ho !! i = Some (mt_mux cl) /\ mx_closed (mt_mux cl) = false.

(** The session is new at the server: the connection is there without it, and no
    worker of the loop has a frame of it. *)
Definition new_session (l : MuxLoop) : Prop :=
  hub_ok (ml_world l) /\ session_at cid sid (hw_st (ml_world l)) = Some None /\ workers_ok l
  /\ Forall (fun g => f_sid g <> sid) (ml_workers l).

(** A session over the fallback, end to end. The frames [qu ++ qu2] of the
    request body arrive as [arr ++ arr2]; however the loop runs over [arr], the
    Open frame in it is handled once, in a world [w], with [server_answer]'s
    result there; that is the one frame the loop sends for the session; what the
    user sends later, in [qu2], reaches the target; and the answer reaches the
    client, whose open has then [ended]. *)
Definition session_exact (eu : FrameEncoder) (du : FrameDecoder) (qu qu2 : list OutFrame) (cu : list bytes) (l : MuxLoop)
  (n : nat) (host : bytes) (port : Z) (ended : result OpenError Z -> HttpEnv -> MuxInner -> Prop) : Prop :=
  exists arr arr2, channel_reads (length (arr ++ arr2)) du cu = map (fun f => Ok (Some f)) (arr ++ arr2) /\
  map carried arr = List.filter (fun m => len (of_payload m) <=? fe_limit eu) qu /\
  forall hnd l1, mux_trace l arr hnd l1 -> Forall (fun g => f_sid g <> sid) (ml_workers l1) ->
  exists h1 f h2 c o, hnd = h1 ++ f :: h2 /\ carried f = out FOpen 0 sid (encode_open host port) /\
  let w := (server_run (ml_world l) h1).2 in
  let a := server_answer lookup_host connect budget w c host port in
  ss_heap (hw_st w) !! cid = Some c /\ opened_at cid sid w (handle_server_frame w f).2 a
  /\ ml_sent l1 = ml_sent l ++ o /\ List.filter (of_session sid) o = [answer_frame sid (unit_of a)]
  /\ (if is_ok a then reaches_target l1 arr2 qu2 else session_at cid sid (hw_st (ml_world l1)) = Some None)
  /\ forall ed dd, reaches_client ed dd n a (ended a).

(** Whoever asks for it. *)
Lemma fallback_session r os ho i m1 host port eu du qu qu2 cu l (Q : result OpenError Z -> HttpEnv -> MuxInner -> Prop) :
  let cl := mux_run (mux_start r) os in let n := mt_next cl in
  utf8_valid host = true -> 0 <= port < 2 ^ 16 -> in_use ho i cl -> open_tcp_start (mt_mux cl) host port n n = (Ok sid, m1) ->
  carries_frames eu du (qu ++ qu2) cu -> List.filter (of_session sid) qu = [out FOpen 0 sid (encode_open host port)] -> new_session l ->
  (forall a env m2, http_open_tcp env http_no_answer ho host port = (told a n, ho_update ho i m2) -> Q a env m2) ->
  session_exact eu du qu qu2 cu l n host port Q.
Proof.
  intros cl n Hu Hp (Hi & Hm & Hcl) Es Hc Hq (Hok & Hn & Hwk & Hws) HQ.
  destruct (open_started r os host port sid m1 Es) as (Hz & Hh & _).
  assert (Hsid : 0 <= sid < 2 ^ 32).
  { destruct Hc as (_ & _ & _ & _ & Hwf & _). apply Forall_app in Hwf as [Hwf _].
    assert (Hin : In (out FOpen 0 sid (encode_open host port)) qu) by (eapply filter_In; rewrite Hq; by left).
    rewrite Forall_forall in Hwf. by destruct (Hwf _ (proj2 (list_elem_of_In _ _) Hin)). }
  destruct (server_told host port eu du qu qu2 cu l) as (arr & arr2 & Hr & Ha & Hsrv); try done.
  exists arr, arr2. split; [exact Hr|]. split; [exact Ha|]. intros hnd l1 Ht Hw1.
  destruct (Hsrv hnd l1 Ht Hw1) as (h1 & f & h2 & c & o & H1 & H2 & H3 & H4 & H5 & H6 & H7).
  exists h1, f, h2, c, o. split; [done|]. split; [done|]. cbv zeta. split; [done|]. split; [done|]. split; [done|]. split; [done|]. split; [done|].
  intros ed dd. eapply reaches_client_mono; [apply HQ|]. by apply (client_told r os host port m1).
Qed.

Context {PW : Type} {TP : Transport PW}.


(** So does an HTTP client: a CONNECT is answered "200", a forwarded request
    by the target alone, and a failure by the page that names a transport
    failure. *)
Theorem http_request_over_fallback q rd last r os ho i m1 eu du qu qu2 cu l :
  let cl := mux_run (mux_start r) os in let n := mt_next cl in let host := (request_target q).1 in let port := (request_target q).2 in
  utf8_valid host = true -> 0 <= port < 2 ^ 16 ->
  in_use ho i cl -> open_tcp_start (mt_mux cl) host port n n = (Ok sid, m1) ->
  carries_frames eu du (qu ++ qu2) cu -> List.filter (of_session sid) qu = [out FOpen 0 sid (encode_open host port)] -> new_session l ->
  session_exact eu du qu qu2 cu l n host port (fun a env m2 =>
    open_request (P := PW) rd (OHttp {| hx_out := ho; hx_env := [env] |}) q last
    = (match q with
       | HConnect _ _ _ => [if is_ok a then response_200 else error_response (str "transport-failure")]
       | HForward _ _ _ => if is_ok a then [] else [error_response (str "transport-failure")]
       end,
       match q with HForward _ _ head => if is_ok a then [head] else [] | _ => [] end,
       told a n, OHttp {| hx_out := ho_update ho i m2; hx_env := [] |}, last)).
Proof.
  intros cl n host port Hutf Hport Hu Es Hc Hqu Hn. apply (fallback_session r os ho i m1); try done.
  intros a env m2 E. unfold open_request, ob_open_tcp, t_open_tcp, http_transport, hx_run; cbn [hx_env hx_out default from_option id lookup list_lookup drop].
  unfold host, port in E. rewrite E. by destruct a, q.
Qed.

End journey.

(** ** Witnesses *)

Module MuxJourneyWitness.
Import CryptoWitness HubWitness HubPropertyWitness JourneyWitness.

#[local] Instance no_pool : Transport unit :=
  {| t_open_tcp := fun t _ _ => (Err (ETransport "unused"), t); t_udp_associate := fun t => (Err (ETransport "unused"), t) |}.
#[local] Instance witness_hooks : ServerHooks HubWorld := Hooks no_dns dials 4 (fun _ => None) 1.

(** A channel on which a session and an association were opened before. *)
Definition history : list MuxOp := [MOpen (str "a") 80; MUdp].
Definition cl : MuxTasks := mux_run (mux_start 4) history.
Definition ho : HttpOutbound := {| ho_mux := Some 0%nat; ho_heap := {[0%nat := mt_mux cl]}; ho_next := 1 |}.
Definition opening : OutFrame := out FOpen 0 6 (encode_open (str "8.8.8.8") 53).
(** Other frames are on the channel, before it and after. *)
Definition up_frames : list OutFrame := [out FPing 0 0 []; opening; out FData 0 4 (str "x")].
Definition up_wire : bytes := Eval vm_compute in concat (fst (writer_task up up_frames)).
Definition server_dec : FrameDecoder := fd_with_limit (Some key) None 16384.
Definition loop : MuxLoop := {| ml_world := world; ml_workers := []; ml_sent := [] |}.

(** The target's first bytes overtake the answer. *)
Definition down_frames : list OutFrame := [out FData 0 6 (str "HT"); out FOpenOk 0 6 []; out FPong 0 0 []; out FData 0 6 (str "TP")].
Definition down_wire : bytes := Eval vm_compute in concat (fst (writer_task down down_frames)).
Definition reads : list (OutEvent unit) := [ORead (Ok (str "HT")) tt; ORead (Ok (str "TP")) tt].

Lemma up_carried : carries_frames up server_dec (up_frames ++ []) [take 30 up_wire; drop 30 up_wire].
Proof.
  split; [vm_compute; intuition discriminate|]. split; [vm_compute; intuition (discriminate || reflexivity)|]. split; [reflexivity|].
  split; [vm_compute; discriminate|]. split; [repeat (apply Forall_cons; split); try apply Forall_nil; unfold out_wf; cbn; lia|].
  split; [repeat constructor; vm_compute; discriminate|]. by vm_compute.
Qed.

Lemma down_carried : carries_frames down server_dec down_frames [take 41 down_wire; drop 41 down_wire].
Proof.
  split; [vm_compute; intuition discriminate|]. split; [vm_compute; intuition (discriminate || reflexivity)|]. split; [reflexivity|].
  split; [vm_compute; discriminate|]. split; [repeat (apply Forall_cons; split); try apply Forall_nil; unfold out_wf; cbn; lia|].
  split; [repeat constructor; vm_compute; discriminate|]. by vm_compute.
Qed.


End MuxJourneyWitness.
