(* ===== verification/Health.v ===== *)
(** * The health endpoint: [health.rs]

    The snapshot [/healthz] answers, in both modes, and the [healthcheck]
    subcommand that probes it: its URL, its bounded reading of the response and
    its verdict. Name resolution and the TCP connection are a parameter; a
    response is the list of its reads. *)

From S2P Require Import Prelude Bytes Crypto Frame Net Limit State Config Outbound.

(** ** The snapshot *)

Section snapshot.
Context {T1 T2 : Type}.

Inductive Source :=
| SrcServer (st : ServerState) (transport : bytes)
| SrcClient (ob : Outbound (P := T1) (H := T2)).

(** [started] and the readings of the monotonic clock are in milliseconds. *)
Record Health := { h_started : Z; h_source : Source }.

Definition transport (h : Health) : bytes :=
  match h_source h with
  | SrcServer _ t => t
  | SrcClient (OWt _) => str "wt"
  | SrcClient (OHttp _) => str "fallback"
  | SrcClient (OBoth _ _ _) => str "mixed"
  end.

Definition circuit (now : Z) (h : Health) : bytes :=
  match h_source h with
  | SrcClient (OBoth _ _ cb) => if negb (can_try cb now) then str "open" else str "closed"
  | _ => str "closed"
  end.

(** A JSON string and a JSON member. *)
Definition quoted (s : bytes) : bytes := c_dquote :: s ++ [c_dquote].
Definition member (k : bytes) (v : bytes) : bytes := quoted k ++ str ":" ++ v.

(** [snapshot] at [now]; [last] is [LAST_FALLBACK_MILLIS]. *)
Definition snapshot (now last : Z) (h : Health) : bytes :=
  let uptime := (now - h_started h) / 1000 in
  let '(active_sessions, wt_conns) :=
    match h_source h with
    | SrcServer st _ => (ss_active_sessions st, Z.of_nat (size (ss_conns st)))
    | SrcClient _ => (0, 0)
    end in
  let last_fallback_at := if last =? 0 then str "null" else dec last in
  str "{" ++ member (str "uptime") (dec uptime) ++ str "," ++ member (str "active_sessions") (dec active_sessions)
  ++ str "," ++ member (str "wt_conns") (dec wt_conns) ++ str "," ++ member (str "transport") (quoted (transport h))
  ++ str "," ++ member (str "circuit") (quoted (circuit now h))
  ++ str "," ++ member (str "last_fallback_at") last_fallback_at ++ str "}".

End snapshot.

(** ** The probe *)

Definition parse_url (url : bytes) : result msg (bytes * Z * bytes) :=
  let? rest := ok_or (strip_prefix (str "http://") url) "--url must be http://host:port/path" in
  let '(hostport, path) := match split_once c_slash rest with
                           | Some (h, p) => (h, c_slash :: p)
                           | None => (rest, str "/")
                           end in
  let path := if bool_decide (path = str "/") then str "/healthz" else path in
  let? (host, port) := match rsplit_once c_colon hostport with
                       | Some (h, p) => let? q := ok_or (parse_uint u16_max p) "bad healthcheck port" in Ok (h, q)
                       | None => Ok (hostport, 80)
                       end in
  let? _ := ensure (negb (bool_decide (host = []))) "http:// URL needs a host" in
  Ok (trim host, port, path).

Definition MAX_RESP : Z := 64 * 1024.

(** The read loop; an empty read is the end of the stream. *)
Fixpoint read_response (resp : bytes) (reads : list (result msg bytes)) : result msg bytes :=
  match reads with
  | [] | Ok [] :: _ => Ok resp
  | Ok chunk :: t =>
    let resp := resp ++ chunk in
    if MAX_RESP <? len resp then Err "healthcheck: response exceeds the cap" else read_response resp t
  | Err e :: _ => Err e
  end.



Definition request (host_header path : bytes) : bytes :=
  str "GET " ++ path ++ str " HTTP/1.1" ++ crlf ++ str "Host: " ++ host_header ++ crlf
  ++ str "User-Agent: newppp-healthcheck/1" ++ crlf ++ str "Connection: close" ++ crlf ++ crlf.

(** The verdict on a complete response. *)
Definition judge (resp : bytes) : result msg bytes :=
  let text := utf8_lossy resp in
  let ls := lines text in
  let status := default [] (head ls) in
  let? _ := ensure (contains (str " 200 ") status) "bad status" in
  let? _ := ensure (contains (str "uptime") text) "response lacks /healthz snapshot" in
  Ok (default [] (List.find (starts_with (str "{")) (List.filter (fun l => negb (bool_decide (l = []))) ls))).

(** [healthcheck_once]; [exchange] connects to the target, sends the request
    and gives the reads. *)
Definition healthcheck_once (url : bytes) (exchange : bytes -> bytes -> result msg (list (result msg bytes)))
  : result msg bytes :=
  let? (hp, path) := parse_url url in
  let '(host, port) := hp in
  let target := host ++ str ":" ++ dec port in
  let host_header := if port =? 80 then host else target in
  let? reads := exchange target (request host_header path) in
  let? resp := read_response [] reads in
  judge resp.

(** The exit code. *)
Definition healthcheck (url : bytes) (exchange : bytes -> bytes -> result msg (list (result msg bytes))) : Z :=
  match healthcheck_once url exchange with Ok _ => 0 | Err _ => 1 end.

(** ** Lemmas *)

Lemma contains_app p a b : contains p (a ++ p ++ b) = true.
Proof.
  unfold contains; induction a as [|x a IH]; cbn [app].
  - rewrite (proj2 (find_sub_some p (p ++ b) 0)); [done|]. split_and!; [lia| |lia].
    apply starts_with_spec; by exists b.
  - cbn [find_sub]. destruct (starts_with p (x :: a ++ p ++ b)); [done|].
    by destruct (find_sub p (a ++ p ++ b)).
Qed.

Lemma split_on_nonempty c s : split_on c s <> [].
Proof. destruct s as [|x s]; cbn; [done|]. destruct (x =? c); [done|]. by destruct (split_on c s). Qed.

(** A terminated first line. *)
Lemma lines_cons l s : 10 ∉ l -> lines (l ++ 10 :: s) = strip_cr l :: lines s.
Proof.
  intros Hl; unfold lines. rewrite split_on_char by done. pose proof (split_on_nonempty 10 s) as Hne.
  set (ps := split_on 10 s) in *. rewrite reverse_cons.
  destruct (reverse ps) as [|x r] eqn:Er; [by destruct Hne; rewrite <- (reverse_involutive ps), Er|].
  cbn [app]. assert (Eps : ps = reverse (x :: r)) by (by rewrite <- Er, reverse_involutive).
  destruct x as [|y x].
  - by rewrite reverse_app, reverse_singleton.
  - rewrite reverse_cons, Er; cbn [app]. rewrite reverse_app, reverse_singleton. done.
Qed.

Lemma lines_last l : 10 ∉ l -> l <> [] -> lines l = [l].
Proof. intros Hl Hn; unfold lines; rewrite split_on_none by done. by destruct l. Qed.

Lemma strip_cr_app l : strip_cr (l ++ [13]) = l.
Proof. unfold strip_cr. rewrite reverse_snoc. apply reverse_involutive. Qed.

(** A head of [CRLF]-terminated lines, then the body. *)
Definition head_text (hs : list bytes) : bytes := concat (map (fun h => h ++ crlf) hs).

Lemma lines_head hs s : Forall (fun h => 10 ∉ h) hs -> lines (head_text hs ++ s) = hs ++ lines s.
Proof.
  induction 1 as [|h hs Hh Hhs IH]; [done|]. unfold head_text in *; cbn [map concat].
  set (x := concat _) in *. replace (((h ++ crlf) ++ x) ++ s) with ((h ++ [13]) ++ 10 :: x ++ s)
    by (unfold crlf; by rewrite <- !app_assoc).
  rewrite lines_cons, strip_cr_app, IH; [done|].
  rewrite not_elem_of_app; split; [done|]. intros H; apply list_elem_of_singleton in H; done.
Qed.

Definition ascii (b : bytes) : Prop := Forall (fun c => c <= 127) b.

Lemma ascii_app a b : ascii a -> ascii b -> ascii (a ++ b).
Proof. intros; by apply Forall_app. Qed.

Lemma dec_chars n c : c ∈ dec n -> 48 <= c <= 57.
Proof. intros H%dec_digit; unfold is_digit, in_rng in H; bsimpl; lia. Qed.

(** Bytes that may stand in a snapshot: printable ASCII. *)
Definition printable (b : bytes) : Prop := Forall (fun c => 32 <= c <= 126) b.

Lemma printable_str s : forallb (fun c => (32 <=? c) && (c <=? 126)) (str s) = true -> printable (str s).
Proof. intros H; apply Forall_forall; intros c Hc. rewrite forallb_forall in H.
  specialize (H c ltac:(by apply list_elem_of_In)). bsimpl; lia. Qed.

Lemma printable_app a b : printable a -> printable b -> printable (a ++ b).
Proof. intros; by apply Forall_app. Qed.
Lemma printable_dec n : printable (dec n).
Proof. apply Forall_forall; intros c Hc%dec_chars; lia. Qed.
Lemma printable_quoted s : printable s -> printable (quoted s).
Proof. intros H; unfold quoted; constructor; [done|]. apply printable_app; [done|]. by repeat constructor. Qed.
#[local] Hint Resolve printable_str printable_app printable_dec printable_quoted : newppp.

Section properties.
Context {T1 T2 : Type}.

(** The transports a server reports. *)
Definition label_ok (h : Health (T1 := T1) (T2 := T2)) : Prop :=
  match h_source h with SrcServer _ t => printable t | SrcClient _ => True end.

Lemma printable_circuit now (h : Health (T1 := T1) (T2 := T2)) : printable (circuit now h).
Proof. unfold circuit; destruct (h_source h) as [|[]]; try case_match; by apply printable_str. Qed.

Lemma printable_snapshot now last (h : Health (T1 := T1) (T2 := T2)) : label_ok h -> printable (snapshot now last h).
Proof.
  intros Hl. assert (printable (transport h)).
  { unfold transport, label_ok in *; destruct (h_source h) as [|[]]; [done|by apply printable_str..]. }
  pose proof (printable_circuit now h).
  unfold snapshot. destruct (match h_source h with SrcServer _ _ => _ | _ => _ end) as [a w].
  unfold member. repeat first [apply printable_app|apply printable_quoted|apply printable_dec|by apply printable_str|done].
  destruct (last =? 0); [by apply printable_str|apply printable_dec].
Qed.

Lemma read_response_all cs : forall acc, Forall (fun c => c <> []) cs -> len (acc ++ concat cs) <= MAX_RESP ->
  read_response acc (map Ok cs) = Ok (acc ++ concat cs).
Proof.
  induction cs as [|c cs IH]; intros acc Hne Hl; cbn [map read_response concat] in *; [by rewrite app_nil_r|].
  inv Hne. destruct c as [|x c]; [done|]. rewrite app_assoc in *.
  pose proof (len_nonneg (concat cs)). rewrite len_app in Hl.
  rewrite (proj2 (Z.ltb_ge MAX_RESP (len (acc ++ x :: c)))) by lia.
  apply IH; [done|]. by rewrite len_app.
Qed.

Lemma read_response_cap reads : forall acc r, len acc <= MAX_RESP -> read_response acc reads = Ok r -> len r <= MAX_RESP.
Proof.
  induction reads as [|[[|x c]|e] t IH]; intros acc r Ha H; cbn [read_response] in H; simplify_eq; try done.
  destruct (Z.ltb_spec MAX_RESP (len (acc ++ x :: c))); [done|]. by eapply IH.
Qed.

Lemma read_response_over cs rest : forall acc, Forall (fun c => c <> []) cs -> len acc <= MAX_RESP < len (acc ++ concat cs) ->
  exists e, read_response acc (map Ok cs ++ rest) = Err e.
Proof.
  induction cs as [|c cs IH]; intros acc Hne [Ha Hl]; cbn [map app read_response concat] in *.
  - rewrite app_nil_r in Hl; lia.
  - inv Hne. destruct c as [|x c]; [done|]. rewrite app_assoc in Hl.
    destruct (Z.ltb_spec MAX_RESP (len (acc ++ x :: c))); [eauto|]. by apply IH.
Qed.

Lemma printable_no c b : (c < 32 \/ 126 < c) -> printable b -> c ∉ b.
Proof. intros Hc Hb Hin. unfold printable in Hb; rewrite Forall_forall in Hb. apply Hb in Hin. lia. Qed.

Lemma printable_ascii b : printable b -> ascii b.
Proof. intros H; eapply Forall_impl; [exact H|]. cbn; lia. Qed.

Lemma ascii_head hs : Forall printable hs -> ascii (head_text hs).
Proof.
  unfold head_text; induction 1 as [|h hs Hh Hhs IH]; [constructor|]; cbn [map concat].
  apply ascii_app; [|done]. apply ascii_app; [by apply printable_ascii|]. by repeat constructor.
Qed.

Lemma find_body hs b : Forall (fun h => starts_with (str "{") h = false) hs -> starts_with (str "{") b = true ->
  List.find (starts_with (str "{")) (List.filter (fun l => negb (bool_decide (l = []))) (hs ++ [] :: [b])) = Some b.
Proof.
  induction 1 as [|h hs Hh Hhs IH]; intros Hb; cbn [app List.filter].
  - rewrite bool_decide_true by done; cbn [negb]. destruct b as [|x b]; [done|].
    rewrite bool_decide_false by done; cbn [negb List.find]. by rewrite Hb.
  - destruct (negb _); [|by apply IH]. cbn [List.find]; rewrite Hh. by apply IH.
Qed.

Lemma snapshot_uptime now last (h : Health (T1 := T1) (T2 := T2)) :
  exists b, snapshot now last h = [123; c_dquote] ++ str "uptime" ++ b.
Proof.
  unfold snapshot, member, quoted. destruct (match h_source h with SrcServer _ _ => _ | _ => _ end) as [a w].
  eexists. reflexivity.
Qed.

(** The verdict on a well-formed [200] response that carries a snapshot. *)
Lemma judge_snapshot status hs now last (h : Health (T1 := T1) (T2 := T2)) : label_ok h ->
  Forall printable (status :: hs) -> Forall (fun l => starts_with (str "{") l = false) (status :: hs) ->
  contains (str " 200 ") status = true ->
  judge (head_text (status :: hs) ++ crlf ++ snapshot now last h) = Ok (snapshot now last h).
Proof.
  intros Hl Hp Hs H200. pose proof (printable_snapshot now last h Hl) as Hsn.
  assert (Hb : starts_with (str "{") (snapshot now last h) = true).
  { unfold snapshot; destruct (match h_source h with SrcServer _ _ => _ | _ => _ end); done. }
  unfold judge. rewrite utf8_lossy_ascii.
  2:{ apply ascii_app; [by apply ascii_head|]. apply ascii_app; [by repeat constructor|]. by apply printable_ascii. }
  rewrite lines_head.
  2:{ eapply Forall_impl; [exact Hp|]. intros x Hx; by apply printable_no; [lia|]. }
  change (crlf ++ snapshot now last h) with ([13] ++ 10 :: snapshot now last h) at 1 3.
  rewrite lines_cons by (intros H; apply list_elem_of_singleton in H; done).
  rewrite (lines_last (snapshot now last h)); [|by apply printable_no; [lia|]|by intros E; rewrite E in Hb].
  change (strip_cr [13]) with (@nil Z). cbn [head app default]; unfold id. rewrite H200; cbn [ensure rbind].
  replace (contains (str "uptime") _) with true.
  2:{ symmetry. destruct (snapshot_uptime now last h) as [b ->].
      change ([123; c_dquote] ++ ?x) with ([123; c_dquote] ++ x). rewrite !app_assoc, <- (app_assoc _ (str "uptime")).
      apply contains_app. }
  cbn [ensure rbind]. change (?a :: hs ++ ?b) with ((a :: hs) ++ b). by rewrite find_body.
Qed.

(** C36: the health probe reads back the snapshot. When the endpoint of the URL
    answers a [200] head, whatever its headers, followed by the snapshot of its
    state, the subcommand prints exactly this snapshot and exits with 0, however
    the network cuts the response, as long as it is within 64 KiB; a longer
    response is refused whatever it holds, before more is read. *)
Theorem health_probe_roundtrip url host port path exchange status hs now last (h : Health (T1 := T1) (T2 := T2)) cs :
  parse_url url = Ok (host, port, path) -> label_ok h ->
  Forall printable (status :: hs) -> Forall (fun l => starts_with (str "{") l = false) (status :: hs) ->
  contains (str " 200 ") status = true ->
  Forall (fun c => c <> []) cs -> concat cs = head_text (status :: hs) ++ crlf ++ snapshot now last h ->
  exchange (host ++ str ":" ++ dec port)
           (request (if port =? 80 then host else host ++ str ":" ++ dec port) path) = Ok (map Ok cs) ->
  (len (concat cs) <= MAX_RESP -> healthcheck_once url exchange = Ok (snapshot now last h) /\ healthcheck url exchange = 0) /\
  (MAX_RESP < len (concat cs) -> healthcheck url exchange = 1).
Proof.
  intros Hu Hl Hp Hs H200 Hne E Hx.
  assert (Eo : healthcheck_once url exchange = (let? resp := read_response [] (map Ok cs) in judge resp)).
  { unfold healthcheck_once; rewrite Hu; cbn [rbind]. by rewrite Hx. }
  unfold healthcheck; rewrite Eo. split; intros Hlen.
  - rewrite read_response_all by done; cbn [app rbind]. by rewrite E, judge_snapshot.
  - destruct (read_response_over cs [] [] Hne) as [e Ee]; [split; [done|exact Hlen]|].
    rewrite app_nil_r in Ee. by rewrite Ee.
Qed.

(** A healthy verdict rests on the response: at most 64 KiB were read, the
    first line has the status 200, the text mentions the snapshot, and what is
    printed is nothing or a line that opens an object. *)
Theorem healthcheck_sound url exchange body : healthcheck_once url exchange = Ok body ->
  exists host port path reads resp, parse_url url = Ok (host, port, path)
  /\ exchange (host ++ str ":" ++ dec port) (request (if port =? 80 then host else host ++ str ":" ++ dec port) path) = Ok reads
  /\ read_response [] reads = Ok resp /\ len resp <= MAX_RESP
  /\ (exists status, head (lines (utf8_lossy resp)) = Some status /\ contains (str " 200 ") status = true)
  /\ contains (str "uptime") (utf8_lossy resp) = true
  /\ (body = [] \/ (body ∈ lines (utf8_lossy resp) /\ starts_with (str "{") body = true)).
Proof.
  unfold healthcheck_once; intros H. apply rbind_ok in H as ([[host port] path] & Hu & H).
  apply rbind_ok in H as (reads & Hx & H). apply rbind_ok in H as (resp & Hr & H).
  exists host, port, path, reads, resp. unfold judge in H; rinv.
  split_and!; try done; [by apply (read_response_cap reads [] resp)| |].
  - destruct (lines (utf8_lossy resp)) as [|l ls]; cbn in *; [done|]. by exists l.
  - destruct (List.find _ _) as [l|] eqn:Ef; cbn in *; [|by left]. right; subst.
    apply List.find_some in Ef as [Hin Hst]. apply filter_In in Hin as [Hin _]. by rewrite list_elem_of_In.
Qed.

End properties.

(** ** URLs *)

Definition url_of (host : bytes) (port : option Z) (path : bytes) : bytes :=
  str "http://" ++ host ++ (match port with Some p => c_colon :: dec p | None => [] end) ++ path.

(** The probe's URL. A host without blanks or slashes, an explicit port and a
    path are recovered from the URL; without a path it is [/healthz], without a
    port and a colon in the host it is port 80. *)
Theorem health_url_roundtrip host port path : forallb plain host = true -> host <> [] -> c_slash ∉ host ->
  (path = [] \/ exists p, path = c_slash :: p) ->
  match port with Some p => 0 <= p <= u16_max | None => c_colon ∉ host end ->
  parse_url (url_of host port path)
  = Ok (host, default 80 port, if bool_decide (path = []) || bool_decide (path = str "/") then str "/healthz" else path).
Proof.
  intros Hpl Hne Hs Hpath Hport. unfold parse_url, url_of. rewrite strip_prefix_app; cbn [ok_or rbind].
  set (hp := host ++ match port with Some p => c_colon :: dec p | None => [] end). rewrite app_assoc; fold hp.
  assert (Hhp : c_slash ∉ hp).
  { unfold hp; destruct port as [p|]; [|by rewrite app_nil_r]. rewrite not_elem_of_app, not_elem_of_cons.
    split_and!; [done|done|]. intros H%dec_digit; done. }
  assert (Hparse : (let? (host0, port0) := match rsplit_once c_colon hp with
      | Some (h, p) => let? q := ok_or (parse_uint u16_max p) "bad healthcheck port"%string in Ok (h, q)
      | None => Ok (hp, 80) end in Ok (host0, port0)) = Ok (host, default 80 port)).
  { unfold hp; destruct port as [p|].
    - rewrite rsplit_once_char by (intros H%dec_digit; done). rewrite parse_uint_dec; [done|lia|unfold u16_max in *; lia].
    - rewrite app_nil_r. unfold rsplit_once. rewrite (proj2 (split_once_none _ _)) by (by rewrite elem_of_reverse). done. }
  destruct Hpath as [->|[p ->]].
  - rewrite app_nil_r, (proj2 (split_once_none _ _)) by done. cbn [bool_decide orb].
    destruct (match rsplit_once c_colon hp with Some _ => _ | None => _ end) as [[h q]|]; [|done].
    cbn [rbind] in *. injection Hparse as -> ->. rewrite bool_decide_false by done; cbn [negb ensure rbind].
    by rewrite trim_plain.
  - rewrite split_once_char by done. destruct (match rsplit_once c_colon hp with Some _ => _ | None => _ end) as [[h q]|]; [|done].
    cbn [rbind] in *. injection Hparse as -> ->. rewrite (bool_decide_false (host = [])) by done; cbn [negb ensure rbind].
    rewrite trim_plain, (bool_decide_false (c_slash :: p = [])) by done. done.
Qed.

(** A bracketed IPv6 host needs an explicit port: without one, the last colon
    of the address is taken for the port's. *)
Theorem health_url_ipv6 : parse_url (str "http://[::1]/healthz") = Err "bad healthcheck port"%string
  /\ parse_url (str "http://[::1]:9100/healthz") = Ok (str "[::1]", 9100, str "/healthz").
Proof. split; vm_compute; reflexivity. Qed.

(** ** Witnesses *)

Module HealthWitness.

Definition idle_client : Health (T1 := unit) (T2 := unit) :=
  {| h_started := 1000; h_source := SrcClient (OBoth tt tt (cb_new 3 60000)) |}.
Definition status : bytes := str "HTTP/1.1 200 OK".
Definition head : list bytes := [str "content-type: application/json"; str "cache-control: no-store"].
Definition body : bytes := Eval vm_compute in snapshot 62000 0 idle_client.
Definition response : bytes := Eval vm_compute in head_text (status :: head) ++ crlf ++ body.
Definition exchange (target req : bytes) : result msg (list (result msg bytes)) :=
  if bool_decide (target = str "127.0.0.1:9100") then Ok (map Ok [take 20 response; drop 20 response]) else Err "connect failed"%string.

Lemma health_probe_roundtrip_witness : healthcheck (str "http://127.0.0.1:9100") exchange = 0
  /\ healthcheck_once (str "http://127.0.0.1:9100") exchange = Ok body.
Proof.
  destruct (health_probe_roundtrip (str "http://127.0.0.1:9100") (str "127.0.0.1") 9100 (str "/healthz") exchange
    status head 62000 0 idle_client [take 20 response; drop 20 response]) as [H _].
  - vm_compute; reflexivity.
  - exact I.
  - repeat constructor; done.
  - repeat constructor; done.
  - vm_compute; reflexivity.
  - repeat constructor; vm_compute; discriminate.
  - vm_compute; reflexivity.
  - vm_compute; reflexivity.
  - destruct H as [H1 H2]; [vm_compute; discriminate|]. split; [exact H2|exact H1].
Defined.

Lemma health_url_roundtrip_witness : parse_url (url_of (str "[::1]") (Some 9100) (str "/x")) = Ok (str "[::1]", 9100, str "/x").
Proof.
  apply (health_url_roundtrip (str "[::1]") (Some 9100) (str "/x")); [reflexivity|done| | |].
  - by apply split_once_none.
  - right; by exists (str "x").
  - unfold u16_max; lia.
Defined.

Lemma healthcheck_sound_witness : exists status, contains (str " 200 ") status = true /\ status = HealthWitness.status.
Proof.
  destruct (healthcheck_sound (str "http://127.0.0.1:9100") exchange body ltac:(vm_compute; reflexivity))
    as (ho & po & pa & reads & resp & Hu & Hx & Hr & _ & (s & Hs & H200) & _).
  exists s; split; [exact H200|]. vm_compute in Hu; injection Hu as <- <- <-. vm_compute in Hx; injection Hx as <-.
  vm_compute in Hr; injection Hr as <-. vm_compute in Hs; injection Hs as <-. reflexivity.
Defined.

End HealthWitness.
