(* ===== verification/Routes.v ===== *)
(** * The web ports: [router], [plain_router], [run_tls] and [run_plain] of
    [server/fallback.rs], [router] and [healthz] of [health.rs], the page of
    [server/disguise.rs]

    Which handler each request reaches, and so what someone without credentials
    can learn from the answers. axum is the class [Axum]: a request's path is
    matched against the routes' patterns, its method against the matching
    route's. *)

From S2P Require Import Prelude Bytes Crypto Frame Addr Net Ip Limit State Config ServerAuth Handshake Web Outbound Health FallbackLink.

(** ** axum *)

Inductive Method := GET | HEAD | POST | MOther (m : bytes).

#[global] Instance Method_eq_dec : EqDecision Method.
Proof. solve_decision. Defined.

(** [Router::new().route(pattern, get(..).post(..))...fallback(..)]. *)
Record Router (H : Type) := { rt_routes : list (bytes * list (Method * H)); rt_fallback : option H }.
Arguments rt_routes {H}. Arguments rt_fallback {H}.

Inductive Dispatch (H : Type) := DHandler (h : H) | DMethodNotAllowed | DNotFound.
Arguments DHandler {H}. Arguments DMethodNotAllowed {H}. Arguments DNotFound {H}.

Class Axum := {
  ax_matches : bytes -> bytes -> bool;
  ax_dispatch : forall {H}, Router H -> Method -> bytes -> Dispatch H;
}.

(** A method router's answer: [get] serves HEAD too. *)
Definition by_method {H} (ms : list (Method * H)) (m : Method) : Dispatch H :=
  match find (fun x => bool_decide (x.1 = m) || (bool_decide (x.1 = GET) && bool_decide (m = HEAD))) ms with
  | Some (_, h) => DHandler h
  | None => DMethodNotAllowed
  end.

Definition static_pattern (p : bytes) : bool := negb (has_char 123 p) && negb (has_char 125 p).

(** Documented behaviour (axum 0.8): a pattern without braces matches itself; one
    that ends in a capture matches only paths with what is before it; the
    router's fallback serves the paths no route matches, the method router
    answers 405 for the methods it has no handler for. *)
Class AxumLaws (A : Axum) : Prop := {
  ax_static pat p : static_pattern pat = true -> ax_matches pat p = bool_decide (p = pat);
  ax_capture pre name p : ax_matches (pre ++ str "{" ++ name ++ str "}") p = true -> starts_with pre p = true;
  ax_miss H (r : Router H) m p : Forall (fun x => ax_matches x.1 p = false) (rt_routes r) ->
    ax_dispatch r m p = match rt_fallback r with Some h => DHandler h | None => DNotFound end;
  ax_hit H (r : Router H) pat ms m p : rt_routes r = [(pat, ms)] -> ax_matches pat p = true -> ax_dispatch r m p = by_method ms m;
}.

(** ** The page *)

(** [DISGUISE_HTML], line by line. *)
Definition DISGUISE_HTML : bytes := concat (map (fun l => l ++ [10]) [
  str "<!DOCTYPE html>";
  str "<html>";
  str "<head>";
  str "<title>Welcome to nginx!</title>";
  str "<style>";
  str "    body {";
  str "        width: 35em;";
  str "        margin: 0 auto;";
  str "        font-family: Tahoma, Verdana, Arial, sans-serif;";
  str "    }";
  str "</style>";
  str "</head>";
  str "<body>";
  str "<h1>Welcome to nginx!</h1>";
  str "<p>If you see this page, the nginx web server is successfully installed and";
  str "working. Further configuration is required.</p>";
  [];
  str "<p>For online documentation and support please refer to";
  str "<a href=" ++ [c_dquote] ++ str "http://nginx.org/" ++ [c_dquote] ++ str ">nginx.org</a>.<br/>";
  str "Commercial support is available at";
  str "<a href=" ++ [c_dquote] ++ str "http://nginx.com/" ++ [c_dquote] ++ str ">nginx.com</a>.</p>";
  [];
  str "<p><em>Thank you for using nginx.</em></p>";
  str "</body>";
  str "</html>" ]).

(** [disguise_response]: status, content type, cache control, body. *)
Record WebResponse := { wr_status : Z; wr_type : bytes; wr_cache : bytes; wr_body : bytes }.
Definition disguise_response : WebResponse :=
  {| wr_status := 200; wr_type := str "text/html; charset=utf-8"; wr_cache := str "no-store"; wr_body := DISGUISE_HTML |}.

(** ** The routers *)

Inductive FrontHandler := HWs | HApi | HDisguiseHandler.
Inductive PlainHandler := HAcme | HRedirect.

Definition router (path : bytes) : Router FrontHandler :=
  {| rt_routes := [(path, [(GET, HWs); (POST, HApi)])]; rt_fallback := Some HDisguiseHandler |}.

Definition acme_prefix : bytes := str "/.well-known/acme-challenge/".
Definition plain_router : Router PlainHandler :=
  {| rt_routes := [(acme_prefix ++ str "{" ++ str "token" ++ str "}", [(GET, HAcme)])]; rt_fallback := Some HRedirect |}.

Definition health_router : Router unit := {| rt_routes := [(str "/healthz", [(GET, tt)])]; rt_fallback := None |}.

(** [healthz], of the snapshot taken. *)
Definition healthz (snapshot : bytes) : WebResponse :=
  {| wr_status := 200; wr_type := str "application/json"; wr_cache := str "no-store"; wr_body := snapshot |}.

(** [run_tls] and [run_plain]: what they wait for, in order; [serve] is how the
    server ends. *)
Definition run_tls (load bind serve : result msg unit) : result msg unit :=
  let? _ := load in let? _ := bind in serve.
Definition run_plain (bind serve : result msg unit) : result msg unit := let? _ := bind in serve.

Section front.
Context {P : Prims} {A : Axum}.

(** A request on the HTTPS port. *)
Record FrontRequest := {
  fq_method : Method; fq_path : bytes; fq_auth : option bytes; fq_upgrade : bool; fq_body : list (result msg bytes) }.

Inductive FrontResponse := FAnswer (r : FbResponse) | FMethodNotAllowed | FNotFound.

Definition serve_front (tm : FbTimes) (st : ServerState) (q : FrontRequest) : FrontResponse * ServerState :=
  match ax_dispatch (router (ss_path st)) (fq_method q) (fq_path q) with
  | DHandler HWs => let '(r, st) := ws_handler tm st (fq_auth q) (fq_upgrade q) (fq_body q) in (FAnswer r, st)
  | DHandler HApi => let '(r, st) := api_handler tm st (fq_auth q) (fq_body q) in (FAnswer r, st)
  | DHandler HDisguiseHandler => (FAnswer FbDisguise, st)
  | DMethodNotAllowed => (FMethodNotAllowed, st)
  | DNotFound => (FNotFound, st)
  end.

(** A request on the plain port; [read] is the file system, [token] the captured
    segment. *)
Definition serve_plain (read : bytes -> option bytes) (acme_dir : option bytes) (m : Method) (path token : bytes)
  (host path_and_query : option bytes) : option PlainResponse :=
  match ax_dispatch plain_router m path with
  | DHandler HAcme => Some (acme_handler read acme_dir token host path_and_query)
  | DHandler HRedirect => Some (redirect_handler host path_and_query)
  | _ => None
  end.

(** A request on the health port: status and body. *)
Definition serve_health (snapshot : bytes) (m : Method) (path : bytes) : Z * bytes :=
  match ax_dispatch health_router m path with
  | DHandler _ => (wr_status (healthz snapshot), wr_body (healthz snapshot))
  | DMethodNotAllowed => (405, [])
  | DNotFound => (404, [])
  end.

Context {L : AxumLaws A}.

(** The methods the API path has handlers for. *)
Definition routed (m : Method) : bool := match m with GET | HEAD | POST => true | MOther _ => false end.

Lemma front_dispatch st m p : static_pattern (ss_path st) = true ->
  ax_dispatch (router (ss_path st)) m p
  = if bool_decide (p = ss_path st)
    then match m with GET | HEAD => DHandler HWs | POST => DHandler HApi | MOther _ => DMethodNotAllowed end
    else DHandler HDisguiseHandler.
Proof.
  intros Hs. pose proof (ax_static (ss_path st) p Hs) as Hm. destruct (bool_decide (p = ss_path st)) eqn:E.
  - rewrite (ax_hit _ _ (ss_path st) [(GET, HWs); (POST, HApi)]) by done. by destruct m.
  - rewrite ax_miss; [done|]. by repeat constructor.
Qed.


(** The exception tells the API path apart from every other: a request with a
    method outside the three needs no credentials and is answered 405 on that
    path and by the page anywhere else. *)
Theorem method_probe_finds_path tm st q m : static_pattern (ss_path st) = true -> fq_method q = MOther m ->
  (serve_front tm st q).1 = FMethodNotAllowed <-> fq_path q = ss_path st.
Proof.
  intros Hs Hm. unfold serve_front. rewrite front_dispatch, Hm by done. by destruct (bool_decide_reflect (fq_path q = ss_path st)).
Qed.

(** The plain port serves no API: a path outside the ACME directory is
    redirected to HTTPS with any method, and a path inside it reads nothing but
    that directory's files. *)
Theorem plain_port_redirects read dir m path token host pq : starts_with acme_prefix path = false ->
  serve_plain read dir m path token host pq = Some (redirect_handler host pq).
Proof.
  intros Hp. unfold serve_plain. rewrite ax_miss; [done|]. constructor; [|constructor]. cbn [fst].
  destruct (ax_matches _ path) eqn:E; [|done]. apply ax_capture in E. congruence.
Qed.

(** The health port answers the snapshot at its one path, to GET and HEAD. *)
Theorem health_port_exact snapshot m path :
  serve_health snapshot m path
  = if bool_decide (path = str "/healthz") then match m with GET | HEAD => (200, snapshot) | _ => (405, []) end else (404, []).
Proof.
  unfold serve_health. pose proof (ax_static (str "/healthz") path ltac:(by vm_compute)) as H.
  destruct (bool_decide (path = str "/healthz")) eqn:E.
  - rewrite (ax_hit _ _ (str "/healthz") [(GET, tt)]) by done. by destruct m.
  - rewrite ax_miss; [done|]. by repeat constructor.
Qed.

(** The client takes the landing page for a refusal. *)
Theorem disguise_is_refusal cut : check_response {| rs_status := wr_status disguise_response;
  rs_type := Some (wr_type disguise_response); rs_body := map Ok (cut (wr_body disguise_response)) |} = Err "fallback rejected"%string.
Proof. by vm_compute. Qed.

End front.

(** ** Witnesses *)

Module RoutesWitness.
Import CryptoWitness.

Definition matches (pat p : bytes) : bool := static_pattern pat && bool_decide (p = pat).
Definition dispatch {H} (r : Router H) (m : Method) (p : bytes) : Dispatch H :=
  match find (fun x => matches x.1 p) (rt_routes r) with
  | Some (_, ms) => by_method ms m
  | None => match rt_fallback r with Some h => DHandler h | None => DNotFound end
  end.
#[local] Instance axum : Axum := {| ax_matches := matches; ax_dispatch := @dispatch |}.

#[local] Instance axum_laws : AxumLaws axum.
Proof.
  split; cbn [ax_matches ax_dispatch axum].
  - intros pat p H. unfold matches. by rewrite H.
  - intros pre name p. unfold matches, static_pattern, has_char. rewrite !existsb_app. cbn. by rewrite !orb_true_r.
  - intros H r m p Hf. unfold dispatch. assert (find (fun x => matches x.1 p) (rt_routes r) = None) as ->; [|done].
    induction Hf as [|x l Hx _ IH]; [done|]. cbn. by rewrite Hx.
  - intros H r pat ms m p Hr Hm. unfold dispatch. rewrite Hr. cbn. by rewrite Hm.
Qed.

Definition ask (m : Method) (path : bytes) : FrontRequest :=
  {| fq_method := m; fq_path := path; fq_auth := None; fq_upgrade := false; fq_body := [] |}.


End RoutesWitness.
