(* ===== verification/Ech.v ===== *)
(** * The HPKE backend of GREASE ECH: [client/ech.rs]

    rustls' [Hpke] trait over the [hpke] crate, in RFC 9180's base mode: keys
    and encapsulated secrets cross the trait as byte strings, the contexts as
    objects with a sequence number. The crate is the class [HpkeCrate]; its
    randomness is an argument. *)

From S2P Require Import Prelude Bytes Crypto.

(** ** The [hpke] crate, for one suite *)

Class HpkeCrate := {
  HpkeError : Type;
  hk_pk : Type; hk_sk : Type; hk_enc : Type;
  AeadCtxS : Type; AeadCtxR : Type;
  (** [Deserializable::from_bytes] and [Serializable::to_bytes]. *)
  pk_from_bytes : bytes -> result HpkeError hk_pk;  pk_to_bytes : hk_pk -> bytes;
  sk_from_bytes : bytes -> result HpkeError hk_sk;  sk_to_bytes : hk_sk -> bytes;
  enc_from_bytes : bytes -> result HpkeError hk_enc;  enc_to_bytes : hk_enc -> bytes;
  gen_keypair : bytes -> hk_sk * hk_pk;
  (** Of the randomness, the key, the info. *)
  setup_sender : bytes -> hk_pk -> bytes -> result HpkeError (hk_enc * AeadCtxS);
  setup_receiver : hk_sk -> hk_enc -> bytes -> result HpkeError AeadCtxR;
  (** Of the context, the text, the associated data. *)
  ctx_seal : AeadCtxS -> bytes -> bytes -> result HpkeError bytes * AeadCtxS;
  ctx_open : AeadCtxR -> bytes -> bytes -> result HpkeError bytes * AeadCtxR;
  single_shot_seal : bytes -> hk_pk -> bytes -> bytes -> bytes -> result HpkeError (hk_enc * bytes);
  single_shot_open : hk_sk -> hk_enc -> bytes -> bytes -> bytes -> result HpkeError bytes;
}.

(** Documented behaviour (RFC 9180, sections 4 to 6, and the crate's API): the
    serialised keys of X25519 are 32 bytes, any 32 bytes being a public key; a
    receiver set up with the private key and the encapsulated secret has the
    context that matches the sender's; matching contexts open exactly what was
    sealed at the same sequence number, which advances on success only; the
    single-shot functions are a setup and one message. *)
Class HpkeLaws (K : HpkeCrate) := {
  key_pair : hk_sk -> hk_pk -> Prop;
  matching : AeadCtxS -> AeadCtxR -> Prop;
  pk_from_ok b : is_ok (pk_from_bytes b) = Nat.eqb (length b) 32;
  sk_from_ok b : is_ok (sk_from_bytes b) = Nat.eqb (length b) 32;
  enc_from_ok b : is_ok (enc_from_bytes b) = Nat.eqb (length b) 32;
  pk_from_to k : pk_from_bytes (pk_to_bytes k) = Ok k;
  sk_from_to k : sk_from_bytes (sk_to_bytes k) = Ok k;
  enc_from_to e : enc_from_bytes (enc_to_bytes e) = Ok e;
  gen_pair r : key_pair (gen_keypair r).1 (gen_keypair r).2;
  setup_matching sk pk r info enc s : key_pair sk pk -> setup_sender r pk info = Ok (enc, s) ->
    exists o, setup_receiver sk enc info = Ok o /\ matching s o;
  open_sealed s o pt aad ct s' : matching s o -> ctx_seal s pt aad = (Ok ct, s') ->
    exists o', ctx_open o ct aad = (Ok pt, o') /\ matching s' o';
  open_only_sealed s o ct aad pt o' : matching s o -> ctx_open o ct aad = (Ok pt, o') -> (ctx_seal s pt aad).1 = Ok ct;
  seal_failed s pt aad e s' : ctx_seal s pt aad = (Err e, s') -> s' = s;
  open_failed o ct aad e o' : ctx_open o ct aad = (Err e, o') -> o' = o;
  single_seal r pk info pt aad : single_shot_seal r pk info pt aad
    = let? (enc, s) := setup_sender r pk info in let? ct := (ctx_seal s pt aad).1 in Ok (enc, ct);
  single_open sk enc info ct aad : single_shot_open sk enc info ct aad
    = let? o := setup_receiver sk enc info in (ctx_open o ct aad).1;
}.

(** [Result::map_err]. *)
Definition map_err {E F A} (f : E -> F) (r : result E A) : result F A :=
  match r with Ok a => Ok a | Err e => Err (f e) end.

(** ** The trait's implementation *)

(** IANA identifiers. *)
Record HpkeSuite := { suite_kem : Z; suite_kdf : Z; suite_aead : Z }.
Definition DHKEM_X25519_HKDF_SHA256 : Z := 32.
Definition HKDF_SHA256 : Z := 1.
Definition CHACHA20_POLY_1305 : Z := 3.

Definition suite_static : HpkeSuite :=
  {| suite_kem := DHKEM_X25519_HKDF_SHA256; suite_kdf := HKDF_SHA256; suite_aead := CHACHA20_POLY_1305 |}.
Definition suite : HpkeSuite := suite_static.

Definition ENC_LEN : nat := 32.

Section backend.
Context {K : HpkeCrate}.

(** [rustls::Error]. *)
Inductive TlsError := TlsOther (e : HpkeError).
Definition hpke_err (e : HpkeError) : TlsError := TlsOther e.

Record Sealer := { sealer_ctx : AeadCtxS }.
Record Opener := { opener_ctx : AeadCtxR }.

(** [seal]; its [debug_assert_eq!] is [seal_open_single]. *)
Definition seal (rnd info aad plaintext pub_key : bytes) : result TlsError (bytes * bytes) :=
  let? pk := map_err hpke_err (pk_from_bytes pub_key) in
  let? (enc, ct) := map_err hpke_err (single_shot_seal rnd pk info plaintext aad) in
  Ok (enc_to_bytes enc, ct).

Definition setup_sealer (rnd info pub_key : bytes) : result TlsError (bytes * Sealer) :=
  let? pk := map_err hpke_err (pk_from_bytes pub_key) in
  let? (enc, ctx) := map_err hpke_err (setup_sender rnd pk info) in
  Ok (enc_to_bytes enc, {| sealer_ctx := ctx |}).

Definition open (enc info aad ciphertext secret_key : bytes) : result TlsError bytes :=
  let? sk := map_err hpke_err (sk_from_bytes secret_key) in
  let? enc := map_err hpke_err (enc_from_bytes enc) in
  map_err hpke_err (single_shot_open sk enc info ciphertext aad).

Definition setup_opener (enc info secret_key : bytes) : result TlsError Opener :=
  let? sk := map_err hpke_err (sk_from_bytes secret_key) in
  let? enc := map_err hpke_err (enc_from_bytes enc) in
  let? ctx := map_err hpke_err (setup_receiver sk enc info) in
  Ok {| opener_ctx := ctx |}.

(** The public key, then the private key. *)
Definition generate_key_pair (rnd : bytes) : result TlsError (bytes * bytes) :=
  let '(sk, pk) := gen_keypair rnd in
  Ok (pk_to_bytes pk, sk_to_bytes sk).

(** [Sealer::seal] and [Opener::open]: the crate takes the text first. *)
Definition sealer_seal (s : Sealer) (aad plaintext : bytes) : result TlsError bytes * Sealer :=
  let '(r, ctx) := ctx_seal (sealer_ctx s) plaintext aad in (map_err hpke_err r, {| sealer_ctx := ctx |}).

Definition opener_open (o : Opener) (aad ciphertext : bytes) : result TlsError bytes * Opener :=
  let '(r, ctx) := ctx_open (opener_ctx o) ciphertext aad in (map_err hpke_err r, {| opener_ctx := ctx |}).

(** ** What reaches the opener *)

(** A message the sealer seals and the network delivers, or bytes that someone
    else delivers. *)
Inductive Delivery := DSealed (aad plaintext : bytes) | DForged (aad ciphertext : bytes).

(** The outcomes at the opener; a message that cannot be sealed is not sent. *)
Fixpoint deliver (s : Sealer) (o : Opener) (ds : list Delivery) : list (result TlsError bytes) :=
  match ds with
  | [] => []
  | DSealed aad pt :: t =>
    match sealer_seal s aad pt with
    | (Ok ct, s) => let '(r, o) := opener_open o aad ct in r :: deliver s o t
    | (Err _, s) => deliver s o t
    end
  | DForged aad ct :: t => let '(r, o) := opener_open o aad ct in r :: deliver s o t
  end.

(** What each delivery should be: the plaintext, or a rejection, of bytes that
    are not the sealer's next message under their associated data. *)
Fixpoint expected (s : Sealer) (ds : list Delivery) : list (option bytes) :=
  match ds with
  | [] => []
  | DSealed aad pt :: t =>
    match sealer_seal s aad pt with (Ok _, s) => Some pt :: expected s t | (Err _, s) => expected s t end
  | DForged _ _ :: t => None :: expected s t
  end.

(** The forged ones are not what the sealer would send at that point. *)
Fixpoint foreign (s : Sealer) (ds : list Delivery) : Prop :=
  match ds with
  | [] => True
  | DSealed aad pt :: t => foreign (sealer_seal s aad pt).2 t
  | DForged aad ct :: t => (forall pt, (sealer_seal s aad pt).1 <> Ok ct) /\ foreign s t
  end.

Definition plaintext_of (r : result TlsError bytes) : option bytes := match r with Ok b => Some b | Err _ => None end.

Context {L : HpkeLaws K}.

Lemma from_bytes_len {A} (r : result HpkeError A) (b : bytes) : is_ok r = Nat.eqb (length b) 32 ->
  is_ok (map_err hpke_err r) = true <-> length b = ENC_LEN.
Proof. intros E. rewrite <- Nat.eqb_eq. change ENC_LEN with 32%nat. rewrite <- E. by destruct r. Qed.

Lemma to_bytes_len {A} (from : bytes -> result HpkeError A) b a :
  is_ok (from b) = Nat.eqb (length b) 32 -> from b = Ok a -> length b = ENC_LEN.
Proof. intros E H. rewrite H in E. by apply symmetry, Nat.eqb_eq in E. Qed.

Lemma deliver_matching ds : forall s o, matching (sealer_ctx s) (opener_ctx o) -> foreign s ds ->
  map plaintext_of (deliver s o ds) = expected s ds.
Proof.
  induction ds as [|[aad pt|aad ct] t IH]; intros s o Hm Hf; [done| |]; cbn [deliver expected foreign] in *.
  - unfold sealer_seal, opener_open in *. destruct (ctx_seal (sealer_ctx s) pt aad) as [[ct|e] cs] eqn:E; cbn [map_err fst snd] in *.
    + destruct (open_sealed _ _ _ _ _ _ Hm E) as (o' & -> & Hm'). cbn [map map_err plaintext_of]. f_equal. by apply IH.
    + apply seal_failed in E as ->. by apply IH.
  - destruct Hf as [Hno Hf]. unfold sealer_seal, opener_open in *. destruct (ctx_open (opener_ctx o) ct aad) as [[pt|e] co] eqn:E.
    + exfalso. apply (Hno pt). pose proof (open_only_sealed _ _ _ _ _ _ Hm E) as H. destruct (ctx_seal _ _ _) as [r ?]; cbn in *; by rewrite H.
    + apply open_failed in E as ->. cbn [map map_err plaintext_of]. f_equal. by apply IH.
Qed.

(** A sealer and the opener of its encapsulated secret. *)
Lemma setup_agrees rnd rnd' info pk sk enc s : generate_key_pair rnd = Ok (pk, sk) -> setup_sealer rnd' info pk = Ok (enc, s) ->
  length enc = ENC_LEN /\ exists o, setup_opener enc info sk = Ok o /\ matching (sealer_ctx s) (opener_ctx o).
Proof.
  unfold generate_key_pair, setup_sealer, setup_opener. pose proof (gen_pair rnd) as Hp.
  destruct (gen_keypair rnd) as [sk0 pk0]; cbn in Hp. intros [= <- <-]. rewrite pk_from_to; cbn [map_err rbind].
  destruct (setup_sender rnd' pk0 info) as [[enc0 ctx]|] eqn:E; cbn [map_err rbind]; [|done]. intros [= <- <-].
  split; [eapply (to_bytes_len enc_from_bytes); [apply enc_from_ok|apply enc_from_to]|].
  rewrite sk_from_to, enc_from_to. cbn [map_err rbind]. destruct (setup_matching _ _ _ _ _ _ Hp E) as (o & -> & Hm).
  by exists {| opener_ctx := o |}.
Qed.


(** The single-shot functions agree, under any info and associated data, and
    the encapsulated secret has the length [seal] asserts. *)
Theorem seal_open_single rnd rnd' info aad pt pk sk enc ct :
  generate_key_pair rnd = Ok (pk, sk) -> seal rnd' info aad pt pk = Ok (enc, ct) ->
  length enc = ENC_LEN /\ open enc info aad ct sk = Ok pt.
Proof.
  unfold generate_key_pair, seal, open. pose proof (gen_pair rnd) as Hp.
  destruct (gen_keypair rnd) as [sk0 pk0]; cbn in Hp. intros [= <- <-]. rewrite pk_from_to; cbn [map_err rbind]; rewrite single_seal.
  destruct (setup_sender rnd' pk0 info) as [[enc0 ctx]|] eqn:E; cbn [map_err rbind]; [|done].
  destruct (ctx_seal ctx pt aad) as [[c|] ctx'] eqn:Es; cbn [fst map_err rbind]; [|done]. intros [= <- <-].
  split; [eapply (to_bytes_len enc_from_bytes); [apply enc_from_ok|apply enc_from_to]|].
  rewrite sk_from_to, enc_from_to. cbn [map_err rbind]. destruct (setup_matching _ _ _ _ _ _ Hp E) as (o & Eo & Hm).
  rewrite single_open, Eo; cbn [rbind]. destruct (open_sealed _ _ _ _ _ _ Hm Es) as (o' & -> & _). done.
Qed.

(** Keys and encapsulated secrets of another length are errors, not panics. *)
Theorem bad_lengths_rejected rnd info aad text key enc :
  (length key <> ENC_LEN -> is_ok (seal rnd info aad text key) = false /\ is_ok (setup_sealer rnd info key) = false
     /\ is_ok (open enc info aad text key) = false /\ is_ok (setup_opener enc info key) = false)
  /\ (length enc <> ENC_LEN -> is_ok (open enc info aad text key) = false /\ is_ok (setup_opener enc info key) = false).
Proof.
  pose proof (from_bytes_len _ key (pk_from_ok key)) as H1. pose proof (from_bytes_len _ key (sk_from_ok key)) as H2.
  pose proof (from_bytes_len _ enc (enc_from_ok enc)) as H3.
  unfold seal, setup_sealer, open, setup_opener.
  destruct (map_err hpke_err (pk_from_bytes key)) as [?|?], (map_err hpke_err (sk_from_bytes key)) as [?|?],
    (map_err hpke_err (enc_from_bytes enc)) as [?|?]; cbn [rbind is_ok] in *; split; intros; split_and!; try done; tauto.
Qed.

(** ** GREASE *)

(** [rand_bytes_32] of [client/wt.rs]. *)
Definition rand_bytes_32 (fill : nat -> bytes) : bytes := fill 32%nat.

(** The random key of the GREASE extension is a public key to the crate: the
    extension can fail only in the key agreement itself. *)
Theorem grease_key_accepted fill rnd info : (forall n, length (fill n) = n) ->
  exists pk, pk_from_bytes (rand_bytes_32 fill) = Ok pk
  /\ is_ok (setup_sealer rnd info (rand_bytes_32 fill)) = is_ok (setup_sender rnd pk info).
Proof.
  intros Hf. unfold setup_sealer, rand_bytes_32. pose proof (pk_from_ok (fill 32%nat)) as H. rewrite Hf in H.
  destruct (pk_from_bytes (fill 32%nat)) as [pk|]; [|done]. exists pk; split; [done|]. cbn [map_err rbind].
  by destruct (setup_sender rnd pk info) as [[]|].
Qed.

End backend.

(** ** Witnesses *)

Module EchWitness.

(** Base mode over the polynomial cipher: keys of 32 bytes, a pair being two
    equal ones, the context a key and a sequence number. *)
Definition b32 : Type := dsig (fun b : bytes => length b = 32%nat).
Definition to_b32 (b : bytes) : b32 := default (dexist (P := fun b : bytes => length b = 32%nat) (replicate 32 0) eq_refl)
  (match decide (length b = 32%nat) with left h => Some (dexist b h) | right _ => None end).
Definition parse (b : bytes) : result msg b32 :=
  match decide (length b = 32%nat) with left h => Ok (dexist b h) | right _ => Err "IncorrectInputLength" end.
Definition Ctx : Type := bytes * Z.

Definition ctx_of (key : b32) (enc : b32) (info : bytes) : Ctx := (`key ++ `enc ++ info, 0).
Definition toy_seal (c : Ctx) (pt aad : bytes) : result msg bytes * Ctx :=
  if c.2 <? 2 ^ 96 - 1 then
    match aead_enc c.1 (le_bytes 12 c.2) aad pt with
    | Some (ct, tag) => (Ok (tag ++ ct), (c.1, c.2 + 1)) | None => (Err "SealError", c) end
  else (Err "MessageLimitReached", c).
Definition toy_open (c : Ctx) (ct aad : bytes) : result msg bytes * Ctx :=
  if c.2 <? 2 ^ 96 - 1 then
    if Nat.ltb (length ct) 16 then (Err "OpenError", c) else
    match aead_dec c.1 (le_bytes 12 c.2) aad (drop 16 ct) (take 16 ct) with
    | Some pt => (Ok pt, (c.1, c.2 + 1)) | None => (Err "OpenError", c) end
  else (Err "MessageLimitReached", c).

#[local] Instance crate : HpkeCrate := {|
  HpkeError := msg; hk_pk := b32; hk_sk := b32; hk_enc := b32; AeadCtxS := Ctx; AeadCtxR := Ctx;
  pk_from_bytes := parse; pk_to_bytes := proj1_sig; sk_from_bytes := parse; sk_to_bytes := proj1_sig;
  enc_from_bytes := parse; enc_to_bytes := proj1_sig;
  gen_keypair r := (to_b32 r, to_b32 r);
  setup_sender r pk info := Ok (to_b32 r, ctx_of pk (to_b32 r) info);
  setup_receiver sk enc info := Ok (ctx_of sk enc info);
  ctx_seal := toy_seal; ctx_open := toy_open;
  single_shot_seal r pk info pt aad :=
    let? ct := (toy_seal (ctx_of pk (to_b32 r) info) pt aad).1 in Ok (to_b32 r, ct);
  single_shot_open sk enc info ct aad := (toy_open (ctx_of sk enc info) ct aad).1;
|}.

Lemma parse_ok b : is_ok (parse b) = Nat.eqb (length b) 32.
Proof. unfold parse. destruct (decide _) as [H|H]; symmetry; [by apply Nat.eqb_eq|by apply Nat.eqb_neq]. Qed.
Lemma parse_to (k : b32) : parse (`k) = Ok k.
Proof.
  unfold parse. destruct (decide _) as [h|H]; [f_equal; by apply dsig_eq|]. exfalso; apply H. apply (proj2_dsig k).
Qed.

#[local] Instance laws : HpkeLaws crate.
Proof.
  refine {| key_pair := eq : hk_sk -> hk_pk -> Prop; matching := eq : AeadCtxS -> AeadCtxR -> Prop;
    pk_from_ok := parse_ok; sk_from_ok := parse_ok; enc_from_ok := parse_ok;
    pk_from_to := parse_to; sk_from_to := parse_to; enc_from_to := parse_to |}; try done.
  - intros sk pk r info enc s -> [= <- <-]. by eexists.
  - intros s o pt aad ct s' -> H. change (toy_seal o pt aad = (Ok ct, s')) in H. change (exists o', toy_open o ct aad = (Ok pt, o') /\ s' = o').
    unfold toy_seal, toy_open in *. destruct (_ <? _); [|done].
    destruct (aead_enc _ _ _ _) as [[c t]|] eqn:E; [|done]. injection H as <- <-.
    pose proof (aead_enc_len _ _ _ _ _ _ E) as [_ Ht]. rewrite length_app, Ht. cbn [Nat.add Nat.ltb Nat.leb].
    rewrite drop_app_len, take_app_len by done. rewrite (aead_dec_enc _ _ _ _ _ _ E). by eexists.
  - intros s o ct aad pt o' -> H. change (toy_open o ct aad = (Ok pt, o')) in H. change ((toy_seal o pt aad).1 = Ok ct).
    unfold toy_seal, toy_open in *. destruct (_ <? _); [|done]. destruct (Nat.ltb _ _); [done|].
    destruct (aead_dec _ _ _ _ _) as [p|] eqn:E; [|done]. injection H as -> <-. rewrite (aead_enc_dec _ _ _ _ _ _ E). cbn. by rewrite take_drop.
  - intros s pt aad e s' H. change (toy_seal s pt aad = (Err e, s')) in H. unfold toy_seal in H.
    destruct (_ <? _); [destruct (aead_enc _ _ _ _) as [[]|]; [done|by injection H]|by injection H].
  - intros s pt aad e s' H. change (toy_open s pt aad = (Err e, s')) in H. unfold toy_open in H.
    destruct (_ <? _); [destruct (Nat.ltb _ _); [by injection H|destruct (aead_dec _ _ _ _ _); [done|by injection H]]|by injection H].
Qed.

Definition rnd : bytes := replicate 32 9.
Definition sealer : Sealer := {| sealer_ctx := ctx_of (to_b32 rnd) (to_b32 rnd) (str "ctx") |}.
Definition script : list Delivery :=
  [DSealed (str "aad") (str "hello"); DForged (str "aad") (replicate 21 0); DSealed [] (str "again")].

Lemma script_foreign : foreign sealer script.
Proof.
  split; [|exact I]. intros pt H.
  assert (E : aead_dec (sealer_ctx sealer).1 (le_bytes 12 1) (str "aad") (replicate 5 0) (replicate 16 0) = None) by (vm_compute; reflexivity).
  assert (Hs : (toy_seal ((sealer_ctx sealer).1, 1) pt (str "aad")).1 = Ok (replicate 21 0)).
  { change (map_err hpke_err (toy_seal ((sealer_ctx sealer).1, 1) pt (str "aad")).1 = Ok (replicate 21 0)) in H.
    destruct (toy_seal _ _ _) as [[]]; cbn [map_err fst] in *; congruence. }
  unfold toy_seal in Hs. cbn [fst snd] in Hs. change (1 <? 2 ^ 96 - 1) with true in Hs. cbn iota in Hs.
  destruct (aead_enc _ _ _ _) as [[c t]|] eqn:Ee; [|done]. pose proof (aead_enc_len _ _ _ _ _ _ Ee) as [_ Ht].
  apply aead_dec_enc in Ee. cbn [fst] in Hs. assert (Hc : t ++ c = replicate 21 0) by congruence.
  assert (t = replicate 16 0) as -> by (rewrite <- (take_app_len t c 16 Ht), Hc; reflexivity).
  assert (c = replicate 5 0) as -> by (rewrite <- (drop_app_len (replicate 16 0) c 16 eq_refl), Hc; reflexivity).
  congruence.
Qed.


End EchWitness.
