(* ===== verification/ClientBuild.v ===== *)
(** * What the client builds: [client/tls.rs], [new_pool] of [client/wt.rs],
    [HttpOutbound::new] of [client/fallback.rs], [Outbound::build]

    The TLS identity of the server on each transport, the masquerade of the
    server name, and the outbound assembled from the configuration. The URL
    crate, the resolver, SHA-256 and the validation of certificate chains are
    parameters. *)

From S2P Require Import Prelude Bytes Crypto Frame Addr Net Limit State Config ServerAuth Handshake Egress Mux Outbound.

(** The [url] crate and [lookup_host]. *)
Class UrlOps := {
  Url : Type;
  url_parse : bytes -> option Url;
  url_host_str : Url -> option bytes;
  url_port : Url -> option Z;
  url_set_host : Url -> bytes -> option Url;
  url_clear_port : Url -> Url;
  url_to_string : Url -> bytes;
  lookup_host : bytes -> Z -> result msg (list SocketAddr);
}.

(** [sha2] and the chain validation against the native roots. *)
Class CertOps := {
  sha256 : bytes -> bytes;
  chain_valid : bytes -> bytes -> bool;
}.

(** ** Resolvers *)

Record FixedResolver := { fr_addr : SocketAddr }.
Definition fr_resolve (r : FixedResolver) (host : bytes) : result msg (option SocketAddr) := Ok (Some (fr_addr r)).

Record HyperFixedResolver := { hfr_addr : SocketAddr; hfr_fixed : bool }.
Definition hfr_new (a : SocketAddr) : HyperFixedResolver := {| hfr_addr := a; hfr_fixed := true |}.
Definition system_fallback : HyperFixedResolver :=
  {| hfr_addr := {| sa_ip := IpV4 [0; 0; 0; 0]; sa_port := 0 |}; hfr_fixed := false |}.

Section build.
Context {P : Prims} {U : UrlOps} {C : CertOps}.

(** [call]: the system's resolver is asked for port 0. *)
Definition hfr_call (r : HyperFixedResolver) (name : bytes) : result msg (list SocketAddr) :=
  if hfr_fixed r then Ok [hfr_addr r] else lookup_host name 0.

(** ** Certificate verifiers *)

(** An installed verifier: [PinVerifier], or [NoVerify]. *)
Inductive Verifier := VPin (fingerprint : bytes) | VNone.

(** [PinVerifier::verify_server_cert]. *)
Definition pin_verify (fingerprint end_entity : bytes) : result msg unit :=
  ensure (ct_diff (sha256 end_entity) fingerprint =? 0) "certificate fingerprint mismatch (--pin)".

(** A client TLS configuration: whether the native roots were loaded, the
    verifier installed over them, and whether GREASE ECH is offered. *)
Record TlsConfig := { tls_roots : bool; tls_verifier : option Verifier; tls_ech : bool }.

(** Whether a handshake accepts the server's certificate. *)
Definition tls_accepts (t : TlsConfig) (end_entity server_name : bytes) : bool :=
  match tls_verifier t with
  | Some (VPin fp) => is_ok (pin_verify fp end_entity)
  | Some VNone => true
  | None => tls_roots t && chain_valid end_entity server_name
  end.

Definition set_verifier (skip_verify : bool) (pin : option bytes) (t : TlsConfig) : TlsConfig :=
  match pin with
  | Some fp => {| tls_roots := tls_roots t; tls_verifier := Some (VPin fp); tls_ech := tls_ech t |}
  | None => if skip_verify then {| tls_roots := tls_roots t; tls_verifier := Some VNone; tls_ech := tls_ech t |} else t
  end.

(** WebTransport: [build_tls_config_inner]. *)
Definition build_tls_config_inner (skip_verify : bool) (pin : option bytes) : TlsConfig :=
  set_verifier skip_verify pin
    {| tls_roots := negb skip_verify && negb (is_some pin); tls_verifier := None; tls_ech := true |}.

(** POST: [build_client], with the resolver of the connector ([None] for the
    connector's own). *)
Definition build_client (skip_verify : bool) (pin : option bytes) (resolver : option HyperFixedResolver)
  : TlsConfig * option HyperFixedResolver :=
  if negb skip_verify && negb (is_some pin) && negb (is_some resolver)
  then ({| tls_roots := true; tls_verifier := None; tls_ech := false |}, None)
  else
    let ech := is_some pin in
    let roots := if is_some pin then false else negb skip_verify in
    (set_verifier skip_verify pin {| tls_roots := roots; tls_verifier := None; tls_ech := ech |},
     Some (default system_fallback resolver)).

(** WebSocket: [build_ws_tls]. *)
Definition build_ws_tls (skip_verify : bool) (pin : option bytes) : TlsConfig :=
  set_verifier skip_verify pin
    {| tls_roots := negb skip_verify && negb (is_some pin); tls_verifier := None; tls_ech := false |}.

(** ** The transports *)

Definition url_host_and_port (url : bytes) : result msg (SocketAddr * Z) :=
  let? u := ok_or (url_parse url) "bad URL" in
  let? host := ok_or (url_host_str u) "URL has no host" in
  let port := default 443 (url_port u) in
  let? addrs := lookup_host host port in
  let? addr := ok_or (head addrs) "no address" in
  Ok (addr, port).

Definition source_cid_len (conns : Z) : Z := 8.

(** A new [WtPool]: its settings and its endpoint. *)
Record WtSetup := {
  wts_url : bytes; wts_cfg : PoolCfg; wts_size : Z;
  wts_tls : TlsConfig; wts_cid_len : Z; wts_resolver : option FixedResolver;
}.

Definition pool_cfg (cfg : ClientConfig) : PoolCfg :=
  {| pc_static_key := derive_static_key (cc_password cfg) (cc_uid cfg); pc_uid := cc_uid cfg;
     pc_max_plaintext := cc_max_plaintext cfg |}.

Definition new_pool (cfg : ClientConfig) (url : bytes) : result msg WtSetup :=
  let? (dial_url, resolver) :=
    match cc_sni cfg with
    | Some sni =>
      let? (real_addr, _) := url_host_and_port url in
      let? u := ok_or (url_parse url) "bad --server URL" in
      let? u := ok_or (url_set_host u sni) "--sni cannot replace the URL host" in
      Ok (url_to_string (url_clear_port u), Some {| fr_addr := real_addr |})
    | None => Ok (url, None)
    end in
  Ok {| wts_url := dial_url; wts_cfg := pool_cfg cfg; wts_size := cc_conns cfg;
        wts_tls := build_tls_config_inner (cc_skip_verify cfg) (cc_pin cfg);
        wts_cid_len := source_cid_len (cc_conns cfg); wts_resolver := resolver |}.

(** A new [HttpOutbound]. *)
Record HttpSetup := {
  hts_url : bytes; hts_ws : bool; hts_cfg : PoolCfg;
  hts_client : option (TlsConfig * option HyperFixedResolver);
  hts_ws_tls : option TlsConfig;
}.

Definition is_ws_url (url : bytes) : bool := starts_with (str "wss://") url || starts_with (str "ws://") url.

Definition http_new (cfg : ClientConfig) (url : bytes) : result msg HttpSetup :=
  let ws := is_ws_url url in
  let? dial_url :=
    match cc_sni cfg with
    | Some sni =>
      let? u := ok_or (url_parse url) "bad --url" in
      let? u := ok_or (url_set_host u sni) "--sni cannot replace the URL host" in
      Ok (url_to_string u)
    | None => Ok url
    end in
  let? resolver :=
    match cc_sni cfg with
    | Some _ => let? (addr, _) := url_host_and_port url in Ok (Some (hfr_new addr))
    | None => Ok None
    end in
  Ok {| hts_url := dial_url; hts_ws := ws; hts_cfg := pool_cfg cfg;
        hts_client := if ws then None else Some (build_client (cc_skip_verify cfg) (cc_pin cfg) resolver);
        hts_ws_tls := if ws then Some (build_ws_tls (cc_skip_verify cfg) (cc_pin cfg)) else None |}.

(** ** The outbound *)

(** [Outbound::build] and [describe]. *)
Definition outbound_build (cfg : ClientConfig) : result msg (Outbound (P := WtSetup) (H := HttpSetup)) :=
  match cc_wt_url cfg, cc_fb_url cfg with
  | Some u, Some f =>
    let? pool := new_pool cfg u in
    let? http := http_new cfg f in
    Ok (OBoth pool http (cb_new BREAKER_THRESHOLD BREAKER_COOLDOWN))
  | Some u, None => let? pool := new_pool cfg u in Ok (OWt pool)
  | None, Some f => let? http := http_new cfg f in Ok (OHttp http)
  | None, None => Err "no outbound configured"
  end.

Definition http_describe (h : HttpSetup) : bytes :=
  if hts_ws h then str "WebSocket fallback" else str "HTTPS POST fallback".

Definition describe (ob : Outbound (P := WtSetup) (H := HttpSetup)) : bytes :=
  match ob with
  | OWt _ => str "WebTransport"
  | OHttp h => http_describe h
  | OBoth _ _ _ => str "WebTransport + fallback"
  end.

(** The pool and the fallback of an outbound. *)
Definition ob_pool (ob : Outbound (P := WtSetup) (H := HttpSetup)) : option WtSetup :=
  match ob with OWt p | OBoth p _ _ => Some p | OHttp _ => None end.
Definition ob_http (ob : Outbound (P := WtSetup) (H := HttpSetup)) : option HttpSetup :=
  match ob with OHttp h | OBoth _ h _ => Some h | OWt _ => None end.

(** The TLS configuration a fallback connects with. *)
Definition http_tls (h : HttpSetup) : option TlsConfig :=
  match hts_client h with Some (t, _) => Some t | None => hts_ws_tls h end.

(** ** Properties *)

(** Who the client takes for its server. *)
Definition server_identity (cfg : ClientConfig) (cert name : bytes) : Prop :=
  match cc_pin cfg with
  | Some fp => sha256 cert = fp
  | None => cc_skip_verify cfg = true \/ chain_valid cert name = true
  end.

Lemma pin_verify_iff fp cert : length fp = length (sha256 cert) -> is_ok (pin_verify fp cert) = true <-> sha256 cert = fp.
Proof.
  intros Hl; unfold pin_verify, ensure. rewrite <- (ct_diff_zero (sha256 cert) fp) by done.
  destruct (Z.eqb_spec (ct_diff (sha256 cert) fp) 0); split; done.
Qed.

Lemma verifier_identity cfg t cert name : tls_verifier t = None ->
  (forall fp, cc_pin cfg = Some fp -> length fp = length (sha256 cert)) ->
  tls_roots t = negb (cc_skip_verify cfg) && negb (is_some (cc_pin cfg)) ->
  tls_accepts (set_verifier (cc_skip_verify cfg) (cc_pin cfg) t) cert name = true <-> server_identity cfg cert name.
Proof.
  intros Hv Hl Hr; unfold set_verifier, tls_accepts, server_identity.
  destruct (cc_pin cfg) as [fp|] eqn:Ep; cbn [tls_verifier]; [by apply pin_verify_iff, Hl|].
  destruct (cc_skip_verify cfg); cbn [tls_verifier]; [by split; [left|]|].
  rewrite Hv, Hr; cbn. split; [by right|by intros [|]].
Qed.

Lemma new_pool_tls cfg u p : new_pool cfg u = Ok p ->
  wts_tls p = build_tls_config_inner (cc_skip_verify cfg) (cc_pin cfg) /\ wts_cfg p = pool_cfg cfg
  /\ match cc_sni cfg with
     | None => wts_url p = u /\ wts_resolver p = None
     | Some s => exists a q v v', url_host_and_port u = Ok (a, q) /\ url_parse u = Some v /\ url_set_host v s = Some v'
                 /\ wts_url p = url_to_string (url_clear_port v') /\ wts_resolver p = Some {| fr_addr := a |}
     end.
Proof.
  unfold new_pool; intros H. apply rbind_ok in H as ([d r] & Hd & H). injection H as <-.
  cbn [wts_tls wts_cfg wts_url wts_resolver]. split; [done|]. split; [done|].
  destruct (cc_sni cfg) as [s|]; [|by injection Hd as -> ->].
  apply rbind_ok in Hd as ([a q] & Ha & Hd). apply rbind_ok in Hd as (v & Hv & Hd). apply rbind_ok in Hd as (v' & Hv' & Hd).
  apply ok_or_ok in Hv, Hv'. injection Hd as <- <-. by exists a, q, v, v'.
Qed.

Lemma http_new_tls cfg u h : http_new cfg u = Ok h ->
  hts_ws h = is_ws_url u /\ hts_cfg h = pool_cfg cfg /\
  exists resolver,
    http_tls h = Some (if is_ws_url u then build_ws_tls (cc_skip_verify cfg) (cc_pin cfg)
                       else (build_client (cc_skip_verify cfg) (cc_pin cfg) resolver).1) /\
    match cc_sni cfg with
    | None => hts_url h = u /\ resolver = None
    | Some s => exists a q v v', url_host_and_port u = Ok (a, q) /\ url_parse u = Some v /\ url_set_host v s = Some v'
                /\ hts_url h = url_to_string v' /\ resolver = Some (hfr_new a)
                /\ (is_ws_url u = false -> exists t, hts_client h = Some (t, Some (hfr_new a)))
    end.
Proof.
  unfold http_new; intros H. apply rbind_ok in H as (d & Hd & H). apply rbind_ok in H as (r & Hr & H). injection H as <-.
  cbn [hts_ws hts_cfg hts_url hts_client hts_ws_tls http_tls]. split; [done|]. split; [done|]. exists r. split.
  { destruct (is_ws_url u); [done|]. by destruct (build_client _ _ r). }
  destruct (cc_sni cfg) as [s|]; [|by injection Hd as ->; injection Hr as <-].
  apply rbind_ok in Hd as (v & Hv & Hd). apply rbind_ok in Hd as (v' & Hv' & Hd). apply ok_or_ok in Hv, Hv'.
  apply rbind_ok in Hr as ([a q] & Ha & Hr). injection Hr as <-. injection Hd as <-.
  exists a, q, v, v'. split_and!; try done. intros ->. unfold build_client, is_some.
  by rewrite andb_false_r; eexists.
Qed.


(** A masquerading client reaches its own server. With a server name to show,
    each transport carries that name in its URL and resolves it, and anything
    else, to the address the configured URL resolved to; the server is then
    recognised by its pin or not verified at all. *)
Theorem masquerade_sound c cfg ob s : client_config c = Ok cfg -> outbound_build cfg = Ok ob -> cc_sni cfg = Some s ->
  (cc_pin cfg <> None \/ cc_skip_verify cfg = true)
  /\ (forall p, ob_pool ob = Some p -> exists u a q v v', cc_wt_url cfg = Some u /\ url_host_and_port u = Ok (a, q)
       /\ url_parse u = Some v /\ url_set_host v s = Some v' /\ wts_url p = url_to_string (url_clear_port v')
       /\ exists r, wts_resolver p = Some r /\ forall host, fr_resolve r host = Ok (Some a))
  /\ (forall h, ob_http ob = Some h -> exists u a q v v', cc_fb_url cfg = Some u /\ url_host_and_port u = Ok (a, q)
       /\ url_parse u = Some v /\ url_set_host v s = Some v' /\ hts_url h = url_to_string v' /\ hts_ws h = false
       /\ exists t r, hts_client h = Some (t, Some r) /\ forall host, hfr_call r host = Ok [a]).
Proof.
  intros Hc Hb Hs. apply client_config_sound in Hc as (_ & _ & _ & _ & _ & _ & Hid & Hws).
  split; [apply Hid; congruence|]. split.
  - intros p Hp. assert (exists u, cc_wt_url cfg = Some u /\ new_pool cfg u = Ok p) as (u & Eu & Hu).
    { unfold outbound_build in Hb. destruct (cc_wt_url cfg), (cc_fb_url cfg); rinv; subst; cbn in Hp; simplify_eq; eauto. }
    apply new_pool_tls in Hu as (_ & _ & Hu). rewrite Hs in Hu. destruct Hu as (a & q & v & v' & ? & ? & ? & ? & Hr).
    exists u, a, q, v, v'. split_and!; try done. by eexists.
  - intros h Hh. assert (exists u, cc_fb_url cfg = Some u /\ http_new cfg u = Ok h) as (u & Eu & Hu).
    { unfold outbound_build in Hb. destruct (cc_wt_url cfg), (cc_fb_url cfg); rinv; subst; cbn in Hh; simplify_eq; eauto. }
    apply http_new_tls in Hu as (Hw & _ & r & _ & Hu). rewrite Hs in Hu. destruct Hu as (a & q & v & v' & ? & ? & ? & ? & _ & Ht).
    destruct (Hws ltac:(congruence) u Eu) as [Hs1 Hs2].
    assert (Ew : is_ws_url u = false) by (unfold is_ws_url; by rewrite Hs1, Hs2).
    destruct (Ht Ew) as [t Ht']. exists u, a, q, v, v'. split_and!; try done; [by rewrite Hw|]. by eexists _, _.
Qed.

(** Which outbound is built: a validated configuration gives at least one
    transport, exactly those whose URL is configured, with one key for all, and
    a closed breaker between them when there are both. *)
Theorem outbound_build_cases c cfg ob : client_config c = Ok cfg -> outbound_build cfg = Ok ob ->
  is_some (ob_pool ob) = is_some (cc_wt_url cfg) /\ is_some (ob_http ob) = is_some (cc_fb_url cfg)
  /\ (is_some (ob_pool ob) || is_some (ob_http ob)) = true
  /\ (forall p, ob_pool ob = Some p -> wts_cfg p = pool_cfg cfg)
  /\ (forall h, ob_http ob = Some h -> hts_cfg h = pool_cfg cfg)
  /\ match ob with OBoth _ _ cb => forall now, can_try cb now = true | _ => True end.
Proof.
  intros Hc Hb; apply client_config_sound in Hc as (_ & _ & _ & _ & Hurl & _).
  unfold outbound_build in Hb. destruct (cc_wt_url cfg) as [u|], (cc_fb_url cfg) as [f|]; rinv; subst;
    cbn [ob_pool ob_http is_some orb]; try done.
  - split_and!; try done; [intros p ?; simplify_eq; by eapply new_pool_tls|intros h ?; simplify_eq; by eapply http_new_tls].
  - split_and!; try done; intros p ?; simplify_eq; by eapply new_pool_tls.
  - split_and!; try done; intros h ?; simplify_eq; by eapply http_new_tls.
Qed.

End build.

(** ** The verifiers, as rustls calls them *)

(** The provider's signature verification (message, certificate, signature) and
    its schemes. *)
Class SigProvider := {
  sig_tls12 : bytes -> bytes -> bytes -> result msg unit;
  sig_tls13 : bytes -> bytes -> bytes -> result msg unit;
  sig_schemes : list Z;
}.

(** [rustls::client::danger::ServerCertVerifier]. *)
Class ServerCertVerifier (V : Type) := {
  verify_server_cert : V -> bytes -> result msg unit;
  verify_tls12_signature : V -> bytes -> bytes -> bytes -> result msg unit;
  verify_tls13_signature : V -> bytes -> bytes -> bytes -> result msg unit;
  supported_verify_schemes : V -> list Z;
}.

Record PinVerifier := { pv_fingerprint : bytes }.
Definition pin_verifier_new (fingerprint : bytes) : PinVerifier := {| pv_fingerprint := fingerprint |}.
Inductive NoVerify := NoVerifier.

Section verifiers.
Context {C : CertOps} {G : SigProvider}.

#[global] Instance pin_server_cert_verifier : ServerCertVerifier PinVerifier := {|
  verify_server_cert v end_entity := pin_verify (pv_fingerprint v) end_entity;
  verify_tls12_signature _ := sig_tls12;
  verify_tls13_signature _ := sig_tls13;
  supported_verify_schemes _ := sig_schemes;
|}.

#[global] Instance no_server_cert_verifier : ServerCertVerifier NoVerify := {|
  verify_server_cert _ _ := Ok tt;
  verify_tls12_signature _ := sig_tls12;
  verify_tls13_signature _ := sig_tls13;
  supported_verify_schemes _ := sig_schemes;
|}.

(** The two verdicts a handshake needs. *)
Definition both_verified {V} `{ServerCertVerifier V} (v : V) (tls13 : bool) (cert transcript signature : bytes) : bool :=
  is_ok (verify_server_cert v cert)
  && is_ok (if tls13 then verify_tls13_signature v transcript cert signature else verify_tls12_signature v transcript cert signature).

(** Replacing the trust decision leaves the proof of possession: with a pin, a
    peer passes only with the pinned certificate and a signature the provider
    verifies under that very certificate; without verification, with a
    signature the provider verifies under the certificate it shows. *)
Theorem verifiers_keep_signatures fp (tls13 : bool) cert transcript signature : length fp = length (sha256 cert) ->
  let signed := is_ok (if tls13 then sig_tls13 transcript cert signature else sig_tls12 transcript cert signature) in
  both_verified (pin_verifier_new fp) tls13 cert transcript signature = bool_decide (sha256 cert = fp) && signed
  /\ both_verified NoVerifier tls13 cert transcript signature = signed.
Proof.
  intros Hl. cbv zeta. unfold both_verified; cbn. split; [|done]. f_equal.
  pose proof (pin_verify_iff fp cert Hl) as H. apply Bool.eq_iff_eq_true. rewrite H. symmetry. apply bool_decide_eq_true.
Qed.

End verifiers.

(** ** Witnesses *)

Module ClientBuildWitness.

(** A URL crate for [https://host/path] and a resolver of one name. *)
#[local] Instance urls : UrlOps := {|
  Url := bytes * bytes;
  url_parse s := match strip_prefix (str "https://") s with Some r => split_once c_slash r | None => None end;
  url_host_str u := Some u.1;
  url_port u := None;
  url_set_host u h := Some (h, u.2);
  url_clear_port u := u;
  url_to_string u := str "https://" ++ u.1 ++ str "/" ++ u.2;
  lookup_host h p := if bool_decide (h = str "proxy.example") then Ok [ {| sa_ip := IpV4 [192; 0; 2; 7]; sa_port := p |} ]
                     else Err "not found"%string;
|}.
#[local] Instance certs : CertOps := {| sha256 b := take 32 (b ++ replicate 32 0); chain_valid _ _ := false |}.

Definition cli : Cli := {|
  cli_client := true; cli_server := false; cli_auth := [str "alice:secret"];
  cli_server_url := Some (str "https://proxy.example/"); cli_url := Some (str "https://proxy.example/api");
  cli_bind := str "127.0.0.1:1080"; cli_http_bind := None; cli_inbound_auth := None;
  cli_conns := 1; cli_skip_verify := false; cli_sni := Some (str "www.example.com"); cli_pin := Some (hex (replicate 32 171));
  cli_recv_window_mb := 2; cli_max_frame_kb := 16;
  cli_listen := None; cli_cert := None; cli_key := None; cli_self_signed := false;
  cli_fallback_listen := None; cli_http_listen := None; cli_acme_dir := None;
  cli_path := str "/api/ppp"; cli_max_sessions := 200; cli_rate_mbps := 100; cli_idle_secs := 60; cli_udp_dns_ttl := 3600;
  cli_allow_private_targets := false; cli_max_unauth := 128; cli_health := None; cli_shutdown_grace := 10;
|}.
Definition cfg : ClientConfig := Eval vm_compute in
  match client_config cli with Ok c => c | Err _ => {|
    cc_wt_url := None; cc_fb_url := None; cc_socks_bind := []; cc_http_bind := None; cc_inbound_auth := None;
    cc_conns := 0; cc_uid := []; cc_password := []; cc_skip_verify := false; cc_sni := None; cc_pin := None;
    cc_recv_window := 0; cc_health := None; cc_max_plaintext := 0 |} end.


Lemma masquerade_sound_witness : exists ob p, outbound_build cfg = Ok ob /\ ob_pool ob = Some p
  /\ wts_url p = str "https://www.example.com/".
Proof.
  destruct (outbound_build cfg) as [ob|e] eqn:E; [|vm_compute in E; discriminate].
  destruct (masquerade_sound cli cfg ob (str "www.example.com") ltac:(vm_compute; reflexivity) E eq_refl) as (_ & Hp & _).
  destruct (ob_pool ob) as [p|] eqn:Ep.
  - destruct (Hp p eq_refl) as (u & a & q & v & v' & Eu & _ & Ev & Ev' & Ew & _).
    exists ob, p; split; [reflexivity|]; split; [exact Ep|]. rewrite Ew.
    injection Eu as <-. vm_compute in Ev; injection Ev as <-. vm_compute in Ev'; injection Ev' as <-. vm_compute; reflexivity.
  - exfalso. vm_compute in E; injection E as <-. discriminate Ep.
Defined.

Lemma outbound_build_cases_witness : exists ob, outbound_build cfg = Ok ob
  /\ is_some (ob_pool ob) = true /\ is_some (ob_http ob) = true.
Proof.
  destruct (outbound_build cfg) as [ob|e] eqn:E; [|vm_compute in E; discriminate].
  destruct (outbound_build_cases cli cfg ob ltac:(vm_compute; reflexivity) E) as (H1 & H2 & _).
  exists ob; split; [reflexivity|]. split; [exact H1|exact H2].
Defined.

End ClientBuildWitness.
