(* ===== verification/ServerRun.v ===== *)
(** * Serving: [run_wt] of [server/wt.rs], [run_with_shutdown] of [server/mod.rs]

    One incoming WebTransport connection from the accept loop to its
    established state or its refusal, the client's whole connect against it,
    the reaper's tick and the transport label of the health endpoint. The QUIC
    endpoint is a parameter: a session request is its headers, a connection the
    reads of its first stream. *)

From S2P Require Import Prelude Bytes Crypto Frame Net Limit State Config ServerAuth Handshake Web FallbackLink.

Section run.
Context {P : Prims}.

(** ** The accept loop *)

(** How the task of an incoming connection ends up. *)
Inductive WtEnd := WtRefused | WtIncomingFailed | WtNotFound | WtAcceptFailed | WtClosed | WtEstablished (e : Established).

Definition release_ip_guard (st : ServerState) (ip : IpAddr) : ServerState :=
  set_unauth st (drop_guard (ss_unauth st) (Some ip)).

(** One turn of the loop with the task it spawns: [request] is the session
    request's headers, [accept] whether the session could be accepted, [src]
    the reads of the first stream (a stream that never opens is a failing
    read), [io] the outcome of writing the reply. *)
Definition wt_incoming (tm : FbTimes) (st : ServerState) (ip : IpAddr) (request : option (list (bytes * bytes)))
  (accept : bool) (io : result msg unit) (src : list (result msg bytes)) : WtEnd * ServerState :=
  match try_admit (ss_unauth st) (Some ip) with
  | (false, g) => (WtRefused, set_unauth st g)
  | (true, g) =>
    let st := set_unauth st g in
    match request with
    | None => (WtIncomingFailed, release_ip_guard st ip)
    | Some headers =>
      match bearer_ok (ft_bearer1 tm) (ft_bearer2 tm) st (header_value headers (str "authorization")) with
      | (false, st) => (WtNotFound, release_ip_guard st ip)
      | (true, st) =>
        if negb accept then (WtAcceptFailed, release_ip_guard st ip)
        else match handle_wt_conn (ft_auth1 tm) (ft_auth2 tm) (ft_now_ms tm) io st (Some ip) src with
             | (Some e, st) => (WtEstablished e, st)
             | (None, st) => (WtClosed, st)
             end
      end
    end
  end.

(** ** The client's connect *)

(** [WtConn::connect] up to the adopted limit: [endpoint] is the QUIC client,
    given the session request's headers and the first bytes of the control
    stream. *)
Definition wt_connect (cfg : PoolCfg) (salt nonce : bytes) (ts : Z) (pad : bytes) (bts : Z) (bnonce : bytes)
  (endpoint : list (bytes * bytes) -> bytes -> result msg (list (result msg bytes))) : result msg ClientChannel :=
  let bearer := make_bearer (pc_static_key cfg) (pc_uid cfg) bts bnonce in
  let? w := send_auth (Ok tt) cfg salt nonce ts pad in
  let? src := endpoint [(str "Authorization", str "Bearer " ++ bearer)] (fw_out w) in
  let? (limit, d) := recv_reply cfg salt src in
  Ok {| cc_limit := limit; cc_decoder := d;
        cc_encoder := {| fe_cipher := fe_cipher (fw_enc w); fe_counters := fe_counters (fw_enc w); fe_limit := limit |} |}.

(** The network between a client at [ip] and the server. *)
Definition network_wt (tm : FbTimes) (st : ServerState) (ip : IpAddr) (cut_up cut_down : bytes -> list bytes)
  (headers : list (bytes * bytes)) (body : bytes) : result msg (list (result msg bytes)) :=
  match (wt_incoming tm st ip (Some headers) true (Ok tt) (map Ok (cut_up body))).1 with
  | WtEstablished e => Ok (map Ok (cut_down (fw_out (es_writer e))))
  | _ => Err "wt connect failed"
  end.

(** ** The reaper and the health label *)

(** One tick of [reaper_loop]. *)
Definition reaper_tick (now : Z) (st : ServerState) : ServerState := sweep_conns (reap_idle now st).

(** The [transport] of [run_with_shutdown]. *)
Definition server_transport (cfg : ServerConfig) : bytes :=
  match is_some (sc_listen cfg), is_some (sc_fallback_listen cfg) || is_some (sc_http_listen cfg) with
  | true, true => str "mixed"
  | true, false => str "wt"
  | false, true => str "fallback"
  | false, false => str "none"
  end.

(** ** Properties *)

Lemma accept_auth_spec now io st uid key ap d r st' : accept_auth now io st uid key ap d = (r, st') ->
  ss_unauth st' = ss_unauth st /\
  match r with
  | Some e => es_conn e = ss_conn_seq st /\ es_uid e = uid
      /\ es_negotiated e = negotiate (ap_max_plaintext ap) (wrap 32 (ss_max_plaintext st))
      /\ ss_conns st' = {[ss_conn_seq st]} ∪ ss_conns st
      /\ fe_cipher (fw_enc (es_writer e)) = cipher_new (derive_session_key key (ap_salt ap))
  | None => st' = st
  end.
Proof.
  unfold accept_auth; intros H. set (w := {| fw_out := [] |}) in H.
  destruct (fw_write io w FAuthOk 0 0 _) as [[|] w'] eqn:Ew; [|by simplify_eq].
  unfold new_conn, rate_for, token_new in H.
  assert (Hc : fe_cipher (fw_enc w') = cipher_new (derive_session_key key (ap_salt ap))).
  { unfold fw_write in Ew. destruct (encode_into _ _ _ _ _) as [[b|e] enc] eqn:Ee; [|by simplify_eq].
    destruct io; simplify_eq. unfold encode_into in Ee. cbn in *. destr. }
  destruct (ss_rates st !! uid); simplify_eq; cbn; split_and!; done.
Qed.

(** C24: the WebTransport front returns its slot on every path. For any
    incoming connection, at whatever step it is refused or lost (the gate, the
    QUIC handshake, the bearer token, the session, the AUTH frame, the reply),
    the gate is exactly as before it, and no connection was added. An
    established connection passed the bearer check and an AUTH frame of a
    registered user, and is one new entry under that user with the negotiated
    limit. *)
Theorem wt_front_exact tm st held ip request accept io src r st' : gate_quiet (ss_unauth st) held ->
  wt_incoming tm st ip request accept io src = (r, st') ->
  ss_unauth st' = ss_unauth st /\
  match r with
  | WtEstablished e => accept = true /\ exists g headers st1 st2 uid key ap src' d, request = Some headers
      /\ bearer_ok (ft_bearer1 tm) (ft_bearer2 tm) (set_unauth st g) (header_value headers (str "authorization")) = (true, st1)
      /\ read_auth (ft_auth1 tm) (ft_auth2 tm) st1 src = (AuthAccepted uid key ap, st2, src', d)
      /\ es_uid e = uid /\ es_conn e = ss_conn_seq st /\ ss_conns st' = {[ss_conn_seq st]} ∪ ss_conns st
      /\ es_negotiated e = negotiate (ap_max_plaintext ap) (wrap 32 (ss_max_plaintext st))
      /\ fe_cipher (fw_enc (es_writer e)) = cipher_new (derive_session_key key (ap_salt ap))
  | _ => ss_conns st' = ss_conns st /\ ss_heap st' = ss_heap st
  end.
Proof.
  intros Hg H. unfold wt_incoming in H. pose proof (try_admit_spec (ss_unauth st) held (Some ip) Hg) as Ha.
  destruct (try_admit (ss_unauth st) (Some ip)) as [[] g] eqn:Eg; [|destruct Ha as [_ ->]; by simplify_eq].
  destruct Ha as (_ & _ & _ & Hd).
  destruct request as [headers|]; [|simplify_eq; by cbn].
  pose proof (bearer_same (ft_bearer1 tm) (ft_bearer2 tm) (set_unauth st g) (header_value headers (str "authorization"))) as [m Hb].
  destruct (bearer_ok _ _ (set_unauth st g) _) as [[] st1] eqn:Eb; cbn [snd] in Hb; [|simplify_eq; by cbn].
  destruct accept; cbn [negb] in H; [|simplify_eq; by cbn].
  unfold handle_wt_conn in H.
  pose proof (read_auth_same (ft_auth1 tm) (ft_auth2 tm) st1 src) as Hr.
  destruct (read_auth _ _ st1 src) as [[[o st2] src'] d] eqn:Er; destruct Hr as [m' Hr].
  destruct o as [uid key ap|c s|]; [|simplify_eq; by cbn..].
  destruct (accept_auth _ _ _ _ _ _ _) as [[e|] st3] eqn:Ea; apply accept_auth_spec in Ea as [Hu Hm]; injection H as <- <-.
  - destruct Hm as (Hc & Hui & Hn & Hcs & Hk). rewrite Hr, Hb in Hu, Hc, Hcs, Hn.
    split; [rewrite Hu; exact Hd|]. split; [done|].
    exists g, headers, st1, st2, uid, key, ap, src', d. by split_and!.
  - subst st3 st2 st1. by split_and!.
Qed.

(** Both ends of a WebTransport connection: one limit, codecs that fit, nothing
    buffered. *)
Definition wt_linked (cfg : PoolCfg) (st : ServerState) (ch : ClientChannel) (e : Established) : Prop :=
  cc_limit ch = Z.min (pc_max_plaintext cfg) (ss_max_plaintext st) /\ es_negotiated e = cc_limit ch
  /\ fe_limit (cc_encoder ch) = cc_limit ch /\ fe_limit (fw_enc (es_writer e)) = cc_limit ch
  /\ paired (cc_decoder ch) (fe_cipher (fw_enc (es_writer e))) (cc_limit ch) /\ fd_buf (cc_decoder ch) = []
  /\ paired (es_decoder e) (fe_cipher (cc_encoder ch)) (cc_limit ch) /\ fd_buf (es_decoder e) = [].

Lemma authorization_header v : header_value [(str "Authorization", v)] (str "authorization") = Some v.
Proof. reflexivity. Qed.

Context {L : PrimsLaws P}.


(** After a tick of the reaper the table lists no cancelled connection, and
    none that was not there before. *)
Theorem reaper_tick_live now st cid : cid ∈ ss_conns (reaper_tick now st) ->
  conn_cancelled (reaper_tick now st) cid = false /\ cid ∈ ss_conns (reap_idle now st).
Proof.
  unfold reaper_tick, sweep_conns; cbn [ss_conns ss_with_sessions]. intros [Hc Hin]%elem_of_filter. split; [|done].
  exact Hc.
Qed.

(** The health label of a started server is one of the documented three. *)
Theorem server_transport_documented is_file c cfg : server_config is_file c = Ok cfg ->
  server_transport cfg ∈ [str "wt"; str "fallback"; str "mixed"].
Proof.
  intros H; unfold server_config in H; rinv; subst. unfold server_transport; cbn [sc_listen sc_fallback_listen sc_http_listen].
  destruct (cli_listen c), (cli_fallback_listen c), (cli_http_listen c); cbn in *; try done; set_solver.
Qed.

End run.

(** ** Witnesses *)

Module ServerRunWitness.

Definition ip : IpAddr := IpV4 [203; 0; 113; 9].
Definition auth_header : list (bytes * bytes) := [(str "authorization", WebWitness.bearer)].

Lemma quiet : gate_quiet (ss_unauth HandshakeWitness.server) [].
Proof.
  apply (gate_inv_new 128 16). vm_compute; discriminate.
Defined.

Definition established (r : WtEnd) : bool := match r with WtEstablished _ => true | _ => false end.

Lemma wt_front_exact_witness : exists e st',
  wt_incoming WebWitness.times HandshakeWitness.server ip (Some auth_header) true (Ok tt) [Ok HandshakeWitness.wire] = (WtEstablished e, st')
  /\ es_conn e = 1 /\ ss_unauth st' = ss_unauth HandshakeWitness.server.
Proof.
  assert (Hest : established (wt_incoming WebWitness.times HandshakeWitness.server ip (Some auth_header) true (Ok tt)
                                [Ok HandshakeWitness.wire]).1 = true) by (vm_compute; reflexivity).
  destruct (wt_incoming WebWitness.times HandshakeWitness.server ip (Some auth_header) true (Ok tt) [Ok HandshakeWitness.wire]) as [r st'] eqn:E.
  destruct (wt_front_exact WebWitness.times HandshakeWitness.server [] ip (Some auth_header) true (Ok tt) [Ok HandshakeWitness.wire] r st' quiet E)
    as [Hu H].
  destruct r as [| | | | |e]; try discriminate Hest.
  destruct H as (_ & g & h & s1 & s2 & u & k & ap & s & d & _ & _ & _ & _ & Hc & _).
  exists e, st'. split; [reflexivity|]. split; [exact Hc|exact Hu].
Defined.


End ServerRunWitness.
