(* ===== verification/System.v ===== *)
(** * The running server: [server/mod.rs], [server/wt.rs], [server/fallback.rs]

    All the tasks of a server at once, as a step relation on the state they
    share: the fronts that let a connection in (gate, bearer, AUTH), the
    sessions with their units of the quota, the connection's own end, the
    reaper and the shutdown. A step is one atomic access. The handlers of the
    other files, which follow one task, are runs of these steps. *)

From S2P Require Import Prelude Bytes Crypto Frame Addr Config Net Ip Limit State ServerAuth Handshake Web Egress Mux Hub Pumps ServerWt ServerRun.

(** ** State *)

Section system.
Context {P : Prims}.

(** How far an incoming connection has been checked: nothing, the bearer token,
    the AUTH frame. *)
Inductive Stage := SRequest | SBearer | SVerified (uid key : bytes) (ap : AuthPayload).

(** The task of an incoming connection: a WebSocket upgrade whose bearer token
    passed, in the gate or holding its guard, past it and about to register the
    connection. *)
Inductive Front :=
| FUpgrade
| FGate (p : Phase) (s : Stage)
| FAccepted (uid key : bytes) (ap : AuthPayload).

Definition front_phase (f : Front) : list Phase := match f with FGate p _ => [p] | _ => [] end.
Definition phases (fs : list Front) : list Phase := concat (map front_phase fs).

(** What a front goes on as when the gate has turned its phase into [ps]. *)
Definition after_gate (ps : list Phase) (st : Stage) : list Front :=
  match ps, st with
  | [], SVerified uid key ap => [FAccepted uid key ap]
  | [], _ => []
  | _, _ => map (fun p => FGate p st) ps
  end.

Definition Sys : Type := ServerState * list Front * list Task.

(** The tokens after a relay's token was made, or without one. *)
Definition made_token (t t' : Tokens) : Prop := t' = t \/ t' = (token_new t).2.

Inductive sys_step (aborts : bool) : Sys -> Sys -> Prop :=
(* The fronts. A check that fails, or whose task is lost, still runs on the
   nonce cache. *)
| sy_arrive s fs ts p g' : gate_step (ss_unauth s, phases fs) (g', p :: phases fs) ->
    sys_step aborts (s, fs, ts) (set_unauth s g', FGate p SRequest :: fs, ts)
| sy_upgrade s fs ts now1 now2 header s' : bearer_ok now1 now2 s header = (true, s') ->
    sys_step aborts (s, fs, ts) (s', FUpgrade :: fs, ts)
| sy_upgraded s fs1 fs2 ts p g' : gate_step (ss_unauth s, phases (fs1 ++ fs2)) (g', p :: phases (fs1 ++ fs2)) ->
    sys_step aborts (s, fs1 ++ FUpgrade :: fs2, ts) (set_unauth s g', FGate p SBearer :: fs1 ++ fs2, ts)
| sy_not_upgraded s fs1 fs2 ts : sys_step aborts (s, fs1 ++ FUpgrade :: fs2, ts) (s, fs1 ++ fs2, ts)
| sy_turned_away s fs ts g' : gate_step (ss_unauth s, phases fs) (g', phases fs) ->
    sys_step aborts (s, fs, ts) (set_unauth s g', fs, ts)
| sy_gate s fs1 p st fs2 ts g' ps :
    gate_step (ss_unauth s, phases fs1 ++ p :: phases fs2) (g', phases fs1 ++ ps ++ phases fs2) ->
    sys_step aborts (s, fs1 ++ FGate p st :: fs2, ts) (set_unauth s g', fs1 ++ after_gate ps st ++ fs2, ts)
| sy_bearer s fs1 ip fs2 ts now1 now2 header s' : bearer_ok now1 now2 s header = (true, s') ->
    sys_step aborts (s, fs1 ++ FGate (Holding ip) SRequest :: fs2, ts) (s', fs1 ++ FGate (Holding ip) SBearer :: fs2, ts)
| sy_bearer_failed s fs ts now1 now2 header : sys_step aborts (s, fs, ts) ((bearer_ok now1 now2 s header).2, fs, ts)
| sy_auth s fs1 ip fs2 ts now1 now2 f uid key ap s' : auth_from_frame now1 now2 s f = (AuthAccepted uid key ap, s') ->
    sys_step aborts (s, fs1 ++ FGate (Holding ip) SBearer :: fs2, ts)
             (s', fs1 ++ FGate (Holding ip) (SVerified uid key ap) :: fs2, ts)
| sy_auth_failed s fs ts now1 now2 f : sys_step aborts (s, fs, ts) ((auth_from_frame now1 now2 s f).2, fs, ts)
| sy_established s fs1 uid key ap fs2 ts now : ss_conn_seq s < u64_max ->
    sys_step aborts (s, fs1 ++ FAccepted uid key ap :: fs2, ts)
      ((new_conn now s uid (cipher_new (derive_session_key key (ap_salt ap)))
          (negotiate (ap_max_plaintext ap) (wrap 32 (ss_max_plaintext s)))).2, fs1 ++ fs2, ts)
| sy_lost s fs1 uid key ap fs2 ts :
    sys_step aborts (s, fs1 ++ FAccepted uid key ap :: fs2, ts) (s, fs1 ++ fs2, ts)
(* The sessions: the steps of [Hub] that leave the set of connections alone. *)
| sy_session s fs ts s' ts' : hub_step aborts (s, ts) (s', ts') ->
    ss_conns s' = ss_conns s -> dom (ss_heap s') = dom (ss_heap s) ->
    sys_step aborts (s, fs, ts) (s', fs, ts')
| sy_touch s fs ts cid c now sid : ss_heap s !! cid = Some c ->
    sys_step aborts (s, fs, ts) (ss_set_heap s (<[cid := cs_touch now c sid]> (ss_heap s)) (ss_tokens s), fs, ts)
| sy_routes s fs ts cid c tcp udp t : ss_heap s !! cid = Some c -> made_token (ss_tokens s) t ->
    sys_step aborts (s, fs, ts) (ss_set_heap s (<[cid := cs_set_routes c tcp udp]> (ss_heap s)) t, fs, ts)
| sy_dns s fs ts key addr now : sys_step aborts (s, fs, ts) (udp_dns_store s key addr now, fs, ts)
(* The end of a connection. *)
| sy_cancel s fs ts cid : sys_step aborts (s, fs, ts) (cancel_conn cid s, fs, ts)
| sy_remove s fs ts cid : conn_cancelled s cid = true \/ ss_heap s !! cid = None -> sys_step aborts (s, fs, ts) (remove_conns s [cid], fs, ts).

(** ** What holds of every run *)

(** A parent is recorded for made tokens only. *)
Definition tok_ok (t : Tokens) : Prop := forall k, (tk_next t <= k)%nat -> tk_parent t !! k = None.

(** Tokens are only added and cancelled. *)
Definition tok_le (t t' : Tokens) : Prop :=
  (tk_next t <= tk_next t')%nat /\ (forall k, (k < tk_next t)%nat -> tk_parent t' !! k = tk_parent t !! k)
  /\ tk_cancelled t ⊆ tk_cancelled t' /\ (tok_ok t -> tok_ok t').

(** A session's token is a child of its connection's. *)
Definition child_of (t : Tokens) (p k : nat) : Prop := (k < tk_next t)%nat /\ tk_parent t !! k = Some p.

(** A connection object: numbered below the sequence counter, its user is
    registered, its token has no parent, the tokens of its sessions are its
    token's children, and it is either in the table or cancelled. *)
Definition conn_ok (s : ServerState) (cid : Z) (c : ConnState) : Prop :=
  cs_id c = cid /\ cid < ss_conn_seq s /\ is_Some (ss_static_keys s !! cs_uid c)
  /\ (cs_cancel c < tk_next (ss_tokens s))%nat /\ tk_parent (ss_tokens s) !! cs_cancel c = None
  /\ (forall sid h, cs_sessions c !! sid = Some h -> child_of (ss_tokens s) (cs_cancel c) (sh_cancel h))
  /\ (cid ∈ ss_conns s \/ cs_cancel c ∈ tk_cancelled (ss_tokens s)).

Definition table_ok (s : ServerState) : Prop :=
  0 <= ss_conn_seq s <= u64_max /\ tok_ok (ss_tokens s) /\ ss_conns s ⊆ dom (ss_heap s)
  /\ forall cid c, ss_heap s !! cid = Some c -> conn_ok s cid c.

(** A verified front is one of a registered user, with the user's key. *)
Definition front_ok (s : ServerState) (f : Front) : Prop :=
  match f with
  | FGate _ (SVerified uid key _) | FAccepted uid key _ => ss_static_keys s !! uid = Some key
  | _ => True
  end.

Definition sys_inv (y : Sys) : Prop :=
  let '(s, fs, ts) := y in
  gate_inv (ss_unauth s, phases fs) /\ hub_inv (s, ts) /\ table_ok s /\ Forall (front_ok s) fs.

Lemma tok_le_refl t : tok_le t t.
Proof. by split_and!. Qed.

Lemma tok_le_cancel t k : tok_le t (cancel t k).
Proof. unfold tok_le; split_and!; cbn; [lia|done|set_solver|done]. Qed.

Lemma tok_le_trans a b c : tok_le a b -> tok_le b c -> tok_le a c.
Proof.
  intros (H1 & H2 & H3 & H3') (H4 & H5 & H6 & H6'). unfold tok_le; split_and!; [lia| |set_solver|auto].
  intros k Hk. rewrite H5 by lia. by apply H2.
Qed.

Lemma tok_le_made t t' : made_token t t' -> tok_le t t'.
Proof.
  intros [-> | ->]; [apply tok_le_refl|]. unfold tok_le, tok_ok; split_and!; cbn; [lia|done|done|].
  intros H k Hk. apply H. lia.
Qed.

Lemma tok_le_child t p k t' : child_token t p = (k, t') -> tok_le t t' /\ child_of t' p k.
Proof.
  unfold child_token, tok_le, tok_ok, child_of; intros [= <- <-].
  split_and!; cbn; [lia| |done| |lia|by rewrite lookup_insert_eq].
  - intros j Hj. by rewrite lookup_insert_ne by lia.
  - intros H j Hj. rewrite lookup_insert_ne by lia. apply H. lia.
Qed.

Lemma child_le t t' p k : tok_le t t' -> child_of t p k -> child_of t' p k.
Proof. intros (H1 & H2 & _) [Hk Hp]. split; [lia|]. by rewrite H2. Qed.

(** The table after one object changed and tokens were added or cancelled. *)
Lemma table_set s cid c c' t : table_ok s -> ss_heap s !! cid = Some c -> tok_le (ss_tokens s) t ->
  cs_id c' = cs_id c -> cs_uid c' = cs_uid c -> cs_cancel c' = cs_cancel c ->
  (forall sid h, cs_sessions c' !! sid = Some h ->
     (exists h0, cs_sessions c !! sid = Some h0 /\ sh_cancel h = sh_cancel h0) \/ child_of t (cs_cancel c) (sh_cancel h)) ->
  table_ok (ss_set_heap s (<[cid := c']> (ss_heap s)) t).
Proof.
  intros (Hseq & Htok & Hdom & Hall) Hc Ht Hid Hu Hk Hs. split_and!; cbn; [lia|lia|by apply Ht| |].
  { rewrite dom_insert_L. set_solver. }
  assert (Hold : forall i d, ss_heap s !! i = Some d -> conn_ok (ss_set_heap s (<[cid := c']> (ss_heap s)) t) i d).
  { intros i d Hd. destruct (Hall i d Hd) as (? & ? & ? & ? & Hp & ? & Hin). destruct (Ht) as (T1 & T2 & T3 & _).
    unfold conn_ok; cbn. split_and!; try done; [lia|by rewrite T2| |].
    - intros sid h Hh. eapply child_le; [exact Ht|eauto].
    - destruct Hin; [by left|right; set_solver]. }
  intros i d [[-> <-]|[Hne Hd]]%lookup_insert_Some; [|by apply Hold].
  destruct (Hold i c Hc) as (? & ? & ? & ? & ? & Hh & ?). unfold conn_ok; cbn in *. rewrite Hid, Hu, Hk.
  split_and!; try done. intros sid h Hsid. destruct (Hs sid h Hsid) as [(h0 & Eh0 & ->)|?]; [by eapply Hh|done].
Qed.

(** What the rest of the state is does not matter to the table. *)
Lemma table_same s s' : ss_conns s' = ss_conns s -> ss_heap s' = ss_heap s -> ss_tokens s' = ss_tokens s ->
  ss_conn_seq s' = ss_conn_seq s -> ss_static_keys s' = ss_static_keys s -> table_ok s -> table_ok s'.
Proof. unfold table_ok, conn_ok. by intros -> -> -> -> ->. Qed.

Lemma drop_at_table s cid sid b s' : drop_at s cid sid = (b, s') -> table_ok s -> table_ok s'.
Proof.
  unfold drop_at; intros Hd Ht. destruct (ss_heap s !! cid) as [c|] eqn:Hc; [|by simplify_eq].
  destruct (drop_session (ss_tokens s) c sid) as [[b' t] c'] eqn:Ed. injection Hd as <- <-.
  assert (Hrel : tok_le (ss_tokens s) (cancel_relay (ss_tokens s) (cs_udp_routes c !! sid))).
  { unfold cancel_relay. destruct (cs_udp_routes c !! sid); [apply tok_le_cancel|apply tok_le_refl]. }
  unfold drop_session in Ed; cbn in Ed. destruct (cs_sessions c !! sid) as [h|] eqn:Eh; injection Ed as <- <- <-.
  - eapply table_set; try done; [eapply tok_le_trans; [exact Hrel|apply tok_le_cancel]|].
    cbn; intros x hx [_ Hx]%lookup_delete_Some; eauto.
  - eapply table_set; try done. cbn; intros x hx Hx; eauto.
Qed.

Lemma register_table s cid sid c now tok t b c' : ss_heap s !! cid = Some c ->
  child_token (ss_tokens s) (cs_cancel c) = (tok, t) -> try_register_with now c sid tok = (b, c') ->
  table_ok s -> table_ok (ss_set_heap s (<[cid := c']> (ss_heap s)) t).
Proof.
  intros Hc Ht Hr Hok. apply tok_le_child in Ht as [Hle Hch]. unfold try_register_with in Hr; cbn in Hr.
  destruct (cs_sessions c !! sid) eqn:Es; injection Hr as <- <-; (eapply table_set; try done); cbn; [eauto|].
  intros x h [[-> <-]|[_ Hx]]%lookup_insert_Some; [right; exact Hch|eauto].
Qed.

(** The sessions' steps. *)
Lemma hub_table aborts y y' : hub_step aborts y y' -> ss_conns y'.1 = ss_conns y.1 -> dom (ss_heap y'.1) = dom (ss_heap y.1) ->
  table_ok y.1 -> table_ok y'.1.
Proof.
  intros Hs Hcs Hdom Hok. destruct Hs; cbn [fst] in *; try done.
  - exfalso. cbn in Hdom. rewrite dom_insert_L in Hdom. apply not_elem_of_dom in H. set_solver.
  - by eapply table_same.
  - unfold try_acquire_session in H; cbv zeta in H. destruct (_ <=? _); [done|]. injection H as <-. by eapply table_same.
  - unfold try_acquire_session in H; cbv zeta in H. destruct (_ <=? _); [|done]. by injection H as <-.
  - by eapply register_table.
  - by eapply register_table.
  - by eapply drop_at_table.
  - by eapply drop_at_table.
  - by eapply drop_at_table.
Qed.

(** What the sessions' steps never touch. *)
Lemma hub_frame aborts y y' : hub_step aborts y y' ->
  ss_unauth y'.1 = ss_unauth y.1 /\ ss_static_keys y'.1 = ss_static_keys y.1 /\ ss_max_sessions y'.1 = ss_max_sessions y.1
  /\ ss_conn_seq y'.1 = ss_conn_seq y.1.
Proof.
  assert (Hd : forall s cid sid b s', drop_at s cid sid = (b, s') -> ss_unauth s' = ss_unauth s
    /\ ss_static_keys s' = ss_static_keys s /\ ss_max_sessions s' = ss_max_sessions s /\ ss_conn_seq s' = ss_conn_seq s).
  { unfold drop_at; intros s cid sid b s' H. destruct (ss_heap s !! cid); [|by simplify_eq].
    destruct (drop_session _ _ _) as [[b' t] c']. by injection H as <- <-. }
  assert (Ha : forall s b s', try_acquire_session s = (b, s') -> ss_unauth s' = ss_unauth s
    /\ ss_static_keys s' = ss_static_keys s /\ ss_max_sessions s' = ss_max_sessions s /\ ss_conn_seq s' = ss_conn_seq s).
  { unfold try_acquire_session; cbv zeta; intros s b s' H. destruct (_ <=? _); by injection H as <- <-. }
  intros Hs; destruct Hs; cbn [fst]; eauto.
Qed.

(** *** The fronts *)

Lemma phases_app a b : phases (a ++ b) = phases a ++ phases b.
Proof. unfold phases. by rewrite map_app, concat_app. Qed.

Lemma phases_gate fs1 p st fs2 : phases (fs1 ++ FGate p st :: fs2) = phases fs1 ++ p :: phases fs2.
Proof. by rewrite phases_app. Qed.

Lemma phases_after ps st : phases (after_gate ps st) = ps.
Proof.
  assert (H : phases (map (fun p => FGate p st) ps) = ps) by (induction ps as [|p l IH]; [done|]; cbn; f_equal; exact IH).
  destruct ps as [|p l]; [by destruct st|]. by destruct st.
Qed.

Lemma after_front s ps p st : front_ok s (FGate p st) -> Forall (front_ok s) (after_gate ps st).
Proof.
  intros H. destruct ps as [|p' l]; [destruct st; by repeat constructor|].
  assert (Hm : Forall (front_ok s) (map (fun p => FGate p st) (p' :: l))) by (apply Forall_forall; intros f [q [-> _]]%list_elem_of_fmap; exact H).
  by destruct st.
Qed.

Lemma front_keys s s' fs : ss_static_keys s' = ss_static_keys s -> Forall (front_ok s) fs -> Forall (front_ok s') fs.
Proof. intros E Hf. eapply Forall_impl; [exact Hf|]. intros [|p []|]; cbn; by rewrite ?E. Qed.

(** The gate and the nonces are no part of the table or of the quota. *)
Lemma gate_part s g fs ts : hub_inv (s, ts) -> table_ok s -> Forall (front_ok s) fs ->
  hub_inv (set_unauth s g, ts) /\ table_ok (set_unauth s g) /\ Forall (front_ok (set_unauth s g)) fs.
Proof. intros Hh Ht Hf. split; [exact Hh|]. split; [by eapply table_same|by eapply front_keys]. Qed.

Lemma nonce_part s s' fs ts : same_but_nonces s s' -> sys_inv (s, fs, ts) -> sys_inv (s', fs, ts).
Proof. intros [m ->] (Hg & Hh & Ht & Hf). split; [exact Hg|]. split; [exact Hh|]. split; [by eapply table_same|by eapply front_keys]. Qed.

Lemma auth_key now1 now2 s f uid key ap s' : auth_from_frame now1 now2 s f = (AuthAccepted uid key ap, s') ->
  ss_static_keys s !! uid = Some key /\ same_but_nonces s s'.
Proof.
  intros H. pose proof (auth_loop_same now1 now2 s f (map_to_list (ss_static_keys s))) as Hs.
  unfold auth_from_frame in H. rewrite H in Hs. split; [|exact Hs].
  apply auth_loop_inv in H as [[_ Hx]|(uid' & key' & ap' & Hv & Hc)]; [by destruct Hx as [?|[? ?]]|].
  destruct Hv as [Hin _]. apply elem_of_map_to_list in Hin. naive_solver.
Qed.

Lemma new_conn_table now s uid cipher limit : table_ok s -> ss_conn_seq s < u64_max -> is_Some (ss_static_keys s !! uid) ->
  table_ok (new_conn now s uid cipher limit).2.
Proof.
  intros (Hseq & Htok & Hdom & Hall) Hlt Hu. unfold new_conn, token_new.
  assert (Hr : ss_conns (rate_for s uid).2 = ss_conns s /\ ss_heap (rate_for s uid).2 = ss_heap s
    /\ ss_static_keys (rate_for s uid).2 = ss_static_keys s) by (unfold rate_for; by destruct (ss_rates s !! uid)).
  destruct (rate_for s uid) as [r s1]. destruct Hr as (E1 & E2 & E3). cbn [snd] in *.
  assert (Hw : wrap 64 (ss_conn_seq s + 1) = ss_conn_seq s + 1) by (apply wrap_small; unfold u64_max in *; lia).
  split_and!; cbn; rewrite ?E1, ?E2, ?Hw; [lia|lia| |rewrite dom_insert_L; set_solver|].
  { intros k Hk; cbn in *. apply Htok. lia. }
  intros cid c [[<- <-]|[Hne Hc]]%lookup_insert_Some; unfold conn_ok; cbn; rewrite ?E1, E3.
  - split_and!; try done; try lia; [apply Htok; lia|by left; set_solver].
  - destruct (Hall cid c Hc) as (? & ? & ? & ? & ? & Hh & Hin). split_and!; try done; try lia.
    + intros sid h Hs. destruct (Hh sid h Hs) as [? ?]. split; cbn; [lia|done].
    + destruct Hin; [left; set_solver|by right].
Qed.

Lemma new_conn_frame now s uid cipher limit : let s' := (new_conn now s uid cipher limit).2 in
  ss_unauth s' = ss_unauth s /\ ss_static_keys s' = ss_static_keys s /\ ss_active_sessions s' = ss_active_sessions s
  /\ ss_max_sessions s' = ss_max_sessions s
  /\ exists c, cs_sessions c = ∅ /\ ss_heap s' = <[ss_conn_seq s := c]> (ss_heap s).
Proof.
  unfold new_conn, rate_for, token_new. destruct (ss_rates s !! uid); cbn; split_and!; try done; eexists; (split; [|reflexivity]); done.
Qed.

Lemma new_conn_quota now s uid cipher limit k : table_ok s -> quota_inv k s -> quota_inv k (new_conn now s uid cipher limit).2.
Proof.
  intros (_ & _ & _ & Hall) (Hk & Ha & Hm). destruct (new_conn_frame now s uid cipher limit) as (_ & _ & Ea & Em & c & Hc & Hh).
  unfold quota_inv, total_sessions. rewrite Ea, Em, Hh, map_sum_insert.
  - unfold session_count at 1. rewrite Hc, map_size_empty. unfold total_sessions in Ha. lia.
  - apply eq_None_not_Some. intros [d Hd]. destruct (Hall _ d Hd) as (_ & ? & _). lia.
Qed.

(** *** The end of a connection *)

Lemma cancelled_root t k : tk_parent t !! k = None -> is_cancelled t k = true <-> k ∈ tk_cancelled t.
Proof.
  intros H. unfold is_cancelled. destruct (tk_next t); cbn [cancelled_up]; rewrite ?H, orb_false_r; by rewrite bool_decide_eq_true.
Qed.

Lemma cancel_table s cid : table_ok s -> table_ok (cancel_conn cid s).
Proof.
  intros H. unfold cancel_conn. destruct (ss_heap s !! cid) as [c|] eqn:Hc; [|done].
  rewrite <- (insert_id (ss_heap s) cid c Hc) at 1. eapply table_set; try done; [apply tok_le_cancel|eauto].
Qed.

Lemma remove_table s cid : conn_cancelled s cid = true \/ ss_heap s !! cid = None -> table_ok s -> table_ok (remove_conns s [cid]).
Proof.
  unfold conn_cancelled; intros Hx (Hseq & Htok & Hdom & Hall). split_and!; cbn; [lia|lia|done|set_solver|].
  intros i c Hc. destruct (Hall i c Hc) as (? & ? & ? & ? & Hp & ? & Hin). unfold conn_ok; cbn. split_and!; try done.
  destruct (decide (i = cid)) as [->|]; [right|set_solver]. rewrite Hc in Hx. destruct Hx as [Hx|]; [|done].
  by apply cancelled_root.
Qed.

(** A front replaced by others that are checked no further than their gate
    phases show. *)
Lemma swap_front s fs1 f fs2 fs' : Forall (front_ok s) (fs1 ++ f :: fs2) -> Forall (front_ok s) fs' ->
  Forall (front_ok s) (fs1 ++ fs' ++ fs2).
Proof. rewrite !Forall_app, Forall_cons. tauto. Qed.

(** A step of the gate, which only changes the gate. *)
Lemma gate_moves s fs ts g' fs' : sys_inv (s, fs, ts) -> gate_step (ss_unauth s, phases fs) (g', phases fs') ->
  Forall (front_ok s) fs' -> sys_inv (set_unauth s g', fs', ts).
Proof.
  intros (Hg & Hh & Ht & _) Hs Hf. split; [exact (gate_inv_step _ _ Hg Hs)|]. by apply gate_part.
Qed.

(** Tasks that leave the gate's phases as they are. *)
Lemma front_moves s fs ts fs' : sys_inv (s, fs, ts) -> phases fs' = phases fs -> Forall (front_ok s) fs' -> sys_inv (s, fs', ts).
Proof. intros (Hg & Hh & Ht & _) E Hf. unfold sys_inv. by rewrite E. Qed.

(** A change to one connection object that keeps its sessions. *)
Lemma object_moves s fs ts cid c c' t : sys_inv (s, fs, ts) -> ss_heap s !! cid = Some c -> tok_le (ss_tokens s) t ->
  cs_id c' = cs_id c -> cs_uid c' = cs_uid c -> cs_cancel c' = cs_cancel c -> session_count c' = session_count c ->
  (forall sid h, cs_sessions c' !! sid = Some h -> exists h0, cs_sessions c !! sid = Some h0 /\ sh_cancel h = sh_cancel h0) ->
  sys_inv (ss_set_heap s (<[cid := c']> (ss_heap s)) t, fs, ts).
Proof.
  intros (Hg & Hh & Ht & Hf) Hc Hle Hid Hu Hk Hn Hs. split; [exact Hg|]. split; [|split].
  - destruct Hh as (H0 & Ha & Hm). unfold hub_inv, quota_inv, total_sessions in *; cbn [fst snd] in *; cbn.
    pose proof (map_sum_update session_count _ _ _ c' Hc). lia.
  - eapply table_set; eauto.
  - by eapply front_keys.
Qed.

Lemma touch_sessions now c x sid h : cs_sessions (cs_touch now c x) !! sid = Some h ->
  exists h0, cs_sessions c !! sid = Some h0 /\ sh_cancel h = sh_cancel h0.
Proof.
  unfold cs_touch; cbn. destruct (cs_sessions c !! x) as [h0|] eqn:E; cbn; [|eauto].
  intros [[-> <-]|[_ ?]]%lookup_insert_Some; eauto.
Qed.

Lemma sys_inv_step aborts y y' : sys_inv y -> sys_step aborts y y' -> sys_inv y'.
Proof.
  intros Hi Hs. assert (Hi' := Hi). destruct Hs; destruct Hi' as (Hg & Hh & Ht & Hf).
  - eapply gate_moves; [exact Hi|exact H|by constructor].
  - pose proof (bearer_same now1 now2 s header) as Hb. rewrite H in Hb. apply (nonce_part _ _ _ _ Hb) in Hi as Hi2.
    eapply front_moves; [exact Hi2|done|constructor; [done|apply Hi2]].
  - assert (Hf' : Forall (front_ok s) (fs1 ++ fs2)) by (apply (swap_front s fs1 FUpgrade fs2 [] Hf); constructor).
    apply (front_moves _ _ _ (fs1 ++ fs2)) in Hi; [|by rewrite !phases_app|done].
    eapply gate_moves; [exact Hi|exact H|by constructor].
  - eapply front_moves; [exact Hi|by rewrite !phases_app|]. apply (swap_front s fs1 FUpgrade fs2 [] Hf). constructor.
  - eapply gate_moves; [exact Hi|exact H|exact Hf].
  - eapply gate_moves; [exact Hi| |].
    + rewrite phases_gate, !phases_app, phases_after. exact H.
    + eapply swap_front; [exact Hf|]. eapply after_front. by apply Forall_app in Hf as [_ [? _]%Forall_cons].
  - pose proof (bearer_same now1 now2 s header) as Hb. rewrite H in Hb. apply (nonce_part _ _ _ _ Hb) in Hi as Hi2.
    eapply front_moves; [exact Hi2|by rewrite !phases_gate|]. eapply (swap_front s' fs1 _ fs2 [_]); [apply Hi2|by repeat constructor].
  - eapply nonce_part; [apply bearer_same|done].
  - apply auth_key in H as [Hk Hb]. apply (nonce_part _ _ _ _ Hb) in Hi as Hi2.
    eapply front_moves; [exact Hi2|by rewrite !phases_gate|]. eapply (swap_front s' fs1 _ fs2 [_]); [apply Hi2|].
    constructor; [|constructor]. destruct Hb as [m ->]. exact Hk.
  - eapply nonce_part; [apply auth_loop_same|done].
  - assert (Hk : ss_static_keys s !! uid = Some key) by (by apply Forall_app in Hf as [_ [? _]%Forall_cons]).
    destruct (new_conn_frame now s uid (cipher_new (derive_session_key key (ap_salt ap)))
      (negotiate (ap_max_plaintext ap) (wrap 32 (ss_max_plaintext s)))) as (Eu & Ek & _).
    split; [|split; [|split]].
    + rewrite Eu, phases_app. rewrite phases_app in Hg. exact Hg.
    + by apply new_conn_quota.
    + apply new_conn_table; eauto.
    + eapply front_keys; [exact Ek|]. apply (swap_front s fs1 _ fs2 [] Hf). constructor.
  - eapply front_moves; [exact Hi|by rewrite !phases_app|]. apply (swap_front s fs1 _ fs2 [] Hf). constructor.
  - destruct (hub_frame _ _ _ H) as (Eu & Ek & _). cbn [fst] in *. split; [by rewrite Eu|]. split; [by eapply hub_inv_step|].
    split; [by eapply (hub_table _ (s, ts) (s', ts'))|by eapply front_keys].
  - eapply object_moves; [exact Hi|exact H|apply tok_le_refl| | | | |apply touch_sessions].
    all: try apply touch_count; unfold cs_touch; cbn; by destruct (cs_sessions c !! sid).
  - eapply object_moves; [exact Hi|exact H|by apply tok_le_made| | | | |]; try done. eauto.
  - assert (Hd : exists m, udp_dns_store s key addr now = udp_dns_set s m).
    { unfold udp_dns_store. destruct (_ =? 0); [exists (ss_udp_dns s); by destruct s|].
      destruct (_ <=? _); [destruct (_ <=? _)|]; by eexists. }
    destruct Hd as [m ->]. split; [exact Hg|]. split; [exact Hh|]. split; [by eapply table_same|by eapply front_keys].
  - split; [|split; [|split]].
    + by unfold cancel_conn; destruct (ss_heap s !! cid).
    + unfold hub_inv, cancel_conn; cbn [fst snd]; by destruct (ss_heap s !! cid).
    + by apply cancel_table.
    + eapply front_keys; [|exact Hf]. by unfold cancel_conn; destruct (ss_heap s !! cid).
  - split; [exact Hg|]. split; [exact Hh|]. split; [by apply remove_table|]. by eapply front_keys.
Qed.

(** ** The handlers are runs of these steps *)

Lemma step_run aborts a b : sys_step aborts a b -> star (sys_step aborts) a b.
Proof. intros H. by eapply star_step; [exact H|apply star_refl]. Qed.

Lemma cancel_all_run aborts s fs ts : star (sys_step aborts) (s, fs, ts) (cancel_all s, fs, ts).
Proof.
  unfold cancel_all. generalize (List.filter (fun cid => negb (conn_cancelled s cid)) (elements (ss_conns s))).
  intros l; revert s; induction l as [|x l IH]; intros s; cbn [fold_left]; [apply star_refl|].
  eapply star_step; [apply (sy_cancel _ _ _ _ x)|apply IH].
Qed.

(** Removing cancelled connections, one by one or at once. *)
Lemma remove_run aborts l : forall s fs ts, Forall (fun cid => conn_cancelled s cid = true) l ->
  star (sys_step aborts) (s, fs, ts) (remove_conns s l, fs, ts).
Proof.
  induction l as [|x l IH]; intros s fs ts Hl.
  - assert (E : remove_conns s [] = s) by (unfold remove_conns; destruct s; cbn; unfold ss_with_sessions; cbn; f_equal; set_solver).
    rewrite E. apply star_refl.
  - apply Forall_cons in Hl as [Hx Hl]. eapply star_step; [apply sy_remove; by left|].
    assert (E : remove_conns s (x :: l) = remove_conns (remove_conns s [x]) l).
    { unfold remove_conns, ss_with_sessions; cbn; f_equal; set_solver. }
    rewrite E. apply IH. eapply Forall_impl; [exact Hl|]. by intros i.
Qed.

Lemma sweep_run aborts s fs ts : star (sys_step aborts) (s, fs, ts) (sweep_conns s, fs, ts).
Proof.
  set (l := List.filter (conn_cancelled s) (elements (ss_conns s))).
  assert (E : sweep_conns s = remove_conns s l).
  { unfold sweep_conns, remove_conns, ss_with_sessions; f_equal. apply set_eq; intros x.
    rewrite elem_of_filter, elem_of_difference, elem_of_list_to_set. unfold l.
    rewrite list_elem_of_In, filter_In, <- list_elem_of_In, elem_of_elements. destruct (conn_cancelled s x); naive_solver. }
  rewrite E. apply remove_run. apply Forall_forall. intros x Hx. unfold l in Hx.
  by rewrite list_elem_of_In, filter_In in Hx; destruct Hx.
Qed.

(** One session dropped with its unit. *)
Lemma drop_release_run aborts s fs ts cid sid : star (sys_step aborts) (s, fs, ts) (drop_and_release s cid sid, fs, ts).
Proof.
  unfold drop_and_release. destruct (ss_heap s !! cid) as [c|] eqn:Hc; [|apply star_refl].
  destruct (drop_session (ss_tokens s) c sid) as [[b t] c'] eqn:Ed.
  set (s1 := ss_set_heap s (<[cid := c']> (ss_heap s)) t).
  assert (H1 : sys_step aborts (s, fs, ts) (s1, fs, after_drop b ts)).
  { apply sy_session; [|done|cbn; apply not_elem_of_dom_2 || rewrite dom_insert_lookup_L; done].
    apply (hs_close _ s ts cid sid). unfold drop_at. by rewrite Hc, Ed. }
  eapply star_step; [exact H1|]. destruct b; [|apply star_refl]. apply step_run.
  apply sy_session; [|done|done]. apply (hs_release _ s1 [] ts).
Qed.


(** A cancelled connection stays cancelled when sessions are dropped. *)
Lemma drop_release_cancelled s cid sid i : conn_cancelled s i = true -> conn_cancelled (drop_and_release s cid sid) i = true.
Proof.
  unfold drop_and_release. destruct (ss_heap s !! cid) as [c|] eqn:Hc; [|done].
  destruct (drop_session (ss_tokens s) c sid) as [[b t] c'] eqn:Ed. intros Hi.
  assert (Hgoal : conn_cancelled (ss_set_heap s (<[cid := c']> (ss_heap s)) t) i = true).
  { assert (Hrel : forall k, is_cancelled (ss_tokens s) k = true -> is_cancelled (cancel_relay (ss_tokens s) (cs_udp_routes c !! sid)) k = true).
    { intros k Hk. unfold cancel_relay. destruct (cs_udp_routes c !! sid); [|done]. by apply cancelled_up_mono. }
    assert (Ht : cs_cancel c' = cs_cancel c /\ forall k, is_cancelled (ss_tokens s) k = true -> is_cancelled t k = true).
    { unfold drop_session in Ed; cbn in Ed. destruct (cs_sessions c !! sid) as [h|]; injection Ed as <- <- <-; (split; [done|]); [|done].
      intros k Hk. apply Hrel in Hk. by apply cancelled_up_mono. }
    destruct Ht as [Ek Ht]. unfold conn_cancelled in *; cbn. destruct (decide (i = cid)) as [->|Hne].
    - rewrite lookup_insert_eq. rewrite Hc in Hi. rewrite Ek. by apply Ht.
    - rewrite lookup_insert_ne by done. destruct (ss_heap s !! i); [by apply Ht|done]. }
  by destruct b.
Qed.

Lemma drop_list_run aborts l : forall s fs ts cid, star (sys_step aborts) (s, fs, ts)
  (fold_left (fun s sid => drop_and_release s cid sid) l s, fs, ts).
Proof.
  induction l as [|x l IH]; intros s fs ts cid; cbn [fold_left]; [apply star_refl|].
  eapply star_trans; [apply (drop_release_run _ _ _ _ cid x)|apply IH].
Qed.

Lemma drop_list_cancelled l i cid : forall s, conn_cancelled s i = true ->
  conn_cancelled (fold_left (fun s sid => drop_and_release s cid sid) l s) i = true.
Proof. induction l as [|x l IH]; intros s H; cbn [fold_left]; [done|]. by apply IH, drop_release_cancelled. Qed.

Lemma reap_conn_run aborts now s dead cid fs ts : Forall (fun i => conn_cancelled s i = true) dead ->
  let '(s', dead') := reap_conn now s dead cid in
  star (sys_step aborts) (s, fs, ts) (s', fs, ts) /\ Forall (fun i => conn_cancelled s' i = true) dead'.
Proof.
  intros Hd. unfold reap_conn. destruct (ss_heap s !! cid) as [c|]; [|by split; [apply star_refl|]].
  pose proof (drop_list_run aborts (expired_sids now (ss_idle s) c) s fs ts cid) as Hrun.
  assert (Hd' : Forall (fun i => conn_cancelled (fold_left (fun s sid => drop_and_release s cid sid) (expired_sids now (ss_idle s) c) s) i = true) dead).
  { eapply Forall_impl; [exact Hd|]. intros i. apply drop_list_cancelled. }
  set (s1 := fold_left _ _ s) in *. clearbody s1. destruct (ss_heap s1 !! cid) as [c1|] eqn:Hc1; [|done].
  destruct (_ && _); [|done]. assert (E : ss_set_heap s1 (ss_heap s1) (cancel (ss_tokens s1) (cs_cancel c1)) = cancel_conn cid s1).
  { unfold cancel_conn. by rewrite Hc1. }
  rewrite E. split; [eapply star_trans; [exact Hrun|]; apply step_run, sy_cancel|].
  apply Forall_app; split; [eapply Forall_impl; [exact Hd'|]; intros i; apply cancel_conn_mono|].
  constructor; [|constructor]. apply cancel_conn_self. by rewrite Hc1.
Qed.

Lemma reaper_run aborts now s fs ts : star (sys_step aborts) (s, fs, ts) (reaper_tick now s, fs, ts).
Proof.
  unfold reaper_tick, reap_idle. eapply star_trans; [|apply sweep_run].
  assert (H : forall l s dead, Forall (fun i => conn_cancelled s i = true) dead ->
    let '(s', dead') := fold_left (fun '(s, dead) cid => reap_conn now s dead cid) l (s, dead) in
    star (sys_step aborts) (s, fs, ts) (s', fs, ts) /\ Forall (fun i => conn_cancelled s' i = true) dead').
  { induction l as [|x l IH]; intros s0 dead Hd; cbn [fold_left]; [by split; [apply star_refl|]|].
    pose proof (reap_conn_run aborts now s0 dead x fs ts Hd) as Hx. destruct (reap_conn now s0 dead x) as [s1 d1].
    destruct Hx as [Hr Hd1]. specialize (IH s1 d1 Hd1). destruct (fold_left _ l (s1, d1)) as [s2 d2]. destruct IH as [Hr2 Hd2].
    split; [by eapply star_trans|done]. }
  specialize (H (elements (ss_conns s)) s [] ltac:(constructor)). destruct (fold_left _ _ _) as [s' dead]. destruct H as [Hr Hd].
  eapply star_trans; [exact Hr|by apply remove_run].
Qed.

(** *** The fronts *)

Definition refused_front (st : Stage) : Prop := match st with SVerified _ _ _ => False | _ => True end.

Lemma bump_run aborts s fs ts ip st b g : refused_front st -> bump_global (ss_unauth s) ip = (b, g) ->
  star (sys_step aborts) (s, FGate (Reserved ip) st :: fs, ts)
    (set_unauth s g, (if b then [FGate (Holding ip) st] else []) ++ fs, ts).
Proof.
  intros Hst H. unfold bump_global in H; cbv zeta in H.
  assert (Hsame : set_unauth s (ss_unauth s) = s) by (by destruct s).
  destruct (Z.leb_spec (ug_max_global (ss_unauth s)) (ug_global (ss_unauth s))) as [Hle|Hlt]; injection H as <- <-.
  - destruct ip as [a|]; cbn [release_opt].
    + eapply star_step; [apply (sy_gate _ s [] (Reserved (Some a)) st fs ts (ss_unauth s) [Refused a]);
        by apply (gs_load_full_ip (ss_unauth s) [] a (phases fs))|]. rewrite Hsame.
      assert (E : after_gate [Refused a] st = [FGate (Refused a) st]) by (by destruct st). rewrite E.
      eapply star_step; [apply (sy_gate _ s [] (Refused a) st fs ts (release_ip (ss_unauth s) a) []);
        by apply (gs_refuse (ss_unauth s) [] a (phases fs))|]. destruct st; [apply star_refl..|done].
    + eapply star_step; [apply (sy_gate _ s [] (Reserved None) st fs ts (ss_unauth s) []);
        by apply (gs_load_full (ss_unauth s) [] (phases fs))|]. destruct st; [apply star_refl..|done].
  - eapply star_step; [apply (sy_gate _ s [] (Reserved ip) st fs ts (ss_unauth s) [Loaded ip (ug_global (ss_unauth s))]);
      by apply (gs_load (ss_unauth s) [] ip (phases fs))|]. rewrite Hsame.
    assert (E : forall p, after_gate [p] st = [FGate p st]) by (by destruct st). rewrite !E.
    eapply star_step; [apply (sy_gate _ s [] (Loaded ip (ug_global (ss_unauth s))) st fs ts
      (ug_set_global (ss_unauth s) (ug_global (ss_unauth s) + 1)) [Holding ip]);
      by apply (gs_cas_ok (ss_unauth s) [] ip _ (phases fs))|]. rewrite E. apply star_refl.
Qed.


Lemma admit_run aborts s fs ts ip b g : try_admit (ss_unauth s) ip = (b, g) ->
  star (sys_step aborts) (s, fs, ts) (set_unauth s g, (if b then [FGate (Holding ip) SRequest] else []) ++ fs, ts).
Proof.
  intros H. unfold try_admit in H. destruct ip as [a|].
  - destruct (reserve_ip (ss_unauth s) a) as [[] g1] eqn:Er.
    + eapply star_step; [apply sy_arrive; by apply (gs_enter_ip _ (phases fs) a g1)|].
      by apply (bump_run aborts (set_unauth s g1) fs ts (Some a) SRequest b g).
    + injection H as <- <-. apply step_run, sy_turned_away. by eapply gs_enter_full.
  - eapply star_step; [apply sy_arrive, gs_enter_any|].
    by apply (bump_run aborts (set_unauth s (ss_unauth s)) fs ts None SRequest b g).
Qed.

Lemma upgraded_run aborts s fs ts b g : try_admit (ss_unauth s) None = (b, g) ->
  star (sys_step aborts) (s, FUpgrade :: fs, ts) (set_unauth s g, (if b then [FGate (Holding None) SBearer] else []) ++ fs, ts).
Proof.
  intros H. eapply star_step; [apply (sy_upgraded _ s [] fs), gs_enter_any|].
  by apply (bump_run aborts (set_unauth s (ss_unauth s)) fs ts None SBearer b g).
Qed.

Lemma drop_run aborts s fs ts ip st : star (sys_step aborts) (s, FGate (Holding ip) st :: fs, ts)
  (set_unauth s (drop_guard (ss_unauth s) ip), after_gate [] st ++ fs, ts).
Proof.
  unfold drop_guard. destruct ip as [a|]; cbn [release_opt].
  - eapply star_step; [apply (sy_gate _ s [] (Holding (Some a)) st fs ts (ug_set_global (ss_unauth s) (wrap 64 (ug_global (ss_unauth s) - 1))) [Dropping a]);
      by apply (gs_drop_ip (ss_unauth s) [] a (phases fs))|].
    assert (E : after_gate [Dropping a] st = [FGate (Dropping a) st]) by (by destruct st). rewrite E.
    set (g1 := ug_set_global _ _). apply step_run. apply (sy_gate _ (set_unauth s g1) [] (Dropping a) st fs ts (release_ip g1 a) []).
    by apply (gs_drop_rest g1 [] a (phases fs)).
  - apply step_run. apply (sy_gate _ s [] (Holding None) st fs ts (ug_set_global (ss_unauth s) (wrap 64 (ug_global (ss_unauth s) - 1))) []). by apply (gs_drop (ss_unauth s) [] (phases fs)).
Qed.

Lemma bearer_run aborts s fs ts ip n1 n2 h b s' : bearer_ok n1 n2 s h = (b, s') ->
  star (sys_step aborts) (s, FGate (Holding ip) SRequest :: fs, ts)
    (s', FGate (Holding ip) (if b then SBearer else SRequest) :: fs, ts).
Proof.
  intros H. apply step_run. destruct b; [by apply (sy_bearer _ s [] ip fs ts n1 n2 h)|].
  pose proof (sy_bearer_failed aborts s (FGate (Holding ip) SRequest :: fs) ts n1 n2 h) as Hs. by rewrite H in Hs.
Qed.

Definition auth_stage (o : AuthOutcome) : Stage := match o with AuthAccepted uid key ap => SVerified uid key ap | _ => SBearer end.

Lemma auth_run aborts s fs ts ip n1 n2 src o s' src' d : read_auth n1 n2 s src = (o, s', src', d) ->
  star (sys_step aborts) (s, FGate (Holding ip) SBearer :: fs, ts) (s', FGate (Holding ip) (auth_stage o) :: fs, ts).
Proof.
  unfold read_auth; intros H. destruct (fr_read src raw_decoder) as [[[[f|]|e] r] d0]; try (injection H as <- <- <- <-; apply star_refl).
  destruct (bool_decide _); [|injection H as <- <- <- <-; apply star_refl].
  destruct (auth_from_frame n1 n2 s f) as [o1 s1] eqn:Ea; injection H as <- <- <- <-. apply step_run.
  destruct o1 as [uid key ap| |]; [by apply (sy_auth _ s [] ip fs ts n1 n2 f uid key ap)| |].
  all: pose proof (sy_auth_failed aborts s (FGate (Holding ip) SBearer :: fs) ts n1 n2 f) as Hs; by rewrite Ea in Hs.
Qed.

Lemma accept_run aborts now io s uid key ap d fs ts : ss_conn_seq s < u64_max ->
  star (sys_step aborts) (s, FAccepted uid key ap :: fs, ts) ((accept_auth now io s uid key ap d).2, fs, ts).
Proof.
  intros Hseq. unfold accept_auth. destruct (fw_write _ _ _ _ _ _) as [[u|e] w]; apply step_run; [|apply (sy_lost _ s [] uid key ap fs ts)].
  pose proof (sy_established aborts s [] uid key ap fs ts now Hseq) as Hs.
  by destruct (new_conn now s uid _ _) as [id s'].
Qed.

Lemma nonces_frame s s' : same_but_nonces s s' -> ss_conn_seq s' = ss_conn_seq s /\ ss_max_plaintext s' = ss_max_plaintext s.
Proof. by intros [m ->]. Qed.

Lemma after_auth o : after_gate [] (auth_stage o) = match o with AuthAccepted uid key ap => [FAccepted uid key ap] | _ => [] end.
Proof. by destruct o. Qed.

Lemma wt_incoming_run aborts tm s ip request accept io src fs ts : ss_conn_seq s < u64_max ->
  star (sys_step aborts) (s, fs, ts) ((wt_incoming tm s ip request accept io src).2, fs, ts).
Proof.
  intros Hseq. unfold wt_incoming. destruct (try_admit (ss_unauth s) (Some ip)) as [b g] eqn:Ea.
  eapply star_trans; [by apply admit_run|]. destruct b; [|apply star_refl]. cbn [app].
  destruct request as [headers|]; [|apply (drop_run _ _ fs ts (Some ip) SRequest)].
  destruct (bearer_ok _ _ _ _) as [b s1] eqn:Eb. pose proof (bearer_same (ft_bearer1 tm) (ft_bearer2 tm) (set_unauth s g)
    (header_value headers (str "authorization"))) as Hn. rewrite Eb in Hn; cbn [snd] in Hn. apply nonces_frame in Hn as [Hn _].
  eapply star_trans; [by eapply bearer_run|]. destruct b; [|apply (drop_run _ _ fs ts (Some ip) SRequest)].
  destruct (negb accept); [apply (drop_run _ _ fs ts (Some ip) SBearer)|]. unfold handle_wt_conn.
  pose proof (read_auth_same (ft_auth1 tm) (ft_auth2 tm) s1 src) as Hm.
  destruct (read_auth _ _ s1 src) as [[[o s2] src'] d] eqn:Er. apply nonces_frame in Hm as [Hm _].
  eapply star_trans; [by eapply auth_run|]. eapply star_trans; [apply drop_run|]. rewrite after_auth.
  destruct o as [uid key ap| |]; [|apply star_refl..].
  pose proof (accept_run aborts (ft_now_ms tm) io (release_ip_guard s2 ip) uid key ap d fs ts) as Hr.
  change (ss_with_caches s2 _ _ _ _) with (release_ip_guard s2 ip).
  destruct (accept_auth _ _ (release_ip_guard s2 ip) _ _ _ _) as [[e|] s3]; apply Hr; cbn; rewrite Hm, Hn; exact Hseq.
Qed.

Lemma in_band_run aborts tm s src fail fs ts : ss_conn_seq s < u64_max ->
  star (sys_step aborts) (s, FGate (Holding None) SBearer :: fs, ts) ((fb_in_band tm s src fail).2, fs, ts).
Proof.
  intros Hseq. unfold fb_in_band. pose proof (read_auth_same (ft_auth1 tm) (ft_auth2 tm) s src) as Hm.
  destruct (read_auth _ _ s src) as [[[o s2] src'] d] eqn:Er. apply nonces_frame in Hm as [Hm Hp].
  eapply star_trans; [by eapply auth_run|]. eapply star_trans; [apply drop_run|]. rewrite after_auth.
  destruct o as [uid key ap| |]; [|apply star_refl..]. unfold spawn_mode_a_channel. cbn [app].
  pose proof (sy_established aborts (release_guard s2) [] uid key ap fs ts (ft_now_ms tm)) as Hs. cbn [app] in Hs.
  change (set_unauth s2 (drop_guard (ss_unauth s2) None)) with (release_guard s2).
  change (ss_max_plaintext (release_guard s2)) with (ss_max_plaintext s2) in Hs.
  destruct (new_conn _ (release_guard s2) uid _ _) as [id s']. apply step_run, Hs. cbn; by rewrite Hm.
Qed.

Lemma api_handler_run aborts tm s auth src fs ts : ss_conn_seq s < u64_max ->
  star (sys_step aborts) (s, fs, ts) ((api_handler tm s auth src).2, fs, ts).
Proof.
  intros Hseq. unfold api_handler. destruct (try_admit (ss_unauth s) None) as [b g] eqn:Ea.
  eapply star_trans; [by apply admit_run|]. destruct b; [|apply star_refl]. cbn [app].
  destruct (bearer_ok _ _ _ _) as [b s1] eqn:Eb. pose proof (bearer_same (ft_bearer1 tm) (ft_bearer2 tm) (set_unauth s g) auth) as Hn.
  rewrite Eb in Hn; cbn [snd] in Hn. apply nonces_frame in Hn as [Hn _].
  eapply star_trans; [by eapply bearer_run|]. destruct b; [|apply (drop_run _ _ fs ts None SRequest)].
  apply in_band_run. by rewrite Hn.
Qed.

Lemma ws_handler_run aborts tm s auth upgrade src fs ts : ss_conn_seq s < u64_max ->
  star (sys_step aborts) (s, fs, ts) ((ws_handler tm s auth upgrade src).2, fs, ts).
Proof.
  intros Hseq. unfold ws_handler. destruct (bearer_ok _ _ _ _) as [b s1] eqn:Eb.
  pose proof (bearer_same (ft_bearer1 tm) (ft_bearer2 tm) s auth) as Hn. rewrite Eb in Hn; cbn [snd] in Hn. apply nonces_frame in Hn as [Hn _].
  destruct b.
  2: { pose proof (sy_bearer_failed aborts s fs ts (ft_bearer1 tm) (ft_bearer2 tm) auth) as Hs. rewrite Eb in Hs. by apply step_run. }
  eapply star_step; [by eapply sy_upgrade|]. destruct (negb upgrade); [apply step_run, (sy_not_upgraded _ s1 [] fs)|].
  destruct (try_admit (ss_unauth s1) None) as [b g] eqn:Ea. eapply star_trans; [by apply upgraded_run|].
  destruct b; [|apply star_refl]. cbn [app]. apply in_band_run. cbn; by rewrite Hn.
Qed.


(** *** The tasks of a connection *)

(** [s] becomes [s'] by steps of any fronts and tasks, which may leave or end
    tasks of the sessions, but no more units in flight. *)
Definition runs (aborts : bool) (s s' : ServerState) : Prop :=
  forall fs ts, exists ts', star (sys_step aborts) (s, fs, ts) (s', fs, ts') /\ sumz holding ts' = sumz holding ts.

Lemma runs_refl aborts s : runs aborts s s.
Proof. intros fs ts. exists ts. split; [apply star_refl|done]. Qed.

Lemma runs_trans aborts a b c : runs aborts a b -> runs aborts b c -> runs aborts a c.
Proof.
  intros H1 H2 fs ts. destruct (H1 fs ts) as (t1 & R1 & E1). destruct (H2 fs t1) as (t2 & R2 & E2). exists t2.
  split; [by eapply star_trans|by rewrite E2].
Qed.

Lemma runs_star aborts s s' : (forall fs ts, star (sys_step aborts) (s, fs, ts) (s', fs, ts)) -> runs aborts s s'.
Proof. intros H fs ts. exists ts. by split. Qed.

Lemma runs_step aborts s s' : (forall fs ts, sys_step aborts (s, fs, ts) (s', fs, ts)) -> runs aborts s s'.
Proof. intros H. apply runs_star. intros fs ts. by apply step_run. Qed.

(** A change of one connection object, when there is one. *)
Lemma runs_conn aborts cid w f : (forall c, ss_heap (hw_st w) !! cid = Some c -> exists t, t = ss_tokens (hw_st w)
    /\ runs aborts (hw_st w) (ss_set_heap (hw_st w) (<[cid := f c]> (ss_heap (hw_st w))) t)) ->
  runs aborts (hw_st w) (hw_st (hw_conn cid w f)).
Proof.
  intros H. unfold hw_conn; cbn. destruct (ss_heap (hw_st w) !! cid) as [c|] eqn:Hc.
  - destruct (H c eq_refl) as (t & -> & Hr). assert (E : alter f cid (ss_heap (hw_st w)) = <[cid := f c]> (ss_heap (hw_st w))).
    { rewrite <- (insert_id _ cid c Hc) at 1. apply alter_insert_eq. }
    by rewrite E.
  - rewrite alter_id' by done. assert (E : ss_set_heap (hw_st w) (ss_heap (hw_st w)) (ss_tokens (hw_st w)) = hw_st w) by (by destruct (hw_st w)).
    rewrite E. apply runs_refl.
Qed.

Lemma runs_touch aborts cid sid w : runs aborts (hw_st w) (hw_st (hub_touch cid sid w)).
Proof. apply runs_conn. intros c Hc. eexists; split; [done|]. apply runs_step. intros fs ts. by apply sy_touch. Qed.

Lemma runs_routes aborts cid w tcp udp : runs aborts (hw_st w)
  (hw_st (hw_conn cid w (fun c => cs_set_routes c (tcp c) (udp c)))).
Proof.
  apply runs_conn. intros c Hc. eexists; split; [done|]. apply runs_step. intros fs ts.
  apply sy_routes; [done|by left].
Qed.

Lemma runs_drop aborts cid sid s : runs aborts s (drop_and_release s cid sid).
Proof. apply runs_star. intros fs ts. apply drop_release_run. Qed.

(** The checks, the unit and the registration of one session. *)
Lemma register_run aborts now s cid c sid st tok t b c' fs ts : ss_heap s !! cid = Some c -> cs_sessions c !! sid = None ->
  session_count c < cs_max_per_conn c -> try_acquire_session s = (true, st) ->
  child_token (ss_tokens st) (cs_cancel c) = (tok, t) -> try_register_with now c sid tok = (b, c') ->
  star (sys_step aborts) (s, fs, ts) (let s' := ss_set_heap st (<[cid := c']> (ss_heap st)) t in
    if b then s' else release_session s', fs, if b then TDialing cid sid :: ts else ts).
Proof.
  intros Hc Hs Hcap Ha Ht Hr. destruct (try_acquire_heap _ _ _ Ha) as [Eh _].
  assert (Hcs : ss_conns st = ss_conns s).
  { unfold try_acquire_session in Ha; cbv zeta in Ha. destruct (_ <=? _); [done|by injection Ha as <-]. }
  eapply star_step; [apply sy_session; [by apply (hs_check _ s ts cid sid c)|done|done]|].
  eapply star_step; [apply sy_session; [by apply (hs_acquire _ s [] cid sid ts st)|done|by rewrite Eh]|].
  rewrite <- Eh in Hc. assert (Hdom : dom (<[cid := c']> (ss_heap st)) = dom (ss_heap st)) by (by rewrite dom_insert_lookup_L).
  destruct b.
  - apply step_run, sy_session; [|done|done]. by apply (hs_register _ st [] cid sid ts c c' now tok t).
  - eapply star_step; [apply sy_session; [by apply (hs_lost _ st [] cid sid ts c c' now tok t)|done|done]|].
    apply step_run, sy_session; [|done|done]. apply (hs_release _ _ [] ts).
Qed.

Lemma runs_admit aborts now s cid sid : runs aborts s (hooks_admit now s cid sid).2.
Proof.
  unfold hooks_admit. destruct (ss_heap s !! cid) as [c|] eqn:Hc; [|apply runs_refl].
  destruct (bool_decide_reflect (is_Some (cs_sessions c !! sid))) as [|Hn]; [apply runs_refl|]. apply eq_None_not_Some in Hn.
  destruct (Z.leb_spec (cs_max_per_conn c) (session_count c)); [apply runs_refl|].
  destruct (try_acquire_session s) as [[] st] eqn:Ea.
  2: { destruct (try_acquire_heap _ _ _ Ea) as [_ E]. rewrite (E eq_refl). apply runs_refl. }
  destruct (child_token (ss_tokens st) (cs_cancel c)) as [tok t] eqn:Et.
  destruct (try_register_with now c sid tok) as [b c'] eqn:Er. intros fs ts.
  pose proof (register_run aborts now s cid c sid st tok t b c' fs ts Hc Hn ltac:(lia) Ea Et Er) as Hr. cbv zeta in Hr.
  destruct b; eexists; (split; [exact Hr|done]).
Qed.

Lemma admit_object now s cid sid tok st : hooks_admit now s cid sid = (Ok tok, st) -> is_Some (ss_heap st !! cid).
Proof.
  unfold hooks_admit. destruct (ss_heap s !! cid) as [c|]; [|done]. destruct (bool_decide _); [done|]. destruct (_ <=? _); [done|].
  destruct (try_acquire_session s) as [[] st1]; [|done]. destruct (child_token _ _) as [k t].
  destruct (try_register_with _ _ _ _) as [[] c']; [|done]. intros [= <- <-]; cbn. rewrite lookup_insert_eq. by eexists.
Qed.

(** The relay's token and its route, made together. *)
Lemma runs_relay aborts cid w (udp : nat -> ConnState -> gmap Z UdpRelay) : is_Some (ss_heap (hw_st w) !! cid) ->
  let '(tok, t) := token_new (ss_tokens (hw_st w)) in
  runs aborts (hw_st w) (hw_st (hw_conn cid (hw_set w (ss_set_heap (hw_st w) (ss_heap (hw_st w)) t))
    (fun c => cs_set_routes c (cs_tcp_routes c) (udp tok c)))).
Proof.
  intros [c Hc]. cbn. apply runs_step. intros fs ts.
  assert (E : forall f, alter f cid (ss_heap (hw_st w)) = <[cid := f c]> (ss_heap (hw_st w))).
  { intros f. rewrite <- (insert_id _ cid c Hc) at 1. apply alter_insert_eq. }
  rewrite E. eapply (sy_routes _ (hw_st w) fs ts cid c _ _ (token_new (ss_tokens (hw_st w))).2); [done|by right].
Qed.

Lemma runs_resolve aborts lh dst allow s now : runs aborts s (resolve_udp_target lh dst allow s now).2.
Proof.
  unfold resolve_udp_target. destruct dst; try apply runs_refl. destruct (udp_dns_cached _ _ _); [apply runs_refl|].
  destruct (rbind _ _); [|apply runs_refl]. apply runs_step. intros fs ts. apply sy_dns.
Qed.


Lemma run_death aborts cid s : runs aborts s (death_watcher cid s).
Proof.
  apply (runs_trans _ _ (cancel_conn cid s)); [apply runs_step; intros; apply sy_cancel|].
  assert (E : death_watcher cid s = remove_conns (cancel_conn cid s) [cid]).
  { unfold death_watcher, remove_conns, ss_with_sessions; cbn; f_equal. set_solver. }
  rewrite E. apply runs_step. intros fs ts. apply sy_remove. rewrite cancel_conn_heap.
  destruct (ss_heap s !! cid) eqn:Hc; [left|by right]. apply cancel_conn_self. by rewrite Hc.
Qed.

Section hooks.
Context (lookup_host : bytes -> Z -> option (list SocketAddr)) (connect : SocketAddr -> option Z) (budget : nat)
        (bind : bool -> option Z) (aborts : bool) (s0 : ServerState).

(** The hooks of the session engine are such steps, for whatever connection:
    [HooksKeep] at the worlds that [s0] reaches. *)
#[local] Instance hooks_run cid : HooksKeep (Hooks lookup_host connect budget bind cid) (fun w => runs aborts s0 (hw_st w)).
Proof.
  assert (Ht : forall sid w, runs aborts s0 (hw_st w) -> runs aborts s0 (hw_st (hub_touch cid sid w))).
  { intros sid w Hw. eapply runs_trans; [exact Hw|apply runs_touch]. }
  assert (Hdr : forall sid w, runs aborts s0 (hw_st w) -> runs aborts s0 (drop_and_release (hw_st w) cid sid)).
  { intros sid w Hw. eapply runs_trans; [exact Hw|apply runs_drop]. }
  split; cbn.
  - intros sid host port w Hw; unfold hub_open_tcp.
    pose proof (runs_admit aborts (hw_now w) (hw_st w) cid sid) as Ha.
    destruct (hooks_admit _ _ _ _) as [[tok|e] st]; cbn [snd] in *; [|by eapply runs_trans].
    destruct (dial_target _ _ _ _ _ _).1; cbn [snd].
    + eapply runs_trans; [exact Hw|]. eapply runs_trans; [exact Ha|]. cbn.
      apply (runs_routes aborts cid (hw_set w st) (fun c => <[sid := []]> (cs_tcp_routes c)) cs_udp_routes).
    + eapply runs_trans; [exact Hw|]. eapply runs_trans; [exact Ha|]. apply runs_drop.
  - intros sid data fin rst w Hw; unfold hub_feed_tcp. destruct rst; [by apply Hdr|].
    apply (Ht sid) in Hw. set (w1 := hub_touch cid sid w) in *.
    destruct (ss_heap (hw_st w1) !! cid) as [c|]; [|done]. destruct (cs_tcp_routes c !! sid) as [q|]; [|done].
    destruct (bool_decide _); [by apply (Hdr sid w1)|]. eapply runs_trans; [exact Hw|].
    apply (runs_routes aborts cid w1 (fun c => <[sid := q ++ [(data, fin)]]> (cs_tcp_routes c)) cs_udp_routes).
  - intros; by apply Hdr.
  - intros sid w Hw; unfold hub_udp_associate, udp_admit.
    destruct (ss_heap (hw_st w) !! cid) as [c|]; [|done]. destruct (bool_decide _); [done|].
    pose proof (runs_admit aborts (hw_now w) (hw_st w) cid sid) as Ha.
    destruct (hooks_admit _ _ _ _) as [[tok|e] st] eqn:Ea; cbn [snd] in *; [|by eapply runs_trans].
    eapply runs_trans; [exact Hw|]. eapply runs_trans; [exact Ha|]. apply admit_object in Ea.
    apply (runs_relay aborts cid (hw_set w st) (fun tok c => <[sid := {| ur_cancel := tok; ur_v4 := None; ur_v6 := None |}]> (cs_udp_routes c)) Ea).
  - intros sid dst data w Hw; unfold hub_udp_feed.
    destruct (ss_heap (hw_st w) !! cid) as [c|]; [|done]. destruct (cs_udp_routes c !! sid) as [relay|]; [|done].
    apply (Ht sid) in Hw. set (w1 := hub_touch cid sid w) in *.
    pose proof (runs_resolve aborts lookup_host dst (ss_allow_private_targets (hw_st w1)) (hw_st w1) (hw_instant w1)) as Hr.
    destruct (resolve_udp_target _ _ _ _ _) as [[a|e] st]; cbn [snd] in *; [|by eapply runs_trans].
    destruct (get_or_bind _ _ _) as [[sock relay']|]; [|by eapply runs_trans].
    eapply runs_trans; [exact Hw|]. eapply runs_trans; [exact Hr|].
    apply (runs_routes aborts cid (hw_set w1 st) cs_tcp_routes (fun c => alter (fun _ => relay') sid (cs_udp_routes c))).
  - intros. by apply Ht.
Qed.

Lemma run_datagram cid w f : runs aborts s0 (hw_st w) ->
  runs aborts s0 (hw_st (feed_datagram lookup_host connect budget bind cid w f)).
Proof.
  intros Hw; unfold feed_datagram; destruct (ua_decode _) as [[dst r]|]; [|done].
  pose proof (@udp_feed_keeps _ _ _ (hooks_run cid)) as Hk. pose proof (@touch_keeps _ _ _ (hooks_run cid)) as Ht.
  apply Hk. by apply Ht.
Qed.

Lemma run_ctrl cid w f : runs aborts s0 (hw_st w) ->
  runs aborts s0 (hw_st (handle_ctrl_frame lookup_host connect budget bind cid w f).2).
Proof.
  intros Hw; unfold handle_ctrl_frame.
  destruct (f_ftype f); cbn [snd]; try done; try (eapply runs_trans; [exact Hw|apply runs_drop]); [|by apply run_datagram].
  pose proof (@udp_associate_keeps _ _ _ (hooks_run cid) (f_sid f) w Hw) as Ho. by destruct (udp_associate (f_sid f) w) as [[] w'].
Qed.

Lemma run_stream cid w wr first env : runs aborts s0 (hw_st w) ->
  runs aborts s0 (hw_st (handle_wt_stream lookup_host connect budget cid w wr first env).1.2).
Proof.
  intros Hw; unfold handle_wt_stream. destruct first as [f|]; [|done].
  destruct (ss_heap (hw_st w) !! cid) as [c|] eqn:Hc; [|done]. destruct (bool_decide _); [done|].
  destruct (bool_decide_reflect (is_Some (cs_sessions c !! f_sid f))) as [|Hs]; [done|]. apply eq_None_not_Some in Hs.
  assert (Ha : runs aborts (hw_st w) (hw_st (stream_admit cid w c (f_sid f)).2)).
  { unfold stream_admit. destruct (Z.leb_spec (cs_max_per_conn c) (session_count c)); [apply runs_refl|].
    destruct (try_acquire_session (hw_st w)) as [[] st] eqn:Ea.
    2: { destruct (try_acquire_heap _ _ _ Ea) as [_ E]. cbn. rewrite (E eq_refl). apply runs_refl. }
    destruct (child_token (ss_tokens st) (cs_cancel c)) as [tok t] eqn:Et.
    destruct (try_register_with (hw_now w) c (f_sid f) tok) as [b c'] eqn:Er. intros fs ts.
    pose proof (register_run aborts (hw_now w) (hw_st w) cid c (f_sid f) st tok t b c' fs ts Hc Hs ltac:(lia) Ea Et Er) as Hr.
    cbv zeta in Hr. destruct b; eexists; (split; [exact Hr|done]). }
  destruct (stream_admit cid w c (f_sid f)) as [[u|e] w1]; cbn [snd] in Ha; [|by eapply runs_trans].
  assert (H1 : runs aborts s0 (hw_st w1)) by (by eapply runs_trans).
  assert (Hd : runs aborts s0 (drop_and_release (hw_st w1) cid (f_sid f))) by (eapply runs_trans; [exact H1|apply runs_drop]).
  destruct (decode_open (f_payload f)) as [[host port]|]; [|done].
  destruct (dial_target _ _ _ _ _ _).1; [|done]. by destruct (frame_send _ _ _ _ _ _) as [[] ?].
Qed.

Lemma run_target_to_client {Env S} {F : FrameOut Env S} cid sid evs : forall w (s : S), runs aborts s0 (hw_st w) ->
  runs aborts s0 (hw_st (target_to_client cid sid w s evs).1.1).
Proof.
  induction evs as [|[|[[|x b]|e] v] evs IH]; intros w s Hw; cbn [target_to_client]; try done.
  assert (Ht : runs aborts s0 (hw_st (hub_touch cid sid w))) by (eapply runs_trans; [exact Hw|apply runs_touch]).
  destruct (frame_send v s FData 0 sid (x :: b)) as [[] s']; [by apply IH|done].
Qed.

Lemma run_pump_out {Env S} {F : FrameOut Env S} cid sid evs w (s : S) : runs aborts s0 (hw_st w) ->
  runs aborts s0 (hw_st (pump_out cid sid w s evs).1.1).
Proof.
  intros Hw; unfold pump_out; pose proof (run_target_to_client cid sid evs w s Hw) as H.
  destruct (target_to_client cid sid w s evs) as [[w' s'] []]; cbn in *; [|done]. eapply runs_trans; [exact H|apply runs_drop].
Qed.

Lemma run_client_loop cid sid evs : forall w t, runs aborts s0 (hw_st w) -> runs aborts s0 (hw_st (wt_client_loop cid sid w t evs).1.1).
Proof.
  induction evs as [|[|[[f|]|e] io] evs IH]; intros w t Hw; cbn [wt_client_loop]; try done.
  assert (Ht : runs aborts s0 (hw_st (hub_touch cid sid w))) by (eapply runs_trans; [exact Hw|apply runs_touch]).
  destruct (f_ftype f); try (by apply IH).
  - destruct (negb io); [done|]. destruct (has_flag _ _); [done|by apply IH].
  - by destruct (has_flag _ _).
Qed.

Lemma run_client_to_target cid sid evs w t : runs aborts s0 (hw_st w) ->
  runs aborts s0 (hw_st (wt_client_to_target cid sid w t evs).1.1).
Proof.
  intros Hw; unfold wt_client_to_target; pose proof (run_client_loop cid sid evs w t Hw) as H.
  destruct (wt_client_loop cid sid w t evs) as [[w' t'] []]; cbn in *; try done. eapply runs_trans; [exact H|apply runs_drop].
Qed.

Lemma run_conn_step cid w w' : runs aborts s0 (hw_st w) -> conn_step lookup_host connect budget bind cid w w' -> runs aborts s0 (hw_st w').
Proof.
  intros Hw Hs; destruct Hs as [w f|w f|w wr first env|w sid wr evs|w sid t evs|w|w|w now].
  - by apply run_ctrl.
  - unfold handle_dgram_frame; destruct (f_ftype f); try done; by apply run_datagram.
  - by apply run_stream.
  - by apply run_pump_out.
  - by apply run_client_to_target.
  - eapply runs_trans; [exact Hw|]. apply runs_step; intros; apply sy_cancel.
  - eapply runs_trans; [exact Hw|apply run_death].
  - eapply runs_trans; [exact Hw|]. apply runs_star; intros; apply reaper_run.
Qed.

Lemma run_mux cid l l' : runs aborts s0 (hw_st (ml_world l)) ->
  star (@mux_step _ (Hooks lookup_host connect budget bind cid)) l l' -> runs aborts s0 (hw_st (ml_world l')).
Proof. intros Hl Hs. by eapply (@mux_step_keeps _ _ _ (hooks_run cid)). Qed.

End hooks.

(** ** The server as its handlers see it *)

(** One handler at a time: a connection let in or turned away by one of the
    three fronts, a step of a WebTransport connection's tasks, a run of a
    fallback channel's loop, the pump of a channel session, the end of a
    connection, a tick of the reaper, the shutdown. *)
Inductive serve_step : ServerState -> ServerState -> Prop :=
| sv_wt tm s ip request accept io src : ss_conn_seq s < u64_max ->
    serve_step s (wt_incoming tm s ip request accept io src).2
| sv_post tm s auth src : ss_conn_seq s < u64_max -> serve_step s (api_handler tm s auth src).2
| sv_ws tm s auth upgrade src : ss_conn_seq s < u64_max -> serve_step s (ws_handler tm s auth upgrade src).2
| sv_conn lh cn budget bind cid w w' : conn_step lh cn budget bind cid w w' -> serve_step (hw_st w) (hw_st w')
| sv_mux lh cn budget bind cid l l' : star (@mux_step _ (Hooks lh cn budget bind cid)) l l' ->
    serve_step (hw_st (ml_world l)) (hw_st (ml_world l'))
| sv_pump {Env S} {F : FrameOut Env S} cid sid w (o : S) evs : serve_step (hw_st w) (hw_st (pump_out cid sid w o evs).1.1)
| sv_death cid s : serve_step s (death_watcher cid s)
| sv_reap now s : serve_step s (reaper_tick now s)
| sv_cancel_all s : serve_step s (cancel_all s)
| sv_sweep s : serve_step s (shutdown_sweep s).

Lemma serve_step_run aborts s s' : serve_step s s' -> runs aborts s s'.
Proof.
  intros [].
  - apply runs_star; intros; by apply wt_incoming_run.
  - apply runs_star; intros; by apply api_handler_run.
  - apply runs_star; intros; by apply ws_handler_run.
  - eapply run_conn_step; [apply runs_refl|exact H].
  - eapply run_mux; [apply runs_refl|exact H].
  - apply run_pump_out, runs_refl.
  - apply run_death.
  - apply runs_star; intros; apply reaper_run.
  - apply runs_star; intros; apply cancel_all_run.
  - apply runs_star; intros; apply sweep_run.
Qed.

(** ** What no step undoes *)

(** The configuration stays, connection objects stay with their tokens, and
    what is cancelled stays cancelled. *)
Definition later (s s' : ServerState) : Prop :=
  ss_static_keys s' = ss_static_keys s /\ ss_max_sessions s' = ss_max_sessions s
  /\ ug_max_global (ss_unauth s') = ug_max_global (ss_unauth s) /\ ug_max_per_ip (ss_unauth s') = ug_max_per_ip (ss_unauth s)
  /\ tk_cancelled (ss_tokens s) ⊆ tk_cancelled (ss_tokens s')
  /\ forall cid c, ss_heap s !! cid = Some c -> exists c', ss_heap s' !! cid = Some c' /\ cs_cancel c' = cs_cancel c.

Lemma later_refl s : later s s.
Proof. split_and!; eauto. Qed.

Lemma later_trans a b c : later a b -> later b c -> later a c.
Proof.
  intros (A1 & A2 & A3 & A4 & A5 & A6) (B1 & B2 & B3 & B4 & B5 & B6).
  split_and!; [congruence..|set_solver|]. intros cid x Hx. destruct (A6 cid x Hx) as (y & Hy & Ey).
  destruct (B6 cid y Hy) as (z & Hz & Ez). exists z. split; [done|congruence].
Qed.

Lemma gate_frame a b : gate_step a b -> ug_max_global b.1 = ug_max_global a.1 /\ ug_max_per_ip b.1 = ug_max_per_ip a.1.
Proof.
  intros []; cbn [fst]; try done; try apply release_ip_frame; unfold reserve_ip in *; cbv zeta in *; by destruct (_ <=? _); simplify_eq.
Qed.

Lemma later_gate s fs fs' g' : gate_step (ss_unauth s, fs) (g', fs') -> later s (set_unauth s g').
Proof. intros [E1 E2]%gate_frame. split_and!; cbn; eauto. Qed.

Lemma later_nonces s s' : same_but_nonces s s' -> later s s'.
Proof. intros [m ->]. split_and!; cbn; eauto. Qed.

Lemma later_set s cid c c' t : ss_heap s !! cid = Some c -> tok_le (ss_tokens s) t -> cs_cancel c' = cs_cancel c ->
  later s (ss_set_heap s (<[cid := c']> (ss_heap s)) t).
Proof.
  intros Hc (_ & _ & Hsub & _) Hk. split_and!; cbn; try done. intros i x Hx. destruct (decide (i = cid)) as [->|Hne].
  - rewrite lookup_insert_eq. simplify_eq. eauto.
  - rewrite lookup_insert_ne by done. eauto.
Qed.

Lemma later_active s n : later s (ss_set_active s n).
Proof. split_and!; cbn; eauto. Qed.

Lemma later_drop s cid sid b s' : drop_at s cid sid = (b, s') -> later s s'.
Proof.
  unfold drop_at; intros Hd. destruct (ss_heap s !! cid) as [c|] eqn:Hc; [|injection Hd as <- <-; apply later_refl].
  destruct (drop_session (ss_tokens s) c sid) as [[b' t] c'] eqn:Ed. injection Hd as <- <-.
  assert (Hrel : tok_le (ss_tokens s) (cancel_relay (ss_tokens s) (cs_udp_routes c !! sid))).
  { unfold cancel_relay. destruct (cs_udp_routes c !! sid); [apply tok_le_cancel|apply tok_le_refl]. }
  unfold drop_session in Ed; cbn in Ed. destruct (cs_sessions c !! sid); injection Ed as <- <- <-; (eapply later_set; [exact Hc| |done]); [|done].
  eapply tok_le_trans; [exact Hrel|apply tok_le_cancel].
Qed.

Lemma later_hub aborts y y' : hub_step aborts y y' -> later y.1 y'.1.
Proof.
  intros Hs; destruct Hs; cbn [fst]; try apply later_refl; try (by eapply later_drop).
  - split_and!; cbn; try done. intros i x Hx. rewrite lookup_insert_ne by congruence. eauto.
  - split_and!; cbn; eauto.
  - unfold try_acquire_session in H; cbv zeta in H. destruct (_ <=? _); [done|]. injection H as <-. apply later_active.
  - unfold try_acquire_session in H; cbv zeta in H. destruct (_ <=? _); [|done]. injection H as <-. apply later_refl.
  - apply tok_le_child in H0 as [Hle _]. unfold try_register_with in H1; cbn in H1.
    destruct (cs_sessions c !! sid); [done|]. injection H1 as <-. by eapply later_set.
  - apply tok_le_child in H0 as [Hle _]. unfold try_register_with in H1; cbn in H1.
    destruct (cs_sessions c !! sid); [|done]. injection H1 as <-. by eapply later_set.
  - apply later_active.
Qed.

Lemma later_step aborts y y' : table_ok y.1.1 -> sys_step aborts y y' -> later y.1.1 y'.1.1.
Proof.
  intros Ht Hs; destruct Hs; cbn [fst] in *; try apply later_refl; try (by eapply later_gate).
  - pose proof (bearer_same now1 now2 s header) as Hb. rewrite H in Hb. by apply later_nonces.
  - pose proof (bearer_same now1 now2 s header) as Hb. rewrite H in Hb. by apply later_nonces.
  - apply later_nonces, bearer_same.
  - apply auth_key in H as [_ Hb]. by apply later_nonces.
  - apply later_nonces, auth_loop_same.
  - set (cipher := cipher_new _). set (n := negotiate _ _).
    destruct (new_conn_frame now s uid cipher n) as (Eu & Ek & _ & Em & c & _ & Eh). destruct Ht as (_ & _ & _ & Hall).
    assert (Etok : ss_tokens (new_conn now s uid cipher n).2 = (token_new (ss_tokens s)).2).
    { unfold new_conn, token_new. by destruct (rate_for s uid). }
    split_and!; rewrite ?Eu, ?Ek, ?Em, ?Etok, ?Eh; try done. intros i x Hx. destruct (Hall i x Hx) as (_ & Hlt & _).
    rewrite lookup_insert_ne by lia. eauto.
  - by apply (later_hub aborts (s, ts) (s', ts')).
  - eapply later_set; [done|apply tok_le_refl|]. unfold cs_touch; cbn. by destruct (cs_sessions c !! sid).
  - eapply later_set; [done|by apply tok_le_made|done].
  - unfold udp_dns_store. destruct (_ =? 0); [apply later_refl|].
    destruct (_ <=? _); [destruct (_ <=? _)|]; (split_and!; cbn; eauto).
  - unfold cancel_conn. destruct (ss_heap s !! cid) as [c|]; [|apply later_refl]. split_and!; cbn; eauto. set_solver.
  - split_and!; cbn; eauto.
Qed.

Lemma later_star aborts y y' : sys_inv y -> star (sys_step aborts) y y' -> later y.1.1 y'.1.1 /\ sys_inv y'.
Proof.
  intros Hi Hs. induction Hs as [y|y y1 y2 Hs _ IH]; [split; [apply later_refl|done]|].
  assert (Ht : table_ok y.1.1) by (by destruct y as [[s fs] ts], Hi as (_ & _ & ? & _)).
  destruct IH as [Hl Hi2]; [by eapply sys_inv_step|]. split; [|done]. eapply later_trans; [by eapply later_step|exact Hl].
Qed.

Lemma sys_inv_start cfg : 0 <= sc_max_sessions cfg <= u64_max -> sc_max_unauth cfg <= u64_max -> sys_inv (build_state cfg, [], []).
Proof.
  intros Hm Hu. split; [by apply gate_inv_new|]. split; [by apply idle_quota|]. split; [|constructor].
  by split_and!.
Qed.

(** A cancelled connection's sessions are cancelled. *)
Lemma child_cancelled t p k : child_of t p k -> p ∈ tk_cancelled t -> is_cancelled t k = true.
Proof.
  intros [Hk Hp] Hin. unfold is_cancelled. destruct (tk_next t) as [|n] eqn:E; [lia|]. cbn [cancelled_up]. rewrite Hp.
  apply orb_true_iff; right. destruct n; cbn [cancelled_up]; by rewrite bool_decide_true.
Qed.

Lemma conn_cancelled_iff s cid c : table_ok s -> ss_heap s !! cid = Some c ->
  conn_cancelled s cid = true <-> cs_cancel c ∈ tk_cancelled (ss_tokens s).
Proof.
  intros (_ & _ & _ & Hall) Hc. destruct (Hall cid c Hc) as (_ & _ & _ & _ & Hp & _). unfold conn_cancelled. rewrite Hc.
  by apply cancelled_root.
Qed.

(** ** Properties *)

(** C3: the running server is exact. Under every interleaving of the tasks of
    all its connections, from the gate to the pumps, with the reaper and the
    shutdown in between: the gate counts exactly the connections that hold a
    guard, in all and per address, within both its caps; the session counter
    is the number of registered sessions plus the units in flight, within the
    cap; every connection object belongs to a configured user, is either in the
    table or cancelled, and when it is cancelled so is each of its sessions. *)
Theorem server_exact cfg aborts s fs ts : 0 <= sc_max_sessions cfg <= u64_max -> sc_max_unauth cfg <= u64_max ->
  star (sys_step aborts) (build_state cfg, [], []) (s, fs, ts) ->
  ug_global (ss_unauth s) = sumz holds (phases fs) /\ ug_global (ss_unauth s) <= Z.max (sc_max_unauth cfg) 1 /\
  (forall ip, default 0 (ug_per_ip (ss_unauth s) !! ip) = sumz (counts ip) (phases fs)
     /\ sumz (counts ip) (phases fs) <= ug_max_per_ip (ss_unauth (build_state cfg))) /\
  ss_active_sessions s = total_sessions s + sumz holding ts /\ ss_active_sessions s <= sc_max_sessions cfg /\
  forall cid c, ss_heap s !! cid = Some c ->
    is_Some (ss_static_keys (build_state cfg) !! cs_uid c) /\ (cid ∈ ss_conns s \/ conn_cancelled s cid = true) /\
    (conn_cancelled s cid = true -> forall sid h, cs_sessions c !! sid = Some h -> is_cancelled (ss_tokens s) (sh_cancel h) = true).
Proof.
  intros Hm Hu Hr. destruct (later_star _ _ _ (sys_inv_start cfg Hm Hu) Hr) as [(Ek & Em & Eg & Ei & _) (Hg & Hh & Ht & _)].
  cbn [fst] in *. destruct Hg as (_ & I1 & G1 & G2 & G3 & _). destruct Hh as (_ & Ha & Hmax & _). cbn [fst snd] in *.
  rewrite Eg in G2. rewrite Em in Hmax. split_and!; [done|exact G2| |exact Ha|exact Hmax|].
  - intros ip. rewrite Ei in G3, I1. destruct (G3 ip) as [[-> ->]|[-> [_ ?]]]; (split; [done|lia]).
  - intros cid c Hc. pose proof (conn_cancelled_iff s cid c Ht Hc) as Hx. destruct Ht as (_ & _ & _ & Hall).
    destruct (Hall cid c Hc) as (_ & _ & Hk & _ & _ & Hch & Hin). rewrite Ek in Hk. split; [exact Hk|]. split.
    + destruct Hin; [by left|right; by apply Hx].
    + intros Hcan sid h Hs. eapply child_cancelled; [by eapply Hch|by apply Hx].
Qed.

Lemma serve_runs aborts s s' : star serve_step s s' -> runs aborts s s'.
Proof. intros H. induction H; [apply runs_refl|]. eapply runs_trans; [by apply serve_step_run|done]. Qed.

(** Between handlers nothing is in flight. *)
Lemma serve_rest cfg s : 0 <= sc_max_sessions cfg <= u64_max -> sc_max_unauth cfg <= u64_max ->
  star serve_step (build_state cfg) s ->
  ug_global (ss_unauth s) = 0 /\ ug_per_ip (ss_unauth s) = ∅ /\
  ss_active_sessions s = total_sessions s /\ ss_active_sessions s <= sc_max_sessions cfg.
Proof.
  intros Hm Hu Hr. destruct (serve_runs false _ _ Hr [] []) as (ts' & Hs & Eh).
  destruct (later_star _ _ _ (sys_inv_start cfg Hm Hu) Hs) as [(_ & Em & _) (Hg & Hh & _)]. cbn [fst] in *.
  destruct Hg as (_ & _ & G1 & _ & G3 & _). destruct Hh as (_ & Ha & Hmax & _). cbn [fst snd] in *.
  rewrite Eh in Ha. change (sumz holding []) with 0 in Ha. rewrite Em in Hmax. split_and!; [exact G1| |lia|exact Hmax].
  apply map_empty. intros ip. destruct (G3 ip) as [[? _]|[_ Hn]]; [done|]. change (sumz (counts ip) (phases [])) with 0 in Hn. lia.
Qed.

(** C4: the handlers implement the interleaved server. Any sequence of whole
    handlers (the three fronts, a connection's tasks, channels with their
    workers, the reaper, the shutdown) is a run of the atomic steps, whatever
    other fronts and tasks are under way, and leaves no unit in flight: between
    handlers the gate is empty and the counter is the registered sessions. *)
Theorem handlers_refine cfg s : 0 <= sc_max_sessions cfg <= u64_max -> sc_max_unauth cfg <= u64_max ->
  star serve_step (build_state cfg) s ->
  (forall aborts fs ts, exists ts', star (sys_step aborts) (build_state cfg, fs, ts) (s, fs, ts') /\ sumz holding ts' = sumz holding ts) /\
  ug_global (ss_unauth s) = 0 /\ ug_per_ip (ss_unauth s) = ∅ /\
  ss_active_sessions s = total_sessions s /\ ss_active_sessions s <= sc_max_sessions cfg.
Proof. intros Hm Hu Hr. split; [intros aborts; by apply serve_runs|by apply serve_rest]. Qed.

(** What the shutdown cancels stays so, whatever the tasks still do during the
    drain, and the last sweep takes it out of the table. *)
Lemma shutdown_reaches cfg s s' cid c : 0 <= sc_max_sessions cfg <= u64_max -> sc_max_unauth cfg <= u64_max ->
  star serve_step (build_state cfg) s -> star serve_step (cancel_all s) s' -> ss_heap s !! cid = Some c ->
  cid ∉ ss_conns (shutdown_sweep s') /\
  exists c', ss_heap s' !! cid = Some c' /\ conn_cancelled s' cid = true /\
    forall sid h, cs_sessions c' !! sid = Some h -> is_cancelled (ss_tokens s') (sh_cancel h) = true.
Proof.
  intros Hm Hu Hr Hr' Hc. pose proof (serve_runs false) as Hruns.
  destruct (Hruns _ _ Hr [] []) as (t1 & R1 & _). destruct (later_star _ _ _ (sys_inv_start cfg Hm Hu) R1) as [_ I1].
  destruct (later_star _ _ _ I1 (cancel_all_run false s [] t1)) as [(_ & _ & _ & _ & _ & L1) I2].
  destruct (Hruns _ _ Hr' [] t1) as (t2 & R2 & _). destruct (later_star _ _ _ I2 R2) as [(_ & _ & _ & _ & Sub & L2) I3].
  cbn [fst] in *. destruct (L1 cid c Hc) as (c1 & Hc1 & E1). destruct (L2 cid c1 Hc1) as (c2 & Hc2 & E2).
  destruct I2 as (_ & _ & T2 & _). destruct I3 as (_ & _ & T3 & _).
  assert (Hcan : conn_cancelled s' cid = true).
  { apply (conn_cancelled_iff s' cid c2 T3 Hc2). rewrite E2. apply Sub.
    destruct (T2) as (_ & _ & _ & Hall). destruct (Hall cid c1 Hc1) as (_ & _ & _ & _ & _ & _ & [Hin|Hin]); [|exact Hin].
    apply (conn_cancelled_iff (cancel_all s) cid c1 T2 Hc1). apply cancel_all_covers; [by rewrite cancel_all_conns in Hin|by rewrite Hc]. }
  split; [unfold shutdown_sweep, sweep_conns; cbn; rewrite elem_of_filter; intros [Hf _]; by rewrite Hcan in Hf|].
  exists c2. split; [done|]. split; [done|]. intros sid h Hs. apply (conn_cancelled_iff s' cid c2 T3 Hc2) in Hcan.
  destruct T3 as (_ & _ & _ & Hall). destruct (Hall cid c2 Hc2) as (_ & _ & _ & _ & _ & Hch & _).
  eapply child_cancelled; [by eapply Hch|exact Hcan].
Qed.

(** The state when nobody is connecting and every task has ended: no session
    is registered. *)
Lemma owned_sys_step y y' : owned (y.1.1, y.2) -> sys_inv y -> sys_step false y y' -> owned (y'.1.1, y'.2).
Proof.
  assert (Hobj : forall s ts cid c c' t, owned (s, ts) -> ss_heap s !! cid = Some c ->
    (forall sid, is_Some (cs_sessions c' !! sid) -> is_Some (cs_sessions c !! sid)) ->
    owned (ss_set_heap s (<[cid := c']> (ss_heap s)) t, ts)).
  { intros s ts cid c c' t Ho Hc Hs. eapply owned_set; [done|done|]. intros sid Hx. left. by apply Hs. }
  assert (Hn : forall s s' ts, same_but_nonces s s' -> owned (s, ts) -> owned (s', ts)) by (by intros s s' ts [m ->]).
  intros Ho Hi Hs; destruct Hs; cbn [fst snd] in *; try exact Ho.
  - pose proof (bearer_same now1 now2 s header) as Hb. rewrite H in Hb. by eapply Hn.
  - pose proof (bearer_same now1 now2 s header) as Hb. rewrite H in Hb. by eapply Hn.
  - eapply Hn; [apply bearer_same|done].
  - apply auth_key in H as [_ Hb]. by eapply Hn.
  - eapply Hn; [apply auth_loop_same|done].
  - set (cipher := cipher_new _). set (n := negotiate _ _).
    destruct (new_conn_frame now s uid cipher n) as (_ & _ & _ & _ & c & Hc & Eh). intros i x sid Hx Hsid; cbn [fst] in Hx.
    rewrite Eh in Hx. apply lookup_insert_Some in Hx as [[<- <-]|[_ Hx]]; [|by eapply (Ho i x)].
    rewrite Hc, lookup_empty in Hsid. by destruct Hsid.
  - by apply (owned_step _ _ Ho).
  - eapply Hobj; [done|done|]. intros x [h Hx]. apply touch_sessions in Hx as (h0 & Hx & _). by rewrite Hx.
  - by eapply Hobj.
  - assert (E : ss_heap (udp_dns_store s key addr now) = ss_heap s) by (unfold udp_dns_store; by repeat destruct (_ : bool)).
    unfold owned; cbn [fst snd]. rewrite E. exact Ho.
  - unfold owned; cbn [fst snd]. rewrite cancel_conn_heap. exact Ho.
Qed.

(** Nothing leaks: if no worker is aborted while it dials, then once nobody is
    connecting and every task has ended, the gate is empty, no session is
    registered anywhere and the counter is zero. *)
Theorem server_drains cfg s : 0 <= sc_max_sessions cfg <= u64_max -> sc_max_unauth cfg <= u64_max ->
  star (sys_step false) (build_state cfg, [], []) (s, [], []) ->
  ug_global (ss_unauth s) = 0 /\ ss_active_sessions s = 0 /\ forall cid c, ss_heap s !! cid = Some c -> cs_sessions c = ∅.
Proof.
  intros Hm Hu Hr. assert (Hb : forall y, star (sys_step false) (build_state cfg, [], []) y -> sys_inv y /\ owned (y.1.1, y.2)).
  { intros y Hy. apply (star_invariant (sys_step false) (fun y => sys_inv y /\ owned (y.1.1, y.2)) _ _) in Hy; [exact Hy| |].
    - intros a b [Ia Oa] Hab. split; [by eapply sys_inv_step|by eapply owned_sys_step].
    - split; [by apply sys_inv_start|]. intros cid c sid Hc. cbn in Hc. by rewrite lookup_empty in Hc. }
  destruct (Hb _ Hr) as [(Hg & (_ & Ha & _) & _) Ho]. cbn [fst snd] in *. destruct Hg as (_ & _ & G1 & _).
  assert (Hz : forall cid c, ss_heap s !! cid = Some c -> cs_sessions c = ∅).
  { intros cid c Hc. apply map_empty. intros sid. apply eq_None_not_Some. intros Hs. specialize (Ho cid c sid Hc Hs).
    cbn in Ho. by apply Exists_nil in Ho. }
  split; [exact G1|]. split; [|exact Hz]. unfold total_sessions in Ha. rewrite Ha, map_sum_zero; [done|]. intros cid c Hc. unfold session_count.
  by rewrite (Hz cid c Hc), map_size_empty.
Qed.

End system.

(** ** Witnesses *)

Module SystemWitness.
Import CryptoWitness HubPropertyWitness.

Definition config : ServerConfig := {|
  sc_listen := None; sc_cert := CertSelfSigned; sc_fallback_listen := None; sc_http_listen := None;
  sc_acme_dir := None; sc_path := str "/api"; sc_users := [(HandshakeWitness.uid, str "secret")];
  sc_max_sessions := 200; sc_rate_mbps := 0; sc_idle_secs := 60; sc_allow_private_targets := false;
  sc_max_unauth := 128; sc_recv_window := 1; sc_shutdown_grace := 1; sc_health := None;
  sc_max_plaintext := 32768; sc_udp_dns_ttl := 3600 |}.

Lemma caps : 0 <= sc_max_sessions config <= u64_max /\ sc_max_unauth config <= u64_max.
Proof. vm_compute; intuition discriminate. Defined.

(** A user connects and opens a session. *)
Definition connected : ServerState := (wt_incoming WebWitness.times (build_state config) ServerRunWitness.ip
  (Some ServerRunWitness.auth_header) true (Ok tt) [Ok HandshakeWitness.wire]).2.
Definition before : HubWorld :=
  {| hw_st := connected; hw_now := 0; hw_instant := 0; hw_pumps := []; hw_rx_gone := ∅; hw_udp_sent := [] |}.
Definition after : HubWorld := (handle_wt_stream (fun _ _ => None) (fun _ => Some 3) 4%nat 1 before PumpsWitness.writer
  (Some open_frame) (2%nat, Ok tt)).1.2.

Lemma served : star serve_step (build_state config) (hw_st after).
Proof.
  eapply star_step; [apply sv_wt; reflexivity|].
  eapply star_step; [apply (sv_conn (fun _ _ => None) (fun _ => Some 3) 4%nat (fun _ => None) 1 before after)|apply star_refl].
  apply cs_stream.
Defined.

Lemma server_exact_witness : exists c, ss_heap connected !! 1 = Some c /\ ug_global (ss_unauth connected) = 0
  /\ (1 ∈ ss_conns connected \/ conn_cancelled connected 1 = true).
Proof.
  assert (Hr : star (sys_step true) (build_state config, [], []) (connected, [], [])) by (apply wt_incoming_run; reflexivity).
  destruct (server_exact config true connected [] [] (proj1 caps) (proj2 caps) Hr) as (Hg & _ & _ & _ & _ & Hall).
  assert (Hc : is_Some (ss_heap connected !! 1)) by (apply (bool_decide_eq_true_1 (is_Some (ss_heap connected !! 1))); vm_compute; reflexivity).
  destruct Hc as [c Hc]. exists c. split; [exact Hc|]. split; [exact Hg|]. by destruct (Hall 1 c Hc) as (_ & Hin & _).
Defined.

Lemma handlers_refine_witness : ss_active_sessions (hw_st after) = 1 /\ ss_active_sessions (hw_st after) = total_sessions (hw_st after).
Proof.
  destruct (handlers_refine config (hw_st after) (proj1 caps) (proj2 caps) served) as (_ & _ & _ & H & _).
  split; [vm_compute; reflexivity|exact H].
Defined.

Lemma server_drains_witness : ss_active_sessions connected = 0.
Proof.
  assert (Hr : star (sys_step false) (build_state config, [], []) (connected, [], [])) by (apply wt_incoming_run; reflexivity).
  exact (proj1 (proj2 (server_drains config connected (proj1 caps) (proj2 caps) Hr))).
Defined.

End SystemWitness.
