(* ===== verification/Float.v ===== *)
(** * [f64]

    The floats of the rate limiter are those of the standard library's
    specification of IEEE 754 binary64 ([SpecFloat] with 53 bits of precision),
    so every operation evaluates and rounds as the code's does. The second part
    bounds what a rounding can add: the result of an operation on non-negative
    floats is at most the exact result, plus a 2^-52th of it and the smallest
    subnormal. *)

From Stdlib Require Import SpecFloat QArith Qpower Qminmax Lqa.
From S2P Require Import Prelude.

#[local] Open Scope Z_scope.

(** ** Operations *)

Definition f64 : Type := spec_float.
Definition f64_of (z : Z) : f64 := binary_normalize 53 1024 z 0 false.
Definition fadd : f64 -> f64 -> f64 := SFadd 53 1024.
Definition fsub : f64 -> f64 -> f64 := SFsub 53 1024.
Definition fmul : f64 -> f64 -> f64 := SFmul 53 1024.
Definition fdiv : f64 -> f64 -> f64 := SFdiv 53 1024.
Definition is_nan (x : f64) : bool := match x with S754_nan => true | _ => false end.

(** [f64::min] and [f64::max]: the other operand of a NaN. *)
Definition fmin (x y : f64) : f64 := if is_nan x then y else if is_nan y then x else if SFleb x y then x else y.
Definition fmax (x y : f64) : f64 := if is_nan x then y else if is_nan y then x else if SFleb x y then y else x.

Definition positive_finite (x : f64) : Prop := match x with S754_finite false _ _ => True | _ => False end.

Lemma SFleb_refl x : is_nan x = false -> SFleb x x = true.
Proof.
  destruct x as [|[]| |[] m e]; cbn; try done; unfold SFleb, SFcompare; rewrite Z.compare_refl;
    change (Pos.compare_cont Eq m m) with (Pos.compare m m); by rewrite Pos.compare_refl.
Qed.

Lemma SFcompare_eq x y : positive_finite y -> SFcompare x y = Some Eq -> x = y.
Proof.
  destruct y as [| | |[] m e]; try done. intros _. destruct x as [|[]| |[] m' e']; cbn; try done.
  destruct (Z.compare_spec e' e) as [->| |]; try done. change (Pos.compare_cont Eq m' m) with (Pos.compare m' m).
  by destruct (Pos.compare_spec m' m) as [->| |].
Qed.

(** The smaller of two is below the second, when that is a number. *)
Lemma fmin_le_r x y : is_nan y = false -> SFleb (fmin x y) y = true.
Proof.
  intros Hy; unfold fmin. rewrite Hy. destruct (is_nan x); [by apply SFleb_refl|].
  destruct (SFleb x y) eqn:E; [done|by apply SFleb_refl].
Qed.

Lemma fmin_full x y : positive_finite y -> SFleb y x = true -> fmin x y = y.
Proof.
  intros Hy H. assert (Hn : is_nan y = false) by (by destruct y as [| | |[]]).
  unfold fmin. rewrite Hn. destruct (is_nan x) eqn:Ex; [done|]. destruct (SFleb x y) eqn:E; [|done].
  apply SFcompare_eq; [done|]. destruct y as [| | |[] m e]; try done. destruct x as [|[]| |[] m' e']; try done.
  unfold SFleb, SFcompare in *.
  change (Pos.compare_cont Eq m m') with (Pos.compare m m') in H. change (Pos.compare_cont Eq m' m) with (Pos.compare m' m) in *.
  rewrite (Z.compare_antisym e' e), (Pos.compare_antisym m' m) in H.
  destruct (Z.compare e' e), (Pos.compare m' m); cbn in *; done.
Qed.

(** ** Mantissas *)

Notation fexp64 := (fexp 53 1024).

Lemma fexp64_max e : fexp64 e = Z.max (e - 53) (-1074).
Proof. done. Qed.

Lemma digits_bounds p : 2 ^ (Z.pos (digits2_pos p) - 1) <= Z.pos p < 2 ^ Z.pos (digits2_pos p).
Proof.
  induction p as [p IH|p IH|]; cbn [digits2_pos]; [| |done]; rewrite Pos2Z.inj_succ;
    replace (Z.succ (Z.pos (digits2_pos p)) - 1) with (Z.succ (Z.pos (digits2_pos p) - 1)) by lia; rewrite !Z.pow_succ_r by lia; lia.
Qed.

Lemma digits_unique m d : 2 ^ (d - 1) <= Z.pos m < 2 ^ d -> Z.pos (digits2_pos m) = d.
Proof.
  intros [H1 H2]. pose proof (digits_bounds m) as [H3 H4].
  assert (0 < d) by (destruct (Z.ltb_spec 0 d); [done|]; destruct (Z.eq_dec d 0) as [->|]; [change (2 ^ 0) with 1 in H2; lia|rewrite (Z.pow_neg_r 2 d) in H2 by lia; lia]).
  assert (d - 1 < Z.pos (digits2_pos m)) by (apply (Z.pow_lt_mono_r_iff 2); lia).
  assert (Z.pos (digits2_pos m) - 1 < d) by (apply (Z.pow_lt_mono_r_iff 2); lia). lia.
Qed.

Lemma digits_mono p q : Z.pos p <= Z.pos q -> Z.pos (digits2_pos p) <= Z.pos (digits2_pos q).
Proof.
  intros H. pose proof (digits_bounds p) as [H1 _]. pose proof (digits_bounds q) as [_ H2].
  assert (Z.pos (digits2_pos p) - 1 < Z.pos (digits2_pos q)) by (apply (Z.pow_lt_mono_r_iff 2); lia). lia.
Qed.

(** Shifting right divides, whatever the bits shifted out. *)
Lemma shr_1_half mrs : 0 <= shr_m mrs -> shr_m (shr_1 mrs) = shr_m mrs / 2.
Proof.
  destruct mrs as [[|[p|p|]|p] r s]; cbn; try done; intros _.
  - apply (Z.div_unique _ 2 _ 1); lia.
  - apply (Z.div_unique _ 2 _ 0); lia.
Qed.

Lemma iter_shr p : forall mrs, 0 <= shr_m mrs -> shr_m (SpecFloat.iter_pos shr_1 p mrs) = shr_m mrs / 2 ^ Z.pos p.
Proof.
  assert (Hd : forall x a b, 0 <= x -> 0 <= a -> 0 <= b -> x / 2 ^ a / 2 ^ b = x / 2 ^ (a + b)).
  { intros x a b Hx Ha Hb. rewrite Z.pow_add_r, Z.div_div by (try apply Z.pow_pos_nonneg; lia). done. }
  assert (Hp : forall x a, 0 <= x -> 0 <= x / 2 ^ a).
  { intros x a Hx. destruct (Z.ltb_spec a 0); [by rewrite Z.pow_neg_r, Z.div_0_r by done|]. apply Z.div_pos; [done|]. apply Z.pow_pos_nonneg; lia. }
  induction p as [p IH|p IH|]; intros mrs H; cbn [SpecFloat.iter_pos].
  - pose proof (shr_1_half mrs H) as H1. assert (0 <= shr_m mrs / 2) by (apply Z.div_pos; lia).
    rewrite (IH (SpecFloat.iter_pos shr_1 p (shr_1 mrs))); rewrite IH; rewrite ?H1; try done; [|by apply Hp].
    change (shr_m mrs / 2) with (shr_m mrs / 2 ^ 1). rewrite !Hd by (try apply Hp; lia). f_equal; f_equal; lia.
  - rewrite (IH (SpecFloat.iter_pos shr_1 p mrs)); rewrite IH by done; [|by apply Hp]. rewrite Hd by lia. f_equal; f_equal; lia.
  - by apply shr_1_half.
Qed.

Lemma shr_fexp_spec m e l : 0 <= m -> let e1 := fexp64 (Zdigits2 m + e) in e <= e1 ->
  shr_m (shr_fexp 53 1024 m e l).1 = m / 2 ^ (e1 - e) /\ (shr_fexp 53 1024 m e l).2 = e1.
Proof.
  intros Hm e1 He. unfold shr_fexp, shr. fold e1.
  assert (Hl : shr_m (shr_record_of_loc m l) = m) by (by destruct l as [|[]]).
  destruct (e1 - e) as [|p|p] eqn:E; [| |lia]; cbn [fst snd].
  - rewrite Hl, Z.div_1_r. split; [done|lia].
  - rewrite iter_shr by (by rewrite Hl). rewrite Hl. split; [done|lia].
Qed.

Lemma round_even_up r l : r <= round_nearest_even r l <= r + 1.
Proof. destruct l as [|[]]; cbn; try lia. destruct (Z.even r); lia. Qed.

(** The mantissa [r] that a rounding gives at the exponent [fexp] asks for is
    the quotient or the next number; a carry moves it to the next exponent. *)
Lemma round_aux_spec m e l : 0 <= m -> let e1 := fexp64 (Zdigits2 m + e) in e <= e1 ->
  exists r, m / 2 ^ (e1 - e) <= r <= m / 2 ^ (e1 - e) + 1 /\
  match binary_round_aux 53 1024 false m e l with
  | S754_zero s => s = false /\ r = 0
  | S754_finite s m2 e2 => s = false /\ bounded 53 1024 m2 e2 = true /\ e1 <= e2 /\ Z.pos m2 = r / 2 ^ (e2 - e1)
  | S754_infinity s => s = false /\ exists m2 e2, 971 < e2 /\ e1 <= e2 /\ Z.pos m2 = r / 2 ^ (e2 - e1)
  | S754_nan => False
  end.
Proof.
  intros Hm e1 He. unfold binary_round_aux. destruct (shr_fexp_spec m e l Hm He) as [H1 H2].
  fold e1 in H1, H2. destruct (shr_fexp 53 1024 m e l) as [mrs e']; cbn [fst snd] in *. subst e'.
  assert (D1 : 0 < Zdigits2 m -> 2 ^ (Zdigits2 m - 1) <= m) by (destruct m as [|p|]; [done|intros _; apply digits_bounds|done]).
  set (d := Zdigits2 m) in *. set (k := e1 - e) in *.
  assert (Hk : 0 < 2 ^ k) by (apply Z.pow_pos_nonneg; lia).
  pose proof (round_even_up (shr_m mrs) (loc_of_shr_record mrs)) as Hr. set (r := round_nearest_even _ _) in *. rewrite H1 in Hr.
  assert (Hq : 0 <= m / 2 ^ k) by (apply Z.div_pos; lia). exists r. split; [lia|].
  destruct r as [|p|p] eqn:Er; [|clearbody r; subst r|lia].
  { unfold shr_fexp, shr; cbn [Zdigits2]. destruct (fexp64 _ - _) as [|x|x]; cbn; try done.
    pose proof (iter_shr x {| shr_m := 0; shr_r := false; shr_s := false |} ltac:(done)) as ->. cbn [shr_m]. by rewrite Z.div_0_l by (apply Z.pow_nonzero; lia). }
  assert (He2 : e1 <= fexp64 (Z.pos (digits2_pos p) + e1)).
  { unfold e1 at 1. rewrite !fexp64_max. destruct (Z.le_gt_cases (d + e - 53) (-1074)) as [|Hgt]; [lia|].
    assert (E1 : e1 = d + e - 53) by (unfold e1; rewrite fexp64_max; fold d; lia).
    assert (53 <= Z.pos (digits2_pos p)); [|lia]. pose proof (digits_bounds p) as [_ D3].
    assert (52 < Z.pos (digits2_pos p)); [|lia]. apply (Z.pow_lt_mono_r_iff 2); [lia..|].
    apply (Z.le_lt_trans _ (Z.pos p)); [|done]. apply (Z.le_trans _ (m / 2 ^ k)); [|lia].
    apply Z.div_le_lower_bound; [done|]. rewrite <- Z.pow_add_r by lia. apply (Z.le_trans _ (2 ^ (d - 1))); [|apply D1; lia]. apply Z.pow_le_mono_r; lia. }
  destruct (shr_fexp_spec (Z.pos p) e1 loc_Exact ltac:(lia) He2) as [H3 H4]. cbn [Zdigits2] in H3, H4.
  set (e2 := fexp64 (Z.pos (digits2_pos p) + e1)) in *. destruct (shr_fexp _ _ _ _ _) as [mrs2 e']; cbn [fst snd] in *. subst e'. rewrite H3.
  pose proof (digits_bounds p) as [D3 D4]. set (d1 := Z.pos (digits2_pos p)) in *.
  assert (Hk2 : e2 - e1 <= d1 - 1).
  { unfold e2. rewrite fexp64_max. assert (-1074 <= e1) by (unfold e1; rewrite fexp64_max; lia). lia. }
  assert (Hpos : 0 < 2 ^ (e2 - e1)) by (apply Z.pow_pos_nonneg; lia).
  assert (Hb : 2 ^ (d1 - (e2 - e1) - 1) <= Z.pos p / 2 ^ (e2 - e1) < 2 ^ (d1 - (e2 - e1))).
  { split; [apply Z.div_le_lower_bound; [done|]|apply Z.div_lt_upper_bound; [done|]]; rewrite <- Z.pow_add_r by lia;
      [apply (Z.le_trans _ (2 ^ (d1 - 1))); [apply Z.eq_le_incl; f_equal; lia|done]|eapply Z.lt_le_trans; [exact D4|apply Z.eq_le_incl; f_equal; lia]]. }
  assert (0 < 2 ^ (d1 - (e2 - e1) - 1)) by (apply Z.pow_pos_nonneg; lia).
  destruct (Z.pos p / 2 ^ (e2 - e1)) as [|m2|m2] eqn:Em; [lia| |lia].
  destruct (Z.leb_spec e2 (1024 - 53)) as [Hle|Hgt]; (split; [done|]).
  - split; [|done]. unfold bounded. rewrite andb_true_iff, Z.leb_le. split; [|done]. unfold canonical_mantissa. apply Z.eqb_eq.
    rewrite (digits_unique m2 (d1 - (e2 - e1))) by done. unfold e2 at 2. f_equal. lia.
  - exists m2, e2. split; [lia|done].
Qed.

(** ** Values *)

#[local] Open Scope Q_scope.

Definition pow2 (e : Z) : Q := Qpower 2 e.
(** What a finite float without its sign is worth. *)
Definition mant (m e : Z) : Q := inject_Z m * pow2 e.

(** The relative error of a rounding, and the smallest subnormal. *)
Definition ulp1 : Q := pow2 (-52).
Definition tiny : Q := pow2 (-1074).

Lemma pow2_pos e : 0 < pow2 e.
Proof. by apply Qpower_0_lt. Qed.

Lemma pow2_add a b : pow2 (a + b) == pow2 a * pow2 b.
Proof. by apply Qpower_plus. Qed.

Lemma pow2_Z k : (0 <= k)%Z -> pow2 k == inject_Z (2 ^ k).
Proof. intros H. symmetry. by apply Zpower_Qpower. Qed.

Lemma pow2_le a b : (a <= b)%Z -> pow2 a <= pow2 b.
Proof. intros H. by apply Qpower_le_compat_l. Qed.

#[local] Opaque pow2.

Lemma mant_le m m' e : (m <= m')%Z -> mant m e <= mant m' e.
Proof. intros H. unfold mant. apply Qmult_le_compat_r; [by rewrite <- Zle_Qle|apply Qlt_le_weak, pow2_pos]. Qed.

Lemma mant_shift m e k : (0 <= k)%Z -> mant (m * 2 ^ k) e == mant m (e + k).
Proof. intros H. unfold mant. rewrite pow2_add, (pow2_Z k H), inject_Z_mult. ring. Qed.

Lemma mant_add m m' e : mant (m + m') e == mant m e + mant m' e.
Proof. unfold mant. rewrite inject_Z_plus. ring. Qed.

Lemma mant_nonneg m e : (0 <= m)%Z -> 0 <= mant m e.
Proof. intros H. apply Qmult_le_0_compat; [by rewrite (Zle_Qle 0) in H|apply Qlt_le_weak, pow2_pos]. Qed.

(** Dropping the low bits can only lower the value. *)
Lemma mant_floor m e k : (0 <= m)%Z -> (0 <= k)%Z -> mant (m / 2 ^ k) (e + k) <= mant m e.
Proof.
  intros Hm Hk. rewrite <- mant_shift by done. apply mant_le. rewrite Z.mul_comm. apply Z.mul_div_le. by apply Z.pow_pos_nonneg.
Qed.

(** [x] is not negative and at most [B]; an infinity counts as 2^971. *)
Definition below (x : f64) (B : Q) : Prop :=
  valid_binary 53 1024 x = true /\
  match x with
  | S754_zero _ => 0 <= B
  | S754_finite false m e => mant (Z.pos m) e <= B
  | S754_infinity false => pow2 971 <= B
  | _ => False
  end.

(** What an operation with exact result [V] rounds to is below this. *)
Definition up (V : Q) : Q := V * (1 + ulp1) + tiny.

Lemma below_mono x B B' : below x B -> B <= B' -> below x B'.
Proof. intros [Hv H] Hle. split; [done|]. destruct x as [|[]| |[]]; try done; by apply (Qle_trans _ B). Qed.

Lemma below_nonneg x B : below x B -> 0 <= B.
Proof.
  intros [_ H]. destruct x as [|[]| |[] m e]; try done.
  - apply (Qle_trans _ (pow2 971)); [apply Qlt_le_weak, pow2_pos|done].
  - apply (Qle_trans _ (mant (Z.pos m) e)); [by apply mant_nonneg|done].
Qed.

(** A unit at the exponent of the result. *)
Lemma fexp_unit m e : (0 <= m)%Z -> (e <= fexp64 (Zdigits2 m + e))%Z ->
  pow2 (fexp64 (Zdigits2 m + e)) <= mant m e * ulp1 + tiny.
Proof.
  intros Hm He. rewrite fexp64_max in *.
  assert (H : (0 < Zdigits2 m)%Z -> (2 ^ (Zdigits2 m - 1) <= m)%Z) by (destruct m as [|p|]; [done|intros _; apply digits_bounds|done]).
  set (d := Zdigits2 m) in *. pose proof (mant_nonneg m e Hm) as Hn.
  assert (0 <= mant m e * ulp1) by (apply Qmult_le_0_compat; [done|apply Qlt_le_weak, pow2_pos]).
  destruct (Z.max_spec (d + e - 53) (-1074)) as [[_ Ee]|[_ Ee]]; rewrite Ee in *; [fold tiny; lra|].
  assert (Hd : mant (2 ^ (d - 1)) e <= mant m e) by (apply mant_le, H; lia).
  assert (E : pow2 (d + e - 53) == mant (2 ^ (d - 1)) e * ulp1).
  { unfold mant, ulp1. rewrite <- pow2_Z, <- !pow2_add by lia. f_equiv; lia. }
  rewrite E. assert (mant (2 ^ (d - 1)) e * ulp1 <= mant m e * ulp1) by (apply Qmult_le_compat_r; [done|apply Qlt_le_weak, pow2_pos]).
  pose proof (pow2_pos (-1074)). unfold tiny. lra.
Qed.

(** A rounding never gives more than [up] of the exact value. *)
Lemma round_aux_below m e l V : (0 <= m)%Z -> (e <= fexp64 (Zdigits2 m + e))%Z -> mant m e <= V ->
  below (binary_round_aux 53 1024 false m e l) (up V).
Proof.
  intros Hm He HV. destruct (round_aux_spec m e l Hm He) as (r & [H0 Hr] & H). pose proof (fexp_unit m e Hm He) as Hu.
  set (e1 := fexp64 _) in *. set (q := (m / 2 ^ (e1 - e))%Z) in *.
  assert (Hq : (0 <= q)%Z) by (apply Z.div_pos; [done|apply Z.pow_pos_nonneg; lia]).
  assert (HB : mant r e1 <= up V).
  { pose proof (mant_le r (q + 1) e1 Hr) as M1. rewrite mant_add in M1.
    pose proof (mant_floor m e (e1 - e) Hm ltac:(lia)) as M2. fold q in M2. replace (e + (e1 - e))%Z with e1 in M2 by lia.
    assert (M3 : mant 1 e1 == pow2 e1) by (unfold mant; ring).
    assert (M4 : mant m e * ulp1 <= V * ulp1) by (apply Qmult_le_compat_r; [done|apply Qlt_le_weak, pow2_pos]).
    unfold up. lra. }
  assert (Hf : forall m2 e2, (e1 <= e2)%Z -> Z.pos m2 = (r / 2 ^ (e2 - e1))%Z -> mant (Z.pos m2) e2 <= up V).
  { intros m2 e2 Hle ->. replace e2 with (e1 + (e2 - e1))%Z at 2 by lia.
    eapply Qle_trans; [|exact HB]. apply mant_floor; lia. }
  destruct (binary_round_aux _ _ _ _ _ _) as [s|s| |s m2 e2]; [| |done|].
  - split; [done|]. eapply Qle_trans; [|exact HB]. apply mant_nonneg. lia.
  - destruct H as (-> & m2 & e2 & H1 & H2 & H3). split; [done|]. eapply Qle_trans; [|by apply (Hf m2 e2)].
    eapply Qle_trans; [by apply (pow2_le 971 e2); lia|]. assert (E : pow2 e2 == mant 1 e2) by (unfold mant; ring). rewrite E. apply mant_le. lia.
  - destruct H as (-> & Hb & H1 & H2). split; [done|]. by apply Hf.
Qed.

(** ** The operations *)

Lemma up_ge V : 0 <= V -> V <= up V.
Proof.
  intros H. unfold up. assert (0 <= V * ulp1) by (apply Qmult_le_0_compat; [done|apply Qlt_le_weak, pow2_pos]).
  pose proof (pow2_pos (-1074)). unfold tiny. lra.
Qed.

Lemma below_zero s B : 0 <= B -> below (S754_zero s) B.
Proof. by split. Qed.

Lemma shl_align_spec m e e' : let '(m', e2) := shl_align m e e' in e2 = Z.min e e' /\ Z.pos m' = (Z.pos m * 2 ^ (e - e2))%Z.
Proof.
  assert (Hi : forall d x, Z.pos (Pos.iter xO x d) = (Z.pos x * 2 ^ Z.pos d)%Z).
  { intros d x. induction d as [|d IH] using Pos.peano_ind; [cbn; lia|].
    rewrite Pos.iter_succ, Pos2Z.inj_succ, Z.pow_succ_r by lia. change (Z.pos (Pos.iter xO x d)~0) with (2 * Z.pos (Pos.iter xO x d))%Z. lia. }
  unfold shl_align. destruct (e' - e)%Z as [|d|d] eqn:E.
  - rewrite Z.sub_diag. change (2 ^ 0)%Z with 1%Z. split; lia.
  - rewrite Z.sub_diag. change (2 ^ 0)%Z with 1%Z. split; lia.
  - replace (e - e')%Z with (Z.pos d) by lia. split; [lia|apply Hi].
Qed.

Lemma shl_align_mant m e e' : (e' <= e)%Z -> mant (Z.pos (fst (shl_align m e e'))) e' == mant (Z.pos m) e.
Proof.
  intros H. pose proof (shl_align_spec m e e') as Hs. destruct (shl_align m e e') as [m' e2]. destruct Hs as [-> E]. cbn [fst]. rewrite E.
  replace (Z.min e e') with e' by lia. rewrite mant_shift by lia. f_equiv. f_equal. lia.
Qed.

Lemma digits_shift m m' k : (0 <= k)%Z -> Z.pos m' = (Z.pos m * 2 ^ k)%Z -> Z.pos (digits2_pos m') = (Z.pos (digits2_pos m) + k)%Z.
Proof.
  intros Hk E. pose proof (digits_bounds m) as [H1 H2]. apply digits_unique. rewrite E.
  replace (Z.pos (digits2_pos m) + k - 1)%Z with ((Z.pos (digits2_pos m) - 1) + k)%Z by lia. rewrite !Z.pow_add_r by lia.
  assert (0 < 2 ^ k)%Z by (apply Z.pow_pos_nonneg; lia). split; [apply Z.mul_le_mono_nonneg_r|apply Z.mul_lt_mono_pos_r]; lia.
Qed.

Lemma normalize_below m e V : (0 <= m)%Z -> mant m e <= V -> below (binary_normalize 53 1024 m e false) (up V).
Proof.
  intros Hm HV. assert (H0 : 0 <= V) by (eapply Qle_trans; [by apply (mant_nonneg m e)|done]).
  destruct m as [|m|m]; [apply below_zero; eapply Qle_trans; [exact H0|by apply up_ge]| |done]. cbn [binary_normalize]. unfold binary_round.
  set (e0 := fexp64 _). pose proof (shl_align_spec m e e0) as Hs. pose proof (shl_align_mant m e e0) as Hv.
  destruct (shl_align m e e0) as [m' e2]. destruct Hs as [-> E]. cbn [fst] in Hv.
  pose proof (digits_shift m m' (e - Z.min e e0) ltac:(lia) E) as Hd.
  apply round_aux_below; [done| |].
  - cbn [Zdigits2]. rewrite Hd. replace (_ + _)%Z with (Z.pos (digits2_pos m) + e)%Z by lia. fold e0. lia.
  - destruct (Z.le_gt_cases e0 e) as [Hle|Hgt].
    + replace (Z.min e e0) with e0 by lia. by rewrite Hv.
    + replace (Z.min e e0) with e by lia. rewrite E. replace (e - Z.min e e0)%Z with 0%Z by lia. by rewrite Z.mul_1_r.
Qed.

Lemma f64_of_below z : (0 <= z)%Z -> below (f64_of z) (up (inject_Z z)).
Proof. intros H. apply normalize_below; [done|]. unfold mant. change (pow2 0) with 1. rewrite Qmult_1_r. apply Qle_refl. Qed.

Lemma fadd_below x y A B : below x A -> below y B -> below (fadd x y) (up (A + B)).
Proof.
  intros Hx Hy. pose proof (below_nonneg _ _ Hx) as HA. pose proof (below_nonneg _ _ Hy) as HB.
  assert (Hup : A + B <= up (A + B)) by (apply up_ge; lra).
  destruct Hx as [Vx Hx], Hy as [Vy Hy].
  destruct x as [sx|[]| |[] mx ex], y as [sy|[]| |[] my ey]; try done; unfold fadd; cbn [SFadd cond_Zopp].
  9: { apply normalize_below; [done|]. rewrite mant_add, !shl_align_mant by lia. lra. }
  1: destruct sx, sy.
  all: (split; [done|]); cbn; lra.
Qed.

(** Smaller than the smallest infinity, a float is finite. *)
Definition good (x : f64) : Prop :=
  valid_binary 53 1024 x = true /\ match x with S754_zero _ | S754_finite false _ _ => True | _ => False end.
Definition fval (x : f64) : Q := match x with S754_finite _ m e => mant (Z.pos m) e | _ => 0 end.

Lemma good_below x : good x -> below x (fval x).
Proof. intros [Hv H]. split; [done|]. destruct x as [|[]| |[]]; try done; apply Qle_refl. Qed.

Lemma below_good x B : below x B -> B < pow2 971 -> good x /\ fval x <= B.
Proof.
  intros [Hv H] HB. unfold good. destruct x as [s|[]| |[] m e]; try done. by apply Qlt_not_le in HB.
Qed.

Lemma below_fval x B : below x B -> good x -> fval x <= B.
Proof. intros [_ H] [_ G]. by destruct x as [|[]| |[]]. Qed.

Lemma good_nonneg x : good x -> 0 <= fval x.
Proof. intros H. by apply below_nonneg with x, good_below. Qed.

Lemma bounded_exp m e : bounded 53 1024 m e = true -> e = fexp64 (Z.pos (digits2_pos m) + e) /\ (e <= 971)%Z.
Proof. unfold bounded, canonical_mantissa. rewrite andb_true_iff, Z.eqb_eq, Z.leb_le. intros [? ?]. split; [done|lia]. Qed.

Lemma fmul_below x y A B : below x A -> below y B -> A < pow2 971 -> B < pow2 971 -> below (fmul x y) (up (A * B)).
Proof.
  intros Hx Hy HA HB. pose proof (below_nonneg _ _ Hx) as PA. pose proof (below_nonneg _ _ Hy) as PB.
  assert (P : 0 <= A * B) by (by apply Qmult_le_0_compat). assert (Hup : 0 <= up (A * B)) by (eapply Qle_trans; [exact P|by apply up_ge]).
  destruct (below_good _ _ Hx HA) as [[Vx Gx] Fx], (below_good _ _ Hy HB) as [[Vy Gy] Fy].
  destruct x as [sx|[]| |[] mx ex], y as [sy|[]| |[] my ey]; try done; unfold fmul; cbn [SFmul xorb]; try (by apply below_zero).
  cbn [fval] in *. apply round_aux_below; [done| |].
  - apply bounded_exp in Vx as [Ex _], Vy as [Ey _]. rewrite fexp64_max in *. cbn [Zdigits2].
    pose proof (digits_mono mx (mx * my) ltac:(nia)). pose proof (digits_mono my (mx * my) ltac:(nia)). lia.
  - assert (E : mant (Z.pos (mx * my)) (ex + ey) == mant (Z.pos mx) ex * mant (Z.pos my) ey).
    { unfold mant. rewrite pow2_add, Pos2Z.inj_mul, inject_Z_mult. ring. }
    rewrite E. apply Qmult_le_compat_nonneg; split; try done; by apply mant_nonneg.
Qed.

(** Division by a normal number below 1. *)
Lemma fdiv_below x my ey A : below x A -> A < pow2 971 ->
  below (fdiv x (S754_finite false my ey)) (up (A / mant (Z.pos my) ey)).
Proof.
  intros Hx HA. pose proof (below_nonneg _ _ Hx) as PA. destruct (below_good _ _ Hx HA) as [[Vx Gx] Fx].
  assert (Hy : 0 < mant (Z.pos my) ey) by (apply Qmult_lt_0_compat; [by rewrite <- (Zlt_Qlt 0)|apply pow2_pos]).
  assert (P : 0 <= A / mant (Z.pos my) ey) by (apply Qle_shift_div_l; [done|by rewrite Qmult_0_l]).
  destruct x as [sx|[]| |[] m e]; try done; unfold fdiv; cbn [SFdiv xorb].
  { apply below_zero. eapply Qle_trans; [exact P|by apply up_ge]. }
  cbn [fval] in *. unfold SFdiv_core_binary. cbn [Zdigits2].
  set (D := (Z.pos (digits2_pos m) + e - (Z.pos (digits2_pos my) + ey))%Z). set (e1 := Z.min (fexp64 D) (e - ey)). set (s := (e - ey - e1)%Z).
  assert (Hs : (0 <= s)%Z) by lia.
  assert (Em : match s with Z.pos _ => Z.shiftl (Z.pos m) s | 0%Z => Z.pos m | Z.neg _ => 0%Z end = (Z.pos m * 2 ^ s)%Z).
  { destruct s as [|p|p]; [lia|by rewrite Z.shiftl_mul_pow2|lia]. }
  rewrite Em. pose proof (Z_div_mod (Z.pos m * 2 ^ s) (Z.pos my) ltac:(done)) as Hdm.
  destruct (Z.div_eucl _ _) as [q r]. destruct Hdm as [Eq Hr].
  assert (Hp : (0 < 2 ^ s)%Z) by (apply Z.pow_pos_nonneg; lia).
  assert (Hq : (0 <= q)%Z) by nia.
  apply round_aux_below; [done| |].
  - rewrite fexp64_max. destruct (Z.le_gt_cases e1 (-1074)) as [|Hgt]; [lia|].
    assert (HD : (53 <= D - e1)%Z) by (unfold e1 in *; rewrite fexp64_max in *; lia).
    assert (Hq53 : (2 ^ 52 <= q)%Z).
    { pose proof (digits_bounds m) as [M1 _]. pose proof (digits_bounds my) as [_ M2].
      assert (2 ^ (Z.pos (digits2_pos m) - 1 + s) <= Z.pos m * 2 ^ s)%Z by (rewrite Z.pow_add_r by lia; nia).
      assert (2 ^ 52 * 2 ^ Z.pos (digits2_pos my) <= 2 ^ (Z.pos (digits2_pos m) - 1 + s))%Z
        by (rewrite <- Z.pow_add_r by lia; apply Z.pow_le_mono_r; lia).
      assert (Z.pos my * (q + 1) > Z.pos m * 2 ^ s)%Z by lia. nia. }
    destruct q as [|q|q]; [lia| |lia]. cbn [Zdigits2]. pose proof (digits_bounds q) as [_ Q2].
    assert (52 < Z.pos (digits2_pos q))%Z by (apply (Z.pow_lt_mono_r_iff 2); lia). lia.
  - apply Qle_shift_div_l; [done|]. eapply Qle_trans; [|exact Fx].
    assert (E : mant q e1 * mant (Z.pos my) ey == mant (q * Z.pos my) (e1 + ey)) by (unfold mant; rewrite pow2_add, inject_Z_mult; ring).
    rewrite E. assert (E2 : mant (Z.pos m) e == mant (Z.pos m * 2 ^ s) (e1 + ey)).
    { rewrite mant_shift by done. f_equiv. f_equal. lia. }
    rewrite E2. apply mant_le. lia.
Qed.

(** The comparison is that of the values. *)
Lemma leb_fval x y : good x -> good y -> if SFleb x y then fval x <= fval y else fval y <= fval x.
Proof.
  assert (Hlt : forall m1 e1 m2 e2, bounded 53 1024 m1 e1 = true -> bounded 53 1024 m2 e2 = true -> (e1 < e2)%Z -> mant (Z.pos m1) e1 <= mant (Z.pos m2) e2).
  { intros m1 e1 m2 e2 [H1 _]%bounded_exp [H2 _]%bounded_exp Hlt. rewrite fexp64_max in *.
    pose proof (digits_bounds m1) as [_ D1]. pose proof (digits_bounds m2) as [D2 _].
    assert (Z.pos m1 <= 2 ^ 53)%Z by (apply Z.lt_le_incl; eapply Z.lt_le_trans; [exact D1|apply Z.pow_le_mono_r; lia]).
    assert (2 ^ 52 <= Z.pos m2)%Z by (eapply Z.le_trans; [|exact D2]; apply Z.pow_le_mono_r; lia).
    replace e2 with (e1 + (e2 - e1))%Z by lia. rewrite <- mant_shift by lia. apply mant_le.
    assert (2 ^ 1 <= 2 ^ (e2 - e1))%Z by (apply Z.pow_le_mono_r; lia). nia. }
  intros [Vx Gx] [Vy Gy]. destruct x as [sx|[]| |[] mx ex], y as [sy|[]| |[] my ey]; try done; unfold SFleb; cbn [SFcompare fval]; cbv iota.
  - by apply mant_nonneg.
  - by apply mant_nonneg.
  - cbn in Vx, Vy. destruct (Z.compare_spec ex ey) as [->|H|H]; [|by apply Hlt|by apply Hlt].
    change (Pos.compare_cont Eq mx my) with (Pos.compare mx my). destruct (Pos.compare_spec mx my) as [->|H|H]; apply mant_le; lia.
Qed.

(** The smaller of two is at most each. *)
Lemma fmin_below x y B : below x B -> good y -> fval y <= pow2 971 ->
  below (fmin x y) B /\ good (fmin x y) /\ fval (fmin x y) <= fval y.
Proof.
  intros Hx Hy Hcap. unfold fmin. assert (Hny : is_nan y = false) by (destruct Hy as [_ Hy]; by destruct y).
  assert (Hnx : is_nan x = false) by (destruct Hx as [_ Hx]; by destruct x). rewrite Hnx, Hny.
  assert (Hgo : forall (c : bool) V, (if c then good x /\ fval x <= V /\ fval x <= fval y else fval y <= V) -> V <= B ->
    below (if c then x else y) B /\ good (if c then x else y) /\ fval (if c then x else y) <= fval y).
  { intros [] V H HV; [|split; [|split; [done|apply Qle_refl]]; eapply below_mono; [by apply good_below|]; lra].
    destruct H as (Hg & H1 & H2). split; [|by split]. eapply below_mono; [by apply good_below|]. lra. }
  destruct x as [s|[]| |[] m e]; try (by destruct Hx).
  - destruct Hx as [Vx Hx]. apply (Hgo _ 0); [|done]. pose proof (leb_fval (S754_zero s) y (conj Vx I) Hy) as Hl.
    destruct (SFleb _ _); [|done]. split; [done|]. split; [apply Qle_refl|done].
  - destruct Hx as [_ Hx]. assert (SFleb (S754_infinity false) y = false) as -> by (destruct Hy as [_ Hy]; by destruct y as [| | |[]]).
    apply (Hgo false (pow2 971)); done.
  - destruct Hx as [Vx Hx]. apply (Hgo _ (fval (S754_finite false m e))); [|done].
    pose proof (leb_fval (S754_finite false m e) y (conj Vx I) Hy) as Hl. destruct (SFleb _ _); [|done].
    split; [done|]. split; [apply Qle_refl|done].
Qed.

(** Subtracting what is at most as large. *)
Lemma fsub_below x y : good x -> good y -> SFleb y x = true -> below (fsub x y) (up (fval x - fval y)).
Proof.
  intros Hx Hy Hl. pose proof (leb_fval y x Hy Hx) as Hle. rewrite Hl in Hle. pose proof (good_nonneg _ Hy) as Py.
  assert (Hup : fval x - fval y <= up (fval x - fval y)) by (apply up_ge; lra).
  destruct Hx as [Vx Gx], Hy as [Vy Gy].
  destruct x as [sx|[]| |[] mx ex], y as [sy|[]| |[] my ey]; try done; unfold fsub; cbn [SFsub cond_Zopp fval] in *.
  - destruct sx, sy; (split; [done|]); cbn; lra.
  - split; [done|]. cbn. lra.
  - assert (E : mant (Z.pos (fst (shl_align mx ex (Z.min ex ey))) - Z.pos (fst (shl_align my ey (Z.min ex ey)))) (Z.min ex ey)
      == mant (Z.pos mx) ex - mant (Z.pos my) ey).
    { rewrite <- (shl_align_mant mx ex (Z.min ex ey)), <- (shl_align_mant my ey (Z.min ex ey)) by lia.
      unfold mant. unfold Z.sub. rewrite inject_Z_plus, inject_Z_opp. ring. }
    apply normalize_below; [|by rewrite E; apply Qle_refl].
    apply Z.nlt_ge. intros Hneg.
    assert (Hm : mant (Z.pos (fst (shl_align mx ex (Z.min ex ey))) - Z.pos (fst (shl_align my ey (Z.min ex ey)))) (Z.min ex ey) <= mant (-1) (Z.min ex ey))
      by (apply mant_le; lia).
    rewrite E in Hm. pose proof (pow2_pos (Z.min ex ey)). unfold mant in Hm at 3. change (inject_Z (-1)) with (-1 # 1) in Hm. lra.
Qed.

(** ** Exact results *)

(** A canonical mantissa is not rounded. *)
Lemma round_exact m e : bounded 53 1024 m e = true -> binary_round_aux 53 1024 false (Z.pos m) e loc_Exact = S754_finite false m e.
Proof.
  intros Hb. pose proof (bounded_exp m e Hb) as [He Hm]. unfold binary_round_aux, shr_fexp; cbn [Zdigits2]. rewrite <- He, Z.sub_diag.
  cbn [shr shr_record_of_loc shr_m loc_of_shr_record round_nearest_even Zdigits2]. rewrite <- He, Z.sub_diag.
  cbn [shr shr_record_of_loc shr_m]. by rewrite (proj2 (Z.leb_le _ _)).
Qed.

(** An integer below 2^53 is a float. *)
Lemma f64_of_exact z : (0 <= z < 2 ^ 53)%Z -> good (f64_of z) /\ fval (f64_of z) == inject_Z z.
Proof.
  intros Hz. destruct z as [|m|m]; [by split|clear -Hz|lia].
  unfold f64_of, binary_normalize, binary_round. rewrite Z.add_0_r. set (e0 := fexp64 _).
  pose proof (digits_bounds m) as [D1 D2]. assert (Hd : (Z.pos (digits2_pos m) <= 53)%Z).
  { assert (Z.pos (digits2_pos m) - 1 < 53)%Z; [|lia]. apply (Z.pow_lt_mono_r_iff 2); lia. }
  assert (He : (e0 <= 0)%Z) by (unfold e0; rewrite fexp64_max; lia).
  pose proof (shl_align_spec m 0 e0) as Hs. pose proof (shl_align_mant m 0 e0 He) as Hv.
  destruct (shl_align m 0 e0) as [m' e2]. destruct Hs as [-> E]. cbn [fst] in Hv. replace (Z.min 0 e0) with e0 in * by lia.
  pose proof (digits_shift m m' (0 - e0) ltac:(lia) E) as Hd'.
  assert (Hb : bounded 53 1024 m' e0 = true).
  { unfold bounded, canonical_mantissa. rewrite Hd'. replace (_ + (0 - e0) + e0)%Z with (Z.pos (digits2_pos m)) by lia. fold e0.
    rewrite Z.eqb_refl. apply Z.leb_le. lia. }
  rewrite round_exact by done. split; [by split|]. cbn [fval]. rewrite Hv. unfold mant. change (pow2 0) with 1. ring.
Qed.

Lemma fmax_good x y : good x -> good y -> good (fmax x y) /\ fval x <= fval (fmax x y) /\ fval y <= fval (fmax x y)
  /\ (fmax x y = x \/ fmax x y = y).
Proof.
  intros Hx Hy. unfold fmax. assert (Hny : is_nan y = false) by (destruct Hy as [_ Hy]; by destruct y).
  assert (Hnx : is_nan x = false) by (destruct Hx as [_ Hx]; by destruct x). rewrite Hnx, Hny.
  pose proof (leb_fval x y Hx Hy) as Hl. destruct (SFleb x y); (split; [done|]); split; auto using Qle_refl.
Qed.

(** The value of the smaller is the smaller value. *)
Lemma fmin_val x y : good x -> good y -> good (fmin x y) /\ fval (fmin x y) == Qmin (fval x) (fval y).
Proof.
  intros Hx Hy. unfold fmin. assert (Hny : is_nan y = false) by (destruct Hy as [_ Hy]; by destruct y).
  assert (Hnx : is_nan x = false) by (destruct Hx as [_ Hx]; by destruct x). rewrite Hnx, Hny.
  pose proof (leb_fval x y Hx Hy) as Hl. destruct (SFleb x y); (split; [done|]); symmetry; [by apply Q.min_l|by apply Q.min_r].
Qed.
