(* ===== verification/RateLimit.v ===== *)
(** * The egress rate limiter: [RateLimiter] of [server/limit.rs]

    A token bucket in the [f64] arithmetic of [Float.v], one per user ([rate_for]
    of [State.v]), and how much it can let through in an interval. Instants are
    in nanoseconds. *)

From Stdlib Require Import SpecFloat QArith Qpower Qminmax Lqa Sorted.
From S2P Require Import Prelude Float.

#[local] Open Scope Z_scope.

(** [Duration::as_secs_f64]. *)
Definition as_secs (ns : Z) : f64 := fadd (f64_of (ns / 1000000000)) (fdiv (f64_of (ns mod 1000000000)) (f64_of 1000000000)).

(** The integer nearest [a / 2 ^ k], ties to even. *)
Definition round_shift (a k : Z) : Z :=
  let q := Z.shiftr a k in
  let r := 2 * (a - Z.shiftl q k) in
  let one := Z.shiftl 1 k in
  if r <? one then q else if one <? r then q + 1 else if Z.even q then q else q + 1.

(** [Duration::from_secs_f64]: the nearest nanosecond; [None] where it panics. *)
Definition from_secs (x : f64) : option Z :=
  match x with
  | S754_zero _ => Some 0
  | S754_finite false m e =>
    let ns := if 0 <=? e then Z.shiftl (Zpos m * 1000000000) e else round_shift (Zpos m * 1000000000) (- e) in
    if ns <? 2 ^ 64 * 1000000000 then Some ns else None
  | _ => None
  end.

(** ** The bucket *)

Record Inner := { in_rate_bps : f64; in_cap : f64; in_tokens : f64; in_last : Z }.
Record RateLimiter := { rl_inner : Inner; rl_enabled : bool }.

Definition rl_new (now mbps : Z) : RateLimiter :=
  let rate_bps := fdiv (fmul (f64_of mbps) (f64_of 1000000)) (f64_of 8) in
  let cap := fmax rate_bps (fmul (f64_of 64) (f64_of 1024)) in
  {| rl_inner := {| in_rate_bps := rate_bps; in_cap := cap; in_tokens := cap; in_last := now |};
     rl_enabled := 0 <? mbps |}.

Definition refill (now : Z) (b : Inner) : Inner :=
  let dt := as_secs (Z.max 0 (now - in_last b)) in
  {| in_rate_bps := in_rate_bps b; in_cap := in_cap b;
     in_tokens := fmin (fadd (in_tokens b) (fmul dt (in_rate_bps b))) (in_cap b); in_last := now |}.

Definition take_tokens (n : f64) (b : Inner) : Inner :=
  {| in_rate_bps := in_rate_bps b; in_cap := in_cap b; in_tokens := fsub (in_tokens b) n; in_last := in_last b |}.

Inductive Turn := Granted | Wait (d : option Z).

(** One turn of [acquire]'s loop, under the lock. *)
Definition acquire_turn (now n : Z) (b : Inner) : Turn * Inner :=
  let b := refill now b in
  let n := fmin (f64_of n) (in_cap b) in
  if SFleb n (in_tokens b) then (Granted, take_tokens n b)
  else (Wait (from_secs (fdiv (fsub n (in_tokens b)) (in_rate_bps b))), b).

(** [acquire]: [clock k d] is the instant the k-th turn reads, [d] being the
    sleep before it; [None] when [fuel] runs out or the sleep panics. *)
Fixpoint acquire_loop (fuel k : nat) (clock : nat -> Z -> Z) (d n : Z) (b : Inner) : option (nat * Inner) :=
  match fuel with
  | O => None
  | S f =>
    match acquire_turn (clock k d) n b with
    | (Granted, b) => Some (k, b)
    | (Wait (Some d'), b) => acquire_loop f (S k) clock d' n b
    | (Wait None, _) => None
    end
  end.

Definition rl_acquire (fuel : nat) (clock : nat -> Z -> Z) (n : Z) (r : RateLimiter) : option (nat * RateLimiter) :=
  if rl_enabled r then
    '(k, b) ← acquire_loop fuel 0 clock 0 n (rl_inner r);
    Some (k, {| rl_inner := b; rl_enabled := rl_enabled r |})
  else Some (0%nat, r).

(** The turns of all the tasks that share a bucket, in the order they take its
    lock: the instant each reads and the bytes it asks for. The bytes granted,
    where a request past 64 KiB, which may be charged only the capacity of the
    bucket, counts as 64 KiB. *)
Fixpoint run_turns (turns : list (Z * Z)) (b : Inner) : Z * Inner :=
  match turns with
  | [] => (0, b)
  | (now, n) :: ts =>
    let '(t, b) := acquire_turn now n b in
    let '(g, b) := run_turns ts b in
    (match t with Granted => Z.min n 65536 | Wait _ => 0 end + g, b)
  end.

(** ** Properties *)

(** A bucket never holds more than its capacity after a refill, a request past
    the capacity is charged the capacity, and a full bucket grants any request:
    a request too large for the bucket waits for it to fill, not forever. *)
Theorem full_bucket_grants now n b : positive_finite (in_cap b) ->
  SFleb (in_tokens (refill now b)) (in_cap b) = true /\
  (SFleb (in_cap b) (fadd (in_tokens b) (fmul (as_secs (Z.max 0 (now - in_last b))) (in_rate_bps b))) = true ->
   acquire_turn now n b = (Granted, take_tokens (fmin (f64_of n) (in_cap b)) (refill now b))
   /\ in_tokens (refill now b) = in_cap b).
Proof.
  intros Hc. assert (Hn : is_nan (in_cap b) = false) by (by destruct (in_cap b) as [| | |[]]).
  split; [by apply fmin_le_r|]. intros H. assert (Et : in_tokens (refill now b) = in_cap b) by (by apply fmin_full).
  split; [|done]. unfold acquire_turn. rewrite Et. change (in_cap (refill now b)) with (in_cap b). by rewrite fmin_le_r.
Qed.

(** Without a rate nothing waits and nothing is counted. *)
Theorem unlimited_never_waits now mbps fuel clock n : mbps <= 0 ->
  rl_acquire fuel clock n (rl_new now mbps) = Some (0%nat, rl_new now mbps).
Proof. intros H. unfold rl_acquire, rl_new; cbn [rl_enabled]. by zbool. Qed.

(** ** What a bucket can hold *)

(** One call of [acquire] is a run of turns that ends in a grant. *)
Lemma acquire_loop_turns fuel : forall k clock d n b k' b', acquire_loop fuel k clock d n b = Some (k', b') ->
  exists waits now, Forall (fun t => t.2 = n) waits /\ length waits = (k' - k)%nat /\ (k <= k')%nat
    /\ b' = snd (run_turns (waits ++ [(now, n)]) b) /\ fst (run_turns (waits ++ [(now, n)]) b) = Z.min n 65536.
Proof.
  induction fuel as [|f IH]; intros k clock d n b k' b' H; [done|]. cbn [acquire_loop] in H.
  destruct (acquire_turn (clock k d) n b) as [[|[d'|]] b1] eqn:E; [| |done].
  - simplify_eq. exists [], (clock k' d). cbn [app run_turns length]. rewrite E. cbn [fst snd].
    split; [constructor|]. split; [lia|]. split; [lia|]. split; [done|lia].
  - apply IH in H as (w & now & Hw & Hlen & Hk & Eb & Eg). exists ((clock k d, n) :: w), now.
    cbn [app run_turns length]. rewrite E. destruct (run_turns (w ++ [(now, n)]) b1) as [g b2]. cbn [fst snd] in *.
    split; [by constructor|]. split; [lia|]. split; [lia|]. split; [done|lia].
Qed.

Section Bound.

#[local] Open Scope Q_scope.
#[local] Opaque pow2.

(** The configured rate in bytes per second, and the burst. *)
Definition rate_bytes (mbps : Z) : Q := inject_Z (125000 * mbps).
Definition burst_bytes (mbps : Z) : Q := inject_Z (Z.max (125000 * mbps) 65536).
Definition secs (ns : Z) : Q := inject_Z ns / 1000000000.

Definition bucket_ok (b : Inner) : Prop :=
  good (in_rate_bps b) /\ good (in_cap b) /\ good (in_tokens b) /\ fval (in_rate_bps b) <= fval (in_cap b)
  /\ 65536 <= fval (in_cap b) /\ fval (in_cap b) <= pow2 100 /\ fval (in_tokens b) <= 2 * fval (in_cap b).

Lemma ulp1_eq : ulp1 == 1 # 4503599627370496.
Proof. reflexivity. Qed.

Lemma tiny_small : 0 < tiny /\ tiny <= 1 # 4722366482869645213696.
Proof.
  split; [apply pow2_pos|]. assert (E : 1 # 4722366482869645213696 == pow2 (-72)) by reflexivity. rewrite E. by apply pow2_le.
Qed.

Lemma secs_below ns : (0 <= ns)%Z -> below (as_secs ns) (secs ns * (1 + 4 * ulp1) + 4 * tiny).
Proof.
  intros Hn. pose proof tiny_small as [T0 T1]. pose proof ulp1_eq as E.
  assert (Hd : exists m e, f64_of 1000000000 = S754_finite false m e /\ mant (Zpos m) e == 1000000000).
  { eexists _, _; split; [vm_compute; reflexivity|vm_compute; reflexivity]. }
  destruct Hd as (m & e & Hd & Hm). unfold as_secs. rewrite Hd.
  assert (Hq : (0 <= ns / 1000000000)%Z) by (apply Z.div_pos; lia).
  assert (Hr : (0 <= ns mod 1000000000 < 1000000000)%Z) by (apply Z.mod_pos_bound; lia).
  assert (Hb : up (inject_Z (ns mod 1000000000)) < pow2 971).
  { eapply Qlt_le_trans; [|apply (pow2_le 40); lia]. assert (E40 : pow2 40 == 1099511627776) by reflexivity. rewrite E40.
    assert (inject_Z (ns mod 1000000000) <= 1000000000) by (rewrite <- (Zle_Qle _ 1000000000); lia).
    unfold up. rewrite E. lra. }
  eapply below_mono.
  { apply fadd_below; [by apply f64_of_below|]. apply fdiv_below; [apply f64_of_below; lia|done]. }
  unfold up, secs, Qdiv. rewrite Hm. assert (Hs : inject_Z ns == 1000000000 * inject_Z (ns / 1000000000) + inject_Z (ns mod 1000000000)).
  { rewrite (Z.div_mod ns 1000000000) at 1 by lia. rewrite inject_Z_plus, inject_Z_mult. reflexivity. }
  assert (Hq' : 0 <= inject_Z (ns / 1000000000)) by (by rewrite <- (Zle_Qle 0)).
  assert (Hr' : 0 <= inject_Z (ns mod 1000000000)) by (rewrite <- (Zle_Qle 0); lia).
  rewrite Hs, !E. change (/ 1000000000) with (1 # 1000000000).
  generalize dependent (inject_Z (ns mod 1000000000)). intros r _ _ Hr''. lra.
Qed.

(** The rounding of a refill: (1 + u)^2 (1 + 4u) of what the elapsed time is
    worth, and a [u] of what the bucket holds. *)
Lemma refill_arith S R T C t : 0 <= S -> 0 <= R -> R <= C -> 1 <= C -> T <= 2 * C ->
  0 <= t -> t <= 1 # 4722366482869645213696 -> let u := 1 # 4503599627370496 in
  (T + ((S * (1 + 4 * u) + 4 * t) * R * (1 + u) + t)) * (1 + u) + t <= T + R * S * (1 + 8 * u) + 3 * u * C.
Proof.
  intros HS HR HRC HC HT Ht0 Ht. cbv zeta. assert (H1 : 0 <= S * R) by (by apply Qmult_le_0_compat).
  assert (H2 : t * R <= t * C) by (rewrite (Qmult_comm t R), (Qmult_comm t C); by apply Qmult_le_compat_r).
  assert (H3 : t * C <= (1 # 4722366482869645213696) * C) by (apply Qmult_le_compat_r; [done|lra]).
  assert (H4 : 0 <= t * (C - 1)) by (apply Qmult_le_0_compat; lra).
  assert (H5 : 0 <= t * R) by (by apply Qmult_le_0_compat). lra.
Qed.

Lemma secs_bound ns : (0 <= ns <= 2 ^ 94)%Z -> 0 <= secs ns /\ secs ns <= pow2 94.
Proof.
  intros [H0 H1]. unfold secs, Qdiv. change (/ 1000000000) with (1 # 1000000000). rewrite pow2_Z by done.
  assert (0 <= inject_Z ns) by (by rewrite <- (Zle_Qle 0)). assert (inject_Z ns <= inject_Z (2 ^ 94)) by (by rewrite <- Zle_Qle).
  split; lra.
Qed.

Lemma refill_bound now b : bucket_ok b -> (0 <= now - in_last b <= 2 ^ 94)%Z ->
  bucket_ok (refill now b) /\ fval (in_tokens (refill now b)) <= fval (in_cap b) /\
  fval (in_tokens (refill now b)) <= fval (in_tokens b)
    + fval (in_rate_bps b) * secs (now - in_last b) * (1 + 8 * ulp1) + 3 * ulp1 * fval (in_cap b).
Proof.
  intros (GR & GC & GT & HRC & HC & HC' & HT) Hd. pose proof tiny_small as [T0 T1]. pose proof ulp1_eq as E.
  pose proof (good_nonneg _ GR) as PR. pose proof (good_nonneg _ GT) as PT. destruct (secs_bound _ Hd) as [S0 S1].
  assert (L1 : pow2 94 * (1 + 4 * ulp1) + 4 * tiny < pow2 971).
  { eapply Qlt_le_trans; [|apply (pow2_le 100); lia]. rewrite E, !pow2_Z by done. 
    change (inject_Z (2 ^ 94)) with 19807040628566084398385987584. change (inject_Z (2 ^ 100)) with 1267650600228229401496703205376. lra. }
  assert (L2 : pow2 100 < pow2 971) by (rewrite !pow2_Z, <- Zlt_Qlt by done; apply Z.pow_lt_mono_r; lia).
  unfold refill; cbn [in_tokens in_cap in_rate_bps]. rewrite Z.max_r by lia.
  edestruct (fmin_below (fadd (in_tokens b) (fmul (as_secs (now - in_last b)) (in_rate_bps b))) (in_cap b)) as (HB & GM & HM);
    [|exact GC|lra|].
  { apply fadd_below; [by apply good_below|]. apply fmul_below; [apply secs_below; lia|by apply good_below| |lra].
    rewrite E in *. lra. }
  pose proof (below_fval _ _ HB GM) as HV.
  split; [|split; [exact HM|]].
  - unfold bucket_ok; cbn [in_tokens in_cap in_rate_bps]. repeat (split; [done|]). lra.
  - eapply Qle_trans; [exact HV|]. unfold up. rewrite E. apply refill_arith; try done; lra.
Qed.

Lemma up_small V : V <= pow2 100 -> up V < pow2 971.
Proof.
  intros H. pose proof tiny_small as [T0 T1]. pose proof ulp1_eq as E. eapply Qlt_le_trans; [|apply (pow2_le 102); lia].
  rewrite (pow2_add 2 100). assert (E2 : pow2 2 == 4) by reflexivity. assert (1 <= pow2 100) by (by apply (pow2_le 0)).
  rewrite E2. unfold up. rewrite E. lra.
Qed.

(** A grant takes at least the bytes asked for, up to 64 KiB. *)
Lemma grant_bound n b : bucket_ok b -> fval (in_tokens b) <= fval (in_cap b) -> (0 <= n < 2 ^ 53)%Z ->
  let c := fmin (f64_of n) (in_cap b) in SFleb c (in_tokens b) = true ->
  bucket_ok (take_tokens c b) /\ fval (in_tokens (take_tokens c b)) + inject_Z (Z.min n 65536)
    <= fval (in_tokens b) + 2 * ulp1 * fval (in_cap b).
Proof.
  intros (GR & GC & GT & HRC & HC & HC' & HT) HT' Hn c Hc. pose proof tiny_small as [T0 T1]. pose proof ulp1_eq as E.
  destruct (f64_of_exact n Hn) as [Gn En]. destruct (fmin_val _ _ Gn GC) as [Gc Ec]. fold c in Gc, Ec.
  pose proof (fsub_below _ _ GT Gc Hc) as HB.
  assert (Hmin : inject_Z (Z.min n 65536) <= fval c).
  { rewrite Ec. apply Q.min_glb; [rewrite En, <- Zle_Qle; lia|]. eapply Qle_trans; [|exact HC].
    rewrite <- (Zle_Qle _ 65536). lia. }
  assert (Hm0 : 0 <= inject_Z (Z.min n 65536)) by (rewrite <- (Zle_Qle 0); lia).
  destruct (below_good _ _ HB) as [Gs Vs]; [apply up_small; lra|].
  assert (Vs' : fval (fsub (in_tokens b) c) + inject_Z (Z.min n 65536) <= fval (in_tokens b) + 2 * ulp1 * fval (in_cap b)).
  { unfold up in Vs. rewrite E in *. lra. }
  split; [|exact Vs']. unfold bucket_ok, take_tokens; cbn [in_tokens in_cap in_rate_bps]. repeat (split; [done|]).
  rewrite E in Vs'. lra.
Qed.

(** What a turn grants, against what the bucket holds after its refill. *)
Definition granted (t : Turn) (n : Z) : Q := match t with Granted => inject_Z (Z.min n 65536) | Wait _ => 0 end.

Lemma run_turns_cons now n ts b : inject_Z (fst (run_turns ((now, n) :: ts) b)) ==
  granted (fst (acquire_turn now n b)) n + inject_Z (fst (run_turns ts (snd (acquire_turn now n b)))).
Proof.
  cbn [run_turns]. destruct (acquire_turn now n b) as [t b1]. cbn [fst snd]. destruct (run_turns ts b1) as [g b2]. cbn [fst].
  rewrite inject_Z_plus. by destruct t.
Qed.

Lemma turn_bound now n b : bucket_ok b -> (0 <= now - in_last b <= 2 ^ 94)%Z -> (0 <= n < 2 ^ 53)%Z ->
  let b' := snd (acquire_turn now n b) in
  bucket_ok b' /\ in_last b' = now /\ in_cap b' = in_cap b /\ in_rate_bps b' = in_rate_bps b /\
  granted (fst (acquire_turn now n b)) n + fval (in_tokens b')
    <= fval (in_tokens (refill now b)) + 2 * ulp1 * fval (in_cap b).
Proof.
  intros Hb Hd Hn. destruct (refill_bound now b Hb Hd) as (Hr & Hc & _). pose proof ulp1_eq as E.
  pose proof (grant_bound n _ Hr Hc Hn) as Hg. cbv zeta in *. unfold acquire_turn.
  destruct (SFleb _ _); cbn [fst snd granted].
  - destruct (Hg eq_refl) as [Hok Hv]. do 4 (split; [done|]). rewrite Qplus_comm. exact Hv.
  - do 4 (split; [done|]). destruct Hb as (_ & _ & _ & _ & HC & _). rewrite E. lra.
Qed.

Lemma sorted_span (l : list Z) x y : Sorted Z.le (x :: l ++ [y]) -> (x <= y)%Z.
Proof.
  intros H%Sorted_StronglySorted; [|intros ???; lia]. inversion H as [|? ? _ Hall]; subst.
  rewrite Forall_app in Hall. by destruct Hall as [_ [? _]%Forall_cons].
Qed.

(** A run of turns up to [finish], from a bucket last refilled at [in_last]. *)
Lemma run_bound turns : forall finish b, bucket_ok b -> Sorted Z.le (in_last b :: turns.*1 ++ [finish]) ->
  (finish - in_last b <= 2 ^ 94)%Z -> Forall (fun t => 0 <= t.2 < 2 ^ 53)%Z turns ->
  inject_Z (fst (run_turns turns b)) <= fval (in_tokens b)
    + fval (in_rate_bps b) * secs (finish - in_last b) * (1 + 8 * ulp1)
    + inject_Z (Z.of_nat (length turns)) * (5 * ulp1 * fval (in_cap b)).
Proof.
  pose proof ulp1_eq as E. induction turns as [|[now n] ts IH]; intros finish b Hb Hs Hf Hn.
  - pose proof (sorted_span _ _ _ Hs) as Hl. destruct Hb as (GR & GC & GT & _).
    pose proof (good_nonneg _ GR) as PR. pose proof (good_nonneg _ GT) as PT.
    destruct (secs_bound (finish - in_last b)) as [S0 _]; [lia|].
    assert (0 <= fval (in_rate_bps b) * secs (finish - in_last b)) by (by apply Qmult_le_0_compat).
    cbn [run_turns fst length]. rewrite E. change (inject_Z (Z.of_nat 0)) with 0. change (inject_Z 0) with 0. lra.
  - cbn [fmap list_fmap app fst snd] in Hs. inversion Hs as [|? ? Hs' Hh]; subst. inversion Hh as [|? ? Hle]; subst.
    pose proof (sorted_span _ _ _ Hs') as Hl. cbn [fst] in *. apply Forall_cons in Hn as [Hn0 Hn]. cbn [snd] in Hn0.
    assert (Hd : (0 <= now - in_last b <= 2 ^ 94)%Z) by lia.
    destruct (refill_bound now b Hb Hd) as (_ & _ & Hr). destruct (turn_bound now n b Hb Hd Hn0) as (Hb' & El & Ec & Er & Hg).
    specialize (IH finish (snd (acquire_turn now n b)) Hb'). rewrite El, Ec, Er in IH.
    specialize (IH Hs' ltac:(lia) Hn). rewrite run_turns_cons. cbn [length]. rewrite Nat2Z.inj_succ, <- Z.add_1_r, inject_Z_plus.
    change (inject_Z 1) with 1.
    assert (Hsec : secs (finish - in_last b) == secs (now - in_last b) + secs (finish - now)).
    { unfold secs, Qdiv. rewrite <- Qmult_plus_distr_l, <- inject_Z_plus. by replace (now - in_last b + (finish - now))%Z with (finish - in_last b)%Z by lia. }
    rewrite Hsec. rewrite E in *. lra.
Qed.

Lemma run_state turns : forall finish b, bucket_ok b -> Sorted Z.le (in_last b :: turns.*1 ++ [finish]) ->
  (finish - in_last b <= 2 ^ 94)%Z -> Forall (fun t => 0 <= t.2 < 2 ^ 53)%Z turns ->
  let b' := snd (run_turns turns b) in
  bucket_ok b' /\ in_cap b' = in_cap b /\ in_rate_bps b' = in_rate_bps b /\ (in_last b <= in_last b' <= finish)%Z.
Proof.
  induction turns as [|[now n] ts IH]; intros finish b Hb Hs Hf Hn b'; unfold b'; clear b'.
  - pose proof (sorted_span _ _ _ Hs). do 3 (split; [done|]). cbn [run_turns snd]. lia.
  - inversion Hs as [|? ? Hs' Hh]; subst. inversion Hh as [|? ? Hle]; subst.
    pose proof (sorted_span _ _ _ Hs') as Hl. cbn [fst] in *. apply Forall_cons in Hn as [Hn0 Hn].
    destruct (turn_bound now n b Hb ltac:(lia) Hn0) as (Hb' & El & Ec & Er & _). cbn [run_turns].
    destruct (acquire_turn now n b) as [t b1]. cbn [fst snd] in *. rewrite <- El in Hs', Hl, Hle.
    destruct (IH finish b1 Hb' Hs' ltac:(lia) Hn) as (? & Ec' & Er' & ?). destruct (run_turns ts b1) as [g b2]. cbn [snd] in *.
    split; [done|]. split; [by rewrite Ec'|]. split; [by rewrite Er'|]. lia.
Qed.

Lemma new_rate mbps : (0 < mbps < 2 ^ 64)%Z -> let r := fdiv (fmul (f64_of mbps) (f64_of 1000000)) (f64_of 8) in
  good r /\ fval r <= rate_bytes mbps * (1 + 4 * ulp1).
Proof.
  intros Hm. pose proof tiny_small as [T0 T1]. pose proof ulp1_eq as E.
  assert (H1 : 1 <= inject_Z mbps) by (rewrite <- (Zle_Qle 1); lia).
  assert (H2 : inject_Z mbps <= 18446744073709551616) by (rewrite <- (Zle_Qle _ 18446744073709551616); lia).
  assert (Hr : rate_bytes mbps == 125000 * inject_Z mbps) by (unfold rate_bytes; rewrite inject_Z_mult; reflexivity).
  destruct (f64_of_exact 1000000 ltac:(lia)) as [G6 V6]. change (inject_Z 1000000) with 1000000 in V6.
  assert (H8 : exists m e, f64_of 8 = S754_finite false m e /\ mant (Zpos m) e == 8).
  { eexists _, _; split; [vm_compute; reflexivity|vm_compute; reflexivity]. }
  destruct H8 as (m & e & H8 & V8). rewrite H8. cbv zeta. rewrite Hr, E.
  assert (P : 1267650600228229401496703205376 <= pow2 971) by (apply (pow2_le 100 971); lia).
  assert (HB : below (fdiv (fmul (f64_of mbps) (f64_of 1000000)) (S754_finite false m e))
    (up (up (up (inject_Z mbps) * fval (f64_of 1000000)) / mant (Z.pos m) e))).
  { apply fdiv_below; [apply fmul_below; [apply f64_of_below; lia|apply good_below, G6| |]|].
    all: unfold up; rewrite ?V6, ?E; lra. }
  destruct (below_good _ _ HB) as [G V].
  { unfold up. rewrite V6, V8, E. unfold Qdiv. change (/ 8) with (1 # 8). lra. }
  split; [exact G|]. eapply Qle_trans; [exact V|]. unfold up. rewrite V6, V8, E. unfold Qdiv. change (/ 8) with (1 # 8). lra.
Qed.

Lemma new_bound start mbps : (0 < mbps < 2 ^ 64)%Z -> let b := rl_inner (rl_new start mbps) in
  bucket_ok b /\ in_last b = start /\ fval (in_rate_bps b) <= rate_bytes mbps * (1 + 4 * ulp1)
  /\ fval (in_cap b) <= burst_bytes mbps * (1 + 4 * ulp1).
Proof.
  intros Hm. pose proof ulp1_eq as E. destruct (new_rate mbps Hm) as [GR HR]. cbv zeta in *.
  assert (E16 : fmul (f64_of 64) (f64_of 1024) = f64_of 65536) by (vm_compute; reflexivity).
  unfold rl_new. cbn [rl_inner]. rewrite E16. set (r := fdiv _ _) in *. clearbody r.
  destruct (f64_of_exact 65536 ltac:(lia)) as [G16 V16]. change (inject_Z 65536) with 65536 in V16.
  destruct (fmax_good _ _ GR G16) as (GC & LR & L16 & Hmax). rewrite V16 in L16.
  assert (B1 : rate_bytes mbps <= burst_bytes mbps) by (unfold rate_bytes, burst_bytes; rewrite <- Zle_Qle; lia).
  assert (B2 : 65536 <= burst_bytes mbps) by (unfold burst_bytes; rewrite <- (Zle_Qle 65536); lia).
  assert (B3 : burst_bytes mbps <= 2305843009213693952000000).
  { unfold burst_bytes. rewrite <- (Zle_Qle _ 2305843009213693952000000). lia. }
  assert (HC : fval (fmax r (f64_of 65536)) <= burst_bytes mbps * (1 + 4 * ulp1)).
  { rewrite E in *. destruct Hmax as [Hm'|Hm']; rewrite Hm'; [|rewrite V16]; lra. }
  assert (P : 1267650600228229401496703205376 <= pow2 100) by (by apply (pow2_le 100)).
  unfold bucket_ok; cbn [in_rate_bps in_cap in_tokens in_last]. rewrite E in HC.
  split; [|done]. do 5 (split; [done|]). split; lra.
Qed.

Lemma bound_arith B r S k C R : 0 <= S -> 0 <= k -> 0 <= C -> 0 <= R -> R <= r * (1 + 4 * ulp1) -> C <= B * (1 + 4 * ulp1) ->
  C + R * S * (1 + 8 * ulp1) + k * (5 * ulp1 * C) <= (1 + pow2 (-48)) * (B + r * S) + k * (pow2 (-49) * B).
Proof.
  intros HS Hk PC PR HR HC. rewrite ulp1_eq in *.
  assert (E1 : pow2 (-48) == 1 # 281474976710656) by reflexivity. assert (E2 : pow2 (-49) == 1 # 562949953421312) by reflexivity.
  rewrite E1, E2. assert (H1 : 0 <= (r * (1 + 4 * (1 # 4503599627370496)) - R) * S) by (apply Qmult_le_0_compat; lra).
  assert (H2 : 0 <= (B * (1 + 4 * (1 # 4503599627370496)) - C) * k) by (apply Qmult_le_0_compat; lra).
  assert (0 <= R * S) by (by apply Qmult_le_0_compat). assert (0 <= C * k) by (by apply Qmult_le_0_compat). lra.
Qed.


End Bound.

(** ** Values *)

Module RateLimitWitness.

(** The waits of 64 KiB requests, back to back from a full bucket: the turns
    taken and the instant of the last grant, when each sleep is exact. *)
Fixpoint burst (count : nat) (now : Z) (b : Inner) : option (Z * Inner) :=
  match count with
  | O => Some (now, b)
  | S c =>
    match acquire_turn now 65536 b with
    | (Granted, b) => burst c now b
    | (Wait (Some d), b) =>
      match acquire_turn (now + d) 65536 b with (Granted, b) => burst c (now + d) b | _ => None end
    | (Wait None, _) => None
    end
  end.

(** At 1 Mbit/s four of them end after 1.097152 s: (262144 - 125000) / 125000. *)
Example four_requests : option_map fst (burst 4 0 (rl_inner (rl_new 0 1))) = Some 1097152000.
Proof. vm_compute; reflexivity. Qed.

(** A request larger than the bucket waits until it is full again, then takes
    all of it. *)
Example oversized : match acquire_turn 0 65536 (rl_inner (rl_new 0 1)) with
  | (Granted, b) => fst (acquire_turn 0 1000000000 b) = Wait (Some 524288000)
      /\ fst (acquire_turn 524288000 1000000000 b) = Granted
  | _ => False end.
Proof. vm_compute. done. Qed.

Lemma full_bucket_grants_witness :
  fst (acquire_turn 5000000000 1000000000 (take_tokens (f64_of 65536) (rl_inner (rl_new 0 1)))) = Granted.
Proof.
  destruct (full_bucket_grants 5000000000 1000000000 (take_tokens (f64_of 65536) (rl_inner (rl_new 0 1)))) as [_ H];
    [vm_compute; exact I|]. destruct H as [E _]; [vm_compute; reflexivity|]. rewrite E. reflexivity.
Defined.


Lemma unlimited_never_waits_witness : rl_acquire 0 (fun _ _ => 0) 65536 (rl_new 0 0) = Some (0%nat, rl_new 0 0).
Proof. apply (unlimited_never_waits 0 0 0 (fun _ _ => 0) 65536). lia. Defined.

End RateLimitWitness.
