(* ===== verification/Lifecycle.v ===== *)
(** * Starting and stopping: [server/mod.rs], [client/mod.rs], [quic_tune.rs]

    [run_with_shutdown] from the configuration to the process's result: what it
    starts, in which order and with which address, what a failing step leaves,
    what wakes it and what is left when it returns; [client::run] likewise. The
    operating system is a parameter (class [HostOps]): binding a socket, the
    PEM files, the certificate generator, the file system. *)

From S2P Require Import Prelude Bytes Crypto Frame Net Ip Limit State Config ServerAuth ServerWt Handshake Outbound ClientBuild Web FallbackLink Health Hub ServerRun System.

Class HostOps := {
  tcp_bind : SocketAddr -> result msg unit;
  load_pemfiles : bytes -> bytes -> result msg unit;
  generate_self_signed : list bytes -> result msg (bytes * bytes);
  temp_dir : bytes;
  create_dir_all : bytes -> result msg unit;
  write_file : bytes -> bytes -> result msg unit;
}.

(** ** QUIC tuning *)

(** The settings [tuned] makes; the others keep quinn's defaults. *)
Record QuicTransport := {
  qt_stream_receive_window : Z;
  qt_receive_window : Z;
  qt_send_window : Z;
  qt_mtu_discovery : bool;
  qt_bbr : bool;
}.

Definition tuned (recv_window : Z) : QuicTransport := {|
  qt_stream_receive_window := recv_window; qt_receive_window := 32 * 1024 * 1024;
  qt_send_window := 32 * 1024 * 1024; qt_mtu_discovery := false; qt_bbr := true |}.

Definition GAP_SIGNATURE : bytes := str "too many gaps".

(** [gap_hint]: whether the hint is appended. *)
Definition gap_hint (reason : bytes) : bool := contains GAP_SIGNATURE reason.

(** ** What runs in the background *)

(** The listener tasks of the server, with what they were given: [run_wt] binds
    the port alone. *)
Inductive Listener :=
| LWt (port : Z) (transport : QuicTransport) (cert key : bytes)
| LTls (addr : SocketAddr) (cert key : bytes)
| LPlain (addr : SocketAddr) (acme : option bytes).

Record Live := {
  lv_reaper : bool;
  lv_health : option SocketAddr;
  lv_tasks : list Listener;
  lv_files : list (bytes * bytes);
}.

Definition nothing : Live := {| lv_reaper := false; lv_health := None; lv_tasks := []; lv_files := [] |}.
Definition lv_with_reaper (b : bool) (l : Live) : Live :=
  {| lv_reaper := b; lv_health := lv_health l; lv_tasks := lv_tasks l; lv_files := lv_files l |}.
Definition lv_with_health (h : option SocketAddr) (l : Live) : Live :=
  {| lv_reaper := lv_reaper l; lv_health := h; lv_tasks := lv_tasks l; lv_files := lv_files l |}.
Definition lv_with_tasks (t : list Listener) (l : Live) : Live :=
  {| lv_reaper := lv_reaper l; lv_health := lv_health l; lv_tasks := t; lv_files := lv_files l |}.
Definition lv_with_file (path text : bytes) (l : Live) : Live :=
  {| lv_reaper := lv_reaper l; lv_health := lv_health l; lv_tasks := lv_tasks l; lv_files := lv_files l ++ [(path, text)] |}.

(** Effects on [Live] that may fail: what was started stays started. *)
Definition Start (A : Type) : Type := Live -> result msg A * Live.
Definition sret {A} (a : A) : Start A := fun l => (Ok a, l).
Definition sbind {A B} (m : Start A) (k : A -> Start B) : Start B :=
  fun l => match m l with (Ok a, l') => k a l' | (Err e, l') => (Err e, l') end.
Definition lift {A} (r : result msg A) : Start A := fun l => (r, l).
Definition modify (f : Live -> Live) : Start unit := fun l => (Ok tt, f l).

Declare Scope start_scope.
Delimit Scope start_scope with start.
Notation "'let!' x ':=' m 'in' k" := (sbind m (fun x => k))
  (at level 200, x pattern, m at level 100, k at level 200, right associativity) : start_scope.

(** [.context(c)]: the message of a failing step. *)
Definition context {A} (c : msg) (r : result msg A) : result msg A :=
  match r with Ok a => Ok a | Err _ => Err c end.
Definition when {A} (o : option A) (f : A -> Start unit) : Start unit :=
  match o with Some a => f a | None => sret tt end.

Section server.
Context {P : Prims} {Host : HostOps}.
Open Scope start_scope.

(** ** Starting the server *)

(** [health::spawn]. *)
Definition spawn_health (addr : bytes) : Start unit :=
  let! a := lift (ok_or (parse_socket addr) "bad --health address"%string) in
  let! _ := lift (context "bind --health" (tcp_bind a)) in
  modify (lv_with_health (Some a)).

Definition join_path (dir file : bytes) : bytes := dir ++ c_slash :: file.

(** [setup_tls]: the paths of the certificate and key the listeners load. *)
Definition setup_tls (src : CertSource) : Start (bytes * bytes) :=
  match src with
  | CertFiles cert key =>
    let! _ := lift (load_pemfiles cert key) in
    sret (cert, key)
  | CertSelfSigned =>
    let! (cert_pem, key_pem) := lift (generate_self_signed [str "localhost"; str "newppp.local"]) in
    let dir := join_path temp_dir (str "newppp-dev-tls") in
    let! _ := lift (create_dir_all dir) in
    let cert_path := join_path dir (str "cert.pem") in
    let key_path := join_path dir (str "key.pem") in
    let! _ := lift (write_file cert_path cert_pem) in
    let! _ := modify (lv_with_file cert_path cert_pem) in
    let! _ := lift (write_file key_path key_pem) in
    let! _ := modify (lv_with_file key_path key_pem) in
    let! _ := lift (load_pemfiles cert_path key_path) in
    sret (cert_path, key_path)
  end.

Definition with_context {A} (c : msg) (m : Start A) : Start A := fun l => let '(r, l') := m l in (context c r, l').

Definition spawn_task (t : Listener) : Start unit := modify (fun l => lv_with_tasks (lv_tasks l ++ [t]) l).

(** The endpoint [run_wt] opens: only the port of [addr] is used. *)
Definition run_wt (addr : SocketAddr) (recv_window : Z) (cert key : bytes) : Listener :=
  LWt (sa_port addr) (tuned recv_window) cert key.

(** [run_with_shutdown] up to its [select]. *)
Definition server_start (cfg : ServerConfig) : Start unit :=
  let! _ := modify (lv_with_reaper true) in
  let! _ := when (sc_health cfg) spawn_health in
  let! (cert, key) := with_context "TLS setup" (setup_tls (sc_cert cfg)) in
  let! _ := when (sc_listen cfg) (fun a =>
    let! a := lift (ok_or (parse_socket a) "bad --listen address"%string) in
    spawn_task (run_wt a (sc_recv_window cfg) cert key)) in
  let! _ := when (sc_fallback_listen cfg) (fun a =>
    let! a := lift (ok_or (parse_socket a) "bad --fallback-listen address"%string) in
    spawn_task (LTls a cert key)) in
  when (sc_http_listen cfg) (fun a =>
    let! a := lift (ok_or (parse_socket a) "bad --http-listen address"%string) in
    spawn_task (LPlain a (sc_acme_dir cfg))).

(** ** Stopping it *)

(** What ends the [select]: the token, or [wait_any] with what [join_next] gave
    ([None]: no task; then a panicked task or its result). *)
Inductive Wake :=
| Cancelled
| Joined (r : option (option (result msg unit))).

Definition wake_possible (l : Live) (w : Wake) : Prop :=
  match w with Cancelled => True | Joined None => lv_tasks l = [] | Joined (Some _) => lv_tasks l <> [] end.

(** [wait_any]'s warning. *)
Definition wait_any (r : option (option (result msg unit))) : option msg :=
  match r with Some (Some (Err e)) => Some e | _ => None end.

(** [graceful_shutdown]: [obs] is what the drain loop reads, [during] what the
    other tasks do to the state meanwhile; times are in milliseconds. *)
Definition graceful_shutdown (fuel : nat) (obs : nat -> Z * Z) (t0 grace : Z) (during : ServerState -> ServerState)
  (st : ServerState) (l : Live) : option (ServerState * Live) :=
  let st := cancel_all st in
  match drain_loop fuel 0 obs (t0 + grace) with
  | None => None
  | Some _ => Some (shutdown_sweep (during st), lv_with_tasks [] (lv_with_reaper false l))
  end.

Record Exit := { ex_result : result msg unit; ex_live : Live; ex_state : ServerState; ex_warned : option msg }.

(** [run_with_shutdown]: [serve] is what the listeners do to the state until
    [wake]. A step that fails returns early, which drops the task set. *)
Definition run_with_shutdown (cfg : ServerConfig) (serve : ServerState -> ServerState) (wake : Wake)
  (fuel : nat) (obs : nat -> Z * Z) (t0 : Z) (during : ServerState -> ServerState) : option Exit :=
  let st := build_state cfg in
  match server_start cfg nothing with
  | (Err e, l) => Some {| ex_result := Err e; ex_live := lv_with_tasks [] l; ex_state := st; ex_warned := None |}
  | (Ok _, l) =>
    let warned := match wake with Cancelled => None | Joined r => wait_any r end in
    match graceful_shutdown fuel obs t0 (sc_shutdown_grace cfg * 1000) during (serve st) l with
    | None => None
    | Some (st', l') =>
      Some {| ex_result := Ok tt; ex_live := lv_with_health None l'; ex_state := st'; ex_warned := warned |}
    end
  end.

(** The signals that end a service, and the one [ctrl_c] completes on. *)
Inductive Signal := SIGINT | SIGTERM.
Definition ctrl_c (s : Signal) : bool := match s with SIGINT => true | SIGTERM => false end.

(** [server::run]'s signal task: the token is cancelled, or the signal keeps
    its default action and the process is gone. *)
Definition on_signal (s : Signal) : option Wake := if ctrl_c s then Some Cancelled else None.

(** ** The listeners a configuration asks for *)

Definition listen_on (o : option bytes) (f : SocketAddr -> Listener) : option (list Listener) :=
  match o with None => Some [] | Some a => a ← parse_socket a; Some [f a] end.

Definition listeners (cfg : ServerConfig) (cert key : bytes) : option (list Listener) :=
  w ← listen_on (sc_listen cfg) (fun a => run_wt a (sc_recv_window cfg) cert key);
  t ← listen_on (sc_fallback_listen cfg) (fun a => LTls a cert key);
  p ← listen_on (sc_http_listen cfg) (fun a => LPlain a (sc_acme_dir cfg));
  Some (w ++ t ++ p).

Definition health_up (o : option bytes) : option (option SocketAddr) :=
  match o with
  | None => Some None
  | Some a => a ← parse_socket a; match tcp_bind a with Ok _ => Some (Some a) | Err _ => None end
  end.

(** Every step of the start-up succeeds, with these results. *)
Definition startable (cfg : ServerConfig) (cert key : bytes) (h : option SocketAddr) (ls : list Listener) : Prop :=
  health_up (sc_health cfg) = Some h /\ (setup_tls (sc_cert cfg) nothing).1 = Ok (cert, key)
  /\ listeners cfg cert key = Some ls.

(** ** Properties *)

Lemma setup_tls_live src l : exists fs, (setup_tls src l).1 = (setup_tls src nothing).1
  /\ (setup_tls src l).2 = {| lv_reaper := lv_reaper l; lv_health := lv_health l; lv_tasks := lv_tasks l; lv_files := fs |}.
Proof.
  unfold setup_tls, sbind, sret, lift, modify, lv_with_file.
  destruct src as [cert key|]; [destruct (load_pemfiles cert key)|]; [destruct l; by eexists..|].
  destruct (generate_self_signed _) as [[cp kp]|]; [|destruct l; by eexists].
  repeat first [by destruct l; eexists | destr_step].
Qed.

Lemma spawn_health_spec a l : match spawn_health a l with
  | (Ok _, l') => exists s, health_up (Some a) = Some (Some s) /\ l' = lv_with_health (Some s) l
  | (Err _, l') => health_up (Some a) = None /\ l' = l
  end.
Proof.
  unfold spawn_health, health_up, sbind, lift, modify. destruct (parse_socket a) as [s|]; cbn; [|done].
  destruct (tcp_bind s); cbn; [by exists s|done].
Qed.

Lemma start_listener o (f : SocketAddr -> Listener) e l :
  match (when o (fun a => let! a := lift (ok_or (parse_socket a) e) in spawn_task (f a))) l with
  | (Ok _, l') => exists ls, listen_on o f = Some ls /\ l' = lv_with_tasks (lv_tasks l ++ ls) l
  | (Err _, l') => listen_on o f = None /\ l' = l
  end.
Proof.
  destruct o as [a|]; cbn; unfold sbind, lift, spawn_task, modify, sret.
  - destruct (parse_socket a) as [s|]; cbn; [by eexists|done].
  - exists []; split; [done|]. rewrite app_nil_r. by destruct l.
Qed.

(** The start-up succeeds exactly when each of its steps does, and then runs
    the reaper, the health endpoint and the listeners asked for. *)
Lemma server_start_spec cfg : let '(r, l) := server_start cfg nothing in
  lv_reaper l = true /\
  match r with
  | Ok _ => exists cert key, startable cfg cert key (lv_health l) (lv_tasks l)
  | Err _ => forall cert key h ls, ~ startable cfg cert key h ls
  end.
Proof.
  unfold server_start. unfold sbind at 1, modify at 1. set (l0 := lv_with_reaper true nothing).
  unfold sbind at 1. assert (Hh : match (when (sc_health cfg) spawn_health) l0 with
    | (Ok _, l1) => exists h, health_up (sc_health cfg) = Some h /\ l1 = lv_with_health h l0
    | (Err _, l1) => health_up (sc_health cfg) = None /\ l1 = l0 end).
  { destruct (sc_health cfg) as [a|]; cbn [when]; [|by exists None]. pose proof (spawn_health_spec a l0) as H.
    destruct (spawn_health a l0) as [[|] l1]; [destruct H as (s & ? & ?); by exists (Some s)|done]. }
  destruct (when (sc_health cfg) spawn_health l0) as [[[]|e] l1].
  2:{ destruct Hh as [Hn ->]. split; [done|]. intros ???? (H & _); congruence. }
  destruct Hh as (h & Hh & ->). unfold sbind at 1, with_context.
  destruct (setup_tls_live (sc_cert cfg) (lv_with_health h l0)) as (fs & E1 & E2).
  destruct (setup_tls (sc_cert cfg) (lv_with_health h l0)) as [r l2]; cbn [fst snd] in E1, E2; subst l2.
  cbn [lv_with_health lv_reaper lv_health lv_tasks]. destruct r as [[cert key]|e]; cbn [context].
  2:{ split; [done|]. intros ???? (_ & H & _); congruence. }
  set (l2 := {| lv_reaper := _ |}). unfold sbind at 1.
  pose proof (start_listener (sc_listen cfg) (fun a => run_wt a (sc_recv_window cfg) cert key) "bad --listen address" l2) as Hw.
  destruct (when (sc_listen cfg) _ l2) as [[[]|e] l3].
  2:{ destruct Hw as [Hn ->]. split; [done|]. intros c k ?? (_ & H & Hl). unfold listeners in Hl.
      rewrite <- E1 in H; injection H as <- <-. by rewrite Hn in Hl. }
  destruct Hw as (w & Hw & ->). unfold sbind at 1. set (l3 := lv_with_tasks _ l2).
  pose proof (start_listener (sc_fallback_listen cfg) (fun a => LTls a cert key) "bad --fallback-listen address" l3) as Ht.
  destruct (when (sc_fallback_listen cfg) _ l3) as [[[]|e] l4].
  2:{ destruct Ht as [Hn ->]. split; [done|]. intros c k ?? (_ & H & Hl). unfold listeners in Hl.
      rewrite <- E1 in H; injection H as <- <-. by rewrite Hw, Hn in Hl. }
  destruct Ht as (t & Ht & ->). set (l4 := lv_with_tasks _ l3).
  pose proof (start_listener (sc_http_listen cfg) (fun a => LPlain a (sc_acme_dir cfg)) "bad --http-listen address" l4) as Hp.
  destruct (when (sc_http_listen cfg) _ l4) as [[[]|e] l5].
  2:{ destruct Hp as [Hn ->]. split; [done|]. intros c k ?? (_ & H & Hl). unfold listeners in Hl.
      rewrite <- E1 in H; injection H as <- <-. by rewrite Hw, Ht, Hn in Hl. }
  destruct Hp as (p & Hp & ->). split; [done|]. exists cert, key. split; [done|]. split; [by rewrite <- E1|].
  unfold listeners. rewrite Hw, Ht, Hp. cbn. by rewrite <- app_assoc.
Qed.

Lemma listeners_some cfg cert key ls : is_some (sc_listen cfg) || is_some (sc_fallback_listen cfg) = true ->
  listeners cfg cert key = Some ls -> ls <> [].
Proof.
  unfold listeners, listen_on. intros H Hl ->.
  destruct (sc_listen cfg) as [a|], (sc_fallback_listen cfg) as [b|], (sc_http_listen cfg) as [d|]; cbn in *; try discriminate H;
    repeat (destruct (parse_socket _); cbn in Hl); discriminate Hl.
Qed.



End server.

(** ** The client *)

Section client.
Context {Host : HostOps} {Urls : UrlOps}.

(** [socks5::run] and [http_proxy::run]: the error that ended the accept loop,
    [None] while it waits, and the connections handed to [handle]. *)
Fixpoint accept_loop {A} (accepts : list (result msg A)) : option msg * list A :=
  match accepts with
  | [] => (None, [])
  | Ok c :: t => let '(e, cs) := accept_loop t in (e, c :: cs)
  | Err e :: _ => (Some e, [])
  end.

Definition inbound_run {A} (bind : result msg unit) (accepts : list (result msg A)) : option msg * list A :=
  match bind with
  | Err e => (Some e, [])
  | Ok _ => accept_loop accepts
  end.

(** The inbound tasks and the health endpoint that run. *)
Record ClientLive := { cl_health : option SocketAddr; cl_socks : bool; cl_http : bool }.

(** What completes in the [select]: the signal, or the join of an inbound task
    ([None]: it panicked). *)
Inductive ClientWake :=
| ClientSignal
| SocksEnded (r : option (result msg unit))
| HttpEnded (r : option (result msg unit)).

(** The [??] on a joined task. *)
Definition joined (r : option (result msg unit)) : result msg unit :=
  match r with Some r => r | None => Err "task panicked"%string end.

(** [client::run]. An error returns early: the handles of the other tasks are
    dropped, which detaches them. *)
Definition client_run (cfg : ClientConfig) (wake : ClientWake) : result msg unit * ClientLive :=
  let idle := {| cl_health := None; cl_socks := false; cl_http := false |} in
  match outbound_build cfg with
  | Err e => (Err e, idle)
  | Ok _ =>
    match when (cc_health cfg) spawn_health nothing with
    | (Err e, _) => (Err e, idle)
    | (Ok _, l) =>
      let http := is_some (cc_http_bind cfg) in
      let r := match wake with ClientSignal => Ok tt | SocksEnded r | HttpEnded r => joined r end in
      match r with
      | Ok _ => (Ok tt, idle)
      | Err e => (Err e, {| cl_health := lv_health l;
                            cl_socks := match wake with SocksEnded _ => false | _ => true end;
                            cl_http := match wake with HttpEnded _ => false | _ => http end |})
      end
    end
  end.

(** What an inbound of this program can end its task with. *)
Definition ends_with {A} (bind : result msg unit) (accepts : list (result msg A)) (r : option (result msg unit)) : Prop :=
  r = None \/ exists e, r = Some (Err e) /\ (inbound_run bind accepts).1 = Some e.

(** The client returns [Ok] exactly when it started and was signalled, and then
    nothing of it runs; an inbound that ends, because its address cannot be
    bound or an accept fails, ends the client with that error. *)
Theorem client_run_exact {A B} cfg wake (sb : result msg unit) (sa : list (result msg A)) hb (ha : list (result msg B)) :
  match wake with ClientSignal => True | SocksEnded r => ends_with sb sa r | HttpEnded r => ends_with hb ha r end ->
  ((client_run cfg wake).1 = Ok tt <->
     wake = ClientSignal /\ is_ok (outbound_build cfg) = true /\ health_up (cc_health cfg) <> None)
  /\ ((client_run cfg wake).1 = Ok tt -> (client_run cfg wake).2 = {| cl_health := None; cl_socks := false; cl_http := false |}).
Proof.
  intros Hw. assert (He : forall r, (ends_with sb sa r \/ ends_with hb ha r) -> exists e, joined r = Err e).
  { by intros r [[->|(e & -> & _)]|[->|(e & -> & _)]]; eexists. }
  unfold client_run. destruct (outbound_build cfg) as [ob|e]; cbn [is_ok]; [|by split; [split; [|intros (_ & ? & _)]|]].
  assert (Hh : match when (cc_health cfg) spawn_health nothing with
    | (Ok _, _) => health_up (cc_health cfg) <> None | (Err _, _) => health_up (cc_health cfg) = None end).
  { destruct (cc_health cfg) as [a|]; [|done]. pose proof (spawn_health_spec a nothing) as H. cbn [when].
    destruct (spawn_health a nothing) as [[|] l]; [by destruct H as (s & -> & _)|by destruct H]. }
  destruct (when _ _ _) as [[[]|e] l]; [|by split; [split; [|intros (_ & _ & ?)]|]].
  destruct wake as [|r|r]; [by split; [split; auto|]| |]; destruct (He r) as [e ->]; auto;
    (split; [split; [done|intros (? & _); done]|done]).
Qed.

End client.

(** ** Warnings at start-up *)

(** [warn_listen_ip_ignored]. *)
Definition warn_listen_ip_ignored (addr : bytes) : bool :=
  match parse_socket addr with Some sa => negb (is_unspecified (sa_ip sa)) | None => false end.

(** [warn_open_inbound]. *)
Definition warn_open_inbound (addr : bytes) (has_auth : bool) : bool :=
  if has_auth then false
  else match parse_socket addr with Some sa => is_unspecified (sa_ip sa) | None => false end.

(** ** Values and witnesses *)

Module LifecycleWitness.

#[local] Instance host : HostOps := {|
  tcp_bind a := if sa_port a =? 9100 then Ok tt else Err "address in use"%string;
  load_pemfiles _ _ := Ok tt;
  generate_self_signed names := Ok (concat names, str "key");
  temp_dir := str "/tmp";
  create_dir_all _ := Ok tt;
  write_file _ _ := Ok tt;
|}.

Example gap : gap_hint (str "aborted: too many gaps in stream buffer") = true /\ gap_hint (str "timed out") = false.
Proof. by vm_compute. Qed.

(** The address of [--listen] does not restrict the WebTransport listener, and
    only a specific one is warned about. *)
Example listen_ip_dropped w c k :
  run_wt {| sa_ip := IpV4 [127; 0; 0; 1]; sa_port := 8443 |} w c k = run_wt {| sa_ip := IpV4 [0; 0; 0; 0]; sa_port := 8443 |} w c k
  /\ warn_listen_ip_ignored (str "127.0.0.1:8443") = true /\ warn_listen_ip_ignored (str "[::]:8443") = false
  /\ warn_open_inbound (str "0.0.0.0:1080") false = true /\ warn_open_inbound (str "127.0.0.1:1080") false = false.
Proof. by vm_compute. Qed.

(** The signal a service manager stops the program with is not handled. *)
Example sigterm_default : on_signal SIGINT = Some Cancelled /\ on_signal SIGTERM = None.
Proof. done. Qed.

Definition survives (p : WtEnd * ServerState) : bool :=
  match p with
  | (WtEstablished e, st) =>
    bool_decide (es_conn e ∈ ss_conns (shutdown_sweep st)) && negb (conn_cancelled (shutdown_sweep st) (es_conn e))
  | _ => false
  end.

(** A connection accepted while the drain waits is not stopped by the
    shutdown: it stays in the table, with a live token. *)
Example drain_admits : survives
  (wt_incoming WebWitness.times (cancel_all HandshakeWitness.server) ServerRunWitness.ip (Some ServerRunWitness.auth_header) true (Ok tt)
    [Ok HandshakeWitness.wire]) = true.
Proof. vm_compute; reflexivity. Qed.

Definition cli : Cli := {|
  cli_client := false; cli_server := true; cli_auth := [str "alice:secret"];
  cli_server_url := None; cli_url := None; cli_bind := str "127.0.0.1:1080"; cli_http_bind := None; cli_inbound_auth := None;
  cli_conns := 1; cli_skip_verify := false; cli_sni := None; cli_pin := None;
  cli_recv_window_mb := 2; cli_max_frame_kb := 64;
  cli_listen := Some (str "127.0.0.1:8443"); cli_cert := None; cli_key := None; cli_self_signed := true;
  cli_fallback_listen := Some (str "127.0.0.1:8444"); cli_http_listen := None; cli_acme_dir := None;
  cli_path := str "/api/ppp"; cli_max_sessions := 200; cli_rate_mbps := 100; cli_idle_secs := 60; cli_udp_dns_ttl := 3600;
  cli_allow_private_targets := false; cli_max_unauth := 128; cli_health := Some (str "127.0.0.1:9100"); cli_shutdown_grace := 10;
|}.
Definition taken : Wake := Joined (Some (Some (Err "address in use"%string))).


(** A user is connected when the signal comes. *)
Definition one_user (st : ServerState) : ServerState :=
  (wt_incoming WebWitness.times st ServerRunWitness.ip (Some ServerRunWitness.auth_header) true (Ok tt) [Ok HandshakeWitness.wire]).2.


Lemma client_run_exact_witness : exists cfg, (client_run (Urls := ClientBuildWitness.urls) cfg ClientSignal).1 = Ok tt.
Proof.
  exists ClientBuildWitness.cfg.
  apply (client_run_exact (Urls := ClientBuildWitness.urls) (A := unit) (B := unit)
    ClientBuildWitness.cfg ClientSignal (Ok tt) [] (Ok tt) []); [exact I|].
  split; [reflexivity|]. split; [vm_compute; reflexivity|discriminate].
Defined.

End LifecycleWitness.
