(* ===== verification/Entry.v ===== *)
(** * The entry point: [main.rs]

    The argument vector the program gives to [clap], the dispatch on its
    result, and how the configurations of the two roles meet: what a validated
    client and a validated server bring to the handshake. [clap]'s parser and
    the file system are parameters; logging and the runtime are left out. *)

From S2P Require Import Prelude Bytes Crypto Frame Net Limit State Config ServerAuth Handshake Web FallbackLink ClientBuild.

(** ** The argument vector *)

(** Indexing [argv_rest] from 1 panics on an empty vector. *)
Definition effective_argv (read : bytes -> option (result msg bytes)) (args : list bytes) : result msg (list bytes) :=
  let? (config_path, argv_rest) := extract_config_arg args in
  let? file := file_args read config_path in
  match argv_rest with
  | [] => Err "range start index 1 out of range for slice of length 0"
  | _ :: rest => Ok (str "newppp" :: strip_cli_overridden file rest ++ rest)
  end.

(** ** Dispatch *)

(** What the program goes on to do. *)
Inductive Action := AHealthcheck (url : bytes) | AServer (cfg : ServerConfig) | AClient (cfg : ClientConfig).

(** [parse] is [Cli::try_parse_from]: the options and the URL of the
    [healthcheck] subcommand. *)
Definition main_action (parse : list bytes -> result msg (Cli * option bytes)) (is_file : bytes -> bool)
  (read : bytes -> option (result msg bytes)) (args : list bytes) : result msg Action :=
  let? argv := effective_argv read args in
  let? (cli, command) := parse argv in
  match command with
  | Some url => Ok (AHealthcheck url)
  | None =>
    let? _ := validate cli in
    if cli_server cli then let? cfg := server_config is_file cli in Ok (AServer cfg)
    else let? cfg := client_config cli in Ok (AClient cfg)
  end.

(** ** Lemmas: the argument vector *)

(** The text of the file the arguments come from, if any. *)
Definition chosen_text (read : bytes -> option (result msg bytes)) (path : option bytes) : option (result msg bytes) :=
  read (default (str "newppp.conf") path).

Definition config_token (a : bytes) : bool := bool_decide (a = str "--config") || starts_with (str "--config=") a.

Lemma extract_from_spec args : forall c c' rest, extract_from c args = Ok (c', rest) ->
  Forall (fun a => config_token a = false) rest /\ rest `sublist_of` args.
Proof.
  induction args as [args IH] using (induction_ltof1 _ (@length bytes)); unfold ltof in IH.
  intros c c' rest H. destruct args as [|a t]; cbn [extract_from] in H; [simplify_eq; split; constructor|].
  destruct (bool_decide (a = str "--config")) eqn:Ea.
  { destruct t as [|v t]; [done|]. destruct (is_some c); [done|].
    apply IH in H as [? ?]; [|cbn; lia]. split; [done|by repeat constructor]. }
  destruct (strip_prefix (str "--config=") a) as [v|] eqn:Es.
  { destruct (is_some c); [done|]. apply IH in H as [? ?]; [|cbn; lia]. split; [done|by constructor]. }
  apply rbind_ok in H as ([c1 kept] & H & H1); injection H1 as <- <-.
  apply IH in H as [? ?]; [|cbn; lia]. split; [|by constructor]. constructor; [|done].
  unfold config_token, starts_with. by rewrite Ea, Es.
Qed.

(** How often an option stands in a list of arguments, and its key in a list of
    settings. *)
Definition occurs (k : bytes) (argv : list bytes) : nat := length (List.filter (fun t => bool_decide (t = dashdash k)) argv).
Definition set_times (k : bytes) (items : list Item) : nat := length (List.filter (item_has k) items).

Lemma occurs_render k items : Forall item_ok items -> occurs k (render items) = set_times k items.
Proof.
  unfold occurs, set_times; induction 1 as [|i items Hi Hit IH]; [done|].
  unfold render in *; cbn [flat_map List.filter]. rewrite List.filter_app, length_app, IH.
  destruct i as [k' v|[]]; cbn [render1 item_has]; [|done..].
  assert (Hv : match v with Some v => bool_decide (v = dashdash k) = false | None => True end).
  { destruct v as [v|]; [|done]. apply bool_decide_eq_false; intros ->. by destruct Hi. }
  destruct (bool_decide_reflect (k' = k)) as [->|Hne]; destruct v as [v|]; cbn [List.filter];
    rewrite ?Hv; rewrite ?bool_decide_true by done; try done;
    rewrite bool_decide_false by (intros E; by apply dashdash_inj in E); cbn; done.
Qed.

Lemma set_times_filter k f items : (set_times k (List.filter f items) <= set_times k items)%nat.
Proof.
  unfold set_times; induction items as [|i items IH]; [done|]; cbn [List.filter].
  destruct (f i); cbn [List.filter]; destruct (item_has k i); cbn [length]; lia.
Qed.

Lemma apply_settings_once k kvs : opt_kind k <> Some Append -> forall items,
  (set_times k items <= 1)%nat -> (set_times k (apply_settings items kvs) <= 1)%nat.
Proof.
  intros Hk; induction kvs as [|[key v] kvs IH]; intros items Hi; [done|]. apply IH.
  unfold set_item, set_times; cbn [fst snd]. rewrite List.filter_app, length_app; cbn [List.filter].
  assert (Ht : item_has k (item_of key v) = true -> key = k).
  { unfold item_of. destruct (bool_decide (key = str "mode")); cbn; [done|]. by intros ?%bool_decide_eq_true. }
  destruct (item_has k (item_of key v)) eqn:Eh; cbn [length].
  - specialize (Ht eq_refl) as ->. rewrite (bool_decide_false (opt_kind k = Some Append)) by done.
    assert (Hz : set_times k (List.filter (fun i => negb (item_has k i)) items) = 0%nat); [|unfold set_times in Hz; lia].
    unfold set_times. rewrite filter_filter. clear. induction items as [|i items IH]; [done|]; cbn [List.filter].
    by destruct (item_has k i); cbn [negb andb].
  - destruct (bool_decide _); [unfold set_times in Hi; lia|].
    pose proof (set_times_filter k (fun i => negb (item_has key i)) items) as Hf. unfold set_times in *. lia.
Qed.

Lemma survives_none k rest items : k ∈ override_keys rest -> set_times k (List.filter (survives rest) items) = 0%nat.
Proof.
  intros Hin; unfold set_times; induction items as [|i items IH]; [done|]; cbn [List.filter].
  destruct (survives rest i) eqn:Es; [|done]. cbn [List.filter]. unfold survives in Es; bsimpl.
  match goal with H : forallb _ _ = true |- _ => rewrite forallb_forall in H; specialize (H k ltac:(by apply list_elem_of_In)) end.
  bsimpl. by match goal with H : item_has k i = false |- _ => rewrite H end.
Qed.

Lemma apply_settings_ok kvs : Forall (fun kv => item_ok (item_of kv.1 kv.2)) kvs ->
  forall items, Forall item_ok items -> Forall item_ok (apply_settings items kvs).
Proof. induction 1 as [|[k v] kvs Hk Hkv IH]; intros items Hi; [done|]. apply IH. by apply set_item_ok. Qed.

(** ** Properties *)


(** What runs is one role, and its configuration was validated for it. *)
Theorem main_one_role parse is_file read args act : main_action parse is_file read args = Ok act ->
  exists argv cli command, effective_argv read args = Ok argv /\ parse argv = Ok (cli, command)
  /\ match act with
     | AHealthcheck url => command = Some url
     | AServer cfg => command = None /\ cli_server cli = true /\ cli_client cli = false /\ cli_auth cli <> []
         /\ server_config is_file cli = Ok cfg /\ sc_users cfg <> []
     | AClient cfg => command = None /\ cli_server cli = false /\ cli_client cli = true
         /\ client_config cli = Ok cfg
     end.
Proof.
  unfold main_action; intros H. apply rbind_ok in H as (argv & Ha & H). apply rbind_ok in H as ([cli command] & Hp & H).
  exists argv, cli, command. split; [done|]. split; [done|].
  destruct command as [url|]; [by injection H as <-|]. apply rbind_ok in H as (u & Hv & H).
  unfold validate in Hv. destruct (Bool.eqb (cli_client cli) (cli_server cli)) eqn:Eq; [done|].
  apply ensure_ok in Hv. bsimpl.
  destruct (cli_server cli) eqn:Es, (cli_client cli) eqn:Ec; try done; apply rbind_ok in H as (cfg & Hcfg & H); injection H as <-.
  - split_and!; try done. apply server_config_sound in Hcfg as (_ & Hl & _). intros E; rewrite E in Hl; by destruct (cli_auth cli).
  - by split_and!.
Qed.

(** ** The two configurations *)

(** The credential the client presents (its first [--auth]) is one the server
    was given. *)
Definition shares (ccli scli : Cli) : Prop := exists a, head (cli_auth ccli) = Some a /\ a ∈ cli_auth scli.

Section meet.
Context {P : Prims} {L : PrimsLaws P}.

Lemma foldl_keys (l : list (bytes * bytes)) uid pw : (forall p, (uid, p) ∈ l -> p = pw) ->
  forall m : gmap bytes bytes, ((uid, pw) ∈ l \/ m !! uid = Some (derive_static_key pw uid)) ->
  foldl (fun m '(u, p) => <[u := derive_static_key p u]> m) m l !! uid = Some (derive_static_key pw uid).
Proof.
  induction l as [|[u p] l IH]; intros Hu m Hin; cbn [foldl].
  - destruct Hin as [Hin|]; [by apply elem_of_nil in Hin|done].
  - apply IH; [intros q Hq; apply Hu; by right|]. destruct (decide (u = uid)) as [->|Hne].
    + right. rewrite (Hu p ltac:(by left)). by rewrite lookup_insert_eq.
    + destruct Hin as [Hin|Hm]; [|right; by rewrite lookup_insert_ne].
      apply elem_of_cons in Hin as [Hin|Hin]; [by simplify_eq|by left].
Qed.

Lemma parse_users_elem l us a up : parse_users l = Ok us -> a ∈ l -> parse_auth a = Ok up -> up ∈ us.
Proof.
  revert us; induction l as [|b l IH]; intros us H Hin Ha; [by apply elem_of_nil in Hin|]. cbn [parse_users] in H.
  apply rbind_ok in H as (u & Hb & H). apply rbind_ok in H as (us' & Hl & H). injection H as <-.
  apply elem_of_cons in Hin as [->|Hin]; [|right; by eapply IH]. rewrite Hb in Ha; injection Ha as ->. by left.
Qed.

Lemma uid_ok_ascii uid : uid_ok uid -> utf8_valid uid = true.
Proof.
  intros (_ & _ & Hf). apply utf8_ascii. eapply Forall_impl; [exact Hf|]. intros c Hc.
  unfold uid_char, is_alnum, is_digit, is_upper, is_lower, in_rng, c_underscore, c_minus in Hc.
  destruct (Z.leb_spec c 127); [done|]. exfalso. apply orb_true_iff in Hc as [Hc|Hc]; [|bsimpl; lia].
  repeat (apply orb_true_iff in Hc as [Hc|Hc]); bsimpl; lia.
Qed.


End meet.

(** ** Witnesses *)

Module EntryWitness.

Definition conf : bytes := str "server = https://proxy.example/" ++ [10] ++ str "auth = alice:secret" ++ [10] ++ str "conns = 2".
Definition read (p : bytes) : option (result msg bytes) := if bool_decide (p = str "c.conf") then Some (Ok conf) else None.
Definition args : list bytes := [str "/usr/bin/newppp"; str "-c"; str "--config"; str "c.conf"; str "--conns"; str "4"].


Definition server_cli : Cli := {|
  cli_client := false; cli_server := true; cli_auth := [str "bob:pw"; str "alice:secret"];
  cli_server_url := None; cli_url := None; cli_bind := str "127.0.0.1:1080"; cli_http_bind := None; cli_inbound_auth := None;
  cli_conns := 1; cli_skip_verify := false; cli_sni := None; cli_pin := None;
  cli_recv_window_mb := 2; cli_max_frame_kb := 64;
  cli_listen := Some (str "0.0.0.0:443"); cli_cert := None; cli_key := None; cli_self_signed := true;
  cli_fallback_listen := Some (str "0.0.0.0:443"); cli_http_listen := None; cli_acme_dir := None;
  cli_path := str "/api/ppp"; cli_max_sessions := 200; cli_rate_mbps := 100; cli_idle_secs := 60; cli_udp_dns_ttl := 3600;
  cli_allow_private_targets := false; cli_max_unauth := 128; cli_health := None; cli_shutdown_grace := 10;
|}.
Definition server_cfg : ServerConfig := Eval vm_compute in
  match server_config (fun _ => false) server_cli with Ok c => c | Err _ => {|
    sc_listen := None; sc_cert := CertSelfSigned; sc_fallback_listen := None; sc_http_listen := None; sc_acme_dir := None;
    sc_path := []; sc_users := []; sc_max_sessions := 0; sc_rate_mbps := 0; sc_idle_secs := 0;
    sc_allow_private_targets := false; sc_max_unauth := 0; sc_recv_window := 0; sc_shutdown_grace := 0; sc_health := None;
    sc_max_plaintext := 0; sc_udp_dns_ttl := 0 |} end.

Lemma main_one_role_witness : exists cli command, cli_server cli = true /\ command = @None bytes /\
  main_action (fun _ => Ok (server_cli, None)) (fun _ => false) (fun _ => None) [str "newppp"; str "-s"] = Ok (AServer server_cfg).
Proof.
  assert (E : main_action (fun _ => Ok (server_cli, None)) (fun _ => false) (fun _ => None) [str "newppp"; str "-s"]
              = Ok (AServer server_cfg)) by (vm_compute; reflexivity).
  destruct (main_one_role _ _ _ _ _ E) as (argv & cli & command & _ & _ & Hc & Hs & _).
  exists cli, command. split; [exact Hs|]. split; [exact Hc|exact E].
Defined.

(** The toy checksum tells the two keys of the witness apart only by tag, so
    the separation of keys is taken for the one-user server. *)
Definition solo : Cli := {|
  cli_client := false; cli_server := true; cli_auth := [str "alice:secret"];
  cli_server_url := None; cli_url := None; cli_bind := str "127.0.0.1:1080"; cli_http_bind := None; cli_inbound_auth := None;
  cli_conns := 1; cli_skip_verify := false; cli_sni := None; cli_pin := None;
  cli_recv_window_mb := 2; cli_max_frame_kb := 64;
  cli_listen := Some (str "0.0.0.0:443"); cli_cert := None; cli_key := None; cli_self_signed := true;
  cli_fallback_listen := None; cli_http_listen := None; cli_acme_dir := None;
  cli_path := str "/api/ppp"; cli_max_sessions := 200; cli_rate_mbps := 100; cli_idle_secs := 60; cli_udp_dns_ttl := 3600;
  cli_allow_private_targets := false; cli_max_unauth := 128; cli_health := None; cli_shutdown_grace := 10;
|}.
Definition solo_cfg : ServerConfig := Eval vm_compute in
  match server_config (fun _ => false) solo with Ok c => c | Err _ => server_cfg end.


End EntryWitness.
